(* ===== verification/_CoqProject ===== *)
-Q . S2P
Prelude.v
RustStr.v
Catalog.v
Resolver.v
Env.v
Sched.v
Concurrent.v
Json.v
JsonText.v
JsonValid.v
JsonEquiv.v
Base.v
Wire.v
Chat.v
Shared.v
TurnGuard.v
Runtime.v
Memory.v
Service.v
Scm.v
Main.v
Tests.v
