(* ===== verification/Prelude.v ===== *)
(** * nanobot-rs: a verification development

    The program is the provider layer of a personal AI-assistant runtime
    written in Rust.  Its core ([src/src/providers/litellm.rs]) decides
    which backend a logical model identifier belongs to, rewrites the
    identifier for that backend, publishes credentials into the process
    environment, invokes the remote completion with one fallback retry
    and normalises the reply.  Around it sit the provider trait
    ([src/src/providers/base.rs]), a classifier guard
    ([src/src/agent/turn_guard.rs]), a markdown memory store
    ([src/src/memory.rs]), a Windows service wrapper
    ([src/src/service/]) and the command line ([src/src/main.rs]).

    ** Files, in dependency order

    - [Prelude] (this file): machine numbers, the result type with its
      bind notation (scope [nb_scope]), the tactics and hint databases
      of the development, and the lemmas on [find], [existsb] and
      options that the components share.
    - [RustStr]: the methods of Rust's [str] that the sources call
      ([starts_with], [contains], [to_lowercase], [rsplit], [replace],
      [trim], [lines], [split], [split_once], [split_whitespace],
      [join]) as
      structural fixpoints on [string], with their algebra (splitting
      at a pattern and joining with a text is [replace]).
    - [Catalog]: the records [ProviderSpec], [ModelOverride] and
      [EnvExtra], the table [PROVIDERS] with its twelve descriptors,
      and the lookups [find_by_name], [find_by_model] and
      [find_gateway].  The lookups take the table as a parameter; the
      class [CatalogWF] states what the other components need of a
      table (unique names, prefix discipline, keywords without a
      slash) and is discharged for [PROVIDERS] by computation.
    - [Resolver]: the provider value [LiteLLMProvider] and its pure
      methods [resolve_model], [apply_model_overrides] and
      [effective_api_base].  Theorems: idempotence of resolution
      (against [CatalogWF]), the last path segment is kept, the
      override that fires is the first matching rule of the vendor
      descriptor, the temperature stays a valid [f32], the precedence
      of the base URLs.
    - [Env]: the process environment as a finite map threaded through
      [set_env_var], [setup_env] and the constructor [new].  Theorems:
      vendors never overwrite, a gateway always overwrites its own
      credential and nothing else, provisioning is idempotent,
      construction returns on inputs without a NUL character.
    - [Sched]: threads that take turns on a shared state, for any
      state and any thread with an atomic step: [Step] is one step of
      one thread of a pool, [interleave] follows a schedule, [alone]
      is a thread with nothing else running.  Lemmas: the reachable
      pools are those the schedules give, invariants of all that is
      reachable, for the pool and thread by thread
      ([reachable_threads]), the bound on the steps by a measure,
      and a pool without a step has ended.
    - [Concurrent]: constructions that run in several threads over
      one environment, as pools of [Sched].  [setup_env] is the list
      [calls] of its calls of [set_env_var]; a thread is the calls it
      has left and the place it is at in the current one, before the
      test of the environment or between the test and the write.
      Theorems: a thread alone is [setup_env]; every interleaving
      ends; under every interleaving of constructions without
      gateway the entries set before the start are kept, and the
      names no call has are untouched; constructions that publish
      under different names do not see each other
      ([interleaving_isolated]), and every interleaving of two of
      them that ends without a panic ends where [setup_env] for the
      one and then for the other does, in either order
      ([constructions_commute]).  Examples: a write that replaces an
      entry although it does not overwrite, and the credentials of
      two providers mixed in one environment.
    - [Json]: [serde_json::Value] and [Map] with the accessors the
      sources call, the class [SerdeJson] of a parser and a
      printer, and the induction principle [Value_ind_deep] for
      values nested in arrays and objects.
    - [JsonText]: the text of JSON as serde_json prints and reads it:
      the compact printer [Text.to_string] and the recursive-descent
      reader [Text.from_str], which make the instance [Text.serde] of
      [SerdeJson].  Theorem: what is printed is read back
      ([Text.from_str_to_string]).
    - [JsonValid]: the values the reader returns.  [parsed] is rule
      induction on the reader: what holds of every number it reads,
      and of an array and of a collected object when it holds of
      their parts, holds of every value read.  Theorems: every value
      read is well formed, whatever the text (an unsigned integer
      fits 64 bits, a negative one fits [i64], no object holds a key
      twice, the nesting is below the recursion limit), and reading
      is stable: the text of a value that was read is read back as
      that value ([from_str_wellformed], [from_str_stable]).
    - [JsonEquiv]: values up to the order of their keys.  [v ≡ w] is
      the equality of Rust on values, objects compared key by key; it
      is an equivalence, and the accessors of [Json] are morphisms
      ([Proper]) of it.  [sort_all_objects] sorts the members of every
      object by key, as a [BTreeMap] holds them, and is a normal form
      for [≡].  [serde_of] is the reader and the printer of either
      build of serde_json, maps sorted by key or in the order of
      insertion; both read well-formed values, read back what they
      print, and read equivalent values from every text
      ([builds_agree]).
    - [Base]: [ToolCallRequest], [LLMResponse] and the trait
      [LLMProvider] as a class over the state of the outside; the
      type [Async] of computations on the outside, and the predicate
      [Preserves R] of the computations that respect a preorder [R],
      with one rule for each way of composing computations.
    - [Wire]: the message types of the completion library,
      [convert_message] and [content_to_text]; the library's
      deserialisers are the class [LiteLLM].  Messages are compared
      up to the order of the members of the JSON they carry; a
      backend is [Lawful] when its deserialisers are morphisms, and
      then [convert_message] is one
      ([convert_message_order_blind]).
    - [Chat]: [LiteLLMProvider::chat].  The remote endpoint is a
      function of the history of requests; [chat] is a state-passing
      function on that history.  Theorems: the fallback request is made
      if and only if the primary one failed and the name was rewritten,
      [chat] fails only when every request failed and then reports
      both failures, every request of a call carries the same messages
      and options, tools are attached in both forms, unparseable
      tool-call arguments are kept under [raw] and printed ones are
      recovered, every text that is not an object has the arguments
      of another text ([parse_arguments_collision]), a reply without
      choices gives the empty response, [chat] succeeds exactly when
      the endpoint answers one of its requests ([chat_Ok]).  With the
      reader of either build of serde_json: the arguments of every
      tool call [chat] returns are well formed
      ([chat_arguments_wellformed]), and arguments that are printed
      and parsed again are the same arguments
      ([parse_arguments_stable]).
    - [Shared]: calls of [chat] on one provider that are in progress
      at the same time, as pools of [Sched] over the
      history of the endpoint.  A [Task] is a call by the [await] it
      is suspended at; [poll] makes the request and runs the call to
      the next [await].  Theorems: a task alone is [chat]; a call
      makes two requests at most whatever else is in progress
      ([shared_requests]); over an endpoint that does not regard its
      history, every call returns what [chat] returns to its caller
      alone, however the calls interleave ([shared_chat]).  Example:
      an endpoint that regards its history, and a caller whose
      response depends on the schedule.
    - [TurnGuard]: the guard of [turn_guard.rs] over any [LLMProvider]:
      the brace scanner of [extract_json_object] and the retry
      decision.  The scanner's inner loop is specified by the automaton
      [Closes], an inductive relation with one rule per transition,
      and [scan] is proved to implement it; [scan_with] is the loop
      without its test of a closing brace at depth zero, and the two
      agree on every text the outer loop scans.  Further theorems:
      what is extracted is an object parsed from a delimited piece of
      the text, an embedded object is found, the guard answers [true]
      only on the classifier's word, declines without a call when it
      must, and makes one call otherwise.  Against the printer of
      [JsonText]: the scanner reads over every printed value
      ([Passes]), so an object printed into any text that has no
      opening brace before it is extracted
      ([extract_json_object_printed]), and the guard answers what
      the printed verdict of the classifier says
      ([should_retry_follows_printed]).  Against [JsonEquiv]: with
      parsers that read equivalent values the guard decides the same
      ([should_retry_order_blind]), so its decision does not depend
      on the build of serde_json.
    - [Runtime]: the guard over the invocation client: what a question
      of the guard sends to the remote endpoint ([guard_requests]),
      and, from the reply of the endpoint to the answer of the guard,
      that a verdict printed into the text of the first choice is
      the answer ([runtime_guard_follows], through [Chat.chat_Ok],
      the normalisation, the scanner and the reader of [JsonText]).
    - [Memory]: the store of [memory.rs] over a file system and a
      clock.  Theorems: a note appended is read back after what the
      file held, a file that cannot be read as text is replaced, the
      context is empty exactly when both memories are.
    - [Service]: the operations of [service/windows.rs] over the
      history of events caused in the operating system, and the
      dispatch of [service/mod.rs].  Theorems: the first line holding
      [STATE] decides the state, [nssm start] runs exactly when the
      three checks passed, a restart stops the service exactly when
      its state reads [RUNNING], nothing is installed without
      elevation, removing an absent service runs no [nssm remove].
      Time is the sum [paused] of the pauses of a history.  The
      commands that never sleep are proved once to respect every
      preorder of the class [Calm], of which [quiet] (the same
      pauses) and [prefix] (the history only grows) are instances;
      [Pauses] bounds the pauses of a computation, [Adds] and [Ends]
      say what a computation that succeeded has added to the history.
      Theorems on time and order: [install_service] pauses for at
      most 6300 ms, [wait_for_service] finds a service exactly when
      it appears at one of its questions, an installation that
      succeeded ends with the settings of the service in their order.
    - [Scm]: one operating system for [Service], a reference model
      of the programs the wrapper runs.  Its [Machine] holds whether
      the terminal is elevated, whether [nssm] is there, and the
      services, each stopped or running with its settings; [exec]
      answers a run of [net], [where], [sc] or [nssm] as the machine
      after the history does.  The specification [spec] is a state
      machine on the services with the operations [Op].  [Does P c f]
      says that the computation [c] succeeds exactly when the
      function [f] of the machine does and leaves the machine [f]
      gives; its rules follow the shape of the code ([Does_try],
      [Does_bind], [Does_if]) and the tactic [does] applies them.
      Theorems: each of [start_service], [stop_service],
      [remove_service], [restart_service] and [install_service]
      refines its operation of the specification, and so does every
      session of operations from every history ([session_refines]), a
      simulation extended from one step to sequences.  The theorems
      on [restart_service] are those of a service whose name is
      [good]; for a name that holds [STATE] the restart of a running
      service fails ([restart_service_misreads]).
    - [Main]: the command line of [main.rs] over the file system of
      [Memory], the lines printed and the turns asked of the agent
      loop; the configuration, the utilities and the agent loop are
      the class [Crate] with the laws [CrateLaws].  The predicate
      [Keeps] (a computation leaves every entry of the file system in
      place) is [Preserves] of a preorder.  Theorems:
      [cmd_onboard] overwrites nothing and is done once, the workspace
      it fills is one [MemoryStore::new] opens, [cmd_agent] asks
      nothing without a key, the interactive loop equals the
      reference [dialogue] over the lines that are not blank.
    - [Tests]: the seven unit tests of the repository as booleans,
      each proved to pass on the model.

    ** Modelling conventions

    - A Rust [String]/[&str] is a Rocq [string]: the sequence of its
      UTF-8 bytes.  Every pattern the sources search for
      (["/"], the provider keywords, ["{api_key}"], the braces and the
      quote of the scanner) is ASCII, and no byte of a multi-byte UTF-8
      character is ASCII, so searching bytes finds exactly the matches
      that searching characters finds.
    - [str::to_lowercase] is modelled on ASCII letters only and
      [str::trim] on ASCII white space only; inputs whose non-ASCII
      characters case-fold into ASCII or count as white space are
      outside the model.
    - [Option<T>] is [option T]; [Result<T, E>] is [Result T E];
      a panic of a library call is [None] of an [option]; an
      [anyhow::Error] is the text it displays.
    - [u32] values are [N] (no arithmetic is performed on them);
      [f32] values are [SpecFloat.spec_float] at precision 24.
    - A [&'static [T]] table is a [list T], searched in order; a
      [HashMap] is a [gmap]; a [serde_json::Map] is an association
      list with unique keys, in the order of insertion.  The sources
      do not say whether serde_json is built with maps in that order
      or sorted by key: [JsonEquiv] relates the two, and the code
      that reads JSON is shown not to depend on the order.
    - A struct whose field names clash with another's is a module
      holding a record [t] ([LLMResponse.t], [Message.t]), so that
      fields keep the names of the source.
    - State is explicit.  The process environment is a value of type
      [Env]; the remote endpoint is the list of the requests made so
      far together with a function from that history and a request to
      a reply; the file system is a map from paths to what they hold
      and the clock a counter of readings; the operating system is the
      list of the events caused so far.  A function that acts on the
      outside is a function from its state to a result and the next
      state ([Base.Async]), with [let!] for sequencing and [let!?] for
      Rust's [?].
    - Code that is not in the repository is an interface: the typed
      deserialisers of serde and the opaque types of litellm-rs are
      class members ([Json.SerdeJson], [Wire.LiteLLMTypes],
      [Wire.LiteLLM]), the remote endpoint, the write policy, the
      clock and the answers of the operating system are section
      variables, the modules of the crate that [main.rs] calls are
      the class [Main.Crate].
      The theorems hold for every instance.  The reader and the
      printer of JSON are modelled in full in [JsonText], from the
      behaviour of serde_json, up to the shortest decimal form of a
      float, the class [Text.Ryu]; the instances
      [JsonText.Sample.serde] (with a printer of exact decimals),
      [Wire.Stub.backend] and [Main.Demo.crate] run the definitions
      on concrete inputs.
    - Threads are lists of accesses to the shared state, a call of
      an [async fn] is the [await] it is suspended at, and a
      schedule is the list of the threads that step; an access is
      atomic.

    ** Bounds and fuel

    Every function of the sources is modelled by structural recursion
    on a string, a list or a number of retries, without fuel, and is
    total.  The reader of JSON, which is not of the sources, takes
    fuel: [Text.from_str] gives [Text.parse_value] one more than the
    length of the text, and a value is read back with fuel equal to
    the length of its text ([Text.Reads]), every call reading a
    character at least; the depth of 128 is the recursion limit of
    serde_json, part of its behaviour ([Text.from_str_to_string] is
    stated below it, and every value read nests below it:
    [JsonValid.from_str_wellformed]).  Integers keep their widths:
    an unsigned integer that is read is at most [2^64 - 1], a
    negative one at least [- 2^63], and a longer run of digits is
    read as a float.  [Text.itoa] takes the binary logarithm of the
    number as fuel, one digit being three bits at least.  A thread
    makes two steps for each call it has left
    ([Concurrent.interleaving_ends]).  [chat] makes at most two
    requests, alone ([Chat.chat_requests_payload]) and with other
    calls in progress ([Shared.shared_requests]: a task is polled
    twice at most); the scanner reads each suffix of
    the text once per opening brace; [wait_for_service] takes the
    number of retries of the source (25 and 10) as a [nat] and asks at
    most that often ([Service.wait_for_service_trace]), which bounds
    the pauses of an installation by 6300 ms
    ([Service.install_service_pauses]).  Standard input is the finite
    list of the lines read before its end: an interactive session
    that is never ended is outside the model.

    ** Not modelled

    - The argument parser ([Cli::parse], generated by clap): [main]
      starts from the parsed command.
    - The modules of the crate that are not among the sources
      (configuration, utilities, message bus, OpenAI provider, agent
      loop): they are the members of [Main.Crate]; what a turn of the
      agent loop does to the file system is not modelled.
    - The wire protocol of the completion library, the typed
      deserialisers of serde ([serde_json::from_value]) and the
      programs [nssm], [sc], [net], [where] and [winget]: they are
      the parameters and class members named above.  The machine of
      [Scm] is one instance of the programs, not a model of Windows:
      it has no [winget], a service it installs is seen at the first
      question, one it removes is gone at once, and [nssm start] of a
      running service fails.  Of the text of
      JSON, the shortest decimal form of a float is a class member,
      and that a text is valid UTF-8 is not checked.
    - Rust's memory model, the executor of the futures and the
      cancellation of a call.  Threads are modelled for the process
      environment ([Concurrent]) and calls in progress for the
      remote endpoint ([Shared]); an access to the environment is
      atomic, and a reply is delivered with its request.  What a
      data race on the environment does to memory, and two processes
      writing the same memory file, are outside the model.
*)

From Stdlib Require Export Ascii String List Bool Lia ZArith SpecFloat.
From stdpp Require Export base option list strings gmap.

(** ** Machine numbers *)

(** An [f32] is an IEEE 754 binary32 value: a [spec_float] that is valid
    at precision 24 and maximal exponent 128. *)
Definition f32 : Type := spec_float.

Definition f32_valid (x : f32) : bool := valid_binary 24 128 x.

#[export] Instance f32_eq_dec : EqDecision f32.
Proof. unfold f32. solve_decision. Defined.

(** A [u32] is a natural number below [2^32]. *)
Definition u32 : Type := N.

Definition u32_valid (n : u32) : bool := (n <? 2 ^ 32)%N.

(** ** The result type *)

Inductive Result (T E : Type) : Type :=
| Ok (t : T)
| Err (e : E).

Arguments Ok {T E} t.
Arguments Err {T E} e.

Definition is_ok {T E} (r : Result T E) : bool :=
  match r with Ok _ => true | Err _ => false end.

Definition is_err {T E} (r : Result T E) : bool :=
  match r with Ok _ => false | Err _ => true end.

Definition result_bind {T U E} (r : Result T E) (k : T -> Result U E) : Result U E :=
  match r with Ok t => k t | Err e => Err e end.

Definition map_err {T E F} (f : E -> F) (r : Result T E) : Result T F :=
  match r with Ok t => Ok t | Err e => Err (f e) end.

Definition result_ok {T E} (r : Result T E) : option T :=
  match r with Ok t => Some t | Err _ => None end.

Declare Scope nb_scope.
Delimit Scope nb_scope with nb.

(** [let? x := e in k] is Rust's [let x = e?; k]. *)
Notation "'let?' x ':=' e 'in' k" := (result_bind e (fun x => k))
  (at level 10, x pattern, e at level 100, k at level 200) : nb_scope.

(** [is_some_and o f] is [Option::is_some_and]. *)
Definition is_some_and {A} (o : option A) (f : A -> bool) : bool :=
  match o with Some a => f a | None => false end.

(** [or_else o k] is [Option::or_else] (the alternative is computed
    only when needed; here it is a value, evaluation being pure). *)
Definition or_else {A} (o alt : option A) : option A :=
  match o with Some a => Some a | None => alt end.

(** [Option::is_some] *)
Definition is_some {A} (o : option A) : bool :=
  match o with Some _ => true | None => false end.

(** A computation that returns is the [Some] of its default-extracted
    value; used to name the result of a run without evaluating it. *)
Lemma Some_default {A} (d : A) (o : option A) :
  is_some o = true -> o = Some (default d o).
Proof. by destruct o. Qed.

Lemma string_eqb_decide (s t : string) : String.eqb s t = bool_decide (s = t).
Proof.
  destruct (String.eqb_spec s t);
    [by rewrite bool_decide_eq_true_2|by rewrite bool_decide_eq_false_2].
Qed.

(** What is left of an extended list after a drop is left of the list
    or belongs to the extension. *)
Lemma elem_of_drop_app {A} (l l' ext : list A) (x : A) :
  x ∈ drop (List.length l) (l' ++ ext) ->
  x ∈ drop (List.length l) l' \/ x ∈ ext.
Proof.
  rewrite drop_app, elem_of_app. intros [?|Hin]; [by left|right].
  eapply elem_of_sublist; [done|apply sublist_drop].
Qed.

Lemma is_some_is_Some {A} (o : option A) : is_some o = true <-> is_Some o.
Proof. destruct o; simpl; split; try done; by intros [? ?]. Qed.

(** ** Hint databases and tactics *)

Create HintDb nb discriminated.
Create Rewrite HintDb nb_rw.

(** Turn boolean connectives in hypotheses and goal into propositions. *)
Ltac bool_prop :=
  repeat match goal with
  | H : _ && _ = true |- _ => apply andb_true_iff in H; destruct H
  | H : _ || _ = false |- _ => apply orb_false_iff in H; destruct H
  | H : negb _ = true |- _ => apply negb_true_iff in H
  | H : negb _ = false |- _ => apply negb_false_iff in H
  | H : is_true _ |- _ => unfold is_true in H
  | |- _ && _ = true => apply andb_true_iff; split
  | |- _ || _ = false => apply orb_false_iff; split
  | |- negb _ = true => apply negb_true_iff
  | |- negb _ = false => apply negb_false_iff
  end.

(** Case on the scrutinee of the first [if] or [match] of the goal,
    keeping the equation. *)
Ltac case_scrut :=
  match goal with
  | |- context [if ?b then _ else _] => destruct b eqn:?
  | |- context [match ?x with _ => _ end] => destruct x eqn:?
  end.

(** ** Lemmas on [Result] *)

Lemma is_ok_iff {T E} (r : Result T E) : is_ok r = true <-> exists t, r = Ok t.
Proof. destruct r; simpl; split; try done; eauto; by intros [? ?]. Qed.

Lemma is_err_iff {T E} (r : Result T E) : is_err r = true <-> exists e, r = Err e.
Proof. destruct r; simpl; split; try done; eauto; by intros [? ?]. Qed.

Lemma is_err_negb_ok {T E} (r : Result T E) : is_err r = negb (is_ok r).
Proof. by destruct r. Qed.

Lemma result_bind_ok {T U E} (r : Result T E) (k : T -> Result U E) u :
  result_bind r k = Ok u <-> exists t, r = Ok t /\ k t = Ok u.
Proof.
  destruct r; simpl; split; eauto.
  - by intros (? & [= ->] & ?).
  - congruence.
  - by intros (? & ? & ?).
Qed.

(** ** Lemmas on [find]: the first match of an ordered table *)

Section Find.
Context {A : Type}.
Implicit Types (f g : A -> bool) (l : list A).

(** A successful [find] splits the table at the first match. *)
Lemma find_split f l x :
  find f l = Some x ->
  exists l1 l2, l = l1 ++ x :: l2 /\ f x = true /\ Forall (fun y => f y = false) l1.
Proof.
  induction l as [|a l IH]; simpl; [done|].
  destruct (f a) eqn:Ha.
  - intros [= ->]. by exists [], l.
  - intros (l1 & l2 & -> & Hx & Hl1)%IH.
    exists (a :: l1), l2. by repeat split; [|constructor].
Qed.

(** Conversely, the first element that passes the test is found. *)
Lemma find_first g l1 x l2 :
  Forall (fun y => g y = false) l1 -> g x = true ->
  find g (l1 ++ x :: l2) = Some x.
Proof.
  induction 1 as [|y l1 Hy _ IH]; simpl; intros Hx.
  - by rewrite Hx.
  - rewrite Hy. by apply IH.
Qed.

Lemma find_none_iff f l : find f l = None <-> Forall (fun y => f y = false) l.
Proof.
  induction l as [|a l IH]; simpl; [by split; [constructor|]|].
  destruct (f a) eqn:Ha; split.
  - done.
  - intros [? _]%Forall_cons. congruence.
  - intros ?%IH. by constructor.
  - intros [_ ?]%Forall_cons. by apply IH.
Qed.

(** Two tests that agree on the table find the same element. *)
Lemma find_ext_in f g l :
  Forall (fun y => f y = g y) l -> find f l = find g l.
Proof.
  induction 1 as [|y l Hy _ IH]; simpl; [done|]. by rewrite Hy, IH.
Qed.

Lemma find_some_in f l x : find f l = Some x -> In x l /\ f x = true.
Proof. apply find_some. Qed.

End Find.

Lemma existsb_Exists {A} (f : A -> bool) l :
  existsb f l = true <-> Exists (fun x => f x = true) l.
Proof.
  by rewrite existsb_exists, List.Exists_exists.
Qed.

Lemma existsb_false_Forall {A} (f : A -> bool) l :
  existsb f l = false <-> Forall (fun x => f x = false) l.
Proof.
  induction l as [|a l IH]; simpl; [by split; [constructor|]|].
  rewrite orb_false_iff, IH, Forall_cons. done.
Qed.

Lemma forallb_Forall {A} (f : A -> bool) l :
  forallb f l = true <-> Forall (fun x => f x = true) l.
Proof. by rewrite forallb_forall, List.Forall_forall. Qed.

#[export] Hint Resolve find_first : nb.
