(* ===== verification/RustStr.v ===== *)
(** * RustStr: the [str] methods the sources call

    Each function models one method of Rust's [str] on the byte
    sequence of the string, by structural recursion, so that it
    evaluates on literals.  The lemmas give the algebra the components
    rely on: a string starts with the prefix it was built from, a
    pattern without the separator occurs in [a ++ sep ++ b] exactly when
    it occurs in [a] or in [b], ASCII case folding distributes over
    append, [rsplit] on a separator returns a separator-free tail, a
    text trims to nothing exactly when it is blank, the tokens of
    [split_whitespace] are not empty and hold no white space, and
    joining distributes over append. *)

From S2P Require Import Prelude.

Module Str.

(** [str::is_empty] *)
Definition is_empty (s : string) : bool :=
  match s with EmptyString => true | String _ _ => false end.

(** [s.starts_with(pat)] *)
Fixpoint starts_with (s pat : string) {struct pat} : bool :=
  match pat with
  | EmptyString => true
  | String p pat' =>
      match s with
      | EmptyString => false
      | String c s' => Ascii.eqb c p && starts_with s' pat'
      end
  end.

(** [s.contains(pat)] for a string pattern: some suffix of [s] starts
    with [pat]. *)
Fixpoint contains (s pat : string) : bool :=
  starts_with s pat ||
  match s with
  | EmptyString => false
  | String _ s' => contains s' pat
  end.

(** [s.contains(c)] for a character pattern. *)
Fixpoint contains_char (s : string) (c : ascii) : bool :=
  match s with
  | EmptyString => false
  | String a s' => Ascii.eqb a c || contains_char s' c
  end.

(** [char::to_ascii_lowercase] on one byte: ['A'..'Z'] move by 32. *)
Definition lower_ascii (c : ascii) : ascii :=
  let n := N_of_ascii c in
  if (65 <=? n)%N && (n <=? 90)%N then ascii_of_N (n + 32) else c.

(** [s.to_lowercase()], on ASCII letters. *)
Fixpoint to_lowercase (s : string) : string :=
  match s with
  | EmptyString => EmptyString
  | String c s' => String (lower_ascii c) (to_lowercase s')
  end.

(** [s.rsplit(c).next()]: what follows the last [c], and the whole
    string when [c] does not occur ([rsplit] always yields one item, so
    the [unwrap_or] of the caller is never taken). *)
Fixpoint rsplit_last (s : string) (c : ascii) : string :=
  match s with
  | EmptyString => EmptyString
  | String a s' =>
      if contains_char s' c then rsplit_last s' c
      else if Ascii.eqb a c then s' else s
  end.

(** [s.replace(from, to)] for a non-empty [from]: matches are replaced
    left to right and do not overlap.  [skip] counts the bytes of a
    match that are still to be dropped. *)
Fixpoint replace_go (from to : string) (skip : nat) (s : string) : string :=
  match s with
  | EmptyString => EmptyString
  | String a s' =>
      match skip with
      | S k => replace_go from to k s'
      | O =>
          if starts_with s from
          then to +:+ replace_go from to (String.length from - 1) s'
          else String a (replace_go from to 0 s')
      end
  end.

(** The sources only replace the non-empty placeholders ["{api_key}"]
    and ["{api_base}"]; for an empty pattern (where Rust inserts [to] at
    every character boundary) the model leaves [s] unchanged. *)
Definition replace (s from to : string) : string :=
  if is_empty from then s else replace_go from to 0 s.

(** ** Append *)

Lemma sapp_nil_l s : "" +:+ s = s.
Proof. done. Qed.

Lemma sapp_cons a s t : String a s +:+ t = String a (s +:+ t).
Proof. done. Qed.

Lemma sapp_nil_r s : s +:+ "" = s.
Proof. induction s as [|a s IH]; [done|]. by rewrite sapp_cons, IH. Qed.

Lemma sapp_assoc s t u : (s +:+ t) +:+ u = s +:+ t +:+ u.
Proof. induction s as [|a s IH]; [done|]. by rewrite !sapp_cons, IH. Qed.

Lemma length_sapp s t : String.length (s +:+ t) = String.length s + String.length t.
Proof. induction s as [|a s IH]; [done|]. rewrite sapp_cons; simpl. by rewrite IH. Qed.

Lemma is_empty_iff s : is_empty s = true <-> s = "".
Proof. by destruct s. Qed.

Lemma is_empty_app s t : is_empty (s +:+ t) = is_empty s && is_empty t.
Proof. by destruct s. Qed.

#[export] Hint Rewrite sapp_nil_l sapp_cons sapp_nil_r sapp_assoc : nb_rw.

(** ** [starts_with] *)

Lemma starts_with_nil s : starts_with s "" = true.
Proof. by destruct s. Qed.

Lemma starts_with_refl s : starts_with s s = true.
Proof. induction s as [|a s IH]; [done|]; simpl. by rewrite Ascii.eqb_refl, IH. Qed.

(** The prefix a string was built from. *)
Lemma starts_with_app p s : starts_with (p +:+ s) p = true.
Proof.
  induction p as [|a p IH]; [done|]. rewrite sapp_cons; simpl.
  by rewrite Ascii.eqb_refl, IH.
Qed.

Lemma starts_with_iff s p : starts_with s p = true <-> exists t, s = p +:+ t.
Proof.
  revert s; induction p as [|a p IH]; intros s; simpl.
  - split; [by exists s|done].
  - destruct s as [|c s]; [split; [done|by intros [? ?]]|].
    rewrite andb_true_iff, Ascii.eqb_eq, IH. split.
    + intros [-> [t ->]]. by exists t.
    + intros [t [= -> ->]]. eauto.
Qed.

Lemma starts_with_app_l s t p :
  starts_with s p = true -> starts_with (s +:+ t) p = true.
Proof.
  intros [u ->]%starts_with_iff. rewrite sapp_assoc. apply starts_with_app.
Qed.

Lemma starts_with_trans s p q :
  starts_with s p = true -> starts_with p q = true -> starts_with s q = true.
Proof.
  intros [t ->]%starts_with_iff Hq. by apply starts_with_app_l.
Qed.

Lemma starts_with_length s p :
  starts_with s p = true -> String.length p <= String.length s.
Proof. intros [t ->]%starts_with_iff. rewrite length_sapp. lia. Qed.

(** ** [contains_char] *)

Lemma contains_char_app s t c :
  contains_char (s +:+ t) c = contains_char s c || contains_char t c.
Proof.
  induction s as [|a s IH]; [done|]. rewrite sapp_cons; simpl.
  by rewrite IH, orb_assoc.
Qed.

Lemma starts_with_contains_char s p c :
  starts_with s p = true -> contains_char p c = true -> contains_char s c = true.
Proof.
  intros [t ->]%starts_with_iff Hc. by rewrite contains_char_app, Hc.
Qed.

(** A pattern without the separator is a prefix of [a ++ sep ++ b]
    exactly when it is a prefix of [a]. *)
Lemma starts_with_sep a c b k :
  contains_char k c = false ->
  starts_with (a +:+ String c b) k = starts_with a k.
Proof.
  revert k; induction a as [|y a IH]; intros [|x k]; simpl; try done.
  - intros [Hx _]%orb_false_iff. by rewrite Ascii.eqb_sym, Hx.
  - intros [_ Hk]%orb_false_iff. by rewrite IH.
Qed.

(** ** [contains] *)

Lemma contains_nil s : contains s "" = true.
Proof. destruct s; simpl; by rewrite ?starts_with_nil. Qed.

Lemma starts_with_contains s p : starts_with s p = true -> contains s p = true.
Proof. intros H. destruct s; simpl; by rewrite H. Qed.

Lemma contains_iff s p : contains s p = true <-> exists a b, s = a +:+ p +:+ b.
Proof.
  induction s as [|c s IH]; simpl.
  - rewrite orb_false_r, starts_with_iff. split.
    + intros [t ?]. by exists "", t.
    + intros ([|??] & b & H); [by exists b|done].
  - rewrite orb_true_iff, starts_with_iff, IH. split.
    + intros [[t ->]|(a & b & ->)]; [by exists "", t|by exists (String c a), b].
    + intros ([|x a] & b & H); [left; by exists b|right].
      rewrite sapp_cons in H. injection H as -> ->. by exists a, b.
Qed.

Lemma contains_app_r a b k : contains b k = true -> contains (a +:+ b) k = true.
Proof.
  intros (x & y & ->)%contains_iff. apply contains_iff.
  exists (a +:+ x), y. by rewrite sapp_assoc.
Qed.

Lemma contains_app_l a b k : contains a k = true -> contains (a +:+ b) k = true.
Proof.
  intros (x & y & ->)%contains_iff. apply contains_iff.
  exists x, (y +:+ b). by rewrite !sapp_assoc.
Qed.

(** A pattern without the separator occurs in [a ++ sep ++ b] exactly
    when it occurs in [a] or in [b]: no match straddles the separator. *)
Lemma contains_sep a c b k :
  contains_char k c = false ->
  contains (a +:+ String c b) k = contains a k || contains b k.
Proof.
  intros Hk. induction a as [|y a IH].
  - rewrite sapp_nil_l. simpl.
    rewrite (starts_with_sep "" c b k Hk : starts_with (String c b) k = _).
    by rewrite orb_false_r.
  - rewrite sapp_cons. simpl.
    rewrite (starts_with_sep (String y a) c b k Hk
             : starts_with (String y (a +:+ String c b)) k = _).
    by rewrite IH, orb_assoc.
Qed.

(** ** [to_lowercase] *)

Lemma lower_ascii_idem c : lower_ascii (lower_ascii c) = lower_ascii c.
Proof. by destruct c as [[] [] [] [] [] [] [] []]. Qed.

Lemma to_lowercase_app s t : to_lowercase (s +:+ t) = to_lowercase s +:+ to_lowercase t.
Proof.
  induction s as [|a s IH]; [done|]. rewrite sapp_cons; simpl. by rewrite IH.
Qed.

Lemma to_lowercase_idem s : to_lowercase (to_lowercase s) = to_lowercase s.
Proof.
  induction s as [|a s IH]; [done|]; simpl. by rewrite lower_ascii_idem, IH.
Qed.

Lemma to_lowercase_length s : String.length (to_lowercase s) = String.length s.
Proof. induction s as [|a s IH]; [done|]; simpl. by rewrite IH. Qed.

(** ** [rsplit_last] *)

Lemma rsplit_last_no_sep s c : contains_char s c = false -> rsplit_last s c = s.
Proof.
  destruct s as [|a s]; [done|]; simpl.
  intros [-> ->]%orb_false_iff. done.
Qed.

(** The last segment never contains the separator. *)
Lemma rsplit_last_free s c : contains_char (rsplit_last s c) c = false.
Proof.
  induction s as [|a s IH]; [done|]; simpl.
  destruct (contains_char s c) eqn:Hs; [done|].
  destruct (Ascii.eqb a c) eqn:Ha; [done|]. simpl. by rewrite Ha, Hs.
Qed.

(** The segment after a separator that is free of it is the last one. *)
Lemma rsplit_last_app a c b :
  contains_char b c = false -> rsplit_last (a +:+ String c b) c = b.
Proof.
  intros Hb. induction a as [|y a IH].
  - rewrite sapp_nil_l. simpl. by rewrite Hb, Ascii.eqb_refl.
  - rewrite sapp_cons. simpl.
    by rewrite contains_char_app; simpl; rewrite Ascii.eqb_refl, orb_true_r.
Qed.

(** Text before a separator does not change the last segment. *)
Lemma rsplit_last_app_sep a c b :
  rsplit_last (a +:+ String c b) c = rsplit_last b c.
Proof.
  induction a as [|y a IH].
  - rewrite sapp_nil_l. simpl. rewrite Ascii.eqb_refl.
    destruct (contains_char b c) eqn:Hb; [done|]. by rewrite rsplit_last_no_sep.
  - rewrite sapp_cons. simpl.
    by rewrite contains_char_app; simpl; rewrite Ascii.eqb_refl, orb_true_r.
Qed.

Lemma rsplit_last_idem s c : rsplit_last (rsplit_last s c) c = rsplit_last s c.
Proof. apply rsplit_last_no_sep, rsplit_last_free. Qed.

(** ** [replace] *)

Lemma replace_go_skip_all from to k s :
  String.length s <= k -> replace_go from to k s = "".
Proof.
  revert k; induction s as [|a s IH]; intros k; [done|]; simpl.
  destruct k as [|k]; [lia|]. intros ?. apply IH. lia.
Qed.

(** Replacing a pattern in itself yields the replacement. *)
Lemma replace_self from to : is_empty from = false -> replace from from to = to.
Proof.
  unfold replace. destruct from as [|a from]; [done|]. intros _.
  cbn [is_empty replace_go]. rewrite starts_with_refl.
  rewrite replace_go_skip_all by (simpl; lia). apply sapp_nil_r.
Qed.

(** A string without the pattern is left unchanged. *)
Lemma replace_absent s from to : contains s from = false -> replace s from to = s.
Proof.
  unfold replace. destruct (is_empty from); [done|].
  induction s as [|a s IH]; [done|]. cbn [contains replace_go].
  intros [-> Hs]%orb_false_iff. by rewrite IH.
Qed.

(** Replacement introduces no character that neither the string nor
    the replacement holds. *)
Lemma replace_go_char_free from to skip s c :
  contains_char s c = false -> contains_char to c = false ->
  contains_char (replace_go from to skip s) c = false.
Proof.
  intros Hs Hto. revert skip Hs.
  induction s as [|a s IH]; intros skip; [done|]. simpl.
  intros [Ha Hs]%orb_false_iff. destruct skip; [|by apply IH].
  case_match; [rewrite contains_char_app, Hto|simpl; rewrite Ha]; by apply IH.
Qed.

Lemma replace_char_free s from to c :
  contains_char s c = false -> contains_char to c = false ->
  contains_char (replace s from to) c = false.
Proof.
  unfold replace. destruct (is_empty from); [done|]. apply replace_go_char_free.
Qed.

(** ** [trim]

    [str::trim] removes leading and trailing white space.  The model
    knows the white space of ASCII (tab, line feed, vertical tab, form
    feed, carriage return, space); a text that begins or ends with
    white space outside ASCII is outside the model. *)

Definition is_whitespace (c : ascii) : bool :=
  let n := nat_of_ascii c in
  (Nat.leb 9 n && Nat.leb n 13) || Nat.eqb n 32.

(** [str::trim_start] *)
Fixpoint trim_start (s : string) : string :=
  match s with
  | EmptyString => EmptyString
  | String c s' => if is_whitespace c then trim_start s' else s
  end.

(** [str::trim_end] *)
Fixpoint trim_end (s : string) : string :=
  match s with
  | EmptyString => EmptyString
  | String c s' =>
      let t := trim_end s' in
      if is_empty t && is_whitespace c then EmptyString else String c t
  end.

(** [str::trim] *)
Definition trim (s : string) : string := trim_end (trim_start s).

(** Every character of the text is white space. *)
Fixpoint is_blank (s : string) : bool :=
  match s with
  | EmptyString => true
  | String c s' => is_whitespace c && is_blank s'
  end.

Lemma trim_end_blank s : is_empty (trim_end s) = is_blank s.
Proof.
  induction s as [|c s IH]; [done|]. simpl. rewrite IH.
  destruct (is_blank s), (is_whitespace c); done.
Qed.

Lemma trim_start_blank s : is_empty (trim_start s) = is_blank s.
Proof.
  induction s as [|c s IH]; [done|]. simpl.
  destruct (is_whitespace c); done.
Qed.

Lemma is_blank_trim_start s : is_blank (trim_start s) = is_blank s.
Proof.
  induction s as [|c s IH]; [done|]. simpl.
  destruct (is_whitespace c) eqn:Hc; simpl; by rewrite ?Hc.
Qed.

(** A text trims to nothing exactly when it is blank. *)
Lemma trim_blank s : is_empty (trim s) = is_blank s.
Proof. unfold trim. by rewrite trim_end_blank, is_blank_trim_start. Qed.

Lemma trim_start_idem s : trim_start (trim_start s) = trim_start s.
Proof.
  induction s as [|c s IH]; [done|]. simpl.
  destruct (is_whitespace c) eqn:Hc; [done|]. simpl. by rewrite Hc.
Qed.

Lemma trim_end_idem s : trim_end (trim_end s) = trim_end s.
Proof.
  induction s as [|c s IH]; [done|]. simpl.
  destruct (is_empty (trim_end s) && is_whitespace c) eqn:Hc; [done|].
  simpl. by rewrite IH, Hc.
Qed.

(** Trimming the end of a text that does not start with white space
    leaves its start alone. *)
Lemma trim_start_trim_end s :
  trim_start s = s -> trim_start (trim_end s) = trim_end s.
Proof.
  destruct s as [|c s]; [done|]. simpl.
  destruct (is_whitespace c) eqn:Hc.
  - intros Hs. exfalso. apply (f_equal String.length) in Hs. simpl in Hs.
    assert (forall t, String.length (trim_start t) <= String.length t)%nat as Hle.
    { clear. induction t as [|a t IH]; simpl; [lia|].
      destruct (is_whitespace a); simpl; lia. }
    specialize (Hle s). lia.
  - intros _. rewrite andb_false_r. simpl. by rewrite Hc.
Qed.

Lemma trim_idem s : trim (trim s) = trim s.
Proof.
  unfold trim. rewrite trim_start_trim_end by apply trim_start_idem.
  apply trim_end_idem.
Qed.

(** ** [join] *)

(** Trimming leaves what lies before a text that it does not empty. *)
Lemma trim_end_app s t :
  is_empty (trim_end t) = false -> trim_end (s +:+ t) = s +:+ trim_end t.
Proof.
  intros Ht. induction s as [|c s IH]; [done|]. rewrite sapp_cons. cbn [trim_end].
  rewrite IH, is_empty_app, Ht, andb_false_r. done.
Qed.

Lemma trim_start_app_blank s t : is_blank s = true -> trim_start (s +:+ t) = trim_start t.
Proof.
  induction s as [|c s IH]; [done|]. cbn [is_blank]. intros [Hc Hs]%andb_true_iff.
  rewrite sapp_cons. cbn [trim_start]. rewrite Hc. by apply IH.
Qed.

(** A text that is not blank keeps a first character that is not
    white space, one of its own. *)
Lemma trim_start_app_keep s t c :
  is_blank s = false ->
  exists a s', trim_start (s +:+ t) = String a (s' +:+ t) /\ is_whitespace a = false /\
    (contains_char s c = false -> Ascii.eqb a c = false).
Proof.
  induction s as [|b s IH]; [done|]. cbn [is_blank contains_char]. rewrite sapp_cons.
  cbn [trim_start]. destruct (is_whitespace b) eqn:Hb; simpl.
  - intros (a & s' & -> & Ha & Hc)%IH. exists a, s'. repeat split; [done|].
    intros [_ ?]%orb_false_iff. by apply Hc.
  - intros _. exists b, s. repeat split; [done|]. by intros [? _]%orb_false_iff.
Qed.

(** [[String]::join] *)
Fixpoint join (sep : string) (chunks : list string) : string :=
  match chunks with
  | [] => ""
  | [chunk] => chunk
  | chunk :: rest => chunk +:+ sep +:+ join sep rest
  end.

(** The line feed ["\n"]. *)
Definition LF : string := String "010" "".

Lemma join_cons sep chunk rest :
  rest <> [] -> join sep (chunk :: rest) = chunk +:+ sep +:+ join sep rest.
Proof. by destruct rest. Qed.

Lemma join_app sep a b :
  a <> [] -> b <> [] -> join sep (a ++ b) = join sep a +:+ sep +:+ join sep b.
Proof.
  intros Ha Hb. induction a as [|x a IH]; [done|].
  destruct a as [|y a].
  - simpl app. by rewrite join_cons.
  - rewrite <-app_comm_cons, !join_cons, IH by done.
    by rewrite !sapp_assoc.
Qed.

Lemma length_join sep chunks :
  String.length (join sep chunks)
  = (list_sum (String.length <$> chunks)
     + String.length sep * pred (List.length chunks))%nat.
Proof.
  induction chunks as [|x [|y rest] IH]; [simpl; lia..|].
  rewrite join_cons, !length_sapp, IH by done. simpl. lia.
Qed.

(** A character that occurs neither in the chunks nor in the
    separator does not occur in the joined text. *)
Lemma join_char_free c sep chunks :
  contains_char sep c = false ->
  Forall (fun chunk => contains_char chunk c = false) chunks ->
  contains_char (join sep chunks) c = false.
Proof.
  intros Hsep. induction 1 as [|x rest Hx Hrest IH]; [done|].
  destruct rest; [done|].
  rewrite join_cons, !contains_char_app, Hx, Hsep, IH by done. done.
Qed.

(** ** Lines and tokens *)

Definition LFc : ascii := "010".
Definition CRc : ascii := "013".

(** Puts a character in front of the first text of a list. *)
Definition prepend (c : ascii) (parts : list string) : list string :=
  match parts with
  | [] => [String c EmptyString]
  | part :: rest => String c part :: rest
  end.

(** [str::lines]: the text is cut after each line feed; a line loses
    its line feed and a carriage return right before it; the last line
    need not end with a line feed. *)
Fixpoint lines (s : string) : list string :=
  match s with
  | EmptyString => []
  | String c s' =>
      if Ascii.eqb c LFc then EmptyString :: lines s'
      else
        match s' with
        | EmptyString => [String c EmptyString]
        | String c' s'' =>
            if Ascii.eqb c CRc && Ascii.eqb c' LFc then EmptyString :: lines s''
            else prepend c (lines s')
        end
  end.

(** [str::split_once] on a character *)
Fixpoint split_once (s : string) (c : ascii) : option (string * string) :=
  match s with
  | EmptyString => None
  | String a s' =>
      if Ascii.eqb a c then Some (EmptyString, s')
      else
        match split_once s' c with
        | Some (l, r) => Some (String a l, r)
        | None => None
        end
  end.

(** [str::split_whitespace], on the white space of ASCII *)
Fixpoint split_whitespace (s : string) : list string :=
  match s with
  | EmptyString => []
  | String c s' =>
      if is_whitespace c then split_whitespace s'
      else
        match s' with
        | EmptyString => [String c EmptyString]
        | String c' _ =>
            if is_whitespace c' then String c EmptyString :: split_whitespace s'
            else prepend c (split_whitespace s')
        end
  end.

(** [char::is_ascii_digit] *)
Definition is_ascii_digit (c : ascii) : bool :=
  let n := nat_of_ascii c in Nat.leb 48 n && Nat.leb n 57.

(** [s.chars().all(p)] *)
Fixpoint all (p : ascii -> bool) (s : string) : bool :=
  match s with
  | EmptyString => true
  | String c s' => p c && all p s'
  end.

Lemma split_once_Some s c l r :
  split_once s c = Some (l, r) ->
  s = l +:+ String c r /\ contains_char l c = false.
Proof.
  revert l. induction s as [|a s IH]; intros l; [done|]. simpl.
  destruct (Ascii.eqb_spec a c) as [->|Hne].
  - intros [= <- <-]. by rewrite sapp_nil_l.
  - destruct (split_once s c) as [[l' r']|]; [|done]. intros [= <- <-].
    destruct (IH l' eq_refl) as [-> Hl]. split; [by rewrite sapp_cons|].
    simpl. rewrite Hl. by apply Ascii.eqb_neq in Hne as ->.
Qed.

Lemma split_once_None s c : split_once s c = None <-> contains_char s c = false.
Proof.
  induction s as [|a s IH]; [done|]. simpl.
  destruct (Ascii.eqb a c); [done|]. simpl. rewrite <-IH.
  by destruct (split_once s c) as [[]|].
Qed.

(** The first line of a text: what comes before the first line
    feed, when it holds no carriage return. *)
Lemma lines_first a b :
  contains_char a LFc = false -> contains_char a CRc = false -> a <> "" ->
  lines (a +:+ LF +:+ b) = a :: lines b.
Proof.
  induction a as [|c a IH]; [done|].
  intros [Hc Ha]%orb_false_iff [Hc' Ha']%orb_false_iff _.
  rewrite sapp_cons. cbn [lines]. rewrite Hc, Hc'. cbn [andb].
  destruct a as [|c'' a]; [done|]. rewrite sapp_cons, <-sapp_cons, IH by done. done.
Qed.

(** A token is not empty and holds no white space. *)
Lemma split_whitespace_tokens s :
  Forall (fun t => t <> EmptyString /\ all (fun c => negb (is_whitespace c)) t = true)
    (split_whitespace s).
Proof.
  induction s as [|c s IH]; [constructor|]. simpl.
  destruct (is_whitespace c) eqn:Hc; [done|].
  destruct s as [|c' s]; [repeat constructor; simpl; by rewrite ?Hc|].
  destruct (is_whitespace c') eqn:Hc'.
  - constructor; [|done]. simpl. by rewrite Hc.
  - destruct (split_whitespace (String c' s)) as [|t ts]; simpl.
    + repeat constructor; simpl; by rewrite ?Hc.
    + inversion IH as [|? ? [Ht Ha] Hts]; subst.
      constructor; [|done]. simpl. by rewrite Hc, Ha.
Qed.

Lemma split_whitespace_blank s : split_whitespace s = [] <-> is_blank s = true.
Proof.
  induction s as [|c s IH]; [done|]. simpl.
  destruct (is_whitespace c); simpl; [done|].
  destruct s as [|c' s]; [done|].
  destruct (is_whitespace c'); [done|].
  by destruct (split_whitespace (String c' s)).
Qed.

(** ** [split] on a text *)

(** The loop of [str::split] for a pattern that is not empty: [skip]
    counts the characters of a match still to be passed over. *)
Fixpoint split_go (pat : string) (skip : nat) (s : string) : list string :=
  match s with
  | EmptyString => [EmptyString]
  | String c s' =>
      match skip with
      | S k => split_go pat k s'
      | O =>
          if starts_with s pat then
            EmptyString :: split_go pat (pred (String.length pat)) s'
          else prepend c (split_go pat 0 s')
      end
  end.

(** [s.split(pat)] for a pattern that is not empty *)
Definition split (s pat : string) : list string := split_go pat 0 s.

Lemma split_go_nonempty pat skip s : split_go pat skip s <> [].
Proof.
  revert skip. induction s as [|c s IH]; intros skip; [done|]. simpl.
  destruct skip; [|apply IH]. destruct (starts_with _ _); [done|].
  specialize (IH 0). by destruct (split_go pat 0 s).
Qed.

(** A text without the first character of the pattern is one piece. *)
Lemma split_absent s p pat :
  contains_char s p = false -> split s (String p pat) = [s].
Proof.
  unfold split. induction s as [|c s IH]; [done|]. cbn [contains_char].
  intros [Hc Hs]%orb_false_iff. cbn [split_go starts_with]. rewrite Hc. simpl.
  by rewrite IH.
Qed.

Lemma join_prepend sep c parts :
  parts <> [] -> join sep (prepend c parts) = String c (join sep parts).
Proof. by destruct parts as [|part [|next rest]]. Qed.

(** Splitting at a pattern and joining with a text is replacing the
    pattern by the text. *)
Lemma join_split_go from to s : forall skip,
  join to (split_go from skip s) = replace_go from to skip s.
Proof.
  induction s as [|c s IH]; intros skip; [done|]. cbn [split_go replace_go].
  destruct skip as [|k]; [|apply IH]. destruct (starts_with _ _).
  - rewrite join_cons by apply split_go_nonempty. rewrite sapp_nil_l.
    by rewrite IH, Nat.sub_1_r.
  - rewrite join_prepend by apply split_go_nonempty. by rewrite IH.
Qed.

Lemma join_split s from to :
  is_empty from = false -> join to (split s from) = replace s from to.
Proof. intros Hf. unfold split, replace. rewrite Hf. apply join_split_go. Qed.

End Str.

#[export] Hint Rewrite Str.starts_with_nil Str.starts_with_refl Str.starts_with_app
  Str.contains_nil Str.to_lowercase_app Str.to_lowercase_idem
  Str.contains_char_app Str.rsplit_last_free : nb_rw.
#[export] Hint Resolve Str.starts_with_app Str.starts_with_app_l
  Str.contains_app_l Str.contains_app_r Str.starts_with_contains : nb.
