(* ===== verification/Catalog.v ===== *)
(** * Catalog: the provider table and its lookups

    Models the first part of [src/src/providers/litellm.rs]: the records
    [ModelOverride], [EnvExtra] and [ProviderSpec], the static table
    [PROVIDERS], and the three lookups [find_by_name], [find_by_model]
    and [find_gateway].  The lookups take the table as a parameter, so
    that their lemmas hold for every table; the theorems about the
    program instantiate it with [PROVIDERS].

    [CatalogWF] is the interface the table offers to its clients (the
    resolver and the environment provisioner): unique names, detection
    signals only on gateway-like entries, and the prefix discipline that
    makes identifier rewriting idempotent.  [PROVIDERS_wf] discharges it
    by evaluation. *)

From S2P Require Import Prelude RustStr.
Import Str.

(** ** Data *)

Record ModelOverride : Type := {
  pattern : string;
  temperature : option f32;
}.

Record EnvExtra : Type := {
  key : string;
  value_template : string;
}.

Record ProviderSpec : Type := {
  name : string;
  keywords : list string;
  env_key : string;
  litellm_prefix : string;
  skip_prefixes : list string;
  is_gateway : bool;
  is_local : bool;
  detect_by_key_prefix : string;
  detect_by_base_keyword : string;
  default_api_base : string;
  strip_model_prefix : bool;
  env_extras : list EnvExtra;
  model_overrides : list ModelOverride;
}.

#[export] Instance ModelOverride_eq_dec : EqDecision ModelOverride.
Proof. solve_decision. Defined.

#[export] Instance EnvExtra_eq_dec : EqDecision EnvExtra.
Proof. solve_decision. Defined.

#[export] Instance ProviderSpec_eq_dec : EqDecision ProviderSpec.
Proof. solve_decision. Defined.

(** The [f32] literal [1.0]: mantissa [2^23], exponent [-23]. *)
Definition f32_one : f32 := S754_finite false 8388608 (-23).

(** ** The table *)

Definition spec_openrouter : ProviderSpec := {|
  name := "openrouter";
  keywords := ["openrouter"];
  env_key := "OPENROUTER_API_KEY";
  litellm_prefix := "openrouter";
  skip_prefixes := [];
  is_gateway := true;
  is_local := false;
  detect_by_key_prefix := "sk-or-";
  detect_by_base_keyword := "openrouter";
  default_api_base := "https://openrouter.ai/api/v1";
  strip_model_prefix := false;
  env_extras := [];
  model_overrides := [];
|}.

Definition spec_aihubmix : ProviderSpec := {|
  name := "aihubmix";
  keywords := ["aihubmix"];
  env_key := "OPENAI_API_KEY";
  litellm_prefix := "openai";
  skip_prefixes := [];
  is_gateway := true;
  is_local := false;
  detect_by_key_prefix := "";
  detect_by_base_keyword := "aihubmix";
  default_api_base := "https://aihubmix.com/v1";
  strip_model_prefix := true;
  env_extras := [];
  model_overrides := [];
|}.

Definition spec_anthropic : ProviderSpec := {|
  name := "anthropic";
  keywords := ["anthropic"; "claude"];
  env_key := "ANTHROPIC_API_KEY";
  litellm_prefix := "";
  skip_prefixes := [];
  is_gateway := false;
  is_local := false;
  detect_by_key_prefix := "";
  detect_by_base_keyword := "";
  default_api_base := "";
  strip_model_prefix := false;
  env_extras := [];
  model_overrides := [];
|}.

Definition spec_openai : ProviderSpec := {|
  name := "openai";
  keywords := ["openai"; "gpt"];
  env_key := "OPENAI_API_KEY";
  litellm_prefix := "";
  skip_prefixes := [];
  is_gateway := false;
  is_local := false;
  detect_by_key_prefix := "";
  detect_by_base_keyword := "";
  default_api_base := "";
  strip_model_prefix := false;
  env_extras := [];
  model_overrides := [];
|}.

Definition spec_deepseek : ProviderSpec := {|
  name := "deepseek";
  keywords := ["deepseek"];
  env_key := "DEEPSEEK_API_KEY";
  litellm_prefix := "deepseek";
  skip_prefixes := ["deepseek/"];
  is_gateway := false;
  is_local := false;
  detect_by_key_prefix := "";
  detect_by_base_keyword := "";
  default_api_base := "";
  strip_model_prefix := false;
  env_extras := [];
  model_overrides := [];
|}.

Definition spec_gemini : ProviderSpec := {|
  name := "gemini";
  keywords := ["gemini"];
  env_key := "GEMINI_API_KEY";
  litellm_prefix := "gemini";
  skip_prefixes := ["gemini/"];
  is_gateway := false;
  is_local := false;
  detect_by_key_prefix := "";
  detect_by_base_keyword := "";
  default_api_base := "";
  strip_model_prefix := false;
  env_extras := [];
  model_overrides := [];
|}.

Definition spec_zhipu : ProviderSpec := {|
  name := "zhipu";
  keywords := ["zhipu"; "glm"; "zai"];
  env_key := "ZAI_API_KEY";
  litellm_prefix := "zai";
  skip_prefixes := ["zhipu/"; "zai/"; "openrouter/"; "hosted_vllm/"];
  is_gateway := false;
  is_local := false;
  detect_by_key_prefix := "";
  detect_by_base_keyword := "";
  default_api_base := "";
  strip_model_prefix := false;
  env_extras := [{| key := "ZHIPUAI_API_KEY"; value_template := "{api_key}" |}];
  model_overrides := [];
|}.

Definition spec_dashscope : ProviderSpec := {|
  name := "dashscope";
  keywords := ["qwen"; "dashscope"];
  env_key := "DASHSCOPE_API_KEY";
  litellm_prefix := "dashscope";
  skip_prefixes := ["dashscope/"; "openrouter/"];
  is_gateway := false;
  is_local := false;
  detect_by_key_prefix := "";
  detect_by_base_keyword := "";
  default_api_base := "";
  strip_model_prefix := false;
  env_extras := [];
  model_overrides := [];
|}.

Definition spec_moonshot : ProviderSpec := {|
  name := "moonshot";
  keywords := ["moonshot"; "kimi"];
  env_key := "MOONSHOT_API_KEY";
  litellm_prefix := "moonshot";
  skip_prefixes := ["moonshot/"; "openrouter/"];
  is_gateway := false;
  is_local := false;
  detect_by_key_prefix := "";
  detect_by_base_keyword := "";
  default_api_base := "https://api.moonshot.ai/v1";
  strip_model_prefix := false;
  env_extras := [{| key := "MOONSHOT_API_BASE"; value_template := "{api_base}" |}];
  model_overrides := [{| pattern := "kimi-k2.5"; temperature := Some f32_one |}];
|}.

Definition spec_minimax : ProviderSpec := {|
  name := "minimax";
  keywords := ["minimax"];
  env_key := "MINIMAX_API_KEY";
  litellm_prefix := "minimax";
  skip_prefixes := ["minimax/"; "openrouter/"];
  is_gateway := false;
  is_local := false;
  detect_by_key_prefix := "";
  detect_by_base_keyword := "";
  default_api_base := "https://api.minimax.io/v1";
  strip_model_prefix := false;
  env_extras := [];
  model_overrides := [];
|}.

Definition spec_vllm : ProviderSpec := {|
  name := "vllm";
  keywords := ["vllm"];
  env_key := "HOSTED_VLLM_API_KEY";
  litellm_prefix := "hosted_vllm";
  skip_prefixes := [];
  is_gateway := false;
  is_local := true;
  detect_by_key_prefix := "";
  detect_by_base_keyword := "";
  default_api_base := "";
  strip_model_prefix := false;
  env_extras := [];
  model_overrides := [];
|}.

Definition spec_groq : ProviderSpec := {|
  name := "groq";
  keywords := ["groq"];
  env_key := "GROQ_API_KEY";
  litellm_prefix := "groq";
  skip_prefixes := ["groq/"];
  is_gateway := false;
  is_local := false;
  detect_by_key_prefix := "";
  detect_by_base_keyword := "";
  default_api_base := "";
  strip_model_prefix := false;
  env_extras := [];
  model_overrides := [];
|}.

Definition PROVIDERS : list ProviderSpec :=
  [ spec_openrouter; spec_aihubmix; spec_anthropic; spec_openai;
    spec_deepseek; spec_gemini; spec_zhipu; spec_dashscope;
    spec_moonshot; spec_minimax; spec_vllm; spec_groq ].

(** ** Lookups *)

(** A descriptor that may be chosen as gateway: [spec.is_gateway ||
    spec.is_local]. *)
Definition gateway_like (spec : ProviderSpec) : bool :=
  is_gateway spec || is_local spec.

(** The closure of [find_by_model]: a vendor descriptor one of whose
    keywords occurs in the lower-cased model name. *)
Definition vendor_matches (model_lower : string) (spec : ProviderSpec) : bool :=
  negb (is_gateway spec) && negb (is_local spec)
  && existsb (fun kw => contains model_lower kw) (keywords spec).

(** The closure of [find_gateway]: the key starts with the descriptor's
    key prefix or the base URL contains its keyword, empty signals never
    matching. *)
Definition detects (api_key api_base : option string) (spec : ProviderSpec) : bool :=
  let key_matches :=
    negb (is_empty (detect_by_key_prefix spec))
    && is_some_and api_key (fun k => starts_with k (detect_by_key_prefix spec)) in
  let base_matches :=
    negb (is_empty (detect_by_base_keyword spec))
    && is_some_and api_base (fun b => contains b (detect_by_base_keyword spec)) in
  key_matches || base_matches.

Section Lookup.

(** The table searched; [PROVIDERS] in the program. *)
Context (providers : list ProviderSpec).

Definition find_by_name (n : string) : option ProviderSpec :=
  find (fun spec => String.eqb (name spec) n) providers.

Definition find_by_model (model : string) : option ProviderSpec :=
  let model_lower := to_lowercase model in
  find (vendor_matches model_lower) providers.

(** The [if let ... && let ... && (...)] chain that opens
    [find_gateway]: the named descriptor when it exists and is
    gateway-like. *)
Definition explicit_gateway (provider_name : option string) : option ProviderSpec :=
  match provider_name with
  | Some n =>
      match find_by_name n with
      | Some spec => if gateway_like spec then Some spec else None
      | None => None
      end
  | None => None
  end.

Definition find_gateway (provider_name api_key api_base : option string)
  : option ProviderSpec :=
  match explicit_gateway provider_name with
  | Some spec => Some spec
  | None => find (detects api_key api_base) providers
  end.

End Lookup.

(** ** Well-formedness of a table *)

(** No keyword of a vendor descriptor of [earlier] occurs in the
    lower-cased prefix [p]. *)
Definition prefix_clear (earlier : list ProviderSpec) (p : string) : bool :=
  forallb (fun t => negb (vendor_matches (to_lowercase p) t)) earlier.

(** A vendor descriptor that rewrites (a non-empty [litellm_prefix])
    lists its own ["prefix/"] among its skip prefixes, and its prefix
    triggers no descriptor before it. *)
Definition rewrite_ok (earlier : list ProviderSpec) (spec : ProviderSpec) : bool :=
  gateway_like spec || is_empty (litellm_prefix spec)
  || (bool_decide (litellm_prefix spec +:+ "/" ∈ skip_prefixes spec)
      && prefix_clear earlier (litellm_prefix spec)).

Fixpoint rewrites_ok (earlier rest : list ProviderSpec) : bool :=
  match rest with
  | [] => true
  | spec :: rest' => rewrite_ok earlier spec && rewrites_ok (earlier ++ [spec]) rest'
  end.

(** Keywords contain no ["/"], so that a match never straddles the
    separator of a rewritten identifier. *)
Definition keywords_ok (spec : ProviderSpec) : bool :=
  forallb (fun kw => negb (contains_char kw "/")) (keywords spec).

(** A descriptor with a detection signal is gateway-like. *)
Definition detect_ok (spec : ProviderSpec) : bool :=
  (is_empty (detect_by_key_prefix spec) && is_empty (detect_by_base_keyword spec))
  || gateway_like spec.

(** A gateway-like descriptor has a backend prefix. *)
Definition gateway_prefix_ok (spec : ProviderSpec) : bool :=
  negb (gateway_like spec) || negb (is_empty (litellm_prefix spec)).

(** The NUL character, which no environment entry may hold. *)
Definition NUL : ascii := "000"%char.

(** A name the process environment accepts: without ["="] and NUL. *)
Definition env_name_ok (k : string) : bool :=
  negb (contains_char k "=") && negb (contains_char k NUL).

(** The environment names of a descriptor are acceptable and its
    default base URL and templates hold no NUL. *)
Definition env_ok (spec : ProviderSpec) : bool :=
  env_name_ok (env_key spec)
  && negb (contains_char (default_api_base spec) NUL)
  && forallb (fun extra => env_name_ok (key extra)
                           && negb (contains_char (value_template extra) NUL))
       (env_extras spec).

(** The temperatures of the override rules are binary32 numbers. *)
Definition temperatures_ok (spec : ProviderSpec) : bool :=
  forallb (fun rule => match temperature rule with
                       | Some temp => f32_valid temp
                       | None => true
                       end)
    (model_overrides spec).

Class CatalogWF (providers : list ProviderSpec) : Prop := {
  wf_names : NoDup (name <$> providers);
  wf_detect : forallb detect_ok providers = true;
  wf_keywords : forallb keywords_ok providers = true;
  wf_rewrites : rewrites_ok [] providers = true;
  wf_gateway_prefix : forallb gateway_prefix_ok providers = true;
  wf_env : forallb env_ok providers = true;
  wf_temperatures : forallb temperatures_ok providers = true;
}.

(** ** The program's table is well formed *)

#[export] Instance PROVIDERS_wf : CatalogWF PROVIDERS.
Proof.
  split; [apply (bool_decide_unpack _)|..]; by vm_compute.
Qed.

(** ** Facts on the closures *)

Lemma vendor_matches_iff model_lower spec :
  vendor_matches model_lower spec = true <->
  gateway_like spec = false /\
  Exists (fun kw => contains model_lower kw = true) (keywords spec).
Proof.
  unfold vendor_matches, gateway_like.
  rewrite !andb_true_iff, !negb_true_iff, orb_false_iff, existsb_Exists.
  tauto.
Qed.

Lemma vendor_matches_gateway_like model_lower spec :
  gateway_like spec = true -> vendor_matches model_lower spec = false.
Proof.
  unfold vendor_matches, gateway_like.
  destruct (is_gateway spec), (is_local spec); done.
Qed.

(** Empty detection signals never match. *)
Lemma detects_empty_signals api_key api_base spec :
  detect_by_key_prefix spec = "" -> detect_by_base_keyword spec = "" ->
  detects api_key api_base spec = false.
Proof. unfold detects. by intros -> ->. Qed.

(** Without a key and a base URL nothing is detected. *)
Lemma detects_none spec : detects None None spec = false.
Proof. unfold detects; simpl. by rewrite !andb_false_r. Qed.

Lemma detects_gateway_like api_key api_base spec :
  detect_ok spec = true -> detects api_key api_base spec = true ->
  gateway_like spec = true.
Proof.
  unfold detect_ok, detects.
  destruct (gateway_like spec); [done|]. rewrite orb_false_r.
  intros [-> ->]%andb_true_iff. done.
Qed.

(** ** Facts on the lookups, for any table *)

Section LookupFacts.
Context (providers : list ProviderSpec).
Implicit Types (spec : ProviderSpec) (n model : string).

Lemma find_by_name_sound n spec :
  find_by_name providers n = Some spec -> In spec providers /\ name spec = n.
Proof.
  unfold find_by_name. intros [? ?%String.eqb_eq]%find_some_in. done.
Qed.

(** With unique names, a descriptor of the table is found under its
    own name. *)
Lemma find_by_name_complete spec :
  NoDup (name <$> providers) -> In spec providers ->
  find_by_name providers (name spec) = Some spec.
Proof.
  unfold find_by_name. induction providers as [|a l IH]; [done|].
  rewrite fmap_cons, NoDup_cons. intros [Ha Hl] [->|Hin]; simpl.
  - by rewrite String.eqb_refl.
  - destruct (String.eqb_spec (name a) (name spec)) as [Heq|_]; [|by apply IH].
    destruct Ha. rewrite Heq. apply list_elem_of_fmap.
    exists spec. by rewrite list_elem_of_In.
Qed.

Lemma find_by_model_sound model spec :
  find_by_model providers model = Some spec ->
  In spec providers /\ gateway_like spec = false /\
  Exists (fun kw => contains (to_lowercase model) kw = true) (keywords spec).
Proof.
  unfold find_by_model. by intros [? ?%vendor_matches_iff]%find_some_in.
Qed.

(** Keyword matching ignores the case of the model name. *)
Lemma find_by_model_case_insensitive model :
  find_by_model providers (to_lowercase model) = find_by_model providers model.
Proof. unfold find_by_model. by rewrite to_lowercase_idem. Qed.

(** The descriptor found is the first vendor descriptor that matches. *)
Lemma find_by_model_first model spec :
  find_by_model providers model = Some spec ->
  exists l1 l2, providers = l1 ++ spec :: l2 /\
    vendor_matches (to_lowercase model) spec = true /\
    Forall (fun t => vendor_matches (to_lowercase model) t = false) l1.
Proof. apply find_split. Qed.

Lemma explicit_gateway_sound provider_name spec :
  explicit_gateway providers provider_name = Some spec ->
  In spec providers /\ provider_name = Some (name spec) /\ gateway_like spec = true.
Proof.
  unfold explicit_gateway. destruct provider_name as [n|]; [|done].
  destruct (find_by_name providers n) as [s|] eqn:Hs; [|done].
  destruct (gateway_like s) eqn:Hg; [|done]. intros [= <-].
  apply find_by_name_sound in Hs as [? <-]. done.
Qed.

Lemma find_gateway_no_name api_key api_base :
  find_gateway providers None api_key api_base
  = find (detects api_key api_base) providers.
Proof. done. Qed.

(** Whatever [find_gateway] returns is a descriptor of the table that
    was either named explicitly and is gateway-like, or is the first
    descriptor one of whose detection signals matches. *)
Lemma find_gateway_sound provider_name api_key api_base spec :
  find_gateway providers provider_name api_key api_base = Some spec ->
  In spec providers /\
  ((provider_name = Some (name spec) /\ gateway_like spec = true) \/
   (detects api_key api_base spec = true /\
    exists l1 l2, providers = l1 ++ spec :: l2 /\
      Forall (fun t => detects api_key api_base t = false) l1)).
Proof.
  unfold find_gateway.
  destruct (explicit_gateway providers provider_name) as [s|] eqn:Hs.
  - intros [= <-]. apply explicit_gateway_sound in Hs as (? & ? & ?). eauto.
  - intros Hf. split; [by apply find_some_in in Hf as [? _]|right].
    apply find_split in Hf as (l1 & l2 & ? & ? & ?). eauto.
Qed.

(** In a well-formed table the gateway chosen is always gateway-like:
    auto-detection cannot select a plain vendor descriptor. *)
Lemma find_gateway_gateway_like `{!CatalogWF providers}
    provider_name api_key api_base spec :
  find_gateway providers provider_name api_key api_base = Some spec ->
  gateway_like spec = true.
Proof.
  intros (Hin & [[_ ?]|[Hd _]])%find_gateway_sound; [done|].
  eapply detects_gateway_like; [|done].
  pose proof wf_detect as Hwf. rewrite forallb_forall in Hwf. by apply Hwf.
Qed.

End LookupFacts.

(** ** Properties of gateway selection *)

(** C2. Explicit intent wins: when the configured provider name is the
    name of a gateway-like descriptor of the table, [find_gateway]
    returns that descriptor whatever the API key and the base URL would
    auto-detect. *)
Theorem find_gateway_explicit_wins providers n spec api_key api_base :
  find_by_name providers n = Some spec -> gateway_like spec = true ->
  find_gateway providers (Some n) api_key api_base = Some spec.
Proof.
  intros Hn Hg. unfold find_gateway, explicit_gateway. by rewrite Hn, Hg.
Qed.

(** The witness names the local server while the key carries the
    OpenRouter prefix: the named descriptor is returned. *)
Lemma find_gateway_explicit_wins_witness :
  find_gateway PROVIDERS (Some "vllm") (Some "sk-or-abcdef") None = Some spec_vllm
  /\ find_gateway PROVIDERS None (Some "sk-or-abcdef") None = Some spec_openrouter.
Proof.
  split; [|reflexivity].
  apply (find_gateway_explicit_wins PROVIDERS "vllm" spec_vllm); reflexivity.
Defined.

(** C14. An explicit name is never used when it does not name a
    gateway-like descriptor: the selection is then the auto-detected
    one, as if no name had been given. *)
Theorem find_gateway_explicit_ignored providers n api_key api_base :
  (forall spec, find_by_name providers n = Some spec -> gateway_like spec = false) ->
  find_gateway providers (Some n) api_key api_base
  = find_gateway providers None api_key api_base.
Proof.
  intros Hn. unfold find_gateway, explicit_gateway.
  destruct (find_by_name providers n) as [s|]; [|done].
  by rewrite (Hn s eq_refl).
Qed.

Lemma find_gateway_explicit_ignored_witness :
  find_gateway PROVIDERS (Some "anthropic") (Some "sk-or-abcdef") None
  = find_gateway PROVIDERS None (Some "sk-or-abcdef") None.
Proof.
  apply (find_gateway_explicit_ignored PROVIDERS "anthropic").
  intros spec [= <-]. reflexivity.
Defined.

(** The gateway of the program's table is gateway-like: whatever
    the name, key and base URL, [find_gateway] over [PROVIDERS] returns
    a descriptor flagged [is_gateway] or [is_local], never a vendor. *)
Theorem find_gateway_PROVIDERS_gateway_like provider_name api_key api_base :
  match find_gateway PROVIDERS provider_name api_key api_base with
  | Some spec => is_gateway spec || is_local spec = true
  | None => True
  end.
Proof.
  destruct (find_gateway _ _ _ _) eqn:Hf; [|done].
  by eapply (find_gateway_gateway_like PROVIDERS).
Qed.

(** Auto-detection over the program's table, in closed form: the
    OpenRouter descriptor when the key starts with ["sk-or-"] or the
    base URL contains ["openrouter"], else the AiHubMix descriptor when
    the base URL contains ["aihubmix"], else none. *)
Theorem find_gateway_PROVIDERS_detect api_key api_base :
  find_gateway PROVIDERS None api_key api_base =
  if is_some_and api_key (fun k => starts_with k "sk-or-")
     || is_some_and api_base (fun b => contains b "openrouter")
  then Some spec_openrouter
  else if is_some_and api_base (fun b => contains b "aihubmix")
  then Some spec_aihubmix
  else None.
Proof.
  rewrite find_gateway_no_name. unfold PROVIDERS.
  cbn [find detects spec_openrouter spec_aihubmix detect_by_key_prefix
       detect_by_base_keyword is_empty negb andb orb].
  repeat case_scrut; try done; vm_compute in *; congruence.
Qed.
