(* ===== verification/Resolver.v ===== *)
(** * Resolver: model names, parameter overrides, base URL

    Models the pure methods of [LiteLLMProvider] in
    [src/src/providers/litellm.rs]: [resolve_model] (gateway prefixing
    with optional vendor-prefix stripping, vendor prefixing with skip
    prefixes), [apply_model_overrides] (first matching temperature rule
    of the vendor descriptor) and [effective_api_base] (explicit base,
    gateway default, vendor default).

    The provider value is the record [LiteLLMProvider]; the table is a
    parameter as in [Catalog].  The main theorem is idempotence of
    [resolve_model]: for a gateway it holds for every descriptor, for
    vendors it is proved against the interface [CatalogWF]. *)

From S2P Require Import Prelude RustStr Catalog.
Import Str.

Record LiteLLMProvider : Type := {
  api_key : string;
  api_base : option string;
  default_model : string;
  extra_headers : gmap string string;
  gateway : option ProviderSpec;
}.

(** [format!("{}/{}", prefix, model)] *)
Definition with_prefix (prefix model : string) : string :=
  prefix +:+ "/" +:+ model.

(** The loop of [apply_model_overrides] over the rules of a
    descriptor: the temperature of the first rule whose pattern occurs
    in the model name and that carries a temperature.  A matching rule
    without temperature does not stop the scan. *)
Fixpoint first_override (model_lower : string) (rules : list ModelOverride)
  : option f32 :=
  match rules with
  | [] => None
  | rule :: rest =>
      if contains model_lower (pattern rule) then
        match temperature rule with
        | Some temp => Some temp
        | None => first_override model_lower rest
        end
      else first_override model_lower rest
  end.

Section Resolver.

Context (providers : list ProviderSpec).

Definition resolve_model (self : LiteLLMProvider) (model : string) : string :=
  match gateway self with
  | Some gw =>
      let normalized :=
        if strip_model_prefix gw then rsplit_last model "/" else model in
      if is_empty (litellm_prefix gw)
         || starts_with normalized (litellm_prefix gw +:+ "/")
      then normalized
      else with_prefix (litellm_prefix gw) normalized
  | None =>
      match find_by_model providers model with
      | Some spec =>
          if negb (is_empty (litellm_prefix spec))
             && negb (existsb (fun prefix => starts_with model prefix)
                        (skip_prefixes spec))
          then with_prefix (litellm_prefix spec) model
          else model
      | None => model
      end
  end.

(** The method writes through [&mut f32]; the model returns the new
    value of the temperature. *)
Definition apply_model_overrides (self : LiteLLMProvider) (model : string)
    (temperature : f32) : f32 :=
  let model_lower := to_lowercase model in
  match find_by_model providers model with
  | Some spec =>
      match first_override model_lower (model_overrides spec) with
      | Some temp => temp
      | None => temperature
      end
  | None => temperature
  end.

(** A descriptor's default base URL, when it has one. *)
Definition default_base_of (spec : option ProviderSpec) : option string :=
  match spec with
  | Some s => if negb (is_empty (default_api_base s))
              then Some (default_api_base s) else None
  | None => None
  end.

Definition effective_api_base (self : LiteLLMProvider) (model : string)
  : option string :=
  match api_base self with
  | Some base => Some base
  | None =>
      match default_base_of (gateway self) with
      | Some base => Some base
      | None => default_base_of (find_by_model providers model)
      end
  end.

End Resolver.

(** ** Separator lemmas for the table *)

Lemma with_prefix_starts p m : starts_with (with_prefix p m) (p +:+ "/") = true.
Proof. unfold with_prefix. rewrite <-sapp_assoc. apply starts_with_app. Qed.

Lemma with_prefix_rsplit p m :
  contains_char m "/" = false -> rsplit_last (with_prefix p m) "/" = m.
Proof. apply rsplit_last_app. Qed.

Lemma with_prefix_nonempty p m : is_empty (with_prefix p m) = false.
Proof. unfold with_prefix. rewrite is_empty_app. by destruct p. Qed.

Lemma to_lowercase_with_prefix p m :
  to_lowercase (with_prefix p m) = with_prefix (to_lowercase p) (to_lowercase m).
Proof. unfold with_prefix. by rewrite !to_lowercase_app. Qed.

(** A descriptor whose keywords are free of ["/"] matches [p/m] exactly
    when it matches [p] or [m]. *)
Lemma vendor_matches_with_prefix p m spec :
  keywords_ok spec = true ->
  vendor_matches (with_prefix p m) spec
  = vendor_matches p spec || vendor_matches m spec.
Proof.
  unfold keywords_ok, vendor_matches, with_prefix. intros Hk.
  destruct (negb (is_gateway spec) && negb (is_local spec)); [simpl|done].
  induction (keywords spec) as [|kw kws IH]; [done|].
  simpl in Hk. apply andb_true_iff in Hk as [Hkw ?%IH].
  apply negb_true_iff in Hkw. simpl.
  rewrite (contains_sep p "/" m kw Hkw : contains (p +:+ "/" +:+ m) kw = _), H.
  repeat (destruct (contains _ _) || destruct (existsb _ _)); done.
Qed.

(** ** The well-formedness interface, unpacked *)

Section WF.
Context (providers : list ProviderSpec) `{!CatalogWF providers}.

Lemma wf_keywords_in spec : In spec providers -> keywords_ok spec = true.
Proof.
  pose proof (wf_keywords (providers:=providers)) as H.
  rewrite forallb_forall in H. apply H.
Qed.

Lemma rewrites_ok_split earlier l1 spec l2 :
  rewrites_ok earlier (l1 ++ spec :: l2) = true ->
  rewrite_ok (earlier ++ l1) spec = true.
Proof.
  revert earlier; induction l1 as [|a l1 IH]; intros earlier; simpl.
  - rewrite List.app_nil_r. by intros [? _]%andb_true_iff.
  - intros [_ ?%IH]%andb_true_iff. by rewrite <-List.app_assoc in H.
Qed.

(** What the table promises for a vendor descriptor that rewrites: its
    own ["prefix/"] is a skip prefix, and no descriptor before it is
    triggered by the prefix. *)
Lemma wf_rewrite_at l1 spec l2 :
  providers = l1 ++ spec :: l2 ->
  gateway_like spec = false -> is_empty (litellm_prefix spec) = false ->
  In (litellm_prefix spec +:+ "/") (skip_prefixes spec) /\
  Forall (fun t => vendor_matches (to_lowercase (litellm_prefix spec)) t = false) l1.
Proof.
  intros Hp Hg He. pose proof (wf_rewrites (providers:=providers)) as H.
  rewrite Hp in H. apply rewrites_ok_split in H. unfold rewrite_ok in H.
  rewrite Hg, He in H. simpl in H. apply andb_true_iff in H as [Hs Hc].
  split.
  - by apply bool_decide_eq_true, list_elem_of_In in Hs.
  - unfold prefix_clear in Hc. rewrite forallb_Forall in Hc.
    eapply Forall_impl; [exact Hc|]. intros t. by apply negb_true_iff.
Qed.

End WF.

(** ** [resolve_model] reaches a fixed point in one step *)

Section Idempotence.
Context (providers : list ProviderSpec).
Implicit Types (self : LiteLLMProvider) (model : string) (spec : ProviderSpec).

(** A segment without ["/"] does not start with ["prefix/"]. *)
Lemma segment_not_prefixed n p :
  contains_char n "/" = false -> starts_with n (p +:+ "/") = false.
Proof.
  intros Hn. destruct (starts_with n (p +:+ "/")) eqn:H; [|done].
  apply (starts_with_contains_char _ _ "/") in H; [congruence|].
  rewrite contains_char_app. apply orb_true_r.
Qed.

(** Through a gateway, whatever the descriptor: a stripped name is
    re-stripped to itself, and a prefixed name is recognised by its
    prefix. *)
Lemma resolve_model_gateway_fixed self gw model :
  gateway self = Some gw ->
  resolve_model providers self (resolve_model providers self model)
  = resolve_model providers self model.
Proof.
  unfold resolve_model. intros ->.
  destruct (strip_model_prefix gw).
  - pose proof (rsplit_last_free model "/") as Hn.
    destruct (is_empty (litellm_prefix gw)); simpl.
    + by rewrite rsplit_last_idem.
    + rewrite (segment_not_prefixed _ _ Hn), (with_prefix_rsplit _ _ Hn).
      by rewrite (segment_not_prefixed _ _ Hn).
  - destruct (is_empty (litellm_prefix gw)); simpl; [done|].
    destruct (starts_with model _) eqn:H; [by rewrite H|].
    by rewrite with_prefix_starts.
Qed.

(** In a well-formed table, the name a vendor descriptor produced is
    attributed to the same descriptor and caught by its skip list: the
    vendor half of idempotence, against the interface [CatalogWF]. *)
Lemma find_by_model_with_prefix `{!CatalogWF providers} model spec :
  find_by_model providers model = Some spec ->
  is_empty (litellm_prefix spec) = false ->
  find_by_model providers (with_prefix (litellm_prefix spec) model) = Some spec /\
  existsb (fun prefix => starts_with (with_prefix (litellm_prefix spec) model) prefix)
    (skip_prefixes spec) = true.
Proof.
  intros (l1 & l2 & Hp & Hm & Hl1)%find_by_model_first He.
  pose proof Hm as [Hg _]%vendor_matches_iff.
  destruct (wf_rewrite_at providers l1 spec l2 Hp Hg He) as [Hskip Hclear].
  assert (Hk : forall t, In t (l1 ++ [spec]) -> keywords_ok t = true).
  { intros t Ht. apply (wf_keywords_in providers). rewrite Hp.
    rewrite in_app_iff in *. simpl in *. tauto. }
  split.
  - unfold find_by_model. rewrite Hp at 1. rewrite to_lowercase_with_prefix.
    apply find_first.
    + rewrite List.Forall_forall in *. intros t Ht.
      rewrite vendor_matches_with_prefix by (apply Hk, in_app_iff; tauto).
      by rewrite (Hclear t Ht), (Hl1 t Ht).
    + rewrite vendor_matches_with_prefix by (apply Hk, in_app_iff; simpl; tauto).
      by rewrite Hm, orb_true_r.
  - apply existsb_exists. eexists. split; [exact Hskip|apply with_prefix_starts].
Qed.

End Idempotence.

(** C1. Resolution is idempotent: for every provider value (any
    gateway, or none) and every model identifier, resolving an already
    resolved identifier over the program's table returns it unchanged. *)
Theorem resolve_model_idempotent self model :
  resolve_model PROVIDERS self (resolve_model PROVIDERS self model)
  = resolve_model PROVIDERS self model.
Proof.
  destruct (gateway self) as [gw|] eqn:Hg;
    [by eapply resolve_model_gateway_fixed|].
  unfold resolve_model. rewrite Hg.
  destruct (find_by_model PROVIDERS model) as [spec|] eqn:Hf; [|by rewrite Hf].
  destruct (negb (is_empty _) && negb (existsb _ _)) eqn:Hc; [|by rewrite Hf, Hc].
  apply andb_true_iff in Hc as [He%negb_true_iff _].
  destruct (find_by_model_with_prefix PROVIDERS model spec Hf He) as [-> ->].
  by rewrite andb_false_r.
Qed.

(** ** What resolution keeps and what it produces *)

Section Shape.
Context (providers : list ProviderSpec).
Implicit Types (self : LiteLLMProvider) (model : string).

Lemma with_prefix_last_segment p m :
  rsplit_last (with_prefix p m) "/" = rsplit_last m "/".
Proof. apply rsplit_last_app_sep. Qed.

(** Through a gateway with a backend prefix the result carries it. *)
Lemma resolve_model_gateway_prefixed self gw model :
  gateway self = Some gw -> is_empty (litellm_prefix gw) = false ->
  starts_with (resolve_model providers self model) (litellm_prefix gw +:+ "/") = true.
Proof.
  unfold resolve_model. intros -> ->. simpl.
  set (n := if strip_model_prefix gw then _ else _).
  destruct (starts_with n _) eqn:H; [done|apply with_prefix_starts].
Qed.

(** Without a gateway the identifier is kept or prefixed, never cut. *)
Lemma resolve_model_vendor_cases self model :
  gateway self = None ->
  resolve_model providers self model = model \/
  exists spec, find_by_model providers model = Some spec /\
    is_empty (litellm_prefix spec) = false /\
    resolve_model providers self model = with_prefix (litellm_prefix spec) model.
Proof.
  unfold resolve_model. intros ->.
  destruct (find_by_model providers model) as [spec|]; [|by left].
  destruct (is_empty (litellm_prefix spec)) eqn:He; [by left|]. simpl.
  destruct (existsb _ _); [by left|right; eauto].
Qed.

End Shape.

(** Resolution never touches the model's last path segment: for
    every table, provider and identifier, what follows the last ["/"]
    of the resolved identifier is what follows the last ["/"] of the
    requested one.  Prefixing and stripping only act on what precedes
    it. *)
Theorem resolve_model_last_segment providers self model :
  rsplit_last (resolve_model providers self model) "/" = rsplit_last model "/".
Proof.
  unfold resolve_model. destruct (gateway self) as [gw|].
  - destruct (strip_model_prefix gw), (is_empty (litellm_prefix gw)); simpl;
      try destruct (starts_with _ _);
      by rewrite ?with_prefix_last_segment, ?rsplit_last_idem.
  - repeat case_scrut; by rewrite ?with_prefix_last_segment.
Qed.

(** Resolution of a non-empty identifier is non-empty as long as
    the gateway (if any) has a backend prefix, which every gateway-like
    descriptor of the program's table has. *)
Theorem resolve_model_nonempty providers self model :
  (forall gw, gateway self = Some gw -> is_empty (litellm_prefix gw) = false) ->
  is_empty model = false ->
  is_empty (resolve_model providers self model) = false.
Proof.
  intros Hgw Hm. destruct (gateway self) as [gw|] eqn:Hg.
  - pose proof (resolve_model_gateway_prefixed providers self gw model Hg
      (Hgw gw eq_refl)) as [t ->]%starts_with_iff.
    rewrite !is_empty_app. by destruct (litellm_prefix gw).
  - destruct (resolve_model_vendor_cases providers self model Hg)
      as [->|(spec & _ & _ & ->)]; [done|apply with_prefix_nonempty].
Qed.

(** The provider of the repository's test: AiHubMix selected by name. *)
Definition aihubmix_provider : LiteLLMProvider := {|
  api_key := "";
  api_base := Some "https://aihubmix.com/v1";
  default_model := "anthropic/claude-3-7-sonnet";
  extra_headers := ∅;
  gateway := find_gateway PROVIDERS (Some "aihubmix") None
               (Some "https://aihubmix.com/v1");
|}.

(** The provider of the repository's test: no gateway. *)
Definition standard_provider : LiteLLMProvider := {|
  api_key := "";
  api_base := None;
  default_model := "qwen-plus";
  extra_headers := ∅;
  gateway := find_gateway PROVIDERS None None None;
|}.

Lemma resolve_model_nonempty_witness :
  is_empty (resolve_model PROVIDERS aihubmix_provider "anthropic/claude-3-7-sonnet")
  = false.
Proof.
  apply resolve_model_nonempty; [|reflexivity].
  intros gw [= <-]. reflexivity.
Defined.

(** The scenarios of the repository's tests and of the specification. *)
Example resolve_model_scenarios :
  resolve_model PROVIDERS aihubmix_provider "anthropic/claude-3-7-sonnet"
    = "openai/claude-3-7-sonnet"
  /\ resolve_model PROVIDERS standard_provider "qwen-plus" = "dashscope/qwen-plus"
  /\ resolve_model PROVIDERS standard_provider "dashscope/qwen-plus"
    = "dashscope/qwen-plus"
  /\ resolve_model PROVIDERS standard_provider "DeepSeek/chat"
    = "deepseek/DeepSeek/chat".
Proof. by vm_compute. Qed.

(** A model name that ends in ["/"] loses its name under a stripping
    gateway: only the backend prefix is sent. *)
Example resolve_model_trailing_slash :
  resolve_model PROVIDERS aihubmix_provider "anthropic/" = "openai/".
Proof. by vm_compute. Qed.

(** ** The override engine *)

(** A rule fires on a model name when its pattern occurs in it and it
    carries a temperature. *)
Definition fires (model_lower : string) (rule : ModelOverride) : bool :=
  contains model_lower (pattern rule)
  && match temperature rule with Some _ => true | None => false end.

(** The loop is a first-match search for a rule that fires. *)
Lemma first_override_find model_lower rules :
  first_override model_lower rules
  = find (fires model_lower) rules ≫= temperature.
Proof.
  induction rules as [|rule rest IH]; [done|]. simpl. unfold fires at 1.
  destruct (contains model_lower (pattern rule)); simpl; [|done].
  destruct (temperature rule) eqn:Ht; simpl; [by rewrite Ht|done].
Qed.

Lemma first_override_Some model_lower rules temp :
  first_override model_lower rules = Some temp <->
  exists l1 rule l2, rules = l1 ++ rule :: l2 /\
    contains model_lower (pattern rule) = true /\
    temperature rule = Some temp /\
    Forall (fun r => fires model_lower r = false) l1.
Proof.
  rewrite first_override_find. split.
  - destruct (find _ rules) as [rule|] eqn:Hf; [simpl|done]. intros Ht.
    apply find_split in Hf as (l1 & l2 & -> & [? _]%andb_true_iff & ?).
    by exists l1, rule, l2.
  - intros (l1 & rule & l2 & -> & Hc & Ht & Hl1).
    rewrite (find_first _ l1 rule l2 Hl1); [done|].
    unfold fires. rewrite Hc, Ht. done.
Qed.

Lemma first_override_None model_lower rules :
  first_override model_lower rules = None <->
  Forall (fun r => fires model_lower r = false) rules.
Proof.
  rewrite first_override_find, <-find_none_iff.
  destruct (find _ rules) as [rule|] eqn:Hf; [|done]. simpl.
  apply find_some_in in Hf as [_ [_ Hs]%andb_true_iff].
  by destruct (temperature rule).
Qed.

(** The [f32] nearest to [0.2], the temperature of the repository's
    test: [0x3E4CCCCD]. *)
Definition f32_0_2 : f32 := S754_finite false 13421773 (-26).

(** C6. An override never fires unless the identifier contains the
    rule's pattern: when [apply_model_overrides] changes the
    temperature, the new value is the temperature of a rule of the
    vendor descriptor of the identifier whose pattern occurs in the
    lower-cased identifier, and no rule before it fires. *)
Theorem apply_model_overrides_sound providers self model temperature :
  apply_model_overrides providers self model temperature <> temperature ->
  exists spec l1 rule l2,
    find_by_model providers model = Some spec /\
    model_overrides spec = l1 ++ rule :: l2 /\
    contains (to_lowercase model) (pattern rule) = true /\
    Catalog.temperature rule
      = Some (apply_model_overrides providers self model temperature) /\
    Forall (fun r => fires (to_lowercase model) r = false) l1.
Proof.
  unfold apply_model_overrides.
  destruct (find_by_model providers model) as [spec|]; [|done].
  destruct (first_override _ _) as [temp|] eqn:Hf; [|done]. intros _.
  apply first_override_Some in Hf as (l1 & rule & l2 & ? & ? & ? & ?).
  by exists spec, l1, rule, l2.
Qed.

Lemma apply_model_overrides_sound_witness :
  exists spec l1 rule l2,
    find_by_model PROVIDERS "moonshot/kimi-k2.5" = Some spec /\
    model_overrides spec = l1 ++ rule :: l2 /\
    contains (to_lowercase "moonshot/kimi-k2.5") (pattern rule) = true /\
    Catalog.temperature rule
      = Some (apply_model_overrides PROVIDERS standard_provider
                "moonshot/kimi-k2.5" f32_0_2) /\
    Forall (fun r => fires (to_lowercase "moonshot/kimi-k2.5") r = false) l1.
Proof.
  apply (apply_model_overrides_sound PROVIDERS standard_provider
           "moonshot/kimi-k2.5" f32_0_2).
  vm_compute. discriminate.
Defined.

(** C13. At most one rule fires, the first in declared order: when the
    rules of the identifier's vendor descriptor split into rules that
    do not fire, a rule that fires with temperature [temp], and a rest,
    the result is [temp] whatever the rest holds. *)
Theorem apply_model_overrides_first providers self model temperature
    spec l1 rule l2 temp :
  find_by_model providers model = Some spec ->
  model_overrides spec = l1 ++ rule :: l2 ->
  Forall (fun r => fires (to_lowercase model) r = false) l1 ->
  contains (to_lowercase model) (pattern rule) = true ->
  Catalog.temperature rule = Some temp ->
  apply_model_overrides providers self model temperature = temp.
Proof.
  intros Hs Hr Hl1 Hc Ht. unfold apply_model_overrides. rewrite Hs.
  assert (first_override (to_lowercase model) (model_overrides spec) = Some temp)
    as ->; [|done].
  apply first_override_Some. by exists l1, rule, l2.
Qed.

Lemma apply_model_overrides_first_witness :
  apply_model_overrides PROVIDERS standard_provider "moonshot/kimi-k2.5" f32_0_2
  = f32_one.
Proof.
  apply (apply_model_overrides_first PROVIDERS standard_provider
           "moonshot/kimi-k2.5" f32_0_2 spec_moonshot []
           {| pattern := "kimi-k2.5"; temperature := Some f32_one |} []);
    first [reflexivity | constructor].
Defined.

(** The override engine over the program's table, in closed form:
    the temperature becomes [1.0] exactly when the identifier's vendor
    descriptor is Moonshot and the lower-cased identifier contains
    ["kimi-k2.5"]; otherwise it is the caller's. *)
Theorem apply_model_overrides_PROVIDERS self model temperature :
  apply_model_overrides PROVIDERS self model temperature =
  match find_by_model PROVIDERS model with
  | Some spec =>
      if String.eqb (name spec) "moonshot"
         && contains (to_lowercase model) "kimi-k2.5"
      then f32_one else temperature
  | None => temperature
  end.
Proof.
  unfold apply_model_overrides.
  destruct (find_by_model PROVIDERS model) as [spec|] eqn:Hf; [|done].
  apply find_some_in in Hf as [Hin _]. simpl in Hin.
  repeat (destruct Hin as [<-|Hin]; [simpl; by try case_scrut|]). done.
Qed.

(** The temperature stays a binary32 number: over a well-formed
    table, [apply_model_overrides] of a temperature that is a valid
    [f32] is a valid [f32], the caller's or that of a rule. *)
Theorem apply_model_overrides_valid providers `{!CatalogWF providers}
    self model temperature :
  f32_valid temperature = true ->
  f32_valid (apply_model_overrides providers self model temperature) = true.
Proof.
  intros Hv. unfold apply_model_overrides.
  destruct (find_by_model providers model) as [spec|] eqn:Hs; [|done].
  destruct (first_override _ _) as [temp|] eqn:Hf; [|done].
  apply find_some_in in Hs as [Hin _].
  apply first_override_Some in Hf as (l1 & rule & l2 & Hr & _ & Ht & _).
  pose proof (proj1 (forallb_forall _ _) wf_temperatures spec Hin) as Hok.
  unfold temperatures_ok in Hok. rewrite Hr, forallb_app in Hok. simpl in Hok.
  rewrite Ht in Hok. by bool_prop.
Qed.

Lemma apply_model_overrides_valid_witness :
  f32_valid (apply_model_overrides PROVIDERS standard_provider "moonshot/kimi-k2.5" f32_0_2)
  = true.
Proof.
  apply (apply_model_overrides_valid PROVIDERS standard_provider "moonshot/kimi-k2.5" f32_0_2).
  by vm_compute.
Defined.

(** ** The effective base URL *)

(** An explicit base URL always wins: when the provider was
    built with one, [effective_api_base] returns it for every model,
    whatever the gateway and vendor defaults. *)
Theorem effective_api_base_explicit providers self model base :
  api_base self = Some base ->
  effective_api_base providers self model = Some base.
Proof. unfold effective_api_base. by intros ->. Qed.

Lemma effective_api_base_explicit_witness :
  effective_api_base PROVIDERS aihubmix_provider "kimi-k2.5"
  = Some "https://aihubmix.com/v1".
Proof. by apply effective_api_base_explicit. Defined.

Lemma default_base_of_nonempty spec base :
  default_base_of spec = Some base -> is_empty base = false.
Proof.
  destruct spec as [s|]; [simpl|done].
  destruct (is_empty (default_api_base s)) eqn:He; [done|]. by intros [= <-].
Qed.

(** Defaults are used in priority order and never empty: without
    an explicit base URL the result is the gateway's default when it
    has one, else the default of the model's vendor descriptor when it
    has one, else nothing; an empty default is never returned. *)
Theorem effective_api_base_default providers self model :
  api_base self = None ->
  effective_api_base providers self model =
    match gateway self with
    | Some gw =>
        if is_empty (default_api_base gw)
        then default_base_of (find_by_model providers model)
        else Some (default_api_base gw)
    | None => default_base_of (find_by_model providers model)
    end
  /\ (forall base, effective_api_base providers self model = Some base ->
        is_empty base = false).
Proof.
  unfold effective_api_base. intros ->. split.
  - destruct (gateway self) as [gw|]; [simpl|done].
    by destruct (is_empty (default_api_base gw)).
  - intros base. destruct (default_base_of (gateway self)) eqn:Hg.
    + intros [= <-]. by eapply default_base_of_nonempty.
    + apply default_base_of_nonempty.
Qed.

Lemma effective_api_base_default_witness :
  effective_api_base PROVIDERS standard_provider "kimi-k2.5" =
    match gateway standard_provider with
    | Some gw =>
        if is_empty (default_api_base gw)
        then default_base_of (find_by_model PROVIDERS "kimi-k2.5")
        else Some (default_api_base gw)
    | None => default_base_of (find_by_model PROVIDERS "kimi-k2.5")
    end
  /\ (forall base,
        effective_api_base PROVIDERS standard_provider "kimi-k2.5" = Some base ->
        is_empty base = false).
Proof. by apply effective_api_base_default. Defined.

(** Through the AiHubMix gateway the resolved name of a Kimi model is
    attributed to the OpenAI descriptor (the gateway's backend prefix
    is an OpenAI keyword), so the Moonshot temperature rule does not
    apply to it. *)
Example override_lost_through_gateway temperature :
  let resolved := resolve_model PROVIDERS aihubmix_provider "kimi-k2.5" in
  resolved = "openai/kimi-k2.5"
  /\ find_by_model PROVIDERS resolved = Some spec_openai
  /\ apply_model_overrides PROVIDERS aihubmix_provider resolved temperature
     = temperature
  /\ apply_model_overrides PROVIDERS standard_provider
       (resolve_model PROVIDERS standard_provider "kimi-k2.5") temperature
     = f32_one.
Proof. by vm_compute. Qed.
