(* ===== verification/Env.v ===== *)
(** * Env: the environment provisioner and the constructor

    Models [LiteLLMProvider::new], [setup_env] and [set_env_var] of
    [src/src/providers/litellm.rs].  The process environment, the one
    shared mutable resource of the program, is an explicit state: a
    finite map from names to values, threaded through the operations.

    [std::env::set_var] panics on a name that is empty or holds ["="]
    or NUL and on a value that holds NUL; a panic is [None].  The
    operations therefore return [option]: [Some env'] is the
    environment after a normal return. *)

From S2P Require Import Prelude RustStr Catalog Resolver.
Import Str.

(** The process environment. *)
Abbreviation Env := (gmap string string).

(** [std::env::var_os(key).is_some()] *)
Definition env_has (key : string) (env : Env) : bool := is_some (env !! key).

(** The inputs on which [std::env::set_var] panics. *)
Definition set_var_panics (key value : string) : bool :=
  is_empty key || negb (env_name_ok key) || contains_char value NUL.

(** [std::env::set_var(key, value)] *)
Definition env_set_var (key value : string) (env : Env) : option Env :=
  if set_var_panics key value then None else Some (<[key := value]> env).

Definition set_env_var (key value : string) (overwrite : bool) (env : Env)
  : option Env :=
  if is_empty key || is_empty value then Some env
  else if negb overwrite && env_has key env then Some env
  else env_set_var key value env.

(** The value published for an extra entry: its template with both
    placeholders substituted, the key first. *)
Definition expand_template (self : LiteLLMProvider) (effective_base : string)
    (extra : EnvExtra) : string :=
  replace (replace (value_template extra) "{api_key}" (api_key self))
    "{api_base}" effective_base.

(** The loop of [setup_env] over [spec.env_extras]. *)
Fixpoint set_env_extras (self : LiteLLMProvider) (effective_base : string)
    (extras : list EnvExtra) (env : Env) : option Env :=
  match extras with
  | [] => Some env
  | extra :: rest =>
      env' ← set_env_var (key extra)
                (expand_template self effective_base extra) false env;
      set_env_extras self effective_base rest env'
  end.

(** The first step of [setup_env]: the credential under the
    descriptor's [env_key], overwriting exactly when the provider has a
    gateway. *)
Definition publish_credential (self : LiteLLMProvider) (spec : ProviderSpec)
    (env : Env) : option Env :=
  if negb (is_empty (env_key spec))
  then set_env_var (env_key spec) (api_key self) (is_some (gateway self)) env
  else Some env.

Section Provisioner.

Context (providers : list ProviderSpec).

(** The descriptor [setup_env] publishes for:
    [self.gateway.or_else(|| find_by_model(model))]. *)
Definition env_spec (self : LiteLLMProvider) (model : string)
  : option ProviderSpec :=
  or_else (gateway self) (find_by_model providers model).

Definition setup_env (self : LiteLLMProvider) (model : string) (env : Env)
  : option Env :=
  match env_spec self model with
  | None => Some env
  | Some spec =>
      env1 ← publish_credential self spec env;
      let effective_base := default (default_api_base spec) (api_base self) in
      set_env_extras self effective_base (env_extras spec) env1
  end.

(** [LiteLLMProvider::new]: the provider value and the environment
    after construction. *)
Definition new (api_key : string) (api_base : option string)
    (default_model : string) (extra_headers : option (gmap string string))
    (provider_name : option string) (env : Env)
  : option (LiteLLMProvider * Env) :=
  let gateway :=
    find_gateway providers provider_name
      (if is_empty api_key then None else Some api_key) api_base in
  let provider := {|
    Resolver.api_key := api_key;
    Resolver.api_base := api_base;
    Resolver.default_model := default_model;
    Resolver.extra_headers := default ∅ extra_headers;
    Resolver.gateway := gateway;
  |} in
  if negb (is_empty (Resolver.api_key provider))
  then env' ← setup_env provider (Resolver.default_model provider) env;
       Some (provider, env')
  else Some (provider, env).

End Provisioner.

(** ** One write *)

Section SetEnvVar.
Implicit Types (env : Env) (key value k v : string).

(** The four outcomes of [set_env_var]. *)
Lemma set_env_var_cases key value overwrite env :
  set_env_var key value overwrite env =
  if is_empty key || is_empty value then Some env
  else if negb overwrite && env_has key env then Some env
  else if set_var_panics key value then None
  else Some (<[key := value]> env).
Proof. done. Qed.

(** Other names are never touched. *)
Lemma set_env_var_frame key value overwrite env env' k :
  set_env_var key value overwrite env = Some env' -> k <> key ->
  env' !! k = env !! k.
Proof.
  unfold set_env_var, env_set_var. intros H Hk.
  repeat case_match; simplify_eq; by rewrite ?lookup_insert_ne.
Qed.

(** Without [overwrite], what is set stays set. *)
Lemma set_env_var_keep key value env env' :
  set_env_var key value false env = Some env' -> env ⊆ env'.
Proof.
  unfold set_env_var, env_set_var, env_has. intros H.
  repeat case_match; simplify_eq; try done.
  apply insert_subseteq. by destruct (env !! key).
Qed.

(** With [overwrite] and non-empty arguments the value is published. *)
Lemma set_env_var_overwrite key value env env' :
  is_empty key = false -> is_empty value = false ->
  set_env_var key value true env = Some env' ->
  env' !! key = Some value.
Proof.
  rewrite set_env_var_cases. intros -> ->. simpl.
  case_match; intros; simplify_eq. apply lookup_insert_eq.
Qed.

(** After a write the name is set, unless an argument was empty. *)
Lemma set_env_var_set key value overwrite env env' :
  is_empty key = false -> is_empty value = false ->
  set_env_var key value overwrite env = Some env' ->
  env_has key env' = true.
Proof.
  rewrite set_env_var_cases. intros -> ->. simpl.
  destruct (negb overwrite && env_has key env) eqn:Hs.
  - intros [= <-]. by bool_prop.
  - case_match; intros; simplify_eq. unfold env_has. by rewrite lookup_insert_eq.
Qed.

(** A write returns normally when the name is acceptable and the
    value holds no NUL. *)
Lemma set_env_var_total key value overwrite env :
  env_name_ok key = true -> contains_char value NUL = false ->
  is_Some (set_env_var key value overwrite env).
Proof.
  unfold set_env_var, env_set_var, set_var_panics. intros -> ->.
  destruct (is_empty key); simpl; [done|]. repeat case_match; done.
Qed.

(** A write is stable: repeating it on its result changes nothing. *)
Lemma set_env_var_stable key value overwrite env env' :
  set_env_var key value overwrite env = Some env' ->
  set_env_var key value overwrite env' = Some env'.
Proof.
  rewrite !set_env_var_cases. unfold env_has.
  destruct (is_empty key || is_empty value); [done|].
  destruct overwrite; simpl.
  - destruct (set_var_panics key value); [done|]. intros [= <-].
    by rewrite insert_insert_eq.
  - destruct (env !! key) eqn:Hk; simpl; [intros [= <-]; by rewrite Hk|].
    destruct (set_var_panics key value); [done|]. intros [= <-].
    by rewrite lookup_insert_eq.
Qed.

(** An entry that was set keeps its value, unless the write names
    it and overwrites. *)
Lemma set_env_var_changes key value overwrite env env' k v :
  set_env_var key value overwrite env = Some env' -> env !! k = Some v ->
  env' !! k = Some v \/
  (overwrite = true /\ k = key /\ env' !! k = Some value).
Proof.
  rewrite set_env_var_cases. unfold env_has. intros H Hk.
  destruct (is_empty key || is_empty value); [left; by simplify_eq|].
  destruct (decide (k = key)) as [->|Hne].
  - rewrite Hk in H. destruct overwrite; simpl in H; [|left; by simplify_eq].
    case_match; simplify_eq. right. by rewrite lookup_insert_eq.
  - left. repeat case_match; simplify_eq; by rewrite ?lookup_insert_ne.
Qed.

(** A write that changed nothing changes nothing in a larger
    environment either. *)
Lemma set_env_var_skip_mono key value overwrite env env' :
  set_env_var key value overwrite env = Some env -> env ⊆ env' ->
  set_env_var key value overwrite env' = Some env'.
Proof.
  rewrite !set_env_var_cases. unfold env_has. intros H Hsub.
  destruct (is_empty key || is_empty value); [done|].
  destruct overwrite; simpl in *.
  - destruct (set_var_panics key value); [done|]. injection H as H.
    f_equal. apply insert_id. eapply lookup_weaken; [|done].
    rewrite <-H. apply lookup_insert_eq.
  - destruct (env !! key) as [v|] eqn:Hk; simpl in *.
    + by rewrite (lookup_weaken _ _ _ _ Hk Hsub).
    + destruct (set_var_panics key value); [done|]. injection H as H.
      rewrite <-H, lookup_insert_eq in Hk. done.
Qed.

End SetEnvVar.

(** ** The extra entries *)

Section Extras.
Context (self : LiteLLMProvider) (effective_base : string).
Implicit Types (env : Env) (extras : list EnvExtra).

Lemma set_env_extras_cons extra rest env :
  set_env_extras self effective_base (extra :: rest) env =
  set_env_var (key extra) (expand_template self effective_base extra) false env
  ≫= set_env_extras self effective_base rest.
Proof. done. Qed.

(** The extra entries never overwrite. *)
Lemma set_env_extras_keep extras env env' :
  set_env_extras self effective_base extras env = Some env' -> env ⊆ env'.
Proof.
  revert env; induction extras as [|extra rest IH]; intros env.
  - by intros [= <-].
  - rewrite set_env_extras_cons.
    intros (e1 & ?%set_env_var_keep & ?%IH)%bind_Some. by etrans.
Qed.

(** Names that no extra entry carries are untouched. *)
Lemma set_env_extras_frame extras env env' k :
  set_env_extras self effective_base extras env = Some env' ->
  ~ In k (key <$> extras) -> env' !! k = env !! k.
Proof.
  revert env; induction extras as [|extra rest IH]; intros env.
  - by intros [= <-].
  - rewrite set_env_extras_cons, fmap_cons.
    intros (e1 & H1 & H2)%bind_Some Hk. simpl in Hk.
    rewrite (IH _ H2) by tauto.
    eapply set_env_var_frame; [done|]. intros ->. tauto.
Qed.

Lemma set_env_extras_stable extras env env' :
  set_env_extras self effective_base extras env = Some env' ->
  set_env_extras self effective_base extras env' = Some env'.
Proof.
  revert env; induction extras as [|extra rest IH]; intros env; [done|].
  rewrite !set_env_extras_cons. intros (e1 & H1 & H2)%bind_Some.
  rewrite (set_env_var_skip_mono _ _ _ e1 env'); simpl; eauto.
  - eauto using set_env_var_stable.
  - eauto using set_env_extras_keep.
Qed.

Lemma expand_template_nul_free extra :
  contains_char (value_template extra) NUL = false ->
  contains_char (api_key self) NUL = false ->
  contains_char effective_base NUL = false ->
  contains_char (expand_template self effective_base extra) NUL = false.
Proof. intros. unfold expand_template. by repeat apply replace_char_free. Qed.

Lemma set_env_extras_total extras env :
  forallb (fun extra => env_name_ok (key extra)
                        && negb (contains_char (value_template extra) NUL))
    extras = true ->
  contains_char (api_key self) NUL = false ->
  contains_char effective_base NUL = false ->
  is_Some (set_env_extras self effective_base extras env).
Proof.
  intros Hex Hk Hb. revert env.
  induction extras as [|extra rest IH]; intros env; [done|].
  simpl in Hex. apply andb_true_iff in Hex as [[Hn Ht%negb_true_iff]%andb_true_iff Hr].
  rewrite set_env_extras_cons.
  destruct (set_env_var_total (key extra)
              (expand_template self effective_base extra) false env Hn)
    as [e1 ->]; [by apply expand_template_nul_free|]. simpl. by apply IH.
Qed.

End Extras.

(** ** The credential *)

Section Credential.
Implicit Types (self : LiteLLMProvider) (spec : ProviderSpec) (env : Env).

Lemma publish_credential_frame self spec env env' k :
  publish_credential self spec env = Some env' -> k <> env_key spec ->
  env' !! k = env !! k.
Proof.
  unfold publish_credential. case_match; [|by intros [= <-]].
  apply set_env_var_frame.
Qed.

Lemma publish_credential_gateway self gw spec env env' :
  gateway self = Some gw ->
  is_empty (env_key spec) = false -> is_empty (api_key self) = false ->
  publish_credential self spec env = Some env' ->
  env' !! env_key spec = Some (api_key self).
Proof.
  unfold publish_credential. intros -> Hk Ha. rewrite Hk. simpl.
  by apply set_env_var_overwrite.
Qed.

Lemma publish_credential_changes self spec env env' k v :
  publish_credential self spec env = Some env' -> env !! k = Some v ->
  env' !! k = Some v \/
  (is_some (gateway self) = true /\ k = env_key spec
   /\ env' !! k = Some (api_key self)).
Proof.
  unfold publish_credential. case_match; [|left; by simplify_eq].
  apply set_env_var_changes.
Qed.

Lemma publish_credential_stable self spec env env' :
  publish_credential self spec env = Some env' ->
  publish_credential self spec env' = Some env'.
Proof.
  unfold publish_credential. case_match; [|done]. apply set_env_var_stable.
Qed.

Lemma publish_credential_skip_mono self spec env env' :
  publish_credential self spec env = Some env -> env ⊆ env' ->
  publish_credential self spec env' = Some env'.
Proof.
  unfold publish_credential. case_match; [|done]. apply set_env_var_skip_mono.
Qed.

Lemma publish_credential_total self spec env :
  env_name_ok (env_key spec) = true -> contains_char (api_key self) NUL = false ->
  is_Some (publish_credential self spec env).
Proof.
  unfold publish_credential. intros. case_match; [|done].
  by apply set_env_var_total.
Qed.

End Credential.

(** ** [setup_env] *)

Section SetupEnv.
Context (providers : list ProviderSpec).
Implicit Types (self : LiteLLMProvider) (spec : ProviderSpec) (env : Env).

Lemma setup_env_spec self model env spec :
  env_spec providers self model = Some spec ->
  setup_env providers self model env =
  publish_credential self spec env
  ≫= set_env_extras self (default (default_api_base spec) (api_base self))
       (env_extras spec).
Proof. unfold setup_env. by intros ->. Qed.

Lemma setup_env_no_spec self model env :
  env_spec providers self model = None ->
  setup_env providers self model env = Some env.
Proof. unfold setup_env. by intros ->. Qed.

(** The two steps of a successful run. *)
Lemma setup_env_Some self model env env' :
  setup_env providers self model env = Some env' ->
  (env_spec providers self model = None /\ env' = env) \/
  exists spec env1,
    env_spec providers self model = Some spec /\
    publish_credential self spec env = Some env1 /\
    set_env_extras self (default (default_api_base spec) (api_base self))
      (env_extras spec) env1 = Some env'.
Proof.
  destruct (env_spec providers self model) as [spec|] eqn:Hs.
  - rewrite (setup_env_spec _ _ _ _ Hs). intros (env1 & ? & ?)%bind_Some.
    right. by exists spec, env1.
  - rewrite (setup_env_no_spec _ _ _ Hs). intros [= <-]. by left.
Qed.

Lemma env_spec_gateway self model gw :
  gateway self = Some gw -> env_spec providers self model = Some gw.
Proof. unfold env_spec. by intros ->. Qed.

(** Names that are neither the descriptor's credential name nor one of
    its extra names are untouched. *)
Lemma setup_env_frame self model env env' spec k :
  env_spec providers self model = Some spec ->
  setup_env providers self model env = Some env' ->
  k <> env_key spec -> ~ In k (key <$> env_extras spec) ->
  env' !! k = env !! k.
Proof.
  intros Hs. rewrite (setup_env_spec _ _ _ _ Hs).
  intros (env1 & H1 & H2)%bind_Some Hk Hex.
  rewrite (set_env_extras_frame _ _ _ _ _ _ H2 Hex).
  by eapply publish_credential_frame.
Qed.

(** A descriptor of a well-formed table is published without panic
    when the key and the base URL hold no NUL. *)
Lemma setup_env_total self model env :
  (forall spec, env_spec providers self model = Some spec -> env_ok spec = true) ->
  contains_char (api_key self) NUL = false ->
  (forall base, api_base self = Some base -> contains_char base NUL = false) ->
  is_Some (setup_env providers self model env).
Proof.
  intros Hok Hk Hb.
  destruct (env_spec providers self model) as [spec|] eqn:Hs;
    [|by rewrite setup_env_no_spec].
  rewrite (setup_env_spec _ _ _ _ Hs).
  specialize (Hok spec eq_refl). unfold env_ok in Hok.
  apply andb_true_iff in Hok as [[Hn Hd%negb_true_iff]%andb_true_iff Hex].
  destruct (publish_credential_total self spec env Hn Hk) as [env1 ->]. simpl.
  apply set_env_extras_total; [done..|].
  destruct (api_base self) as [base|]; simpl; eauto.
Qed.

End SetupEnv.

(** ** Properties of the provisioner *)

(** Provisioning is idempotent: running [setup_env] again on the
    environment it produced returns that environment unchanged, so the
    initialise-once step is safe to repeat. *)
Theorem setup_env_idempotent providers self model env env' :
  setup_env providers self model env = Some env' ->
  setup_env providers self model env' = Some env'.
Proof.
  intros [[Hs ->]|(spec & env1 & Hs & H1 & H2)]%setup_env_Some.
  - by apply setup_env_no_spec.
  - rewrite (setup_env_spec _ _ _ _ _ Hs).
    rewrite (publish_credential_skip_mono self spec env1 env'); simpl;
      eauto using publish_credential_stable, set_env_extras_keep,
        set_env_extras_stable.
Qed.

(** The environment of the witnesses: an operator has already set the
    Moonshot key and the OpenRouter key. *)
Definition ambient_env : Env :=
  {[ "MOONSHOT_API_KEY" := "operator-key"; "OPENROUTER_API_KEY" := "stale" ]}.

(** A provider without gateway whose default model is a Moonshot
    model. *)
Definition kimi_provider : LiteLLMProvider := {|
  api_key := "sk-config";
  api_base := None;
  default_model := "kimi-k2.5";
  extra_headers := ∅;
  gateway := None;
|}.

(** A provider behind the OpenRouter gateway. *)
Definition openrouter_provider : LiteLLMProvider := {|
  api_key := "sk-or-config";
  api_base := None;
  default_model := "anthropic/claude-3-7-sonnet";
  extra_headers := ∅;
  gateway := Some spec_openrouter;
|}.

(** The environment after provisioning for [kimi_provider]. *)
Definition kimi_env : Env :=
  default ∅ (setup_env PROVIDERS kimi_provider "kimi-k2.5" ambient_env).

(** The environment after provisioning for [openrouter_provider]. *)
Definition openrouter_env : Env :=
  default ∅ (setup_env PROVIDERS openrouter_provider
               "anthropic/claude-3-7-sonnet" ambient_env).

Lemma kimi_run :
  setup_env PROVIDERS kimi_provider "kimi-k2.5" ambient_env = Some kimi_env.
Proof. apply Some_default. by vm_compute. Qed.

Lemma openrouter_run :
  setup_env PROVIDERS openrouter_provider "anthropic/claude-3-7-sonnet" ambient_env
  = Some openrouter_env.
Proof. apply Some_default. by vm_compute. Qed.

(** What the two runs publish. *)
Example provisioning_scenarios :
  kimi_env !! "MOONSHOT_API_KEY" = Some "operator-key"
  /\ kimi_env !! "MOONSHOT_API_BASE" = Some "https://api.moonshot.ai/v1"
  /\ kimi_env !! "OPENROUTER_API_KEY" = Some "stale"
  /\ openrouter_env !! "OPENROUTER_API_KEY" = Some "sk-or-config"
  /\ openrouter_env !! "MOONSHOT_API_KEY" = Some "operator-key"
  /\ openrouter_env !! "ANTHROPIC_API_KEY" = None.
Proof. by vm_compute. Qed.

Lemma setup_env_idempotent_witness :
  setup_env PROVIDERS kimi_provider "kimi-k2.5" kimi_env = Some kimi_env.
Proof.
  exact (setup_env_idempotent PROVIDERS kimi_provider "kimi-k2.5"
           ambient_env kimi_env kimi_run).
Defined.

(** C3. A vendor credential is never overwritten: without a gateway,
    every entry of the environment before [setup_env] is an entry of
    the environment after it, with the same value. *)
Theorem setup_env_vendor_keeps providers self model env env' :
  gateway self = None ->
  setup_env providers self model env = Some env' ->
  env ⊆ env'.
Proof.
  intros Hg [[_ ->]|(spec & env1 & _ & H1 & H2)]%setup_env_Some; [done|].
  etrans; [|by eapply set_env_extras_keep].
  revert H1. unfold publish_credential. rewrite Hg.
  case_match; [apply set_env_var_keep|by intros [= <-]].
Qed.

Lemma setup_env_vendor_keeps_witness : ambient_env ⊆ kimi_env.
Proof.
  exact (setup_env_vendor_keeps PROVIDERS kimi_provider "kimi-k2.5"
           ambient_env kimi_env eq_refl kimi_run).
Defined.

(** C4. A gateway credential always overwrites: with a gateway whose
    credential name is not empty and a non-empty key, the environment
    after [setup_env] maps that name to the provider's key, whatever it
    held before. *)
Theorem setup_env_gateway_overwrites providers self model gw env env' :
  gateway self = Some gw ->
  is_empty (env_key gw) = false -> is_empty (api_key self) = false ->
  setup_env providers self model env = Some env' ->
  env' !! env_key gw = Some (api_key self).
Proof.
  intros Hg Hk Ha.
  assert (env_spec providers self model = Some gw) as Hs
    by (unfold env_spec; by rewrite Hg).
  rewrite (setup_env_spec _ _ _ _ _ Hs). intros (env1 & H1 & H2)%bind_Some.
  eapply lookup_weaken; [|by eapply set_env_extras_keep].
  by eapply publish_credential_gateway.
Qed.

Lemma setup_env_gateway_overwrites_witness :
  ambient_env !! "OPENROUTER_API_KEY" = Some "stale" /\
  openrouter_env !! env_key spec_openrouter = Some (api_key openrouter_provider).
Proof.
  split; [by vm_compute|].
  exact (setup_env_gateway_overwrites PROVIDERS openrouter_provider
           "anthropic/claude-3-7-sonnet" spec_openrouter ambient_env
           openrouter_env eq_refl eq_refl eq_refl openrouter_run).
Defined.

(** C19. The only entry [setup_env] can change is the gateway's
    credential: an entry that was set before either keeps its value,
    or it is the credential name of the provider's gateway and now
    holds the provider's key. *)
Theorem setup_env_changes_only_gateway_key providers self model env env' k v :
  setup_env providers self model env = Some env' ->
  env !! k = Some v ->
  env' !! k = Some v \/
  exists gw, gateway self = Some gw /\ k = env_key gw
             /\ env' !! k = Some (api_key self).
Proof.
  intros [[_ ->]|(spec & env1 & Hs & H1 & H2)]%setup_env_Some Hk; [by left|].
  pose proof (set_env_extras_keep _ _ _ _ _ H2) as Hsub.
  destruct (publish_credential_changes _ _ _ _ _ _ H1 Hk) as [?|(Hg & -> & ?)].
  - left. by eapply lookup_weaken.
  - right. destruct (gateway self) as [gw|] eqn:Hgw; [|done].
    rewrite (env_spec_gateway providers self model gw Hgw) in Hs.
    injection Hs as <-. exists gw. eauto using lookup_weaken.
Qed.

Lemma setup_env_changes_only_gateway_key_witness :
  openrouter_env !! "OPENROUTER_API_KEY" = Some "stale"
  \/ exists gw, gateway openrouter_provider = Some gw
        /\ "OPENROUTER_API_KEY" = env_key gw
        /\ openrouter_env !! "OPENROUTER_API_KEY"
           = Some (api_key openrouter_provider).
Proof.
  apply (setup_env_changes_only_gateway_key PROVIDERS openrouter_provider
           "anthropic/claude-3-7-sonnet" ambient_env openrouter_env
           "OPENROUTER_API_KEY" "stale" openrouter_run).
  by vm_compute.
Defined.

(** ** The constructor *)

Section New.
Context (providers : list ProviderSpec).
Implicit Types (env : Env) (p : LiteLLMProvider).

(** What [new] returns: the provider value holds the arguments and the
    selected gateway (the key takes part in the selection only when it
    is not empty), and the environment is provisioned only for a
    non-empty key. *)
Lemma new_Some k b m h pn env p env' :
  new providers k b m h pn env = Some (p, env') ->
  p = {| api_key := k; api_base := b; default_model := m;
         extra_headers := default ∅ h;
         gateway := find_gateway providers pn
                      (if is_empty k then None else Some k) b |}
  /\ (if is_empty k then env' = env
      else setup_env providers p m env = Some env').
Proof.
  unfold new. simpl. destruct (is_empty k); simpl.
  - by intros [= <- <-].
  - intros (e1 & ? & [= <- <-])%bind_Some. done.
Qed.

Lemma env_spec_in p model spec :
  (forall gw, gateway p = Some gw -> In gw providers) ->
  env_spec providers p model = Some spec -> In spec providers.
Proof.
  unfold env_spec. intros Hg. destruct (gateway p) as [gw|]; simpl.
  - intros [= <-]. by apply Hg.
  - by intros [? _]%find_by_model_sound.
Qed.

Lemma new_total `{!CatalogWF providers} k b m h pn env :
  contains_char k NUL = false ->
  (forall base, b = Some base -> contains_char base NUL = false) ->
  is_Some (new providers k b m h pn env).
Proof.
  intros Hk Hb. unfold new. simpl. destruct (is_empty k); simpl; [done|].
  set (p := Build_LiteLLMProvider _ _ _ _ _).
  destruct (setup_env_total providers p m env) as [e1 ->]; [|done..].
  intros spec Hs%env_spec_in.
  - pose proof (wf_env (providers:=providers)) as Hwf.
    rewrite forallb_forall in Hwf. by apply Hwf.
  - simpl. by intros gw [? _]%find_gateway_sound.
Qed.

End New.

(** Construction does not panic on clean inputs: over the
    program's table, when neither the key nor the base URL holds a
    NUL character, [new] returns a provider and an environment. *)
Theorem new_PROVIDERS_total k b m h pn env :
  contains_char k NUL = false ->
  (forall base, b = Some base -> contains_char base NUL = false) ->
  is_Some (new PROVIDERS k b m h pn env).
Proof. apply (new_total PROVIDERS). Qed.

Lemma new_PROVIDERS_total_witness :
  is_Some (new PROVIDERS "sk-config" None "kimi-k2.5" None None ambient_env).
Proof.
  apply new_PROVIDERS_total; [reflexivity|]. intros base [=].
Defined.

(** The gateway of a constructed provider is a gateway-like
    descriptor of the program's table, and the provider holds the
    arguments it was built from. *)
Theorem new_PROVIDERS_gateway k b m h pn env p env' :
  new PROVIDERS k b m h pn env = Some (p, env') ->
  api_key p = k /\ api_base p = b /\ default_model p = m /\
  match gateway p with
  | Some gw => In gw PROVIDERS /\ gateway_like gw = true
  | None => True
  end.
Proof.
  intros [-> _]%new_Some. simpl. repeat split.
  destruct (find_gateway _ _ _ _) as [gw|] eqn:Hg; [|done]. split.
  - by apply find_gateway_sound in Hg as [? _].
  - by eapply (find_gateway_gateway_like PROVIDERS).
Qed.

(** The provider and environment of a construction with an
    OpenRouter key. *)
Definition openrouter_built : LiteLLMProvider * Env :=
  default (openrouter_provider, ∅)
    (new PROVIDERS "sk-or-config" None "anthropic/claude-3-7-sonnet" None None
       ambient_env).

Lemma openrouter_built_run :
  new PROVIDERS "sk-or-config" None "anthropic/claude-3-7-sonnet" None None
    ambient_env = Some (openrouter_built.1, openrouter_built.2).
Proof.
  unfold openrouter_built. rewrite <-surjective_pairing.
  apply Some_default. by vm_compute.
Qed.

Lemma new_PROVIDERS_gateway_witness :
  api_key openrouter_built.1 = "sk-or-config" /\
  api_base openrouter_built.1 = None /\
  default_model openrouter_built.1 = "anthropic/claude-3-7-sonnet" /\
  match gateway openrouter_built.1 with
  | Some gw => In gw PROVIDERS /\ gateway_like gw = true
  | None => True
  end.
Proof.
  exact (new_PROVIDERS_gateway _ _ _ _ _ _ _ _ openrouter_built_run).
Defined.

(** With an empty key nothing is published: [new] returns the
    environment it was given, and the key takes no part in gateway
    detection. *)
Theorem new_empty_key providers b m h pn env :
  exists p, new providers "" b m h pn env = Some (p, env)
    /\ gateway p = find_gateway providers pn None b.
Proof. by eexists. Qed.

(** A key that holds a NUL character makes construction panic. *)
Example new_panics_on_nul :
  new PROVIDERS ("sk-or-" +:+ String NUL "") None "gpt-4o" None None ∅ = None.
Proof. by vm_compute. Qed.

(** A Zhipu provider whose key holds the text of the other
    placeholder. *)
Definition zhipu_provider : LiteLLMProvider := {|
  api_key := "key-{api_base}";
  api_base := Some "https://example.test/v1";
  default_model := "glm-4";
  extra_headers := ∅;
  gateway := None;
|}.

(** The placeholders are substituted one after the other, so a
    placeholder text inside the key is substituted as well: the
    auxiliary credential differs from the credential. *)
Example template_substitutes_inside_key :
  let env' := default ∅ (setup_env PROVIDERS zhipu_provider "glm-4" ∅) in
  env' !! "ZAI_API_KEY" = Some "key-{api_base}"
  /\ env' !! "ZHIPUAI_API_KEY" = Some "key-https://example.test/v1".
Proof. by vm_compute. Qed.
