(* ===== verification/Sched.v ===== *)
(** * Sched: threads that take turns on a shared state

    What the interleavings of [Concurrent] (threads that construct
    providers over one process environment) and of [Shared] (callers
    of [chat] over one remote endpoint) have in common.  A thread is
    any type [T] with a function [step], one atomic access to the
    shared state [S], and a test [finished]; nothing here depends on
    what the state or the threads are.

    [Step] is a step of any thread of a pool that has not finished,
    [interleave] follows a schedule (the list of the threads that
    step, by their positions in the pool), and [alone] is a thread
    that steps with nothing else running.  The lemmas: what [Step]
    reaches is what the schedules give; invariants of all that is
    reachable, for the pool ([reachable_invariant]) and thread by
    thread, each invariant kept by the steps of its own thread and by
    those of the others ([reachable_threads]); and, for a measure
    that every step decreases, the bound on the steps of a pool
    ([nsteps_weight]) and that a pool can always run to its end
    ([runs_to_end]); a pool without a step is one whose threads have
    all finished ([stuck_finished]). *)

From S2P Require Import Prelude.

(** The shared state and the threads. *)
Definition Pool (S T : Type) : Type := S * list T.

Section Sched.

Context {S T : Type}.
Context (step : S -> T -> S * T) (finished : T -> bool).

(** A step of the pool: a thread that has not finished makes one
    access. *)
Inductive Step : Pool S T -> Pool S T -> Prop :=
| Step_thread s threads i t :
    threads !! i = Some t -> finished t = false ->
    Step (s, threads) ((step s t).1, <[i := (step s t).2]> threads).

(** The step of thread [i], if there is one. *)
Definition step_at (i : nat) (pool : Pool S T) : Pool S T :=
  match pool.2 !! i with
  | Some t =>
      if finished t then pool
      else ((step pool.1 t).1, <[i := (step pool.1 t).2]> pool.2)
  | None => pool
  end.

(** The pool after a schedule. *)
Definition interleave (schedule : list nat) (pool : Pool S T) : Pool S T :=
  foldl (fun pool i => step_at i pool) pool schedule.

(** The steps of a thread that runs alone. *)
Fixpoint alone (n : nat) (s : S) (t : T) : S * T :=
  match n with
  | O => (s, t)
  | Datatypes.S n => alone n (step s t).1 (step s t).2
  end.

(** The steps a pool has left, for a measure of those of a thread. *)
Definition pool_weight (weight : T -> nat) (pool : Pool S T) : nat :=
  sum_list (weight <$> pool.2).

(** ** Schedules and steps *)

Lemma Step_step_at pool pool' : Step pool pool' -> exists i, step_at i pool = pool'.
Proof. intros [s threads i t Hi Ht]. exists i. unfold step_at. simpl. by rewrite Hi, Ht. Qed.

Lemma step_at_Step i pool : step_at i pool = pool \/ Step pool (step_at i pool).
Proof.
  destruct pool as [s threads]. unfold step_at. simpl.
  destruct (threads !! i) as [t|] eqn:Hi; [|by left].
  destruct (finished t) eqn:Ht; [by left|right]. by constructor.
Qed.

Lemma Step_at i pool t :
  pool.2 !! i = Some t -> finished t = false -> Step pool (step_at i pool).
Proof.
  destruct pool as [s threads]. unfold step_at. cbn [fst snd]. intros Hi Ht.
  rewrite Hi, Ht. by constructor.
Qed.

(** What the pool can reach is what the schedules give. *)
Lemma reachable_interleave pool pool' :
  rtc Step pool pool' <-> exists schedule, interleave schedule pool = pool'.
Proof.
  split.
  - induction 1 as [pool|pool mid pool' [i <-]%Step_step_at _ [schedule <-]].
    + by exists [].
    + by exists (i :: schedule).
  - intros [schedule <-]. revert pool.
    induction schedule as [|i schedule IH]; intros pool; [done|]. simpl.
    destruct (step_at_Step i pool) as [->|Hstep]; [apply IH|].
    by eapply rtc_l, IH.
Qed.

Lemma alone_S n : forall s t,
  alone (Datatypes.S n) s t = step (alone n s t).1 (alone n s t).2.
Proof.
  induction n as [|n IH]; intros s t; [simpl; by destruct (step s t)|].
  change (alone (Datatypes.S (Datatypes.S n)) s t)
    with (alone (Datatypes.S n) (step s t).1 (step s t).2).
  by rewrite IH.
Qed.

Lemma alone_add n m : forall s t,
  alone (n + m) s t = alone m (alone n s t).1 (alone n s t).2.
Proof. induction n as [|n IH]; intros s t; [done|]. apply IH. Qed.

(** ** Invariants *)

(** A property that every step keeps holds of all the pool reaches. *)
Lemma reachable_invariant (P : Pool S T -> Prop) pool pool' :
  (forall p p', P p -> Step p p' -> P p') -> P pool -> rtc Step pool pool' -> P pool'.
Proof. intros Hstep Hpool Hreach. induction Hreach; eauto. Qed.

(** Invariants thread by thread.  Each thread has a datum [d] and an
    invariant [R d] on the state and itself, which holds of all the
    pool reaches when a step of the thread keeps it, and when a step
    of another thread, whose own invariant holds, keeps it too. *)
Lemma reachable_threads {D} (R : D -> S -> T -> Prop) (ds : list D) pool pool' :
  (forall d s t, R d s t -> finished t = false -> R d (step s t).1 (step s t).2) ->
  (forall i j d d' s t t',
     i <> j -> ds !! i = Some d -> ds !! j = Some d' ->
     R d s t -> finished t = false -> R d' s t' -> R d' (step s t).1 t') ->
  Forall2 (fun d t => R d pool.1 t) ds pool.2 ->
  rtc Step pool pool' ->
  Forall2 (fun d t => R d pool'.1 t) ds pool'.2.
Proof.
  intros Hown Hother.
  apply (reachable_invariant (fun p => Forall2 (fun d t => R d p.1 t) ds p.2)).
  intros p p' Hp Hstep. destruct Hstep as [s ts i t Hi Ht]. cbn [fst snd] in *.
  apply Forall2_same_length_lookup in Hp as [Hlen Hp].
  apply Forall2_same_length_lookup. split; [by rewrite length_insert|].
  destruct (lookup_lt_is_Some_2 ds i) as [d Hd]; [rewrite Hlen; by eapply lookup_lt_Some|].
  intros j d' t' Hd' Ht'. destruct (decide (i = j)) as [<-|Hne].
  - rewrite list_lookup_insert_eq in Ht' by by eapply lookup_lt_Some.
    simplify_eq. apply Hown; [by eapply Hp|done].
  - rewrite list_lookup_insert_ne in Ht' by done.
    apply (Hother i j d d'); (done || by eapply Hp).
Qed.

(** ** Threads that stay at their end *)

Section Finished.

Context (step_finished : forall s t, finished t = true -> step s t = (s, t)).

Lemma alone_finished n s t : finished t = true -> alone n s t = (s, t).
Proof. intros Ht. induction n as [|n IH]; [done|]. simpl. by rewrite step_finished. Qed.

(** A schedule of one thread is that thread alone. *)
Lemma interleave_alone n s t :
  interleave (replicate n 0) (s, [t]) = ((alone n s t).1, [(alone n s t).2]).
Proof.
  revert s t. induction n as [|n IH]; intros s t; [done|].
  change (interleave (replicate (Datatypes.S n) 0) (s, [t]))
    with (interleave (replicate n 0) (step_at 0 (s, [t]))).
  unfold step_at. cbn [alone fst snd lookup list_lookup].
  destruct (finished t) eqn:Ht; [|apply IH]. by rewrite IH, step_finished.
Qed.

End Finished.

(** A pool has no step exactly when every thread has finished. *)
Lemma stuck_finished pool :
  (forall pool', ~ Step pool pool') <-> Forall (fun t => finished t = true) pool.2.
Proof.
  split.
  - intros Hstuck. apply Forall_lookup. intros i t Hi.
    destruct (finished t) eqn:Ht; [done|]. by destruct (Hstuck _ (Step_at i pool t Hi Ht)).
  - intros Hend pool' Hstep. destruct Hstep as [s threads i t Hi Ht].
    by rewrite (Forall_lookup_1 _ _ _ _ Hend Hi) in Ht.
Qed.

(** ** The end of every interleaving *)

Section Weight.

Context (weight : T -> nat).
Context (step_weight : forall s t, finished t = false -> weight (step s t).2 < weight t).

Lemma sum_list_insert {A} (f : A -> nat) l i x y :
  l !! i = Some x ->
  sum_list (f <$> <[i := y]> l) + f x = sum_list (f <$> l) + f y.
Proof.
  revert i. induction l as [|a l IH]; intros [|i] Hi; simplify_eq/=; [lia|].
  specialize (IH i Hi). lia.
Qed.

(** Every step of the pool uses up one of the steps that are left. *)
Lemma Step_weight pool pool' :
  Step pool pool' -> pool_weight weight pool' < pool_weight weight pool.
Proof.
  intros [s threads i t Hi Ht]. unfold pool_weight. cbn [snd].
  pose proof (sum_list_insert weight threads i t (step s t).2 Hi).
  pose proof (step_weight s t Ht). lia.
Qed.

(** A pool makes as many steps as its threads have left, at most. *)
Lemma nsteps_weight n pool pool' :
  nsteps Step n pool pool' -> n + pool_weight weight pool' <= pool_weight weight pool.
Proof. induction 1 as [|n pool mid pool' Hstep%Step_weight _ IH]; lia. Qed.

(** A pool can always run to its end. *)
Lemma runs_to_end pool :
  exists pool', rtc Step pool pool' /\ Forall (fun t => finished t = true) pool'.2.
Proof.
  remember (pool_weight weight pool) as n eqn:Hn. revert pool Hn.
  induction n as [n IH] using lt_wf_ind. intros pool ->.
  destruct (decide (Forall (fun t => finished t = true) pool.2)) as [Hend|Hgo];
    [by exists pool|].
  apply not_Forall_Exists, Exists_exists in Hgo as (t & Ht & Hfin); [|apply _].
  apply list_elem_of_lookup in Ht as [i Hi]. apply not_true_is_false in Hfin.
  pose proof (Step_at i pool t Hi Hfin) as Hstep.
  destruct (IH _ (Step_weight _ _ Hstep) (step_at i pool) eq_refl) as (pool' & ? & ?).
  exists pool'. split; [by eapply rtc_l|done].
Qed.

End Weight.

End Sched.
