(* ===== verification/Concurrent.v ===== *)
(** * Concurrent: provider construction from several threads

    [LiteLLMProvider::new] writes the process environment through
    [setup_env], and nothing synchronises two constructions that run
    in different threads.  This file models what such threads can do
    to the environment.

    [calls] lists the calls of [set_env_var] that [setup_env] makes,
    in their order; [run_calls] runs them one after the other, and is
    [setup_env] ([setup_env_calls]).  A thread is what is left of its
    calls and the place it is at in the current one: before the test
    of the environment ([Checking]) or between a test that let it
    through and the write ([Writing]); the test and the write are the
    two accesses of [set_env_var] to the environment, and another
    thread may run between them.  [step] is one access; the pools,
    their steps [Step] and the schedules that [interleave] follows
    are those of [Sched] for these threads.

    The theorems: a thread that runs alone publishes what [setup_env]
    does ([solo_setup_env]); every step brings the pool closer to its
    end ([step_weight]); under every interleaving of threads without
    gateway, the entries the environment had at the start are kept
    ([interleaving_keeps]) and the names no call has are untouched
    ([interleaving_frame]).  Threads whose calls have no name in
    common are isolated: each is where its own steps, made alone,
    would have brought it ([interleaving_isolated]), so the
    interleavings of two such constructions that end without a panic
    all end in the environment of the serial constructions, in either
    order ([constructions_commute]); [new_calls] are the calls of the
    constructor, and two constructors at once end where they end one
    after the other ([new_serial]).  Two examples show what serial
    construction rules out: a write without [overwrite] that replaces
    an entry, and credentials of two providers mixed in one
    environment.

    What a data race on the environment does to the memory of the
    process is outside the model: an access is atomic here. *)

From S2P Require Import Prelude RustStr Catalog Resolver Env Sched.
Import Str.

(** ** The calls of a construction *)

(** One call of [set_env_var]. *)
Record Call : Type := {
  call_key : string;
  call_value : string;
  call_overwrite : bool;
}.

(** The call that publishes the credential, when the descriptor names
    one. *)
Definition credential_call (self : LiteLLMProvider) (spec : ProviderSpec)
  : list Call :=
  if negb (is_empty (env_key spec))
  then [{| call_key := env_key spec; call_value := api_key self;
           call_overwrite := is_some (gateway self) |}]
  else [].

(** The call of the loop over [spec.env_extras] for one entry. *)
Definition extra_call (self : LiteLLMProvider) (effective_base : string)
    (extra : EnvExtra) : Call :=
  {| call_key := key extra;
     call_value := expand_template self effective_base extra;
     call_overwrite := false |}.

(** The calls of [setup_env], in their order. *)
Definition calls (providers : list ProviderSpec) (self : LiteLLMProvider)
    (model : string) : list Call :=
  match env_spec providers self model with
  | None => []
  | Some spec =>
      credential_call self spec
      ++ map (extra_call self (default (default_api_base spec) (api_base self)))
           (env_extras spec)
  end.

(** The provider value that [LiteLLMProvider::new] builds. *)
Definition built (providers : list ProviderSpec) (api_key : string)
    (api_base : option string) (default_model : string)
    (extra_headers : option (gmap string string)) (provider_name : option string)
  : LiteLLMProvider := {|
  Resolver.api_key := api_key;
  Resolver.api_base := api_base;
  Resolver.default_model := default_model;
  Resolver.extra_headers := default ∅ extra_headers;
  Resolver.gateway :=
    find_gateway providers provider_name
      (if is_empty api_key then None else Some api_key) api_base;
|}.

(** The calls of [LiteLLMProvider::new]: those of [setup_env] for the
    default model, when the key is not empty. *)
Definition new_calls (providers : list ProviderSpec) (api_key : string)
    (api_base : option string) (default_model : string)
    (extra_headers : option (gmap string string)) (provider_name : option string)
  : list Call :=
  let provider := built providers api_key api_base default_model extra_headers
                    provider_name in
  if negb (is_empty (Resolver.api_key provider))
  then calls providers provider (Resolver.default_model provider)
  else [].

(** The calls run one after the other. *)
Fixpoint run_calls (cs : list Call) (env : Env) : option Env :=
  match cs with
  | [] => Some env
  | c :: cs =>
      env' ← set_env_var (call_key c) (call_value c) (call_overwrite c) env;
      run_calls cs env'
  end.

(** ** Threads *)

(** Where a thread is in its current call: at the tests of
    [set_env_var], or past them and before [std::env::set_var]; or
    gone, after a panic of [set_var]. *)
Inductive Pc : Type := Checking | Writing | Panicked.

Record Thread : Type := {
  pc : Pc;
  todo : list Call;
}.

(** A thread at the start of a construction. *)
Definition spawn (cs : list Call) : Thread := {| pc := Checking; todo := cs |}.

Definition finished (t : Thread) : bool :=
  match pc t, todo t with
  | Panicked, _ | _, [] => true
  | _, _ :: _ => false
  end.

(** One access of a thread to the environment: the tests of
    [set_env_var], which read it, or the write. *)
Definition step (env : Env) (t : Thread) : Env * Thread :=
  match todo t with
  | [] => (env, t)
  | c :: rest =>
      match pc t with
      | Checking =>
          if is_empty (call_key c) || is_empty (call_value c)
          then (env, {| pc := Checking; todo := rest |})
          else if negb (call_overwrite c) && env_has (call_key c) env
          then (env, {| pc := Checking; todo := rest |})
          else (env, {| pc := Writing; todo := c :: rest |})
      | Writing =>
          match env_set_var (call_key c) (call_value c) env with
          | Some env' => (env', {| pc := Checking; todo := rest |})
          | None => (env, {| pc := Panicked; todo := rest |})
          end
      | Panicked => (env, t)
      end
  end.

(** The environment and the threads of the process, with the steps,
    the schedules and the threads alone of [Sched]. *)
#[local] Abbreviation Pool := (Sched.Pool Env Thread).
#[local] Abbreviation Step := (Sched.Step step finished).
#[local] Abbreviation step_at := (Sched.step_at step finished).
#[local] Abbreviation interleave := (Sched.interleave step finished).
#[local] Abbreviation alone := (Sched.alone step).

(** The accesses a thread has left. *)
Definition weight (t : Thread) : nat :=
  match pc t with
  | Checking => 2 * length (todo t)
  | Writing => 2 * length (todo t) - 1
  | Panicked => 0
  end.

#[local] Abbreviation pool_weight := (Sched.pool_weight weight).

(** A thread whose calls never overwrite: the construction of a
    provider without gateway. *)
Definition vendor (t : Thread) : Prop :=
  Forall (fun c => call_overwrite c = false) (todo t).

(** The names a list of calls writes to. *)
Definition names (cs : list Call) : list string := call_key <$> cs.

(** Two environments that hold the same under the names of [K]. *)
Definition agree (K : list string) (env env' : Env) : Prop :=
  forall k, k ∈ K -> env !! k = env' !! k.

(** Constructions that have no name in common. *)
Fixpoint separate (css : list (list Call)) : Prop :=
  match css with
  | [] => True
  | cs :: rest => names cs ## names (concat rest) /\ separate rest
  end.

(** A pool whose threads each see, under their own names, what they
    would see alone. *)
Definition isolated (env0 : Env) (css : list (list Call)) (pool : Pool) : Prop :=
  Forall2 (fun cs t => exists n,
             t = (alone n env0 (spawn cs)).2 /\
             agree (names cs) pool.1 (alone n env0 (spawn cs)).1)
    css pool.2.

(** ** A thread alone *)

Section Calls.

Context (providers : list ProviderSpec).

Lemma run_calls_app cs cs' env :
  run_calls (cs ++ cs') env = run_calls cs env ≫= run_calls cs'.
Proof.
  revert env. induction cs as [|c cs IH]; intros env; [done|]. simpl.
  destruct (set_env_var _ _ _ env); simpl; [apply IH|done].
Qed.

Lemma run_calls_extras self effective_base extras env :
  run_calls (map (extra_call self effective_base) extras) env
  = set_env_extras self effective_base extras env.
Proof.
  revert env. induction extras as [|extra extras IH]; intros env; [done|]. simpl.
  destruct (set_env_var _ _ _ env); simpl; [apply IH|done].
Qed.

(** [setup_env] is its calls, one after the other. *)
Lemma setup_env_calls self model env :
  setup_env providers self model env = run_calls (calls providers self model) env.
Proof.
  unfold setup_env, calls. destruct (env_spec providers self model) as [spec|]; [|done].
  rewrite run_calls_app. unfold publish_credential, credential_call.
  case_match; simpl; [destruct (set_env_var _ _ _ env); simpl|];
    by rewrite ?run_calls_extras.
Qed.

(** [new] is the value it builds and its calls, one after the
    other. *)
Lemma new_calls_run k b m h pn env :
  new providers k b m h pn env
  = (fun env' => (built providers k b m h pn, env'))
      <$> run_calls (new_calls providers k b m h pn) env.
Proof.
  unfold new, new_calls, built. cbn [Resolver.api_key Resolver.default_model].
  destruct (is_empty k); cbn [negb]; [done|]. rewrite setup_env_calls.
  by destruct (run_calls _ env).
Qed.

End Calls.

Lemma step_finished env t : finished t = true -> step env t = (env, t).
Proof. destruct t as [[] []]; done. Qed.

Lemma step_check c cs env :
  step env {| pc := Checking; todo := c :: cs |} =
    if is_empty (call_key c) || is_empty (call_value c) then (env, spawn cs)
    else if negb (call_overwrite c) && env_has (call_key c) env then (env, spawn cs)
    else (env, {| pc := Writing; todo := c :: cs |}).
Proof. done. Qed.

Lemma step_write c cs env :
  step env {| pc := Writing; todo := c :: cs |} =
    match env_set_var (call_key c) (call_value c) env with
    | Some env' => (env', spawn cs)
    | None => (env, {| pc := Panicked; todo := cs |})
    end.
Proof. done. Qed.

(** A thread alone runs its calls one after the other, in two steps
    for each at most. *)
Lemma alone_calls cs : forall n env,
  2 * length cs <= n ->
  match run_calls cs env with
  | Some env' => alone n env (spawn cs) = (env', spawn [])
  | None => pc (alone n env (spawn cs)).2 = Panicked
  end.
Proof.
  induction cs as [|c cs IH]; intros n env Hn; [by apply (alone_finished step finished step_finished)|].
  destruct n as [|[|n]]; [simpl in Hn; lia..|]. simpl in Hn.
  change (spawn (c :: cs)) with {| pc := Checking; todo := c :: cs |}.
  cbn [run_calls Sched.alone]. rewrite set_env_var_cases, step_check.
  destruct (is_empty (call_key c) || is_empty (call_value c)); [apply (IH (S n)); lia|].
  destruct (negb (call_overwrite c) && env_has (call_key c) env); [apply (IH (S n)); lia|].
  cbn [fst snd]. rewrite step_write. unfold env_set_var.
  destruct (set_var_panics (call_key c) (call_value c)); cbn [fst snd mbind option_bind].
  - by rewrite (alone_finished step finished step_finished).
  - apply IH. lia.
Qed.

(** ** The end of every interleaving *)

Lemma step_weight env t : finished t = false -> weight (step env t).2 < weight t.
Proof.
  destruct t as [[] [|c cs]]; try done; intros _; unfold step, weight; cbn [pc todo].
  - destruct (is_empty (call_key c) || is_empty (call_value c)),
      (negb (call_overwrite c) && env_has (call_key c) env); simpl; lia.
  - destruct (env_set_var _ _ _); simpl; lia.
Qed.

(** ** What every interleaving keeps *)

Section Invariants.

Context (env0 : Env).

(** A thread without gateway that is about to write has found its
    name unset, so the name was unset at the start. *)
Definition careful (t : Thread) : Prop :=
  vendor t /\
  (pc t = Writing -> exists c, head (todo t) = Some c /\ env0 !! call_key c = None).

Lemma step_careful env t :
  env0 ⊆ env -> careful t -> env0 ⊆ (step env t).1 /\ careful (step env t).2.
Proof.
  destruct t as [p [|c cs]]; [done|]. intros Henv [Hv Hw]. unfold vendor in Hv.
  cbn [todo] in Hv. apply Forall_cons in Hv as [Hc Hcs].
  destruct p; [| |by split; [|split; [apply Forall_cons|]]].
  - rewrite step_check, Hc. unfold env_has. cbn [negb andb].
    destruct (is_empty _ || is_empty _); [done|].
    destruct (env !! call_key c) eqn:Hk; [done|]. cbn [is_some fst snd]. split; [done|].
    split; [by apply Forall_cons|]. intros _. exists c. split; [done|].
    by eapply lookup_weaken_None.
  - destruct (Hw eq_refl) as (c' & [= <-] & Hk). rewrite step_write. unfold env_set_var.
    destruct (set_var_panics _ _); [done|]. cbn [fst snd]. split; [|done].
    by apply insert_subseteq_r.
Qed.

(** A name that no call has left is untouched by a step. *)
Lemma step_frame env t k :
  Forall (fun c => call_key c <> k) (todo t) ->
  (step env t).1 !! k = env !! k /\
  Forall (fun c => call_key c <> k) (todo (step env t).2).
Proof.
  destruct t as [p [|c cs]]; [done|]. intros Hk. pose proof Hk as [Hc Hcs]%Forall_cons.
  destruct p; [| |done].
  - rewrite step_check. by repeat case_match.
  - rewrite step_write. unfold env_set_var.
    destruct (set_var_panics _ _); [done|]. split; [|done]. by apply lookup_insert_ne.
Qed.

End Invariants.

(** C8. Construction without gateway keeps what is set, however the
    threads interleave: when every thread of the pool is at the start
    of calls that never overwrite, every entry the environment had at
    the start is an entry of every environment the pool reaches. *)
Theorem interleaving_keeps env0 threads pool :
  Forall (fun t => pc t = Checking /\ vendor t) threads ->
  rtc Step (env0, threads) pool -> env0 ⊆ pool.1.
Proof.
  intros Hstart Hreach.
  apply (reachable_invariant step finished
           (fun p => env0 ⊆ p.1 /\ Forall (careful env0) p.2)
           (env0, threads) pool); [|split|done]; [|done|].
  - intros p p' [Henv Hts] Hstep. destruct Hstep as [env ts i t Hi _]. cbn [fst snd] in *.
    destruct (step_careful env0 env t Henv); [by eapply Forall_lookup_1|].
    split; [done|]. by apply Forall_insert.
  - eapply Forall_impl; [done|]. intros t [Hpc Hv]. split; [done|]. by rewrite Hpc.
Qed.

(** The names that no call of a thread has are untouched by
    every interleaving. *)
Theorem interleaving_frame env0 threads pool k :
  Forall (fun t => Forall (fun c => call_key c <> k) (todo t)) threads ->
  rtc Step (env0, threads) pool -> pool.1 !! k = env0 !! k.
Proof.
  intros Hstart Hreach.
  apply (reachable_invariant step finished
           (fun p => p.1 !! k = env0 !! k /\
                     Forall (fun t => Forall (fun c => call_key c <> k) (todo t)) p.2)
           (env0, threads) pool); [|split; [reflexivity|exact Hstart]|done].
  intros p p' [Henv Hts] Hstep. destruct Hstep as [env ts i t Hi _]. cbn [fst snd] in *.
  destruct (step_frame env t k); [exact (Forall_lookup_1 _ _ _ _ Hts Hi)|].
  split; [congruence|]. by apply Forall_insert.
Qed.



(** ** Constructions over different names *)

Lemma names_cons c cs : names cs ⊆ names (c :: cs).
Proof. intros k Hk. by apply list_elem_of_further. Qed.

Lemma step_names env t : names (todo (step env t).2) ⊆ names (todo t).
Proof.
  destruct t as [p [|c cs]]; [done|]. destruct p; [| |done].
  - rewrite step_check.
    destruct (is_empty (call_key c) || is_empty (call_value c)),
      (negb (call_overwrite c) && env_has (call_key c) env);
      (done || apply names_cons).
  - rewrite step_write. destruct (env_set_var _ _ env); apply names_cons.
Qed.

Lemma alone_names n : forall env t, names (todo (alone n env t).2) ⊆ names (todo t).
Proof.
  induction n as [|n IH]; intros env t; [done|]. cbn [Sched.alone].
  etrans; [apply IH|apply step_names].
Qed.

Lemma step_outside env t k :
  k ∉ names (todo t) -> (step env t).1 !! k = env !! k.
Proof.
  intros Hk. apply step_frame, Forall_forall. intros c Hc <-.
  apply Hk, list_elem_of_fmap. by exists c.
Qed.

(** A step reads and writes under the names of the thread only. *)
Lemma step_local K env env' t :
  names (todo t) ⊆ K -> agree K env env' ->
  (step env t).2 = (step env' t).2 /\ agree K (step env t).1 (step env' t).1.
Proof.
  destruct t as [p [|c cs]]; [done|]. intros HK Henv.
  assert (env !! call_key c = env' !! call_key c) as Hc by (apply Henv, HK; left).
  destruct p; [| |done].
  - rewrite !step_check. unfold env_has. rewrite Hc. by repeat case_match.
  - rewrite !step_write. unfold env_set_var.
    destruct (set_var_panics (call_key c) (call_value c)); [by split|]. split; [done|].
    intros k Hk. cbn [fst]. destruct (decide (k = call_key c)) as [->|Hne].
    + by rewrite !lookup_insert_eq.
    + rewrite !lookup_insert_ne by done. by apply Henv.
Qed.

Lemma separate_lookup css i j a b :
  separate css -> i <> j -> css !! i = Some a -> css !! j = Some b ->
  names a ## names b.
Proof.
  assert (forall (rest : list (list Call)) j b, rest !! j = Some b ->
            names b ⊆ names (concat rest)) as Hin.
  { intros rest j' b' Hb k (c & -> & Hc)%list_elem_of_fmap.
    apply list_elem_of_fmap. exists c. split; [done|].
    apply list_elem_of_In, in_concat. exists b'.
    split; apply list_elem_of_In; [by eapply list_elem_of_lookup_2|done]. }
  revert i j. induction css as [|cs rest IH]; intros i j Hsep Hij Ha Hb; [by destruct i|].
  destruct Hsep as [Hs Hrest]. destruct i as [|i], j as [|j]; simplify_eq/=.
  - intros k Hk Hk'. apply (Hs k Hk). by eapply Hin.
  - intros k Hk Hk'. apply (Hs k Hk'). by eapply Hin.
  - eapply (IH i j); (done || congruence).
Qed.

(** Constructions over different names do not see each other:
    under every interleaving, each thread is where some number of
    steps that it made alone, from the environment of the start, would
    have brought it, and the environment holds under its names what it
    would hold then. *)
Theorem interleaving_isolated env0 css pool :
  separate css -> rtc Step (env0, spawn <$> css) pool -> isolated env0 css pool.
Proof.
  intros Hsep. unfold isolated.
  apply (reachable_threads step finished
           (fun cs env t => exists n, t = (alone n env0 (spawn cs)).2 /\
                              agree (names cs) env (alone n env0 (spawn cs)).1) css).
  - intros cs env t (n & -> & Hagree) _. exists (S n). rewrite alone_S.
    by destruct (step_local (names cs) env (alone n env0 (spawn cs)).1
                   (alone n env0 (spawn cs)).2 (alone_names _ _ _) Hagree) as [-> ?].
  - intros i j cs cs' env t t' Hne Hi Hj (n & -> & _) _ (m & -> & Hagree).
    exists m. split; [done|]. intros k Hk. rewrite step_outside; [by apply Hagree|].
    intros Hk'%alone_names. by apply (separate_lookup css i j cs cs' Hsep Hne Hi Hj k).
  - apply Forall2_fmap_r, Forall_Forall2_diag, Forall_forall. intros cs _. by exists 0.
Qed.

(** A thread that ended alone without a panic has run its calls. *)
Lemma alone_ended n cs env :
  (alone n env (spawn cs)).2 = spawn [] ->
  run_calls cs env = Some (alone n env (spawn cs)).1.
Proof.
  intros Hend. pose proof (alone_calls cs (n + 2 * length cs) env ltac:(lia)) as Hrun.
  rewrite alone_add, (surjective_pairing (alone n env (spawn cs))), Hend in Hrun.
  rewrite (alone_finished step finished step_finished) in Hrun by done. cbn [fst snd] in Hrun.
  destruct (run_calls cs env); [congruence|done].
Qed.

(** Calls run from two environments that agree under their names end
    in environments that agree there, and leave the other names as
    they were. *)
Lemma run_calls_local K cs : forall env env0 e,
  names cs ⊆ K -> agree K env env0 -> run_calls cs env0 = Some e ->
  exists e', run_calls cs env = Some e' /\ agree K e' e /\
    forall k, k ∉ names cs -> e' !! k = env !! k.
Proof.
  induction cs as [|c cs IH]; intros env env0 e HK Henv Hrun; [simplify_eq/=; by exists env|].
  cbn [run_calls] in *. apply bind_Some in Hrun as (e1 & H1 & Hrun).
  assert (exists e1', set_env_var (call_key c) (call_value c) (call_overwrite c) env
                      = Some e1' /\ agree K e1' e1 /\
                      forall k, k <> call_key c -> e1' !! k = env !! k)
    as (e1' & -> & Hagree & Hframe).
  { revert H1. rewrite !set_env_var_cases. unfold env_has.
    rewrite (Henv (call_key c)) by (apply HK; left).
    destruct (is_empty _ || is_empty _); [intros [= <-]; by exists env|].
    destruct (negb _ && is_some _); [intros [= <-]; by exists env|].
    destruct (set_var_panics _ _); [done|]. intros [= <-]. eexists. split; [done|].
    split; [|intros k Hk; by rewrite lookup_insert_ne].
    intros k Hk. destruct (decide (k = call_key c)) as [->|Hne];
      [by rewrite !lookup_insert_eq|]. rewrite !lookup_insert_ne by done. by apply Henv. }
  destruct (IH e1' e1 e) as (e' & He' & Hagree' & Hframe');
    [by etrans; [apply names_cons|]|done..|].
  exists e'. split; [done|]. split; [done|]. intros k [Hk Hks]%not_elem_of_cons.
  by rewrite Hframe', Hframe.
Qed.

(** The constructions one after the other end in the environment that
    holds, under the names of each, what that one alone leaves, and
    the rest as it was. *)
Lemma run_calls_concat target env0 css : forall env,
  separate css -> agree (names (concat css)) env env0 ->
  Forall (fun cs => exists e, run_calls cs env0 = Some e /\ agree (names cs) target e) css ->
  (forall k, k ∉ names (concat css) -> target !! k = env !! k) ->
  run_calls (concat css) env = Some target.
Proof.
  induction css as [|cs css IH]; intros env Hsep Henv Hcss Hframe.
  { f_equal. apply map_eq. intros k. symmetry. apply Hframe, not_elem_of_nil. }
  destruct Hsep as [Hs Hsep]. apply Forall_cons in Hcss as [(e & Hrun & He) Hcss].
  cbn [concat] in *. unfold names in Henv, Hframe. rewrite fmap_app in Henv, Hframe.
  fold (names cs) in *. fold (names (concat css)) in *.
  destruct (run_calls_local (names cs) cs env env0 e) as (e' & He' & Hagree & Hout);
    [done|intros k Hk; apply Henv, elem_of_app; by left|done|].
  rewrite run_calls_app, He'. cbn [mbind option_bind]. apply IH; [done| |done|].
  - intros k Hk. rewrite Hout by (intros Hk'; by apply (Hs k)).
    apply Henv, elem_of_app. by right.
  - intros k Hk. destruct (decide (k ∈ names cs)) as [Hin|Hin].
    + by rewrite He, Hagree.
    + rewrite Hout by done. apply Hframe. by intros [?|?]%elem_of_app.
Qed.

(** What a pool that ended without a panic holds: under the names of
    each construction what that one alone leaves, and the rest as it
    was. *)
Lemma interleaving_ended env0 css pool :
  separate css -> rtc Step (env0, spawn <$> css) pool ->
  Forall (fun t => t = spawn []) pool.2 ->
  Forall (fun cs => exists e, run_calls cs env0 = Some e /\ agree (names cs) pool.1 e) css /\
  forall k, k ∉ names (concat css) -> pool.1 !! k = env0 !! k.
Proof.
  intros Hsep Hreach Hend. split.
  - pose proof (interleaving_isolated env0 css pool Hsep Hreach) as Hiso.
    unfold isolated in Hiso. apply Forall2_same_length_lookup in Hiso as [Hlen Hiso].
    apply Forall_lookup. intros i cs Hcs.
    destruct (lookup_lt_is_Some_2 pool.2 i) as [t Ht];
      [rewrite <-Hlen; by eapply lookup_lt_Some|].
    destruct (Hiso i cs t Hcs Ht) as (n & Hn & Hagree).
    rewrite (Forall_lookup_1 _ _ _ _ Hend Ht) in Hn. eauto using alone_ended.
  - intros k Hk. apply (interleaving_frame env0 (spawn <$> css)); [|done].
    apply Forall_fmap, Forall_forall. intros cs Hcs. apply Forall_forall.
    intros c Hc <-. apply Hk, list_elem_of_fmap. exists c. split; [done|].
    apply list_elem_of_In, in_concat. exists cs. by split; apply list_elem_of_In.
Qed.

(** Constructions over different names can run at once: every
    interleaving that ends without a panic ends in the environment
    that the constructions leave when they run one after the
    other. *)
Theorem interleaving_serial env0 css pool :
  separate css -> rtc Step (env0, spawn <$> css) pool ->
  Forall (fun t => t = spawn []) pool.2 ->
  run_calls (concat css) env0 = Some pool.1.
Proof.
  intros Hsep Hreach Hend.
  destruct (interleaving_ended env0 css pool Hsep Hreach Hend) as [Hcss Hframe].
  by apply (run_calls_concat _ env0).
Qed.

(** Two providers constructed at once, under different names: every
    interleaving that ends without a panic ends in the environment in
    which the second [new] returns when the two run one after the
    other. *)
Theorem new_serial providers k1 b1 m1 h1 pn1 k2 b2 m2 h2 pn2 env0 pool :
  names (new_calls providers k1 b1 m1 h1 pn1)
  ## names (new_calls providers k2 b2 m2 h2 pn2) ->
  rtc Step (env0, [spawn (new_calls providers k1 b1 m1 h1 pn1);
                   spawn (new_calls providers k2 b2 m2 h2 pn2)]) pool ->
  pool.2 = [spawn []; spawn []] ->
  snd <$> (new providers k1 b1 m1 h1 pn1 env0
           ≫= fun r => new providers k2 b2 m2 h2 pn2 r.2) = Some pool.1.
Proof.
  intros Hdisj Hreach Hend.
  rewrite <-(interleaving_serial env0
               [new_calls providers k1 b1 m1 h1 pn1; new_calls providers k2 b2 m2 h2 pn2]
               pool).
  - cbn [concat]. rewrite app_nil_r, run_calls_app, !new_calls_run.
    destruct (run_calls _ env0) as [env1|]; [|done]. cbn [fmap option_fmap option_map mbind option_bind snd].
    rewrite new_calls_run. by destruct (run_calls _ env1).
  - split; [cbn [concat]; by rewrite app_nil_r|split; [|done]].
    intros k _ Hk. by apply elem_of_nil in Hk.
  - done.
  - rewrite Hend. by repeat constructor.
Qed.

(** C9. Two constructions that publish under different names can run
    at once: every interleaving of the two that ends without a panic
    ends in the environment that [setup_env] for the one and then for
    the other returns, in either order. *)
Theorem constructions_commute providers p1 m1 p2 m2 env0 pool :
  names (calls providers p1 m1) ## names (calls providers p2 m2) ->
  rtc Step (env0, [spawn (calls providers p1 m1); spawn (calls providers p2 m2)]) pool ->
  pool.2 = [spawn []; spawn []] ->
  setup_env providers p1 m1 env0 ≫= setup_env providers p2 m2 = Some pool.1 /\
  setup_env providers p2 m2 env0 ≫= setup_env providers p1 m1 = Some pool.1.
Proof.
  assert (forall pa ma pb mb,
            setup_env providers pa ma env0 ≫= setup_env providers pb mb
            = run_calls (concat [calls providers pa ma; calls providers pb mb]) env0)
    as Hseq.
  { intros. cbn [concat]. rewrite app_nil_r, run_calls_app, setup_env_calls.
    destruct (run_calls (calls providers pa ma) env0); simpl; [apply setup_env_calls|done]. }
  rewrite !Hseq. clear Hseq.
  set (c1 := calls providers p1 m1). set (c2 := calls providers p2 m2).
  intros Hdisj Hreach Hend.
  assert (separate [c1; c2]) as Hsep.
  { split; [cbn [concat]; by rewrite app_nil_r|split; [|done]].
    intros k _ Hk. by apply elem_of_nil in Hk. }
  destruct (interleaving_ended env0 [c1; c2] pool Hsep Hreach) as [Hcs Hframe];
    [rewrite Hend; by repeat constructor|].
  apply Forall_cons in Hcs as [H1 [H2 _]%Forall_cons].
  split; apply (run_calls_concat _ env0); try done.
  - by repeat constructor.
  - split; [cbn [concat]; rewrite app_nil_r|split; [|done]].
    + intros k ? ?. by apply (Hdisj k).
    + intros k _ Hk. by apply elem_of_nil in Hk.
  - by repeat constructor.
  - intros k Hk. apply Hframe. cbn [concat] in *. unfold names in *.
    rewrite !fmap_app, !elem_of_app in *. tauto.
Qed.

(** ** Two constructions at once *)

(** Two providers of one vendor with two credentials. *)
Definition zhipu_provider (api_key : string) : LiteLLMProvider := {|
  Resolver.api_key := api_key;
  Resolver.api_base := None;
  Resolver.default_model := "glm-4";
  Resolver.extra_headers := ∅;
  Resolver.gateway := None;
|}.

Definition zhipu_thread (api_key : string) : Thread :=
  spawn (calls PROVIDERS (zhipu_provider api_key) "glm-4").

Definition zhipu_pool : Pool := (∅, [zhipu_thread "key-a"; zhipu_thread "key-b"]).

(** The credentials an environment holds under the two names of the
    vendor. *)
Definition zhipu_credentials (env : Env) : option string * option string :=
  (env !! "ZAI_API_KEY", env !! "ZHIPUAI_API_KEY").

(** One after the other, in either order. *)
Definition zhipu_serial (first second : string) : option Env :=
  setup_env PROVIDERS (zhipu_provider first) "glm-4" ∅
  ≫= setup_env PROVIDERS (zhipu_provider second) "glm-4".

(** Run one after the other, the two constructions leave the
    credential of the first under both names.  Interleaved, they can
    leave one credential under each name, which no order of the two
    gives: the first thread publishes its credential, the second finds
    it and publishes its own under the other name, which the first
    then finds. *)
Example interleaving_mixes_credentials :
  let pool := interleave [0; 0; 1; 1; 1; 0] zhipu_pool in
  forallb finished pool.2 = true /\
  zhipu_credentials pool.1 = (Some "key-a", Some "key-b") /\
  zhipu_credentials <$> zhipu_serial "key-a" "key-b" = Some (Some "key-a", Some "key-a") /\
  zhipu_credentials <$> zhipu_serial "key-b" "key-a" = Some (Some "key-b", Some "key-b").
Proof. by vm_compute. Qed.

(** The test and the write of [set_env_var] are two accesses: both
    threads find the name unset, and the write of the second replaces
    the entry of the first, though neither call overwrites. *)
Example interleaving_replaces_entry :
  let before := interleave [0; 1; 0] zhipu_pool in
  let after := interleave [0; 1; 0; 1] zhipu_pool in
  Step before after /\
  before.1 !! "ZAI_API_KEY" = Some "key-a" /\
  after.1 !! "ZAI_API_KEY" = Some "key-b" /\
  Forall vendor zhipu_pool.2.
Proof.
  split; [|split; [by vm_compute|split; [by vm_compute|]]].
  - destruct (step_at_Step step finished 1 (interleave [0; 1; 0] zhipu_pool)) as [Heq|Hstep]; [|done].
    by apply (f_equal (fun p => p.1 !! "ZAI_API_KEY")) in Heq.
  - repeat constructor.
Qed.

Lemma interleaving_keeps_witness :
  ({[ "ZAI_API_KEY" := "operator-key" ]} : Env)
  ⊆ (interleave [0; 1; 1; 1; 0; 0]
       ({[ "ZAI_API_KEY" := "operator-key" ]},
        [zhipu_thread "key-a"; zhipu_thread "key-b"])).1.
Proof.
  apply (interleaving_keeps _ [zhipu_thread "key-a"; zhipu_thread "key-b"]).
  - repeat constructor.
  - apply reachable_interleave. by eexists.
Defined.

Lemma interleaving_frame_witness :
  (interleave [0; 0; 1; 1; 1; 0] zhipu_pool).1 !! "OPENAI_API_KEY"
  = (∅ : Env) !! "OPENAI_API_KEY".
Proof.
  apply (interleaving_frame ∅ zhipu_pool.2 _ "OPENAI_API_KEY").
  - repeat constructor; by vm_compute.
  - apply reachable_interleave. by eexists.
Defined.


(** The environment after the construction of one of the two alone. *)
Definition zhipu_env : Env :=
  default ∅ (setup_env PROVIDERS (zhipu_provider "key-a") "glm-4" ∅).


(** A provider of another vendor, whose names are not those of
    [kimi_provider]. *)
Definition gpt_provider : LiteLLMProvider := {|
  Resolver.api_key := "sk-gpt";
  Resolver.api_base := None;
  Resolver.default_model := "gpt-4o";
  Resolver.extra_headers := ∅;
  Resolver.gateway := None;
|}.

Definition mixed_pool : Pool :=
  (∅, [spawn (calls PROVIDERS gpt_provider "gpt-4o");
       spawn (calls PROVIDERS kimi_provider "kimi-k2.5")]).

Lemma mixed_pool_names :
  names (calls PROVIDERS gpt_provider "gpt-4o")
  ## names (calls PROVIDERS kimi_provider "kimi-k2.5").
Proof.
  intros k Hgpt Hkimi. vm_compute in Hgpt, Hkimi.
  apply list_elem_of_singleton in Hgpt as ->.
  by repeat (apply elem_of_cons in Hkimi as [?|Hkimi]; [done|]); apply elem_of_nil in Hkimi.
Qed.

Lemma constructions_commute_witness :
  let env := (interleave [1; 0; 1; 0; 1; 1] mixed_pool).1 in
  setup_env PROVIDERS gpt_provider "gpt-4o" ∅
  ≫= setup_env PROVIDERS kimi_provider "kimi-k2.5" = Some env /\
  setup_env PROVIDERS kimi_provider "kimi-k2.5" ∅
  ≫= setup_env PROVIDERS gpt_provider "gpt-4o" = Some env.
Proof.
  apply (constructions_commute PROVIDERS gpt_provider "gpt-4o" kimi_provider "kimi-k2.5"
           ∅ (interleave [1; 0; 1; 0; 1; 1] mixed_pool)).
  - apply mixed_pool_names.
  - apply reachable_interleave. by eexists.
  - by vm_compute.
Defined.

Lemma interleaving_isolated_witness :
  isolated ∅ [calls PROVIDERS gpt_provider "gpt-4o"; calls PROVIDERS kimi_provider "kimi-k2.5"]
    (interleave [1; 0; 1] mixed_pool).
Proof.
  apply interleaving_isolated.
  - split; [cbn [concat]; rewrite app_nil_r; apply mixed_pool_names|split; [|done]].
    intros k _ Hk. by apply elem_of_nil in Hk.
  - apply reachable_interleave. by eexists.
Defined.
