(* ===== verification/Json.v ===== *)
(** * Json: the JSON values the program passes around

    [serde_json::Value] with the accessors the sources call ([get],
    [as_str], [as_bool], [as_object], [is_object]),
    [serde_json::Map] with [new], [get] and [insert], and the class
    [SerdeJson] of a parser and a printer, which the file JsonText
    implements.  A map is an association list whose keys are unique,
    in the order of insertion; the file JsonEquiv relates it to the
    map sorted by key that serde_json holds by default, and gives
    the equality of Rust on values.  [Value_ind_deep] is the
    induction principle with a hypothesis for the elements of arrays
    and the members of objects.

    The constructors carry a [J] prefix ([JString] for
    [Value::String]) since [String] is the constructor of Rocq's
    strings. *)

From S2P Require Import Prelude.

#[local] Set Warnings "-register-all".

(** [serde_json::Number]: an unsigned or negative 64-bit integer or a
    binary64 float. *)
Inductive Number : Type :=
| PosInt (n : N)
| NegInt (z : Z)
| Float (f : spec_float).

Inductive Value : Type :=
| JNull
| JBool (b : bool)
| JNumber (n : Number)
| JString (s : string)
| JArray (elements : list Value)
| JObject (members : list (string * Value)).

(** [serde_json::Map<String, Value>] *)
Definition Map : Type := list (string * Value).

(** The nesting of a value: the number of arrays and objects around
    its innermost part. *)
Fixpoint height (v : Value) : nat :=
  match v with
  | JArray elements => S (foldr Nat.max 0%nat (map height elements))
  | JObject members => S (foldr Nat.max 0%nat (map (fun kv => height kv.2) members))
  | _ => 0%nat
  end.

(** Induction on a value, with the hypothesis for every element of an
    array and every member of an object. *)
Section ValueInd.

Context (P : Value -> Prop).
Context (Hnull : P JNull) (Hbool : forall b, P (JBool b)).
Context (Hnumber : forall n, P (JNumber n)) (Hstring : forall s, P (JString s)).
Context (Harray : forall elements, Forall P elements -> P (JArray elements)).
Context (Hobject : forall members, Forall (fun kv => P kv.2) members -> P (JObject members)).

Fixpoint Value_ind_deep (v : Value) : P v :=
  match v with
  | JNull => Hnull
  | JBool b => Hbool b
  | JNumber n => Hnumber n
  | JString s => Hstring s
  | JArray elements =>
      Harray elements
        ((fix go l : Forall P l :=
            match l with
            | [] => Forall_nil_2 P
            | x :: l => Forall_cons_2 P x l (Value_ind_deep x) (go l)
            end) elements)
  | JObject members =>
      Hobject members
        ((fix go l : Forall (fun kv => P kv.2) l :=
            match l with
            | [] => Forall_nil_2 _
            | kv :: l => Forall_cons_2 _ kv l (Value_ind_deep kv.2) (go l)
            end) members)
  end.

End ValueInd.

Module Map.

(** [Map::new] *)
Definition new : Map := [].

(** [Map::get] *)
Fixpoint get (m : Map) (k : string) : option Value :=
  match m with
  | [] => None
  | (k', v) :: rest => if String.eqb k' k then Some v else get rest k
  end.

(** [Map::insert]: the value under an existing key is replaced. *)
Fixpoint insert (k : string) (v : Value) (m : Map) : Map :=
  match m with
  | [] => [(k, v)]
  | (k', v') :: rest =>
      if String.eqb k' k then (k, v) :: rest else (k', v') :: insert k v rest
  end.

(** [Map::is_empty] *)
Definition is_empty (m : Map) : bool :=
  match m with [] => true | _ :: _ => false end.

(** The keys of a map are unique. *)
Definition wf (m : Map) : Prop := NoDup (fst <$> m).

Lemma get_insert_eq k v m : get (insert k v m) k = Some v.
Proof.
  induction m as [|[k' v'] m IH]; simpl.
  - by rewrite String.eqb_refl.
  - destruct (String.eqb_spec k' k) as [->|Hne]; simpl.
    + by rewrite String.eqb_refl.
    + by destruct (String.eqb_spec k' k).
Qed.

Lemma get_insert_ne k k' v m : k <> k' -> get (insert k v m) k' = get m k'.
Proof.
  intros Hne. induction m as [|[k0 v0] m IH]; simpl.
  - by destruct (String.eqb_spec k k').
  - destruct (String.eqb_spec k0 k) as [->|Hk0]; simpl.
    + by destruct (String.eqb_spec k k').
    + by rewrite IH.
Qed.

(** A new key goes to the end. *)
Lemma insert_fresh k v m : k ∉ m.*1 -> insert k v m = m ++ [(k, v)].
Proof.
  induction m as [|[k' v'] m IH]; [done|]. simpl.
  intros [Hk Hm]%not_elem_of_cons. destruct (String.eqb_spec k' k); [done|]. by rewrite IH.
Qed.

Lemma insert_keys k v m :
  forall k', In k' (fst <$> insert k v m) <-> k' = k \/ In k' (fst <$> m).
Proof.
  induction m as [|[k0 v0] m IH]; intros k'; simpl; [intuition|].
  destruct (String.eqb_spec k0 k) as [->|Hne]; simpl; [intuition|].
  rewrite IH. intuition.
Qed.

(** Insertion keeps the keys unique. *)
Lemma insert_wf k v m : wf m -> wf (insert k v m).
Proof.
  unfold wf. induction m as [|[k0 v0] m IH]; simpl.
  - intros _. apply NoDup_singleton.
  - rewrite NoDup_cons. intros [Hk0 Hm].
    destruct (String.eqb_spec k0 k) as [->|Hne]; simpl.
    + by apply NoDup_cons.
    + apply NoDup_cons. split; [|by apply IH].
      rewrite list_elem_of_In, insert_keys, <-list_elem_of_In. intros [?|?]; done.
Qed.

Lemma new_wf : wf new.
Proof. apply NoDup_nil_2. Qed.

End Map.

(** ** Accessors of [Value] *)

(** [Value::get(key)] with a string index: the member of an object. *)
Definition get (v : Value) (k : string) : option Value :=
  match v with
  | JObject m => Map.get m k
  | _ => None
  end.

(** [Value::as_str] *)
Definition as_str (v : Value) : option string :=
  match v with JString s => Some s | _ => None end.

(** [Value::as_bool] *)
Definition as_bool (v : Value) : option bool :=
  match v with JBool b => Some b | _ => None end.

(** [Value::as_object] *)
Definition as_object (v : Value) : option Map :=
  match v with JObject m => Some m | _ => None end.

(** [Value::is_object] *)
Definition is_object (v : Value) : bool :=
  match v with JObject _ => true | _ => false end.

Lemma as_object_is_object v : is_some (as_object v) = is_object v.
Proof. by destruct v. Qed.

Lemma get_Some_object v k x : get v k = Some x -> is_object v = true.
Proof. by destruct v. Qed.

Lemma as_str_Some v s : as_str v = Some s <-> v = JString s.
Proof. destruct v; simpl; split; congruence. Qed.

Lemma as_bool_Some v b : as_bool v = Some b <-> v = JBool b.
Proof. destruct v; simpl; split; congruence. Qed.

Lemma as_object_Some v m : as_object v = Some m <-> v = JObject m.
Proof. unfold Map in *. destruct v; simpl; split; congruence. Qed.

(** ** Text and values

    The parser and the printer of serde_json are not part of the
    sources; the program is modelled over any pair of them.
    [value_from_str] is [serde_json::from_str::<Value>(s).ok()] and
    [value_to_string] is [Value::to_string]. *)
Class SerdeJson : Type := {
  value_from_str : string -> option Value;
  value_to_string : Value -> string;
}.

(** [serde_json::from_str::<Value>(s)] followed by the test
    [value.is_object()] *)
Definition object_from_str `{SerdeJson} (s : string) : option Value :=
  v ← value_from_str s; if is_object v then Some v else None.

Lemma object_from_str_Some `{SerdeJson} s v :
  object_from_str s = Some v <-> value_from_str s = Some v /\ is_object v = true.
Proof.
  unfold object_from_str. destruct (value_from_str s) as [v'|]; simpl.
  - destruct (is_object v') eqn:Hv; split;
      [by intros [= ->]|by intros [[= ->] _]|done|intros [[= ->] ?]; congruence].
  - split; [done|by intros [? _]].
Qed.
