(* ===== verification/JsonText.v ===== *)
(** * JsonText: the text of JSON values

    The printer and the parser of serde_json, which the program calls
    through [serde_json::to_string] ([Value::to_string]) and
    [serde_json::from_str]: the compact printer with its escapes, and
    the recursive-descent reader with its white space, its escapes
    ([\uXXXX] and surrogate pairs included, encoded as UTF-8), its
    numbers (64-bit integers, and floats converted the way
    [f64_from_parts] does, by one multiplication or division by a
    power of ten) and its recursion limit of 128.  A text is a string
    of bytes.

    The shortest decimal form of a float (the crate [ryu]) is a member
    of the class [Ryu]; [Sample.ryu] prints the exact decimal
    expansion instead, and [Sample.serde] is the reader and the
    printer with it.

    The theorems: what is printed is read back ([from_str_to_string]),
    for values without floats whose integers fit their width, whose
    objects have no key twice and whose nesting is below the recursion
    limit. *)

From S2P Require Import Prelude RustStr Json.

#[local] Open Scope N_scope.

Module Text.

(** ** Characters *)

Definition QUOTATION_MARK : ascii := "034".
Definition REVERSE_SOLIDUS : ascii := "\".

(** The decimal digit [n], for [n < 10]; the hexadecimal digit, in
    lower case, for [n < 16]. *)
Definition digit_char (n : N) : ascii := ascii_of_N (48 + n).

Definition hex_char (n : N) : ascii :=
  if n <? 10 then ascii_of_N (48 + n) else ascii_of_N (87 + n).

Definition is_digit (c : ascii) : bool :=
  let n := N_of_ascii c in (48 <=? n) && (n <=? 57).

Definition digit_value (c : ascii) : N := N_of_ascii c - 48.

(** [decode_hex_val]: a hexadecimal digit of either case. *)
Definition hex_value (c : ascii) : option N :=
  let n := N_of_ascii c in
  if (48 <=? n) && (n <=? 57) then Some (n - 48)
  else if (65 <=? n) && (n <=? 70) then Some (n - 55)
  else if (97 <=? n) && (n <=? 102) then Some (n - 87)
  else None.

(** ** The printer *)

(** [itoa]: the decimal digits of [n], the most significant first. *)
Fixpoint itoa_go (fuel : nat) (n : N) (acc : string) : string :=
  let acc := String (digit_char (n mod 10)) acc in
  match fuel with
  | O => acc
  | S fuel => if n <? 10 then acc else itoa_go fuel (n / 10) acc
  end.

Definition itoa (n : N) : string := itoa_go (N.to_nat (N.log2 n)) n "".

(** [ryu::Buffer::format_finite]: the shortest decimal text that reads
    back as the float. *)
Class Ryu : Type := { format64 : spec_float -> string }.

(** [CharEscape::from_escape_table] and [write_char_escape] *)
Definition escape_char (c : ascii) : string :=
  let n := N_of_ascii c in
  if Ascii.eqb c QUOTATION_MARK then String REVERSE_SOLIDUS (String QUOTATION_MARK "")
  else if Ascii.eqb c REVERSE_SOLIDUS then String REVERSE_SOLIDUS (String REVERSE_SOLIDUS "")
  else if n =? 8 then "\b"
  else if n =? 12 then "\f"
  else if n =? 10 then "\n"
  else if n =? 13 then "\r"
  else if n =? 9 then "\t"
  else if n <? 32 then
    "\u00" +:+ String (hex_char (n / 16)) (String (hex_char (n mod 16)) "")
  else String c "".

(** [format_escaped_str_contents] *)
Fixpoint escape (s : string) : string :=
  match s with
  | EmptyString => ""
  | String c rest => escape_char c +:+ escape rest
  end.

(** [format_escaped_str] *)
Definition quoted (s : string) : string :=
  String QUOTATION_MARK (escape s +:+ String QUOTATION_MARK "").

Section Printer.

Context {ryu : Ryu}.

(** [impl Display for Number] *)
Definition number_to_string (n : Number) : string :=
  match n with
  | PosInt n => itoa n
  | NegInt z => if (z <? 0)%Z then "-" +:+ itoa (Z.abs_N z) else itoa (Z.to_N z)
  | Float f =>
      match f with
      | S754_zero _ | S754_finite _ _ _ => format64 f
      | _ => "null"
      end
  end.

(** [serde_json::to_string] of a [Value], with the compact formatter *)
Fixpoint to_string (v : Value) : string :=
  match v with
  | JNull => "null"
  | JBool true => "true"
  | JBool false => "false"
  | JNumber n => number_to_string n
  | JString s => quoted s
  | JArray elements => "[" +:+ Str.join "," (map to_string elements) +:+ "]"
  | JObject members =>
      "{" +:+ Str.join "," (map (fun kv => quoted kv.1 +:+ ":" +:+ to_string kv.2) members)
      +:+ "}"
  end.

End Printer.

(** ** The reader *)

(** [parse_whitespace]: space, line feed, tab and carriage return. *)
Definition is_ws (c : ascii) : bool :=
  let n := N_of_ascii c in (n =? 32) || (n =? 10) || (n =? 9) || (n =? 13).

Fixpoint skip_ws (s : string) : string :=
  match s with
  | EmptyString => ""
  | String c rest => if is_ws c then skip_ws rest else s
  end.

(** [parse_ident]: the text after the characters of [ident]. *)
Fixpoint parse_ident (ident s : string) : option string :=
  match ident, s with
  | EmptyString, _ => Some s
  | String a ident, String b s => if Ascii.eqb a b then parse_ident ident s else None
  | String _ _, EmptyString => None
  end.

(** *** Strings *)

(** [decode_four_hex_digits] *)
Definition hex4 (a b c d : ascii) : option N :=
  a ← hex_value a; b ← hex_value b; c ← hex_value c; d ← hex_value d;
  Some (((a * 16 + b) * 16 + c) * 16 + d).

(** [char::encode_utf8] *)
Definition encode_utf8 (n : N) : string :=
  let byte k := ascii_of_N k in
  let cont k := byte (128 + k mod 64) in
  if n <? 128 then String (byte n) ""
  else if n <? 2048 then String (byte (192 + n / 64)) (String (cont n) "")
  else if n <? 65536 then
    String (byte (224 + n / 4096)) (String (cont (n / 64)) (String (cont n) ""))
  else
    String (byte (240 + n / 262144))
      (String (cont (n / 4096)) (String (cont (n / 64)) (String (cont n) ""))).

Definition is_high_surrogate (n : N) : bool := (55296 <=? n) && (n <=? 56319).
Definition is_low_surrogate (n : N) : bool := (56320 <=? n) && (n <=? 57343).

(** The character of an escape of one letter. *)
Definition simple_escape (c : ascii) : option ascii :=
  if Ascii.eqb c QUOTATION_MARK then Some QUOTATION_MARK
  else if Ascii.eqb c REVERSE_SOLIDUS then Some REVERSE_SOLIDUS
  else if Ascii.eqb c "/" then Some "/"%char
  else if Ascii.eqb c "b" then Some "008"%char
  else if Ascii.eqb c "f" then Some "012"%char
  else if Ascii.eqb c "n" then Some "010"%char
  else if Ascii.eqb c "r" then Some "013"%char
  else if Ascii.eqb c "t" then Some "009"%char
  else None.

(** [SliceRead::parse_str] with [parse_escape], from the character
    after the opening quote: the string and the text after the closing
    quote.  A control character, an unknown escape and a surrogate
    without its pair are errors. *)
Fixpoint parse_str (s : string) : option (string * string) :=
  match s with
  | EmptyString => None
  | String c rest =>
      if Ascii.eqb c QUOTATION_MARK then Some ("", rest)
      else if Ascii.eqb c REVERSE_SOLIDUS then
        match rest with
        | EmptyString => None
        | String e rest =>
            if Ascii.eqb e "u" then
              match rest with
              | String a (String b (String c (String d rest))) =>
                  n ← hex4 a b c d;
                  if is_low_surrogate n then None
                  else if is_high_surrogate n then
                    match rest with
                    | String b1 (String b2 (String a (String b (String c (String d rest))))) =>
                        if Ascii.eqb b1 REVERSE_SOLIDUS && Ascii.eqb b2 "u" then
                          n2 ← hex4 a b c d;
                          if is_low_surrogate n2 then
                            r ← parse_str rest;
                            Some (encode_utf8 (65536 + (n - 55296) * 1024 + (n2 - 56320))
                                  +:+ r.1, r.2)
                          else None
                        else None
                    | _ => None
                    end
                  else r ← parse_str rest; Some (encode_utf8 n +:+ r.1, r.2)
              | _ => None
              end
            else
              ch ← simple_escape e; r ← parse_str rest; Some (String ch r.1, r.2)
        end
      else if N_of_ascii c <? 32 then None
      else r ← parse_str rest; Some (String c r.1, r.2)
  end.

(** *** Numbers *)

Definition U64_MAX : N := 2 ^ 64 - 1.
Definition I32_MAX : Z := 2 ^ 31 - 1.
Definition I32_MIN : Z := - 2 ^ 31.

(** [u64 as f64] *)
Definition f64_of_N (n : N) : spec_float :=
  binary_normalize 53 1024 (Z.of_N n) 0 false.

(** The table [POW10], [1e0] to [1e308]. *)
Definition POW10 (i : N) : spec_float := f64_of_N (10 ^ i).

Definition is_infinite (f : spec_float) : bool :=
  match f with S754_infinity _ => true | _ => false end.

Definition is_zero (f : spec_float) : bool :=
  match f with S754_zero _ => true | _ => false end.

(** The arm of [f64_from_parts] that finds the power of ten in the
    table. *)
Definition scale (f : spec_float) (exponent : Z) : option spec_float :=
  let pow := POW10 (Z.abs_N exponent) in
  if (0 <=? exponent)%Z then
    let f := SFmul 53 1024 f pow in
    if is_infinite f then None else Some f
  else Some (SFdiv 53 1024 f pow).

(** The loop of [f64_from_parts]; every round but the last brings the
    exponent 308 closer to zero, so [|exponent| / 308] rounds are
    all it runs. *)
Fixpoint f64_from_parts_go (rounds : nat) (f : spec_float) (exponent : Z)
  : option spec_float :=
  match rounds with
  | O => scale f exponent
  | S rounds =>
      if (Z.abs exponent <=? 308)%Z then scale f exponent
      else if is_zero f then Some f
      else if (0 <=? exponent)%Z then None
      else f64_from_parts_go rounds (SFdiv 53 1024 f (POW10 308)) (exponent + 308)
  end.

(** [f64_from_parts]: [significand * 10 ^ exponent], [None] when it is
    out of range. *)
Definition f64_from_parts (positive : bool) (significand : N) (exponent : Z)
  : option spec_float :=
  f ← f64_from_parts_go (Z.to_nat (Z.abs exponent / 308)) (f64_of_N significand) exponent;
  Some (if positive then f else SFopp f).

(** The digits read while the significand fits 64 bits: the
    significand and the text from the first character that is not
    read. *)
Fixpoint read_digits (significand : N) (s : string) : N * string :=
  match s with
  | EmptyString => (significand, s)
  | String c rest =>
      if is_digit c && (significand * 10 + digit_value c <=? U64_MAX) then
        read_digits (significand * 10 + digit_value c) rest
      else (significand, s)
  end.

(** The digits that are dropped once the significand is full. *)
Fixpoint drop_digits (s : string) : string :=
  match s with
  | EmptyString => s
  | String c rest => if is_digit c then drop_digits rest else s
  end.

(** The number of characters read between a text and what is left of
    it. *)
Definition consumed (s rest : string) : Z :=
  Z.of_nat (String.length s - String.length rest).

(** The digits of an exponent, while it fits 32 bits: [None] at the
    digit that overflows it. *)
Fixpoint read_exponent (exp : Z) (s : string) : option Z * string :=
  match s with
  | EmptyString => (Some exp, s)
  | String c rest =>
      if is_digit c then
        let exp := (exp * 10 + Z.of_N (digit_value c))%Z in
        if (I32_MAX <? exp)%Z then (None, rest) else read_exponent exp rest
      else (Some exp, s)
  end.

(** [i32::saturating_add] *)
Definition saturate (z : Z) : Z := (I32_MIN `max` (z `min` I32_MAX))%Z.

(** [parse_exponent] with [parse_exponent_overflow], from the
    character after the [e]. *)
Definition parse_exponent (positive : bool) (significand : N) (starting_exp : Z)
    (s : string) : option (spec_float * string) :=
  let '(positive_exp, s) :=
    match s with
    | String "+" rest => (true, rest)
    | String "-" rest => (false, rest)
    | _ => (true, s)
    end in
  match s with
  | EmptyString => None
  | String c rest =>
      if is_digit c then
        match read_exponent (Z.of_N (digit_value c)) rest with
        | (Some exp, rest) =>
            let final_exp :=
              if positive_exp then saturate (starting_exp + exp)
              else saturate (starting_exp - exp) in
            f ← f64_from_parts positive significand final_exp; Some (f, rest)
        | (None, rest) =>
            if negb (significand =? 0) && positive_exp then None
            else Some (S754_zero (negb positive), drop_digits rest)
        end
      else None
  end.

(** The end of a float: an exponent, or the conversion. *)
Definition finish_float (positive : bool) (significand : N) (exponent : Z)
    (s : string) : option (spec_float * string) :=
  match s with
  | String c rest =>
      if Ascii.eqb c "e" || Ascii.eqb c "E" then
        parse_exponent positive significand exponent rest
      else f ← f64_from_parts positive significand exponent; Some (f, s)
  | EmptyString => f ← f64_from_parts positive significand exponent; Some (f, s)
  end.

(** [parse_decimal] with [parse_decimal_overflow], from the character
    after the point: a digit at least, unless the significand is full
    already. *)
Definition parse_decimal (positive : bool) (significand : N) (exponent_before : Z)
    (s : string) : option (spec_float * string) :=
  let '(significand, rest) := read_digits significand s in
  let digits := consumed s rest in
  let rest' := drop_digits rest in
  if (digits =? 0)%Z && (consumed rest rest' =? 0)%Z then None
  else finish_float positive significand (exponent_before - digits) rest'.

(** [parse_number]: what follows the digits of the integer part makes
    the number a float or an integer; [-0] and the integers below
    [i64::MIN] are floats. *)
Definition parse_number (positive : bool) (significand : N) (s : string)
  : option (Number * string) :=
  let integer :=
    if positive then PosInt significand
    else if (significand =? 0) || (2 ^ 63 <? significand)
    then Float (SFopp (f64_of_N significand))
    else NegInt (- Z.of_N significand) in
  match s with
  | String c rest =>
      if Ascii.eqb c "." then
        r ← parse_decimal positive significand 0 rest; Some (Float r.1, r.2)
      else if Ascii.eqb c "e" || Ascii.eqb c "E" then
        r ← parse_exponent positive significand 0 rest; Some (Float r.1, r.2)
      else Some (integer, s)
  | EmptyString => Some (integer, s)
  end.

(** [parse_long_integer]: the digits that did not fit are dropped and
    counted. *)
Definition parse_long_integer (positive : bool) (significand : N) (dropped : Z)
    (s : string) : option (spec_float * string) :=
  match s with
  | String c rest =>
      if Ascii.eqb c "." then parse_decimal positive significand dropped rest
      else finish_float positive significand dropped s
  | EmptyString => finish_float positive significand dropped s
  end.

(** [parse_integer], from the first digit: one zero, or a digit
    from 1 to 9 and the digits after it. *)
Definition parse_integer (positive : bool) (s : string) : option (Number * string) :=
  match s with
  | EmptyString => None
  | String c rest =>
      if Ascii.eqb c "0" then
        match rest with
        | String d _ => if is_digit d then None else parse_number positive 0 rest
        | EmptyString => parse_number positive 0 rest
        end
      else if is_digit c then
        let '(significand, rest) := read_digits (digit_value c) rest in
        let rest' := drop_digits rest in
        let dropped := consumed rest rest' in
        if (dropped =? 0)%Z then parse_number positive significand rest
        else r ← parse_long_integer positive significand dropped rest'; Some (Float r.1, r.2)
      else None
  end.

(** *** Values *)

(** The map a [MapAccess] builds: the entries inserted in the order of
    the text, a later one replacing an earlier one of the same key. *)
Definition collect (entries : list (string * Value)) : Map :=
  fold_left (fun m kv => Map.insert kv.1 kv.2 m) entries Map.new.

(** The key of a member and its colon, [MapAccess::next_key_seed] and
    [parse_object_colon]: the key and the text after the colon. *)
Definition parse_key (s : string) : option (string * string) :=
  match s with
  | String c rest =>
      if Ascii.eqb c QUOTATION_MARK then
        k ← parse_str rest;
        match skip_ws k.2 with
        | String c rest => if Ascii.eqb c ":" then Some (k.1, rest) else None
        | EmptyString => None
        end
      else None
  | EmptyString => None
  end.

(** [Deserializer::deserialize_any] with the visitor of [Value], and
    the loops of [SeqAccess] and [MapAccess].  [depth] is
    [remaining_depth]; [fuel] bounds the calls, which the length of
    the text does. *)
Fixpoint parse_value (fuel depth : nat) (s : string) : option (Value * string) :=
  match fuel with
  | O => None
  | S fuel =>
      match skip_ws s with
      | EmptyString => None
      | String c rest =>
          if is_digit c then
            r ← parse_integer true (String c rest); Some (JNumber r.1, r.2)
          else if Ascii.eqb c "-" then
            r ← parse_integer false rest; Some (JNumber r.1, r.2)
          else if Ascii.eqb c "n" then rest ← parse_ident "ull" rest; Some (JNull, rest)
          else if Ascii.eqb c "t" then rest ← parse_ident "rue" rest; Some (JBool true, rest)
          else if Ascii.eqb c "f" then rest ← parse_ident "alse" rest; Some (JBool false, rest)
          else if Ascii.eqb c QUOTATION_MARK then r ← parse_str rest; Some (JString r.1, r.2)
          else if Ascii.eqb c "[" then
            match depth with
            | S (S depth) =>
                match skip_ws rest with
                | EmptyString => None
                | String c rest' =>
                    if Ascii.eqb c "]" then Some (JArray [], rest')
                    else r ← parse_elements fuel (S depth) rest; Some (JArray r.1, r.2)
                end
            | _ => None
            end
          else if Ascii.eqb c "{" then
            match depth with
            | S (S depth) =>
                match skip_ws rest with
                | EmptyString => None
                | String c rest' =>
                    if Ascii.eqb c "}" then Some (JObject [], rest')
                    else r ← parse_members fuel (S depth) rest; Some (JObject (collect r.1), r.2)
                end
            | _ => None
            end
          else None
      end
  end
with parse_elements (fuel depth : nat) (s : string) : option (list Value * string) :=
  match fuel with
  | O => None
  | S fuel =>
      v ← parse_value fuel depth s;
      match skip_ws v.2 with
      | String c rest =>
          if Ascii.eqb c "," then
            r ← parse_elements fuel depth rest; Some (v.1 :: r.1, r.2)
          else if Ascii.eqb c "]" then Some ([v.1], rest)
          else None
      | EmptyString => None
      end
  end
with parse_members (fuel depth : nat) (s : string)
  : option (list (string * Value) * string) :=
  match fuel with
  | O => None
  | S fuel =>
      k ← parse_key (skip_ws s);
      v ← parse_value fuel depth k.2;
      match skip_ws v.2 with
      | String c rest =>
          if Ascii.eqb c "," then
            r ← parse_members fuel depth rest; Some ((k.1, v.1) :: r.1, r.2)
          else if Ascii.eqb c "}" then Some ([(k.1, v.1)], rest)
          else None
      | EmptyString => None
      end
  end.

(** [Deserializer::new]'s [remaining_depth] *)
Definition RECURSION_LIMIT : nat := 128.

(** [serde_json::from_str::<Value>(s).ok()]: one value, and white
    space on either side of it. *)
Definition from_str (s : string) : option Value :=
  r ← parse_value (S (String.length s)) RECURSION_LIMIT s;
  if Str.is_empty (skip_ws r.2) then Some r.1 else None.

(** The reader and the printer as the program sees them. *)
Definition serde {ryu : Ryu} : SerdeJson :=
  {| value_from_str := from_str; value_to_string := to_string |}.

(** ** Digits *)

(** What ends a number: the end of the text, or a character that
    continues neither an integer nor a float. *)
Definition number_end (s : string) : bool :=
  match s with
  | EmptyString => true
  | String c _ =>
      negb (is_digit c || Ascii.eqb c "." || Ascii.eqb c "e" || Ascii.eqb c "E")
  end.

Lemma digit_char_spec n :
  n < 10 ->
  is_digit (digit_char n) = true /\ digit_value (digit_char n) = n /\
  (digit_char n = "0"%char -> n = 0).
Proof.
  rewrite <-(N2Nat.id n). generalize (N.to_nat n). clear n. intros m Hm.
  do 10 (destruct m as [|m]; [by repeat split|]). lia.
Qed.

Lemma is_digit_value c : is_digit c = true -> digit_value c <= U64_MAX.
Proof.
  unfold is_digit, digit_value. intros [_ Hhi%N.leb_le]%andb_true_iff.
  transitivity 9; [lia|done].
Qed.

Lemma is_digit_not_ws c : is_digit c = true -> is_ws c = false.
Proof.
  unfold is_digit, is_ws. intros [Hlo Hhi]%andb_true_iff. apply N.leb_le in Hlo, Hhi.
  repeat (apply orb_false_iff; split); apply N.eqb_neq; lia.
Qed.

Lemma read_digits_end n rest : number_end rest = true -> read_digits n rest = (n, rest).
Proof. destruct rest as [|c rest]; [done|]. simpl. by destruct (is_digit c). Qed.

Lemma drop_digits_end rest : number_end rest = true -> drop_digits rest = rest.
Proof. destruct rest as [|c rest]; [done|]. simpl. by destruct (is_digit c). Qed.

Lemma read_digits_digit a k acc :
  k < 10 -> a * 10 + k <= U64_MAX ->
  read_digits a (String (digit_char k) acc) = read_digits (a * 10 + k) acc.
Proof.
  intros (Hd & Hv & _)%digit_char_spec Hmax. simpl. rewrite Hd, Hv.
  by apply N.leb_le in Hmax as ->.
Qed.

Lemma itoa_go_app fuel rest : forall n acc,
  itoa_go fuel n acc +:+ rest = itoa_go fuel n (acc +:+ rest).
Proof. induction fuel as [|fuel IH]; intros n acc; simpl; [done|]. by case_match. Qed.

Lemma log2_tenth n : 10 <= n -> N.log2 (n / 10) < N.log2 n.
Proof.
  intros Hn. apply N.le_lt_trans with (N.log2 (n / 2)).
  - apply N.log2_le_mono, N.div_le_compat_l. lia.
  - rewrite <-N.div2_div, N.div2_spec, N.log2_shiftr.
    assert (0 < N.log2 n); [|lia]. apply N.log2_pos. lia.
Qed.

Lemma log2_zero n : N.log2 n <= 0 -> n < 10.
Proof.
  intros Hlog. destruct (N.eq_dec n 0) as [->|Hn]; [done|].
  destruct (N.log2_spec n) as [_ Hlt]; [lia|].
  replace (N.log2 n) with 0 in Hlt by lia. simpl in Hlt. lia.
Qed.

(** Reading the digits of [n] gives [n]. *)
Lemma read_digits_itoa_go fuel : forall n acc,
  N.log2 n <= N.of_nat fuel -> n <= U64_MAX ->
  read_digits 0 (itoa_go fuel n acc) = read_digits n acc.
Proof.
  assert (forall n acc, n < 10 -> n <= U64_MAX ->
    read_digits 0 (String (digit_char (n mod 10)) acc) = read_digits n acc) as Hone.
  { intros n acc Hn Hmax. rewrite N.mod_small by done. by rewrite read_digits_digit. }
  induction fuel as [|fuel IH]; intros n acc Hlog Hmax; simpl.
  - apply Hone; [by apply log2_zero|done].
  - destruct (N.ltb_spec n 10) as [Hn|Hn]; [by apply Hone|].
    pose proof (log2_tenth n Hn). pose proof (N.Div0.div_mod n 10).
    pose proof (N.mod_lt n 10 ltac:(done)).
    set (q := n / 10) in *. set (r := n mod 10) in *. clearbody q r.
    rewrite IH, read_digits_digit by lia. f_equal. lia.
Qed.

(** The digits of [n] begin with a zero when [n] is zero only. *)
Lemma itoa_go_head fuel : forall n acc,
  N.log2 n <= N.of_nat fuel ->
  exists c t, itoa_go fuel n acc = String c t /\ is_digit c = true /\
    (c = "0"%char -> n = 0).
Proof.
  assert (forall n acc, n < 10 -> exists c t,
    String (digit_char (n mod 10)) acc = String c t /\ is_digit c = true /\
    (c = "0"%char -> n = 0)) as Hone.
  { intros n acc Hn. rewrite N.mod_small by done.
    destruct (digit_char_spec n Hn) as (? & _ & ?). by eexists _, _. }
  induction fuel as [|fuel IH]; intros n acc Hlog; simpl.
  - by apply Hone, log2_zero.
  - destruct (N.ltb_spec n 10) as [Hn|Hn]; [by apply Hone|].
    pose proof (log2_tenth n Hn).
    destruct (IH (n / 10) (String (digit_char (n mod 10)) acc)) as (c & t & -> & Hc & Hz);
      [lia|].
    exists c, t. repeat split; [done|]. intros Hc0%Hz.
    apply N.div_small_iff in Hc0; lia.
Qed.

Lemma itoa_go_digits fuel : forall n acc,
  Str.all is_digit acc = true -> Str.all is_digit (itoa_go fuel n acc) = true.
Proof.
  assert (forall n acc, Str.all is_digit acc = true ->
    Str.all is_digit (String (digit_char (n mod 10)) acc) = true) as Hone.
  { intros n acc Hacc. simpl. rewrite Hacc.
    by destruct (digit_char_spec (n mod 10)) as [-> _]; [apply N.mod_lt|]. }
  induction fuel as [|fuel IH]; intros n acc Hacc; simpl; [by apply Hone|].
  case_match; [by apply Hone|]. by apply IH, Hone.
Qed.

(** The digits of an integer are digits. *)
Lemma itoa_digits n : Str.all is_digit (itoa n) = true.
Proof. by apply itoa_go_digits. Qed.

Lemma itoa_head n :
  exists c t, itoa n = String c t /\ is_digit c = true /\ (c = "0"%char -> n = 0).
Proof. apply itoa_go_head. lia. Qed.

(** An integer that fits 64 bits is read from its digits. *)
Lemma parse_integer_itoa positive n rest :
  n <= U64_MAX -> number_end rest = true ->
  parse_integer positive (itoa n +:+ rest) = parse_number positive n rest.
Proof.
  intros Hmax Hend. destruct (itoa_head n) as (c & t & Hn & Hc & Hzero).
  assert (read_digits 0 (itoa n +:+ rest) = (n, rest)) as Hrest.
  { unfold itoa. rewrite itoa_go_app, read_digits_itoa_go by (done || lia).
    by apply read_digits_end. }
  rewrite Hn in *. rewrite Str.sapp_cons in *. cbn [parse_integer].
  destruct (Ascii.eqb_spec c "0") as [->|Hc0].
  - assert (n = 0) as -> by auto. injection Hn as <-. rewrite Str.sapp_nil_l.
    destruct rest as [|d rest]; [done|]. simpl in Hend. by destruct (is_digit d).
  - rewrite Hc. cbn [read_digits] in Hrest.
    rewrite Hc, N.mul_0_l, N.add_0_l in Hrest. cbn [andb] in Hrest.
    rewrite (proj2 (N.leb_le _ _) (is_digit_value c Hc)) in Hrest.
    rewrite Hrest, drop_digits_end by done. unfold consumed. by rewrite Nat.sub_diag.
Qed.

Lemma parse_number_end positive n rest :
  number_end rest = true ->
  parse_number positive n rest =
    Some (if positive then PosInt n
          else if (n =? 0) || (2 ^ 63 <? n) then Float (SFopp (f64_of_N n))
          else NegInt (- Z.of_N n), rest).
Proof.
  destruct rest as [|c rest]; [done|]. unfold number_end, parse_number.
  intros [[[_ ->]%orb_false_iff ->]%orb_false_iff ->]%negb_true_iff%orb_false_iff. done.
Qed.

(** ** Strings *)

(** An escaped character is read back as the character. *)
Lemma parse_str_escape_char c t :
  parse_str (escape_char c +:+ t) = r ← parse_str t; Some (String c r.1, r.2).
Proof. by destruct c as [[] [] [] [] [] [] [] []]. Qed.

(** A quoted string is read back. *)
Lemma parse_str_escape s rest :
  parse_str (escape s +:+ String QUOTATION_MARK rest) = Some (s, rest).
Proof.
  induction s as [|c s IH]; [done|]. cbn [escape].
  by rewrite Str.sapp_assoc, parse_str_escape_char, IH.
Qed.

(** ** Values *)

(** The values that are read back from their text: no float, integers
    within their width, no key twice in an object. *)
Fixpoint readable (v : Value) : bool :=
  match v with
  | JNumber (PosInt n) => n <=? U64_MAX
  | JNumber (NegInt z) => (- 2 ^ 63 <=? z)%Z && (z <? 0)%Z
  | JNumber (Float _) => false
  | JArray elements => forallb readable elements
  | JObject members =>
      forallb (fun kv => readable kv.2) members && bool_decide (NoDup members.*1)
  | _ => true
  end.

(** What starts a value. *)
Definition value_start (c : ascii) : bool :=
  is_digit c || bool_decide (c ∈ ["-"; "n"; "t"; "f"; QUOTATION_MARK; "["; "{"]%char).

Lemma skip_ws_start c s : value_start c = true -> skip_ws (String c s) = String c s.
Proof.
  unfold value_start. intros [Hc|Hc%bool_decide_eq_true]%orb_true_iff.
  - simpl. by rewrite is_digit_not_ws.
  - by repeat (apply elem_of_cons in Hc as [->|Hc]; [done|]); apply elem_of_nil in Hc.
Qed.

Lemma collect_app acc entries :
  NoDup ((acc ++ entries).*1) ->
  fold_left (fun m kv => Map.insert kv.1 kv.2 m) entries acc = acc ++ entries.
Proof.
  revert acc. induction entries as [|[k v] entries IH]; intros acc Hnd; simpl.
  - by rewrite app_nil_r.
  - rewrite Map.insert_fresh, IH, <-?app_assoc; [done|by rewrite <-app_assoc|].
    rewrite fmap_app, NoDup_app in Hnd. destruct Hnd as (_ & Hnd & _).
    intros Hk. apply (Hnd k Hk). left.
Qed.

(** The entries of a map without a key twice are collected as they
    are. *)
Lemma collect_NoDup entries : NoDup entries.*1 -> collect entries = entries.
Proof. intros Hnd. by apply (collect_app []). Qed.

Lemma value_start_not_close c :
  value_start c = true -> Ascii.eqb c "]" = false /\ Ascii.eqb c "}" = false.
Proof.
  unfold value_start. intros [Hc|Hc%bool_decide_eq_true]%orb_true_iff.
  - split; apply Ascii.eqb_neq; by intros ->.
  - by repeat (apply elem_of_cons in Hc as [->|Hc]; [done|]); apply elem_of_nil in Hc.
Qed.

(** Elements that are below a depth make an array that is below the
    next. *)
Lemma height_below {A} (f : A -> nat) l depth :
  (foldr Nat.max 0 (map f l) < S depth)%nat -> Forall (fun x => f x < S depth)%nat l.
Proof.
  induction l as [|x l IH]; simpl; intros Hmax; constructor; [lia|apply IH; lia].
Qed.

(** What a list of texts joined begins with, when the first text
    begins with a character that starts a value. *)
Lemma join_start text texts tail c t :
  text = String c t -> value_start c = true ->
  exists t', Str.join "," (text :: texts) +:+ tail = String c t' /\
    skip_ws (String c t') = String c t' /\
    Ascii.eqb c "]" = false /\ Ascii.eqb c "}" = false.
Proof.
  intros -> Hc. destruct (value_start_not_close c Hc) as [? ?].
  destruct texts; cbn [Str.join]; rewrite !Str.sapp_cons; eexists;
    (split; [done|]); by rewrite skip_ws_start.
Qed.

(** Only a text that begins with an opening brace, after white space,
    is read as an object. *)
Lemma parse_value_object_start fuel depth s v rest :
  parse_value fuel depth s = Some (v, rest) -> is_object v = true ->
  exists t, skip_ws s = String "{" t.
Proof.
  destruct fuel as [|fuel]; [done|]. cbn [parse_value].
  destruct (skip_ws s) as [|c t]; [done|]. intros Hp Ho. exists t.
  destruct (Ascii.eqb_spec c "{") as [->|Hc]; [done|].
  repeat (case_match; simplify_option_eq; try done).
Qed.

(** The white space of JSON is white space of Rust. *)
Lemma is_ws_whitespace c : is_ws c = true -> Str.is_whitespace c = true.
Proof. by destruct c as [[] [] [] [] [] [] [] []]. Qed.

Section Reading.

Context {ryu : Ryu}.

(** What may follow the text of a value: anything, unless the value
    is a number. *)
Definition ends (v : Value) (rest : string) : Prop :=
  match v with
  | JNumber _ => number_end rest = true
  | _ => True
  end.

Lemma number_end_ends v rest : number_end rest = true -> ends v rest.
Proof. by destruct v. Qed.

(** [Reads v]: the text of [v] is read back as [v], given the fuel and
    the depth it takes. *)
Definition Reads (v : Value) : Prop :=
  forall fuel depth rest,
    (String.length (to_string v) <= fuel)%nat -> (height v < depth)%nat ->
    ends v rest ->
    parse_value fuel depth (to_string v +:+ rest) = Some (v, rest).

#[local] Ltac solve_reads := done || lia || by apply number_end_ends.

Lemma to_string_start v :
  readable v = true -> exists c t, to_string v = String c t /\ value_start c = true.
Proof.
  destruct v as [|[]|[n|z|f]| | |]; simpl; try done; try (by eexists _, _); [|].
  - intros _. destruct (itoa_head n) as (c & t & -> & Hc & _).
    exists c, t. unfold value_start. by rewrite Hc.
  - intros [_ ->]%andb_true_iff. by exists "-"%char, (itoa (Z.abs_N z)).
Qed.

Lemma Reads_number n : readable (JNumber n) = true -> Reads (JNumber n).
Proof.
  intros Hn [|fuel] depth rest Hfuel _ Hend.
  { apply to_string_start in Hn as (c & t & Hs & _). rewrite Hs in Hfuel. simpl in Hfuel. lia. }
  destruct n as [n|z|f]; [| |done]; cbn [readable to_string number_to_string] in *.
  - destruct (itoa_head n) as (c & t & Hs & Hc & _).
    cbn [parse_value]. rewrite Hs, Str.sapp_cons, skip_ws_start, Hc, <-Str.sapp_cons, <-Hs;
      [|unfold value_start; by rewrite Hc].
    apply N.leb_le in Hn. by rewrite parse_integer_itoa, parse_number_end.
  - apply andb_true_iff in Hn as [Hmin%Z.leb_le Hneg].
    rewrite Hneg. apply Z.ltb_lt in Hneg. rewrite !Str.sapp_cons, Str.sapp_nil_l.
    cbn [parse_value]. rewrite skip_ws_start by done.
    change (is_digit "-") with false. change (Ascii.eqb "-" "-") with true.
    cbv iota. rewrite parse_integer_itoa, parse_number_end by (done || unfold U64_MAX; lia).
    simpl. replace (_ || _) with false
      by (symmetry; apply orb_false_iff; split; [apply N.eqb_neq|apply N.ltb_ge]; lia).
    repeat f_equal. lia.
Qed.

(** The text of a member, [key:value]. *)
Definition member_text (kv : string * Value) : string :=
  quoted kv.1 +:+ ":" +:+ to_string kv.2.

Lemma parse_value_array fuel depth rest :
  parse_value (S fuel) (S (S depth)) (String "[" rest) =
    match skip_ws rest with
    | EmptyString => None
    | String c rest' =>
        if Ascii.eqb c "]" then Some (JArray [], rest')
        else r ← parse_elements fuel (S depth) rest; Some (JArray r.1, r.2)
    end.
Proof. done. Qed.

Lemma parse_value_object fuel depth rest :
  parse_value (S fuel) (S (S depth)) (String "{" rest) =
    match skip_ws rest with
    | EmptyString => None
    | String c rest' =>
        if Ascii.eqb c "}" then Some (JObject [], rest')
        else r ← parse_members fuel (S depth) rest; Some (JObject (collect r.1), r.2)
    end.
Proof. done. Qed.

Lemma parse_key_quoted k rest :
  parse_key (skip_ws (quoted k +:+ String ":" rest)) = Some (k, rest).
Proof.
  unfold quoted. rewrite Str.sapp_cons, skip_ws_start by done. cbn [parse_key].
  change (Ascii.eqb QUOTATION_MARK QUOTATION_MARK) with true. cbv iota.
  by rewrite Str.sapp_assoc, Str.sapp_cons, Str.sapp_nil_l, parse_str_escape.
Qed.

Lemma parse_elements_more fuel depth s v rest :
  parse_value fuel depth s = Some (v, String "," rest) ->
  parse_elements (S fuel) depth s = r ← parse_elements fuel depth rest; Some (v :: r.1, r.2).
Proof. intros Hv. cbn [parse_elements]. by rewrite Hv. Qed.

Lemma parse_elements_last fuel depth s v rest :
  parse_value fuel depth s = Some (v, String "]" rest) ->
  parse_elements (S fuel) depth s = Some ([v], rest).
Proof. intros Hv. cbn [parse_elements]. by rewrite Hv. Qed.

Lemma parse_members_more fuel depth k s v rest :
  parse_value fuel depth s = Some (v, String "," rest) ->
  parse_members (S fuel) depth (quoted k +:+ String ":" s)
  = r ← parse_members fuel depth rest; Some ((k, v) :: r.1, r.2).
Proof. intros Hv. cbn [parse_members]. rewrite parse_key_quoted. simpl. by rewrite Hv. Qed.

Lemma parse_members_last fuel depth k s v rest :
  parse_value fuel depth s = Some (v, String "}" rest) ->
  parse_members (S fuel) depth (quoted k +:+ String ":" s) = Some ([(k, v)], rest).
Proof. intros Hv. cbn [parse_members]. rewrite parse_key_quoted. simpl. by rewrite Hv. Qed.

(** The elements of an array are read back, to the bracket that
    closes it. *)
Lemma Reads_elements l :
  Forall (fun v => readable v = true -> Reads v) l ->
  forallb readable l = true -> l <> [] ->
  forall fuel depth rest,
    (String.length (Str.join "," (map to_string l)) < fuel)%nat ->
    Forall (fun v => height v < depth)%nat l ->
    parse_elements fuel depth (Str.join "," (map to_string l) +:+ String "]" rest)
    = Some (l, rest).
Proof.
  induction 1 as [|v l Hv _ IH]; [done|]. cbn [forallb map].
  intros [Hr Hl]%andb_true_iff _ [|fuel] depth rest Hfuel [Hdv Hdl]%Forall_cons; [lia|].
  specialize (Hv Hr). destruct l as [|v' l].
  - cbn [Str.join map] in *. apply parse_elements_last, Hv; solve_reads.
  - rewrite Str.join_cons in * by done. rewrite !Str.length_sapp in Hfuel.
    rewrite !Str.sapp_assoc.
    rewrite (parse_elements_more _ _ _ v
               (Str.join "," (map to_string (v' :: l)) +:+ String "]" rest))
      by (apply Hv; solve_reads).
    rewrite IH; (done || simpl in *; lia).
Qed.

(** The members of an object are read back, to the brace that closes
    it. *)
Lemma Reads_members m :
  Forall (fun kv => readable kv.2 = true -> Reads kv.2) m ->
  forallb (fun kv => readable kv.2) m = true -> m <> [] ->
  forall fuel depth rest,
    (String.length (Str.join "," (map member_text m)) < fuel)%nat ->
    Forall (fun kv => height kv.2 < depth)%nat m ->
    parse_members fuel depth (Str.join "," (map member_text m) +:+ String "}" rest)
    = Some (m, rest).
Proof.
  induction 1 as [|[k v] m Hv _ IH]; [done|]. cbn [forallb map].
  intros [Hr Hm]%andb_true_iff _ [|fuel] depth rest Hfuel [Hdv Hdm]%Forall_cons; [lia|].
  specialize (Hv Hr). cbn [fst snd] in *.
  change (member_text (k, v)) with (quoted k +:+ ":" +:+ to_string v) in *.
  destruct m as [|kv m].
  - cbn [Str.join map] in *. rewrite !Str.length_sapp in Hfuel.
    rewrite !Str.sapp_assoc, Str.sapp_cons, Str.sapp_nil_l.
    apply parse_members_last, Hv; solve_reads.
  - rewrite Str.join_cons in * by done. rewrite !Str.length_sapp in Hfuel.
    rewrite !Str.sapp_assoc, Str.sapp_cons, Str.sapp_nil_l.
    rewrite (parse_members_more _ _ _ _ v
               (Str.join "," (map member_text (kv :: m)) +:+ String "}" rest))
      by (apply Hv; solve_reads).
    rewrite IH; (done || simpl in *; lia).
Qed.

(** A readable value is read back from its text. *)
Lemma readable_Reads v : readable v = true -> Reads v.
Proof.
  induction v as [|[]|n|s|l IH|m IH] using Value_ind_deep; intros Hr;
    [| | |by apply Reads_number|..]; intros [|fuel] depth rest Hfuel Hdepth _;
    try (simpl in Hfuel; lia); [done..| | |].
  - cbn [to_string parse_value]. unfold quoted.
    rewrite !Str.sapp_cons, Str.sapp_assoc, Str.sapp_cons, Str.sapp_nil_l.
    by rewrite skip_ws_start, parse_str_escape.
  - destruct depth as [|[|depth]]; [simpl in Hdepth; lia..|].
    cbn [to_string height] in *. rewrite !Str.length_sapp in Hfuel.
    cbn [String.length] in Hfuel.
    rewrite !Str.sapp_cons, !Str.sapp_nil_l, Str.sapp_assoc, Str.sapp_cons, Str.sapp_nil_l,
      parse_value_array.
    destruct l as [|v l]; [done|].
    destruct (to_string_start v) as (c & t & Hs & Hc); [by apply andb_true_iff in Hr as []|].
    destruct (join_start _ (map to_string l) (String "]" rest) c t Hs Hc)
      as (t' & Ht & Hws & Hclose & _).
    change (map to_string (v :: l)) with (to_string v :: map to_string l) at 1.
    rewrite Ht, Hws, Hclose, Reads_elements; try done.
    + lia.
    + apply height_below. lia.
  - destruct depth as [|[|depth]]; [simpl in Hdepth; lia..|].
    apply andb_true_iff in Hr as [Hr Hnd%bool_decide_eq_true].
    cbn [to_string height] in *. fold member_text in *.
    rewrite !Str.length_sapp in Hfuel. cbn [String.length] in Hfuel.
    rewrite !Str.sapp_cons, !Str.sapp_nil_l, Str.sapp_assoc, Str.sapp_cons, Str.sapp_nil_l,
      parse_value_object.
    destruct m as [|[k v] m]; [done|].
    destruct (join_start (member_text (k, v)) (map member_text m) (String "}" rest)
                QUOTATION_MARK ((escape k +:+ String QUOTATION_MARK "") +:+ ":" +:+ to_string v))
      as (t' & Ht & Hws & _ & Hclose); [done..|].
    change (map member_text ((k, v) :: m))
      with (member_text (k, v) :: map member_text m) at 1.
    rewrite Ht, Hws, Hclose, Reads_members; try done.
    + simpl. by rewrite collect_NoDup.
    + lia.
    + apply (height_below (fun kv => height kv.2)). lia.
Qed.

(** What is printed is read back: the reader gives a readable value
    below the recursion limit back from its text. *)
Theorem from_str_to_string v :
  readable v = true -> (height v < RECURSION_LIMIT)%nat ->
  from_str (to_string v) = Some v.
Proof.
  intros Hr Hdepth. unfold from_str.
  rewrite <-(Str.sapp_nil_r (to_string v)) at 2.
  by rewrite readable_Reads by solve_reads.
Qed.

End Reading.

End Text.

(** ** Samples

    A printer of floats and some texts, for running the program on
    concrete inputs.  [exact] prints the decimal expansion of a float,
    which is finite: a text that denotes the float, but not the
    shortest one that reads back as it. *)
Module Sample.

Fixpoint zeros (n : nat) : string :=
  match n with O => "" | S n => String "0" (zeros n) end.

Definition exact (f : spec_float) : string :=
  match f with
  | S754_zero s => (if s then "-" else "") +:+ "0.0"
  | S754_finite s m e =>
      (if s then "-" else "") +:+
      (if (0 <=? e)%Z then Text.itoa (Npos m * 2 ^ Z.to_N e) +:+ ".0"
       else
         let k := Z.to_N (- e) in
         let d := Npos m * 5 ^ k in
         let fraction := Text.itoa (d mod 10 ^ k) in
         Text.itoa (d / 10 ^ k) +:+ "."
         +:+ zeros (N.to_nat k - String.length fraction) +:+ fraction)
  | _ => "null"
  end.

Definition ryu : Text.Ryu := {| Text.format64 := exact |}.

Definition serde : SerdeJson := @Text.serde ryu.

(** [{"key":"value"}] *)
Definition object_text (key value : string) : string :=
  @Text.to_string ryu (JObject [(key, JString value)]).

(** [{"key":literal}] *)
Definition literal_text (key : string) (literal : bool) : string :=
  @Text.to_string ryu (JObject [(key, JBool literal)]).

Definition paris : string := object_text "city" "Paris".
Definition raw_oops : string := object_text "raw" "oops".
Definition claims_true : string := literal_text "claims_no_tools" true.
Definition claims_false : string := literal_text "claims_no_tools" false.

End Sample.
