(* ===== verification/JsonValid.v ===== *)
(** * JsonValid: the values the reader returns

    What the program can rely on in a value that
    [serde_json::from_str] returned, whatever the text was: an
    unsigned integer fits 64 bits and a negative one fits [i64] (the
    digits beyond make the number a float), an object holds no key
    twice, and the nesting is below the recursion limit.

    [parsed] is induction on the texts the reader accepts: a
    property that holds of the scalars the reader builds and passes
    from the elements to the array and from the entries to the
    collected object holds of every value read.  [wellformed] and the
    bound on [height] are two uses of it.

    The theorems: [from_str_wellformed]; a value read that holds no
    float is [readable], so its text is read back as the same value
    ([from_str_stable]). *)

From S2P Require Import Prelude RustStr Json JsonText.
Import Text.

#[local] Open Scope N_scope.

(** ** Well-formed values *)

(** A number within the widths of [serde_json::Number]. *)
Definition number_ok (n : Number) : bool :=
  match n with
  | PosInt n => n <=? U64_MAX
  | NegInt z => (- 2 ^ 63 <=? z)%Z && (z <? 0)%Z
  | Float _ => true
  end.

Fixpoint wellformed (v : Value) : bool :=
  match v with
  | JNumber n => number_ok n
  | JArray elements => forallb wellformed elements
  | JObject members =>
      forallb (fun kv => wellformed kv.2) members && bool_decide (NoDup members.*1)
  | _ => true
  end.

(** A value that holds no float. *)
Fixpoint float_free (v : Value) : bool :=
  match v with
  | JNumber (Float _) => false
  | JArray elements => forallb float_free elements
  | JObject members => forallb (fun kv => float_free kv.2) members
  | _ => true
  end.

Lemma forallb_andb {A} (f g : A -> bool) l :
  forallb (fun x => f x && g x) l = forallb f l && forallb g l.
Proof.
  induction l as [|x l IH]; [done|]. simpl. rewrite IH.
  destruct (f x), (g x), (forallb f l); done.
Qed.

Lemma forallb_ext_Forall {A} (f g : A -> bool) l :
  Forall (fun x => f x = g x) l -> forallb f l = forallb g l.
Proof. induction 1 as [|x l Hx _ IH]; [done|]. simpl. by rewrite Hx, IH. Qed.

(** The values that are read back from their text are the well-formed
    ones without a float. *)
Lemma readable_wellformed v : readable v = wellformed v && float_free v.
Proof.
  induction v as [| | [n|z|f] | | elements IH | members IH] using Value_ind_deep;
    cbn [readable wellformed float_free number_ok]; rewrite ?andb_true_r; try done.
  - rewrite <-forallb_andb. by apply forallb_ext_Forall.
  - rewrite (forallb_ext_Forall _ (fun kv => wellformed kv.2 && float_free kv.2)) by done.
    rewrite forallb_andb. by destruct (forallb _ _), (forallb _ _), (bool_decide _).
Qed.

(** ** Numbers *)

(** The digits are read while the significand fits 64 bits. *)
Lemma read_digits_bound s : forall significand,
  significand <= U64_MAX -> (read_digits significand s).1 <= U64_MAX.
Proof.
  induction s as [|c s IH]; intros significand Hmax; [done|]. simpl.
  destruct (is_digit c); [|done]. simpl.
  destruct (N.leb_spec (significand * 10 + digit_value c) U64_MAX); [by apply IH|done].
Qed.

(** An integer is within its width, whatever the text after it makes
    of it. *)
Lemma parse_number_ok positive significand s n rest :
  significand <= U64_MAX ->
  parse_number positive significand s = Some (n, rest) -> number_ok n = true.
Proof.
  intros Hmax. unfold parse_number.
  assert (number_ok (if positive then PosInt significand
                     else if (significand =? 0) || (2 ^ 63 <? significand)
                     then Float (SFopp (f64_of_N significand))
                     else NegInt (- Z.of_N significand)) = true) as Hinteger.
  { destruct positive; [by apply N.leb_le|].
    destruct (N.eqb_spec significand 0); [done|].
    destruct (N.ltb_spec (2 ^ 63) significand); [done|]. simpl.
    apply andb_true_iff. split; [apply Z.leb_le|apply Z.ltb_lt]; lia. }
  destruct s as [|c s]; [by intros [= <- _]|].
  repeat case_match; intros Hp; simplify_option_eq; done.
Qed.

Lemma parse_integer_ok positive s n rest :
  parse_integer positive s = Some (n, rest) -> number_ok n = true.
Proof.
  destruct s as [|c s]; [done|]. cbn [parse_integer].
  destruct (Ascii.eqb c "0").
  { destruct s as [|d s]; [|destruct (is_digit d); [done|]];
      by apply parse_number_ok. }
  destruct (is_digit c) eqn:Hc; [|done].
  pose proof (read_digits_bound s (digit_value c) (is_digit_value c Hc)) as Hmax.
  destruct (read_digits (digit_value c) s) as [significand rest'].
  destruct (_ =? _)%Z; [by apply parse_number_ok|].
  intros Hp. by simplify_option_eq.
Qed.

(** ** Induction on what the reader accepts *)

Section Parsed.

(** A property of values at a remaining depth... *)
Context (P : nat -> Value -> Prop).
(** ...that holds of the scalars the reader builds... *)
Context (Hnumber : forall depth n, number_ok n = true -> P depth (JNumber n)).
Context (Hnull : forall depth, P depth JNull) (Hbool : forall depth b, P depth (JBool b)).
Context (Hstring : forall depth s, P depth (JString s)).
(** ...and passes from the elements to the array, and from the
    entries of the text to the object collected from them. *)
Context (Harray : forall depth elements,
           Forall (P (S depth)) elements -> P (S (S depth)) (JArray elements)).
Context (Hobject : forall depth entries,
           Forall (fun kv => P (S depth) kv.2) entries ->
           P (S (S depth)) (JObject (collect entries))).

(** The result of the first part of a bind, when the whole
    succeeded. *)
#[local] Ltac bound H :=
  match goal with
  | |- context [?m ≫= _] =>
      destruct m as [[? ?]|] eqn:H; cbn [mbind option_bind fst snd]; [|done]
  end.

(** The character after the white space, when there has to be one. *)
#[local] Ltac next_char :=
  match goal with
  | |- match skip_ws ?x with _ => _ end = _ -> _ =>
      destruct (skip_ws x) as [|? ?]; [done|]
  end.

Lemma parsed_all fuel : forall depth s,
  (forall v rest, parse_value fuel depth s = Some (v, rest) -> P depth v) /\
  (forall l rest, parse_elements fuel depth s = Some (l, rest) -> Forall (P depth) l) /\
  (forall l rest, parse_members fuel depth s = Some (l, rest) ->
                  Forall (fun kv => P depth kv.2) l).
Proof.
  induction fuel as [|fuel IH]; intros depth s; [done|]. split_and!.
  - intros v rest. cbn [parse_value]. destruct (skip_ws s) as [|c t]; [done|].
    destruct (is_digit c);
      [bound Hn; intros [= <- <-]; by eapply Hnumber, parse_integer_ok|].
    destruct (Ascii.eqb c "-");
      [bound Hn; intros [= <- <-]; by eapply Hnumber, parse_integer_ok|].
    do 3 (destruct (Ascii.eqb c _);
            [destruct (parse_ident _ _); [by intros [= <- <-]|done]|]).
    destruct (Ascii.eqb c QUOTATION_MARK); [bound Hs; by intros [= <- <-]|].
    destruct (Ascii.eqb c "[").
    { destruct depth as [|[|depth]]; [done..|]. destruct (skip_ws t) as [|c' t']; [done|].
      destruct (Ascii.eqb c' "]"); [intros [= <- <-]; by apply Harray|].
      bound Hl. intros [= <- <-]. by eapply Harray, IH. }
    destruct (Ascii.eqb c "{"); [|done].
    destruct depth as [|[|depth]]; [done..|]. destruct (skip_ws t) as [|c' t']; [done|].
    destruct (Ascii.eqb c' "}"); [intros [= <- <-]; by apply (Hobject _ [])|].
    bound Hl. intros [= <- <-]. by eapply Hobject, IH.
  - intros l rest. cbn [parse_elements]. bound Hv. next_char.
    destruct (Ascii.eqb _ ","); [bound Hl; intros [= <- <-]; constructor; by eapply IH|].
    destruct (Ascii.eqb _ "]"); [|done].
    intros [= <- <-]. constructor; [by eapply IH|constructor].
  - intros l rest. cbn [parse_members]. bound Hk. bound Hv. next_char.
    destruct (Ascii.eqb _ ","); [bound Hl; intros [= <- <-]; constructor; by eapply IH|].
    destruct (Ascii.eqb _ "}"); [|done].
    intros [= <- <-]. constructor; [by eapply IH|constructor].
Qed.

(** Every value read has the property, at the depth it was read
    at. *)
Lemma parsed fuel depth s v rest :
  parse_value fuel depth s = Some (v, rest) -> P depth v.
Proof. apply parsed_all. Qed.

End Parsed.

(** ** What the reader returns *)

Lemma insert_Forall (Q : Value -> Prop) k v m :
  Q v -> Forall (fun kv => Q kv.2) m -> Forall (fun kv => Q kv.2) (Map.insert k v m).
Proof.
  intros Hv. induction 1 as [|[k' v'] m Hv' Hm IH]; simpl; [by repeat constructor|].
  destruct (String.eqb k' k); by constructor.
Qed.

Lemma collect_from (Q : Value -> Prop) entries : forall m,
  Forall (fun kv => Q kv.2) entries -> Map.wf m -> Forall (fun kv => Q kv.2) m ->
  let m' := fold_left (fun m kv => Map.insert kv.1 kv.2 m) entries m in
  Map.wf m' /\ Forall (fun kv => Q kv.2) m'.
Proof.
  induction entries as [|[k v] entries IH]; intros m Hentries Hwf Hm; [done|].
  apply Forall_cons in Hentries as [Hv Hentries]. simpl.
  apply IH; [done|by apply Map.insert_wf|by apply insert_Forall].
Qed.

(** The map collected from the entries of a text holds no key twice,
    and values of the entries only. *)
Lemma collect_spec (Q : Value -> Prop) entries :
  Forall (fun kv => Q kv.2) entries ->
  Map.wf (collect entries) /\ Forall (fun kv => Q kv.2) (collect entries).
Proof. intros Hentries. apply collect_from; [done|apply Map.new_wf|constructor]. Qed.

Lemma height_bound {A} (f : A -> nat) l depth :
  Forall (fun x => f x <= depth)%nat l -> (foldr Nat.max 0 (map f l) <= depth)%nat.
Proof. induction 1; simpl; lia. Qed.

Lemma parse_value_wellformed fuel depth s v rest :
  parse_value fuel depth s = Some (v, rest) -> wellformed v = true.
Proof.
  apply (parsed (fun _ v => wellformed v = true)); try done.
  - intros _ elements. by rewrite <-forallb_Forall.
  - intros _ entries Hentries. cbn [wellformed].
    destruct (collect_spec (fun v => wellformed v = true) entries Hentries)
      as [Hwf Hvalues].
    apply andb_true_iff. split; [by apply forallb_Forall|by apply bool_decide_eq_true].
Qed.

Lemma parse_value_height fuel depth s v rest :
  parse_value fuel depth s = Some (v, rest) -> (height v <= pred depth)%nat.
Proof.
  apply (parsed (fun depth v => height v <= pred depth)%nat); try (intros; simpl; lia).
  - intros d elements Hl%height_bound. simpl in *. lia.
  - intros d entries Hentries.
    destruct (collect_spec (fun v => height v <= pred (S d))%nat entries Hentries)
      as [_ Hl%height_bound]. simpl in *. lia.
Qed.

(** Every value read is well formed and nests below the recursion
    limit, whatever the text: an unsigned integer fits 64 bits, a
    negative one fits [i64], no object holds a key twice. *)
Theorem from_str_wellformed s v :
  from_str s = Some v -> wellformed v = true /\ (height v < RECURSION_LIMIT)%nat.
Proof.
  unfold from_str. intros ([v' rest] & Hv & Hrest)%bind_Some. simpl in Hrest.
  destruct (Str.is_empty _); [|done]. injection Hrest as <-. split.
  - by eapply parse_value_wellformed.
  - apply parse_value_height in Hv. unfold RECURSION_LIMIT in *. simpl in Hv. lia.
Qed.

(** Reading is stable: the text of a value that was read, and holds
    no float, is read back as that value. *)
Theorem from_str_stable {ryu : Ryu} s v :
  from_str s = Some v -> float_free v = true -> from_str (to_string v) = Some v.
Proof.
  intros [Hwf Hheight]%from_str_wellformed Hfloat. apply from_str_to_string; [|done].
  by rewrite readable_wellformed, Hwf, Hfloat.
Qed.

Example long_integers_are_floats :
  number_ok <$> (from_str "18446744073709551615" ≫= fun v =>
                 match v with JNumber n => Some n | _ => None end) = Some true /\
  from_str "18446744073709551615" = Some (JNumber (PosInt U64_MAX)) /\
  float_free <$> from_str "18446744073709551616" = Some false /\
  from_str "-9223372036854775808" = Some (JNumber (NegInt (- 2 ^ 63))) /\
  float_free <$> from_str "-9223372036854775809" = Some false.
Proof. by vm_compute. Qed.
