(* ===== verification/JsonEquiv.v ===== *)
(** * JsonEquiv: values up to the order of their keys

    A [serde_json::Map] is a map: two of them are equal, for the [==]
    of Rust, when they hold the same values under the same keys.  The
    model keeps the members of an object in a list, so it tells apart
    objects that Rust does not.  This file gives the equality of
    Rust, [v ≡ w], on the values of the model: arrays element by
    element, objects key by key.

    - [≡] is an equivalence; the members of an object without a key
      twice can be permuted ([permuted_equiv]); the accessors the
      program calls are morphisms ([Proper]) of it, so that [rewrite]
      works with [≡] under them: [Map.get], [Map.insert], [get],
      [as_str], [as_bool], [as_object], [is_object].
    - [sort_keys] and [sort_all_objects] put the members of every
      object in the order of their keys, each key once, as the
      [BTreeMap] of serde_json holds them.  The sorted value is
      equivalent to the value ([sort_all_objects_equiv]) and is a
      normal form: equivalent values are those sorted to the same
      value ([sort_all_objects_canonical]).
    - serde_json keeps the members of an object sorted ([BTreeMap],
      its default) or as listed ([IndexMap], the feature
      [preserve_order]); the sources do not say which.  [serde_of]
      gives the reader and the printer of either build.  In both,
      what is read is well formed and what is printed is read back
      ([serde_of_read], [serde_of_printed], [serde_of_stable]), and
      the two read equivalent values from every text
      ([builds_agree]).  [parsers_agree] is the hypothesis under which
      the components that read JSON are shown not to depend on the
      build. *)

From stdpp Require Import sorting.
From S2P Require Import Prelude RustStr Json JsonText JsonValid.
Import Text.

#[local] Set Warnings "-register-all".

(** ** The equivalence *)

Inductive value_equiv : Value -> Value -> Prop :=
| equiv_null : value_equiv JNull JNull
| equiv_bool b : value_equiv (JBool b) (JBool b)
| equiv_number n : value_equiv (JNumber n) (JNumber n)
| equiv_string s : value_equiv (JString s) (JString s)
| equiv_array elements elements' :
    Forall2 value_equiv elements elements' ->
    value_equiv (JArray elements) (JArray elements')
| equiv_object members members' :
    (forall k, option_Forall2 value_equiv (Map.get members k) (Map.get members' k)) ->
    value_equiv (JObject members) (JObject members').

#[export] Instance Value_equiv : Equiv Value := value_equiv.

(** Maps that hold equivalent values under the same keys. *)
Definition map_equiv (m m' : Map) : Prop :=
  forall k, Map.get m k ≡ Map.get m' k.

Infix "≡ₘ" := map_equiv (at level 70, no associativity).

(** A value found in a map is a member of it. *)
Lemma get_member m k v : Map.get m k = Some v -> (k, v) ∈ m.
Proof.
  induction m as [|[k' v'] m IH]; [done|]. simpl.
  destruct (String.eqb_spec k' k) as [->|_]; [intros [= ->]; left|right; auto].
Qed.

Lemma object_equiv m m' : JObject m ≡ JObject m' <-> m ≡ₘ m'.
Proof. split; [by inversion 1|by constructor]. Qed.

Lemma array_equiv l l' : JArray l ≡ JArray l' <-> Forall2 (≡) l l'.
Proof. split; [by inversion 1|by constructor]. Qed.

(** The three laws, by induction on the first value. *)
Lemma value_equiv_refl (v : Value) : v ≡ v.
Proof.
  induction v as [| | | | elements IH | members IH] using Value_ind_deep;
    try constructor.
  - by apply Forall_Forall2_diag.
  - intros k. destruct (Map.get members k) as [v|] eqn:Hv; constructor.
    by apply (proj1 (Forall_forall _ _) IH (k, v)), get_member.
Qed.

Lemma value_equiv_sym (v : Value) : forall w, v ≡ w -> w ≡ v.
Proof.
  induction v as [| | | | elements IH | members IH] using Value_ind_deep;
    intros w; inversion 1 as [| | | |? elements' Hl|? members' Hm]; subst;
    try constructor.
  - clear -IH Hl. induction Hl as [|v w l l' Hv Hl IHl]; [done|].
    apply Forall_cons in IH as [Hsym IH]. constructor; [by apply Hsym|by apply IHl].
  - intros k. specialize (Hm k).
    destruct (Map.get members k) as [v|] eqn:Hk, (Map.get members' k);
      inversion Hm; subst; constructor.
    apply get_member in Hk. by apply (proj1 (Forall_forall _ _) IH (k, v)).
Qed.

Lemma value_equiv_trans (v : Value) : forall w u, v ≡ w -> w ≡ u -> v ≡ u.
Proof.
  induction v as [| | | | elements IH | members IH] using Value_ind_deep;
    intros w u; inversion 1 as [| | | |? elements' Hl|? members' Hm]; subst;
    inversion 1 as [| | | |? elements'' Hl'|? members'' Hm']; subst;
    try constructor.
  - clear -IH Hl Hl'. revert elements'' Hl'.
    induction Hl as [|v w l l' Hv Hl IHl]; intros l'' Hl''; [done|].
    inversion Hl'' as [|? u ? l3 Hw Hl3]; subst.
    apply Forall_cons in IH as [Htrans IH]. constructor; [by eapply Htrans|by apply IHl].
  - intros k. specialize (Hm k). specialize (Hm' k).
    destruct (Map.get members k) as [v|] eqn:Hk, (Map.get members' k) as [w|],
      (Map.get members'' k) as [u|]; inversion Hm; inversion Hm'; subst; constructor.
    apply get_member in Hk. by apply (proj1 (Forall_forall _ _) IH (k, v) Hk w u).
Qed.

#[export] Instance value_equivalence : Equivalence (≡@{Value}).
Proof.
  split; [exact value_equiv_refl|intros v w; apply value_equiv_sym|].
  intros v w u. apply value_equiv_trans.
Qed.

#[export] Instance map_equivalence : Equivalence map_equiv.
Proof.
  split; [intros m k; reflexivity|intros m m' Hm k; symmetry; apply Hm|].
  intros m m' m'' H1 H2 k. etrans; [apply H1|apply H2].
Qed.

(** Equal values are equivalent. *)
Lemma map_equiv_get m m' : (forall k, Map.get m k = Map.get m' k) -> m ≡ₘ m'.
Proof. intros Hget k. by rewrite Hget. Qed.

(** ** The order of the members *)

Lemma get_not_key m k : k ∉ m.*1 -> Map.get m k = None.
Proof.
  induction m as [|[k' v] m IH]; [done|]. simpl. intros [Hk Hm]%not_elem_of_cons.
  destruct (String.eqb_spec k' k); [congruence|auto].
Qed.

(** In a map without a key twice, a member is what is found under
    its key. *)
Lemma member_get m k v : Map.wf m -> (k, v) ∈ m -> Map.get m k = Some v.
Proof.
  unfold Map.wf. induction m as [|[k' v'] m IH]; [by intros _ ?%elem_of_nil|].
  cbn [fmap list_fmap]. intros [Hk' Hwf]%NoDup_cons. simpl.
  intros [[= -> ->]|Hm]%elem_of_cons; [by rewrite String.eqb_refl|].
  destruct (String.eqb_spec k' k) as [->|_]; [|by apply IH].
  destruct Hk'. by apply (list_elem_of_fmap_2 fst _ (k, v)).
Qed.

Lemma get_key m k : k ∈ m.*1 <-> is_Some (Map.get m k).
Proof.
  split; [|destruct (decide (k ∈ m.*1)); [done|rewrite get_not_key by done; by intros []]].
  induction m as [|[k' v] m IH]; [by intros ?%elem_of_nil|]. simpl.
  destruct (String.eqb_spec k' k) as [->|Hne]; [done|].
  intros [?|?]%elem_of_cons; [congruence|auto].
Qed.


(** The members of an object that has no key twice can be taken in
    any order. *)
Lemma permuted_get m m' k : Map.wf m -> m ≡ₚ m' -> Map.get m k = Map.get m' k.
Proof.
  unfold Map.wf. intros Hwf Hperm. induction Hperm as [|[k0 v0] m m' Hp IH
    |[k1 v1] [k2 v2] m|m1 m2 m3 H12 IH12 H23 IH23]; [done|..].
  - cbn [fmap list_fmap] in Hwf. apply NoDup_cons in Hwf as [_ Hwf]. simpl. by rewrite IH.
  - cbn [fmap list_fmap] in Hwf. apply NoDup_cons in Hwf as [Hk _]. simpl.
    destruct (String.eqb_spec k2 k) as [->|], (String.eqb_spec k1 k) as [->|]; try done.
    destruct Hk. left.
  - rewrite IH12 by done. apply IH23. by rewrite <-H12.
Qed.

Lemma permuted_equiv m m' : Map.wf m -> m ≡ₚ m' -> JObject m ≡ JObject m'.
Proof. intros Hwf Hperm. apply object_equiv, map_equiv_get. intros k. by apply permuted_get. Qed.

(** ** The accessors are morphisms *)

#[export] Instance Map_get_proper : Proper (map_equiv ==> (=) ==> (≡)) Map.get.
Proof. by intros m m' Hm k ? <-. Qed.

#[export] Instance Map_insert_proper :
  Proper ((=) ==> (≡) ==> map_equiv ==> map_equiv) Map.insert.
Proof.
  intros k ? <- v v' Hv m m' Hm k'. destruct (decide (k = k')) as [<-|Hne].
  - rewrite !Map.get_insert_eq. by constructor.
  - rewrite !Map.get_insert_ne by done. apply Hm.
Qed.

#[export] Instance JObject_proper : Proper (map_equiv ==> (≡)) JObject.
Proof. intros m m' Hm. by apply object_equiv. Qed.

#[export] Instance get_proper : Proper ((≡) ==> (=) ==> (≡)) get.
Proof.
  intros v w Hv k ? <-. destruct Hv as [| | | | |m m' Hm]; try by constructor.
  apply Hm.
Qed.

#[export] Instance as_str_proper : Proper ((≡) ==> (=)) as_str.
Proof. by intros v w []. Qed.

#[export] Instance as_bool_proper : Proper ((≡) ==> (=)) as_bool.
Proof. by intros v w []. Qed.

#[export] Instance is_object_proper : Proper ((≡) ==> (=)) is_object.
Proof. by intros v w []. Qed.

#[export] Instance as_object_proper : Proper ((≡) ==> option_Forall2 map_equiv) as_object.
Proof. intros v w []; by constructor. Qed.

(** A text or a boolean read under a key does not depend on the
    order of the keys. *)
Lemma get_as_str (v w : Value) k : v ≡ w -> get v k ≫= as_str = get w k ≫= as_str.
Proof.
  intros Hv. destruct (get_proper v w Hv k k eq_refl) as [x y Hx|]; [|done].
  simpl. by rewrite Hx.
Qed.

Lemma get_as_bool (v w : Value) k : v ≡ w -> get v k ≫= as_bool = get w k ≫= as_bool.
Proof.
  intros Hv. destruct (get_proper v w Hv k k eq_refl) as [x y Hx|]; [|done].
  simpl. by rewrite Hx.
Qed.

(** Two orders of the same insertions. *)
Example insert_commutes :
  Map.insert "a" JNull (Map.insert "b" (JBool true) Map.new)
  ≡ₘ Map.insert "b" (JBool true) (Map.insert "a" JNull Map.new)
  /\ Map.insert "a" JNull (Map.insert "b" (JBool true) Map.new)
     <> Map.insert "b" (JBool true) (Map.insert "a" JNull Map.new).
Proof.
  split; [|done]. apply map_equiv_get. intros k.
  destruct (decide ("a" = k)) as [<-|Ha]; [done|].
  destruct (decide ("b" = k)) as [<-|Hb]; [done|]. by rewrite !Map.get_insert_ne.
Qed.

(** ** Objects in the order of their keys

    Without the feature [preserve_order], a [serde_json::Map] is a
    [BTreeMap]: its members come in the order of their keys, compared
    byte by byte, and that is the order in which they are printed.
    [sort_keys] puts the members of a map of the model in that order,
    each key once with the value [Map.get] finds under it, and
    [sort_all_objects] does so for every object of a value.  The
    result is equivalent to the value, and is the same for equivalent
    values: it is the value Rust holds. *)

Definition key_le (k k' : string) : Prop := String.leb k k' = true.

#[export] Instance key_le_dec : RelDecision key_le.
Proof. intros k k'. unfold key_le. apply _. Defined.

Lemma leb_trans a : forall b c,
  String.leb a b = true -> String.leb b c = true -> String.leb a c = true.
Proof.
  unfold String.leb. induction a as [|x a IH]; intros [|y b] [|z c]; simpl; try done.
  unfold Ascii.compare.
  destruct (N.compare_spec (N_of_ascii x) (N_of_ascii y)),
    (N.compare_spec (N_of_ascii y) (N_of_ascii z)),
    (N.compare_spec (N_of_ascii x) (N_of_ascii z)); try done; try lia.
  apply IH.
Qed.

#[export] Instance key_le_trans : Transitive key_le.
Proof. intros a b c. apply leb_trans. Qed.

#[export] Instance key_le_total : Total key_le.
Proof. intros a b. apply String.leb_total. Qed.

#[export] Instance key_le_antisym : AntiSymm (=) key_le.
Proof. intros a b. apply String.leb_antisym. Qed.

(** [Map::sort_keys] *)
Definition sort_keys (m : Map) : Map :=
  omap (fun k => pair k <$> Map.get m k) (merge_sort key_le (remove_dups m.*1)).

(** [Value::sort_all_objects] *)
Fixpoint sort_all_objects (v : Value) : Value :=
  match v with
  | JArray elements => JArray (map sort_all_objects elements)
  | JObject members =>
      JObject (sort_keys (map (fun kv => (kv.1, sort_all_objects kv.2)) members))
  | _ => v
  end.

(** *** Sorted maps *)

Lemma get_omap m ks k :
  Map.get (omap (fun k => pair k <$> Map.get m k) ks) k
  = if bool_decide (k ∈ ks) then Map.get m k else None.
Proof.
  induction ks as [|k' ks IH]; [done|]. csimpl.
  destruct (decide (k' = k)) as [->|Hne].
  - rewrite bool_decide_eq_true_2 by left.
    destruct (Map.get m k) as [v|] eqn:Hk; csimpl; [by rewrite String.eqb_refl|].
    rewrite IH. by case_bool_decide.
  - rewrite (bool_decide_ext (k ∈ k' :: ks) (k ∈ ks)) by (rewrite elem_of_cons; intuition congruence).
    destruct (Map.get m k'); csimpl; [|done]. by rewrite (proj2 (String.eqb_neq _ _) Hne).
Qed.

Lemma sort_keys_elem (m : Map) k : k ∈ merge_sort key_le (remove_dups m.*1) <-> k ∈ m.*1.
Proof. by rewrite merge_sort_Permutation, elem_of_remove_dups. Qed.

(** Sorting keeps what is found under every key. *)
Lemma get_sort_keys m k : Map.get (sort_keys m) k = Map.get m k.
Proof.
  unfold sort_keys. rewrite get_omap. case_bool_decide as Hk; [done|].
  rewrite sort_keys_elem in Hk. by rewrite get_not_key.
Qed.

Lemma omap_keys m ks :
  Forall (fun k => k ∈ m.*1) ks -> (omap (fun k => pair k <$> Map.get m k) ks).*1 = ks.
Proof.
  induction 1 as [|k ks [v Hv]%get_key _ IH]; [done|]. csimpl. rewrite Hv. csimpl.
  by rewrite IH.
Qed.

Lemma sort_keys_keys m : (sort_keys m).*1 = merge_sort key_le (remove_dups m.*1).
Proof. apply omap_keys, Forall_forall. intros k. by rewrite sort_keys_elem. Qed.

(** A sorted map holds no key twice, and its keys are in order. *)
Lemma sort_keys_wf m : Map.wf (sort_keys m).
Proof.
  unfold Map.wf. rewrite sort_keys_keys, merge_sort_Permutation. apply NoDup_remove_dups.
Qed.

Lemma sort_keys_sorted m : Sorted key_le (sort_keys m).*1.
Proof. rewrite sort_keys_keys. apply Sorted_merge_sort, _. Qed.

(** Its members are members of the map. *)
Lemma sort_keys_member m kv : kv ∈ sort_keys m -> kv ∈ m.
Proof.
  destruct kv as [k v]. intros Hkv%member_get; [|apply sort_keys_wf].
  apply get_member. by rewrite <-get_sort_keys.
Qed.

Lemma sort_keys_Forall (Q : string * Value -> Prop) m : Forall Q m -> Forall Q (sort_keys m).
Proof. rewrite !Forall_forall. intros Hm kv Hkv%sort_keys_member. by apply Hm. Qed.

(** Maps that hold the same values under the same keys are sorted to
    the same map. *)
Lemma sort_keys_ext m m' : (forall k, Map.get m k = Map.get m' k) -> sort_keys m = sort_keys m'.
Proof.
  intros Hget. unfold sort_keys.
  replace (merge_sort key_le (remove_dups m'.*1)) with (merge_sort key_le (remove_dups m.*1)).
  - apply list_omap_ext, Forall_Forall2_diag, Forall_forall. intros k _. by rewrite Hget.
  - apply (Sorted_unique key_le); [apply Sorted_merge_sort, _..|].
    rewrite !merge_sort_Permutation.
    apply NoDup_Permutation; [apply NoDup_remove_dups..|]. intros k.
    by rewrite !elem_of_remove_dups, !get_key, Hget.
Qed.

(** *** Sorted values *)

Lemma get_map_values (f : Value -> Value) m k :
  Map.get (map (fun kv => (kv.1, f kv.2)) m) k = f <$> Map.get m k.
Proof. induction m as [|[k' v] m IH]; [done|]. simpl. by destruct (String.eqb k' k). Qed.

Lemma Forall_mp {A} (P Q : A -> Prop) l :
  Forall (fun x => P x -> Q x) l -> Forall P l -> Forall Q l.
Proof. induction 1; inversion 1; constructor; auto. Qed.

(** What holds of the values of a map, and is kept by [f], holds of
    the values of the sorted map of their images. *)
Lemma sort_members_Forall (Q : Value -> Prop) (f : Value -> Value) m :
  Forall (fun kv => Q kv.2 -> Q (f kv.2)) m -> Forall (fun kv => Q kv.2) m ->
  Forall (fun kv => Q kv.2) (sort_keys (map (fun kv => (kv.1, f kv.2)) m)).
Proof.
  intros Hf Hm. apply sort_keys_Forall, Forall_fmap.
  by apply (Forall_mp (fun kv => Q kv.2)).
Qed.

(** Sorting gives an equivalent value. *)
Theorem sort_all_objects_equiv v : sort_all_objects v ≡ v.
Proof.
  induction v as [| | | | elements IH | members IH] using Value_ind_deep;
    try reflexivity; simpl.
  - by apply array_equiv, Forall2_fmap_l, Forall_Forall2_diag.
  - apply object_equiv. intros k. rewrite get_sort_keys, get_map_values.
    destruct (Map.get members k) as [v|] eqn:Hk; constructor.
    by apply (proj1 (Forall_forall _ _) IH (k, v)), get_member.
Qed.

(** The sorted value is a normal form: equivalent values are those
    that are sorted to the same value. *)
Theorem sort_all_objects_canonical v w :
  v ≡ w <-> sort_all_objects v = sort_all_objects w.
Proof.
  split; [|intros Heq; by rewrite <-(sort_all_objects_equiv v), Heq, sort_all_objects_equiv].
  revert w. induction v as [| | | | elements IH | members IH] using Value_ind_deep;
    intros w; inversion 1 as [| | | |? elements' Hl|? members' Hm]; subst; try done;
    simpl; f_equal.
  - clear -IH Hl. induction Hl as [|v w l l' Hv _ IHl]; [done|].
    apply Forall_cons in IH as [Hsort IH]. simpl. by rewrite (Hsort w), IHl.
  - apply sort_keys_ext. intros k. rewrite !get_map_values. specialize (Hm k).
    destruct (Map.get members k) as [v|] eqn:Hk, (Map.get members' k) as [w|];
      inversion Hm; subst; [simpl; f_equal|done].
    apply get_member in Hk. by apply (proj1 (Forall_forall _ _) IH (k, v) Hk w).
Qed.

(** Sorting twice is sorting once. *)
Corollary sort_all_objects_idemp v :
  sort_all_objects (sort_all_objects v) = sort_all_objects v.
Proof. apply sort_all_objects_canonical, sort_all_objects_equiv. Qed.

(** Sorting keeps a value well formed, free of floats, and as flat as
    it was. *)
Lemma sort_all_objects_wellformed v :
  wellformed v = true -> wellformed (sort_all_objects v) = true.
Proof.
  induction v as [| | | | elements IH | members IH] using Value_ind_deep; try done; simpl.
  - rewrite !forallb_Forall, Forall_fmap. by apply Forall_mp.
  - rewrite !andb_true_iff, !forallb_Forall, !bool_decide_eq_true. intros [Hm _].
    split; [by apply (sort_members_Forall (fun v => wellformed v = true))|apply sort_keys_wf].
Qed.

Lemma sort_all_objects_float_free v :
  float_free v = true -> float_free (sort_all_objects v) = true.
Proof.
  induction v as [| | | | elements IH | members IH] using Value_ind_deep; try done; simpl.
  - rewrite !forallb_Forall, Forall_fmap. by apply Forall_mp.
  - rewrite !forallb_Forall. by apply (sort_members_Forall (fun v => float_free v = true)).
Qed.

Lemma sort_all_objects_height v : forall depth,
  (height v <= depth)%nat -> (height (sort_all_objects v) <= depth)%nat.
Proof.
  induction v as [| | | | elements IH | members IH] using Value_ind_deep; try done;
    intros [|depth]; simpl; try lia; intros Hd%height_below;
    apply le_n_S, height_bound.
  - rewrite Forall_fmap. apply (Forall_mp (fun v => height v < S depth)%nat); [|done].
    apply (Forall_impl _ _ _ IH). intros v Hv ?. apply Hv. lia.
  - apply (sort_members_Forall (fun v => height v <= depth)%nat).
    + apply (Forall_impl _ _ _ IH). auto.
    + apply (Forall_impl _ _ _ Hd). intros kv ?. lia.
Qed.

(** ** serde_json with sorted maps *)

(** What is printed in the order of the keys is read back, and is
    equivalent to the value that was printed. *)
Theorem from_str_sorted {ryu : Ryu} v :
  readable v = true -> (height v < RECURSION_LIMIT)%nat ->
  from_str (to_string (sort_all_objects v)) = Some (sort_all_objects v).
Proof.
  rewrite readable_wellformed. intros [Hwf Hfloat]%andb_true_iff Hheight.
  apply from_str_to_string.
  - by rewrite readable_wellformed, sort_all_objects_wellformed,
      sort_all_objects_float_free.
  - eapply Nat.le_lt_trans; [by apply sort_all_objects_height|done].
Qed.

(** The parser and the printer of a serde_json whose maps are
    [BTreeMap]s: the objects read and printed are sorted. *)
Definition btree_serde {ryu : Ryu} : SerdeJson :=
  {| value_from_str := fun s => sort_all_objects <$> from_str s;
     value_to_string := fun v => to_string (sort_all_objects v) |}.

(** Parsers that read equivalent values from every text. *)
Definition parsers_agree (a b : SerdeJson) : Prop :=
  forall text, value_from_str (SerdeJson := a) text ≡ value_from_str (SerdeJson := b) text.

#[export] Instance parsers_agree_equivalence : Equivalence parsers_agree.
Proof.
  split; [intros a text; reflexivity|intros a b Hab text; symmetry; apply Hab|].
  intros a b c Hab Hbc text. etrans; [apply Hab|apply Hbc].
Qed.

(** The two builds of serde_json read equivalent values. *)
Lemma btree_agrees {ryu : Ryu} : parsers_agree btree_serde serde.
Proof.
  intros text. simpl. destruct (from_str text) as [v|]; constructor.
  apply sort_all_objects_equiv.
Qed.

(** The printer of the sorted build does not tell equivalent values
    apart; the other one does. *)
Lemma btree_to_string_proper {ryu : Ryu} :
  Proper ((≡) ==> (=)) (value_to_string (SerdeJson := btree_serde)).
Proof. intros v w Hv%sort_all_objects_canonical. simpl. by rewrite Hv. Qed.

(** *** The two builds

    The map of serde_json is a [BTreeMap], or an [IndexMap] with the
    feature [preserve_order]; the sources do not say which.  What
    follows holds of both. *)

Inductive MapImpl : Type := BTreeMap | IndexMap.

(** The form in which a build keeps a value. *)
Definition keep (impl : MapImpl) (v : Value) : Value :=
  match impl with BTreeMap => sort_all_objects v | IndexMap => v end.

Definition serde_of {ryu : Ryu} (impl : MapImpl) : SerdeJson :=
  match impl with BTreeMap => btree_serde | IndexMap => serde end.

Section Builds.

Context {ryu : Ryu} (impl : MapImpl).

Lemma keep_equiv v : keep impl v ≡ v.
Proof. destruct impl; [apply sort_all_objects_equiv|done]. Qed.

Lemma keep_idemp v : keep impl (keep impl v) = keep impl v.
Proof. destruct impl; [apply sort_all_objects_idemp|done]. Qed.

Lemma serde_of_from_str s :
  value_from_str (SerdeJson := serde_of impl) s = keep impl <$> from_str s.
Proof. destruct impl; [done|]. simpl. by destruct (from_str s). Qed.

Lemma serde_of_to_string v :
  value_to_string (SerdeJson := serde_of impl) v = to_string (keep impl v).
Proof. by destruct impl. Qed.

(** Every value read is in the form the build keeps, is well formed
    and nests below the recursion limit. *)
Lemma serde_of_read s v :
  value_from_str (SerdeJson := serde_of impl) s = Some v ->
  keep impl v = v /\ wellformed v = true /\ (height v < RECURSION_LIMIT)%nat.
Proof.
  rewrite serde_of_from_str. intros (v0 & [Hwf Hheight]%from_str_wellformed & ->)%fmap_Some.
  split; [apply keep_idemp|]. destruct impl; [|done]. simpl.
  split; [by apply sort_all_objects_wellformed|].
  eapply Nat.le_lt_trans; [by apply sort_all_objects_height|done].
Qed.

(** What is printed is read back in the form the build keeps. *)
Lemma serde_of_printed v :
  wellformed v = true -> float_free v = true -> (height v < RECURSION_LIMIT)%nat ->
  value_from_str (SerdeJson := serde_of impl) (value_to_string (SerdeJson := serde_of impl) v)
  = Some (keep impl v).
Proof.
  intros Hwf Hfloat Hheight. rewrite serde_of_from_str, serde_of_to_string.
  destruct impl; simpl.
  - rewrite from_str_sorted; [simpl; by rewrite sort_all_objects_idemp| |done].
    by rewrite readable_wellformed, Hwf, Hfloat.
  - rewrite from_str_to_string; [done| |done]. by rewrite readable_wellformed, Hwf, Hfloat.
Qed.

(** Reading is stable in both builds. *)
Theorem serde_of_stable s v :
  value_from_str (SerdeJson := serde_of impl) s = Some v -> float_free v = true ->
  value_from_str (SerdeJson := serde_of impl) (value_to_string (SerdeJson := serde_of impl) v)
  = Some v.
Proof.
  intros (Hkeep & Hwf & Hheight)%serde_of_read Hfloat.
  by rewrite serde_of_printed, Hkeep.
Qed.

End Builds.

(** The builds read equivalent values. *)
Lemma builds_agree {ryu : Ryu} impl impl' : parsers_agree (serde_of impl) (serde_of impl').
Proof.
  intros text. rewrite !serde_of_from_str. destruct (from_str text) as [v|]; constructor.
  by rewrite !keep_equiv.
Qed.

Section Agree.

Context (a b : SerdeJson) (agree : parsers_agree a b).

Lemma object_from_str_agree text :
  object_from_str (H := a) text ≡ object_from_str (H := b) text.
Proof.
  unfold object_from_str. destruct (agree text) as [v w Hv|]; [simpl|constructor].
  rewrite (is_object_proper v w Hv). destruct (is_object w); by constructor.
Qed.

End Agree.
