(* ===== verification/Base.v ===== *)
(** * Base: the provider interface

    Models [src/src/providers/base.rs]: the canonical response
    [LLMResponse] with its tool-call requests, and the trait
    [LLMProvider] that the agent loop and the turn guard call.

    Each struct is a module holding a record [t], so that a field is
    named as in the source ([LLMResponse.content],
    [ToolCallRequest.name]).

    An [async fn] that returns [anyhow::Result<T>] after talking to
    the outside is a function from the state of the outside [W] to a
    result and the next state; an [anyhow::Error] is the text it
    displays. *)

From S2P Require Import Prelude Json.

Module ToolCallRequest.

Record t : Type := {
  id : string;
  name : string;
  arguments : Map;
}.

End ToolCallRequest.

Module LLMResponse.

(** The struct of [base.rs] declares four fields; [chat] of
    [litellm.rs] builds it with a fifth, [reasoning_content], which is
    kept here since the response is modelled as [chat] builds it. *)
Record t : Type := {
  content : option string;
  tool_calls : list ToolCallRequest.t;
  finish_reason : string;
  usage : Map;
  reasoning_content : option string;
}.

Definition has_tool_calls (self : t) : bool :=
  negb (bool_decide (tool_calls self = [])).

End LLMResponse.

(** [anyhow::Error], by the text it displays *)
Definition AnyhowError : Type := string.

(** A computation that reads and changes the outside [W]. *)
Definition Async (W A : Type) : Type := W -> A * W.

Definition async_ret {W A} (a : A) : Async W A := fun w => (a, w).

Definition async_bind {W A B} (m : Async W A) (k : A -> Async W B) : Async W B :=
  fun w => let (a, w') := m w in k a w'.

Notation "'let!' x ':=' e 'in' k" := (async_bind e (fun x => k))
  (at level 10, x pattern, e at level 100, k at level 200) : nb_scope.

(** The operator [?] on the result of a computation: an error ends
    the computation. *)
Definition async_try {W A B E} (m : Async W (Result A E))
    (k : A -> Async W (Result B E)) : Async W (Result B E) :=
  async_bind m (fun r => match r with Ok a => k a | Err e => async_ret (Err e) end).

Notation "'let!?' x ':=' e 'in' k" := (async_try e (fun x => k))
  (at level 10, x pattern, e at level 100, k at level 200) : nb_scope.

(** The trait [LLMProvider]: a provider of type [P] over the outside
    [W]. *)
Class LLMProvider (P W : Type) : Type := {
  chat : P -> list Value -> option (list Value) -> option string -> u32 -> f32 ->
         Async W (Result LLMResponse.t AnyhowError);
  default_model : P -> string;
}.

(** ** Facts *)

Lemma has_tool_calls_iff (r : LLMResponse.t) :
  LLMResponse.has_tool_calls r = true <-> LLMResponse.tool_calls r <> [].
Proof.
  unfold LLMResponse.has_tool_calls.
  destruct (LLMResponse.tool_calls r); simpl; split; try done.
Qed.

Lemma async_bind_ret_l {W A B} (a : A) (k : A -> Async W B) w :
  async_bind (async_ret a) k w = k a w.
Proof. done. Qed.

Lemma async_bind_ret_r {W A} (m : Async W A) w : async_bind m async_ret w = m w.
Proof. unfold async_bind, async_ret. by destruct (m w). Qed.

Lemma async_bind_assoc {W A B C} (m : Async W A) (k : A -> Async W B)
    (h : B -> Async W C) w :
  async_bind (async_bind m k) h w = async_bind m (fun a => async_bind (k a) h) w.
Proof. unfold async_bind. by destruct (m w). Qed.

Lemma async_try_Ok {W A B E} (m : Async W (Result A E))
    (k : A -> Async W (Result B E)) w a w' :
  m w = (Ok a, w') -> async_try m k w = k a w'.
Proof. unfold async_try, async_bind. by intros ->. Qed.

Lemma async_try_Err {W A B E} (m : Async W (Result A E))
    (k : A -> Async W (Result B E)) w e w' :
  m w = (Err e, w') -> async_try m k w = (Err e, w').
Proof. unfold async_try, async_bind. by intros ->. Qed.

(** A computation that went through [?] went through both parts. *)
Lemma async_try_inv {W A B E} (m : Async W (Result A E))
    (k : A -> Async W (Result B E)) w b :
  fst (async_try m k w) = Ok b ->
  exists a, fst (m w) = Ok a /\ async_try m k w = k a (snd (m w)).
Proof.
  unfold async_try, async_bind, async_ret. destruct (m w) as [[a|e] w']; [|done].
  by exists a.
Qed.

(** ** Computations that respect a preorder on the outside

    [Preserves R m]: whatever the outside is before [m], it is related
    by [R] to the outside after.  With [R] a preorder the property
    passes through the ways of composing computations, so that it is
    proved of a command by proving it of the calls the command makes. *)

Section Preserves.

Context {W : Type} (R : relation W) `{!PreOrder R}.

Definition Preserves {A} (m : Async W A) : Prop := forall w, R w (snd (m w)).

Lemma Preserves_ret {A} (a : A) : Preserves (async_ret a).
Proof. by intros w. Qed.

(** The pointwise form: the first part may be known to preserve [R]
    from the state at hand only. *)
Lemma Preserves_bind_at {A B} (m : Async W A) (k : A -> Async W B) w :
  R w (snd (m w)) -> (forall a, Preserves (k a)) -> R w (snd (async_bind m k w)).
Proof.
  intros Hm Hk. unfold async_bind. destruct (m w) as [a w1]. by etrans; [|apply Hk].
Qed.

Lemma Preserves_bind {A B} (m : Async W A) (k : A -> Async W B) :
  Preserves m -> (forall a, Preserves (k a)) -> Preserves (async_bind m k).
Proof. intros Hm Hk w. by apply Preserves_bind_at. Qed.

Lemma Preserves_try_at {A B E} (m : Async W (Result A E))
    (k : A -> Async W (Result B E)) w :
  R w (snd (m w)) -> (forall a, Preserves (k a)) -> R w (snd (async_try m k w)).
Proof.
  intros Hm Hk. apply Preserves_bind_at; [done|]. intros [a|e]; [done|apply Preserves_ret].
Qed.

Lemma Preserves_try {A B E} (m : Async W (Result A E))
    (k : A -> Async W (Result B E)) :
  Preserves m -> (forall a, Preserves (k a)) -> Preserves (async_try m k).
Proof. intros Hm Hk w. by apply Preserves_try_at. Qed.

Lemma Preserves_if {A} (b : bool) (m m' : Async W A) :
  Preserves m -> Preserves m' -> Preserves (if b then m else m').
Proof. by destruct b. Qed.

End Preserves.

#[export] Hint Resolve Preserves_ret Preserves_bind Preserves_try Preserves_if : nb.
#[export] Hint Extern 0 (PreOrder _) => typeclasses eauto : nb.
