(* ===== verification/Wire.v ===== *)
(** * Wire: backend messages and their conversion

    The types of the completion library (litellm-rs) that
    [src/src/providers/litellm.rs] builds and reads, and the two
    conversions of the sources: [convert_message] (a JSON value to a
    backend message) and [content_to_text] (message content to text).

    The library is not part of the sources.  Its structs and enums are
    modelled with the fields and constructors the sources name, each
    in a module holding a type [t]; the types the sources never look
    into ([Thinking], [Tool], [FinishReason], [Usage], [Error]) are the
    members of the class [LiteLLMTypes], and the library's
    deserialisers and serialisers are the members of the class
    [LiteLLM].  A call of [serde_json::from_value] or [from_str] whose
    error is discarded by the sources ([.ok()], [if let Ok]) is a
    function to an [option].

    The last part compares messages up to the order of the members
    of the JSON they carry, and shows that [convert_message] does not
    depend on the order of the members of the raw value. *)

From S2P Require Import Prelude RustStr Json JsonText JsonValid JsonEquiv.
Import Str.

(** The types of the library that the sources treat as opaque. *)
Class LiteLLMTypes : Type := {
  Thinking : Type;
  Tool : Type;
  FinishReason : Type;
  Usage : Type;
  Error : Type;
}.

Module MessageRole.

Inductive t : Type := System | User | Assistant | Tool | Function.

#[export] Instance eq_dec : EqDecision t.
Proof. solve_decision. Defined.

End MessageRole.

Module ContentPart.

(** The sources match [Text { text }] and [ToolResult { content, .. }];
    every other kind of part is [Other]. *)
Inductive t : Type :=
| Text (text : string)
| ToolResult (content : Value)
| Other.

End ContentPart.

Module MessageContent.

Inductive t : Type :=
| Text (text : string)
| Parts (parts : list ContentPart.t).

End MessageContent.

Module FunctionCall.

Record t : Type := {
  name : string;
  arguments : string;
}.

End FunctionCall.

Module ToolCall.

Record t : Type := {
  id : string;
  function : FunctionCall.t;
}.

End ToolCall.

Module Message.

Record t {types : LiteLLMTypes} : Type := {
  role : MessageRole.t;
  content : option MessageContent.t;
  thinking : option Thinking;
  name : option string;
  tool_calls : option (list ToolCall.t);
  tool_call_id : option string;
  function_call : option FunctionCall.t;
}.

End Message.

Module ToolChoice.

(** The sources build [ToolChoice::String] only. *)
Inductive t : Type :=
| String (choice : string)
| Other.

End ToolChoice.

Module CompletionOptions.

(** The fields the sources set; every other field keeps its default
    and takes no part in the model. *)
Record t {types : LiteLLMTypes} : Type := {
  max_tokens : option u32;
  temperature : option f32;
  api_key : option string;
  api_base : option string;
  headers : option (gmap string string);
  tools : option (list Tool);
  tool_choice : option ToolChoice.t;
  extra_params : gmap string Value;
}.

End CompletionOptions.

Module Choice.

Record t {types : LiteLLMTypes} : Type := {
  message : Message.t;
  finish_reason : option FinishReason;
}.

End Choice.

Module CompletionResponse.

Record t {types : LiteLLMTypes} : Type := {
  choices : list Choice.t;
  usage : option Usage;
}.

End CompletionResponse.

(** What the sources call of serde_json and litellm-rs on these types. *)
Class LiteLLM {types : LiteLLMTypes} : Type := {
  (** [serde_json::from_value::<Message>(v).ok()] *)
  message_from_value : Value -> option Message.t;
  (** [serde_json::from_value::<MessageContent>(v).ok()] *)
  content_from_value : Value -> option MessageContent.t;
  (** [serde_json::from_value::<Vec<ToolCall>>(v).ok()] *)
  tool_calls_from_value : Value -> option (list ToolCall.t);
  (** [serde_json::from_value::<FunctionCall>(v).ok()] *)
  function_call_from_value : Value -> option FunctionCall.t;
  (** [serde_json::from_value::<Tool>(v).ok()] *)
  tool_from_value : Value -> option Tool;
  (** [serde_json::to_value(reason).ok()] *)
  finish_reason_to_value : FinishReason -> option Value;
  (** [serde_json::to_value(usage).ok()] *)
  usage_to_value : Usage -> option Value;
  (** [Thinking::as_text] *)
  as_text : Thinking -> option string;
  (** the text an [Error] displays *)
  error_to_string : Error -> string;
}.

Section Convert.

Context {serde : SerdeJson} {types : LiteLLMTypes} {lib : LiteLLM}.

(** The [match] on the role text of [convert_message]. *)
Definition role_of_str (s : string) : MessageRole.t :=
  if String.eqb s "system" then MessageRole.System
  else if String.eqb s "assistant" then MessageRole.Assistant
  else if String.eqb s "tool" then MessageRole.Tool
  else if String.eqb s "function" then MessageRole.Function
  else MessageRole.User.

(** The [match] on [raw.get("content")] of [convert_message]. *)
Definition content_of (raw : Value) : option MessageContent.t :=
  match get raw "content" with
  | Some (JString text) => Some (MessageContent.Text text)
  | Some (JArray parts) => content_from_value (JArray parts)
  | _ => None
  end.

(** [convert_message]: a value of the backend's own shape is taken as
    it is; otherwise the fields are mapped one by one, a field that is
    absent or does not parse staying [None]. *)
Definition convert_message (raw : Value) : Message.t :=
  match message_from_value raw with
  | Some message => message
  | None =>
      {| Message.role := role_of_str (default "user" (get raw "role" ≫= as_str));
         Message.content := content_of raw;
         Message.thinking := None;
         Message.name := get raw "name" ≫= as_str;
         Message.tool_calls := get raw "tool_calls" ≫= tool_calls_from_value;
         Message.tool_call_id := get raw "tool_call_id" ≫= as_str;
         Message.function_call := get raw "function_call" ≫= function_call_from_value |}
  end.

(** The closure of [content_to_text]: the text of a part, if it has
    one. *)
Definition part_text (part : ContentPart.t) : option string :=
  match part with
  | ContentPart.Text text => Some text
  | ContentPart.ToolResult content => Some (value_to_string content)
  | ContentPart.Other => None
  end.

Definition content_to_text (content : MessageContent.t) : string :=
  match content with
  | MessageContent.Text text => text
  | MessageContent.Parts parts => join LF (omap part_text parts)
  end.

End Convert.

(** ** A small backend

    An instance of the two classes, used to run the conversions and
    [chat] on concrete inputs: the opaque types are the JSON data they
    serialise to, a message is in native shape when it is an object
    with a known role and a text content, and only the argument texts
    the parser is [Sample.serde]. *)
Module Stub.

Definition types : LiteLLMTypes :=
  {| Thinking := string; Tool := Value; FinishReason := string; Usage := Map;
     Error := string |}.

Definition known_role (s : string) : bool :=
  bool_decide (s ∈ ["system"; "user"; "assistant"; "tool"; "function"]).

Definition message_of (raw : Value) : option (@Message.t types) :=
  r ← get raw "role" ≫= as_str;
  c ← get raw "content" ≫= as_str;
  if known_role r then
    Some {| Message.role := role_of_str r; Message.content := Some (MessageContent.Text c);
            Message.thinking := None; Message.name := None;
            Message.tool_calls := None; Message.tool_call_id := None;
            Message.function_call := None |}
  else None.

Definition part_of (raw : Value) : ContentPart.t :=
  match get raw "type" ≫= as_str, get raw "text" ≫= as_str, get raw "content" with
  | Some "text", Some text, _ => ContentPart.Text text
  | Some "tool_result", _, Some content => ContentPart.ToolResult content
  | _, _, _ => ContentPart.Other
  end.

Definition content_of_value (raw : Value) : option MessageContent.t :=
  match raw with
  | JString text => Some (MessageContent.Text text)
  | JArray parts => Some (MessageContent.Parts (part_of <$> parts))
  | _ => None
  end.

Definition function_call_of (raw : Value) : option FunctionCall.t :=
  n ← get raw "name" ≫= as_str;
  a ← get raw "arguments" ≫= as_str;
  Some {| FunctionCall.name := n; FunctionCall.arguments := a |}.

Definition tool_call_of (raw : Value) : option ToolCall.t :=
  i ← get raw "id" ≫= as_str;
  f ← get raw "function" ≫= function_call_of;
  Some {| ToolCall.id := i; ToolCall.function := f |}.

Definition tool_calls_of (raw : Value) : option (list ToolCall.t) :=
  match raw with
  | JArray calls => mapM tool_call_of calls
  | _ => None
  end.

Definition backend : @LiteLLM types :=
  {| message_from_value := message_of;
     content_from_value := content_of_value;
     tool_calls_from_value := tool_calls_of;
     function_call_from_value := function_call_of;
     tool_from_value := fun v => if is_object v then Some v else None;
     finish_reason_to_value := fun r : @FinishReason types => Some (JString r);
     usage_to_value := fun u : @Usage types => Some (JObject u);
     as_text := fun t : @Thinking types => Some t;
     error_to_string := fun e : @Error types => e |}.

End Stub.

Section ConvertFacts.

Context {serde : SerdeJson} {types : LiteLLMTypes} {lib : LiteLLM}.

Lemma role_of_str_cases s :
  role_of_str s =
    if bool_decide (s = "system") then MessageRole.System
    else if bool_decide (s = "assistant") then MessageRole.Assistant
    else if bool_decide (s = "tool") then MessageRole.Tool
    else if bool_decide (s = "function") then MessageRole.Function
    else MessageRole.User.
Proof.
  unfold role_of_str. by rewrite !string_eqb_decide.
Qed.

Lemma role_of_str_user s :
  role_of_str s = MessageRole.User <->
  s <> "system" /\ s <> "assistant" /\ s <> "tool" /\ s <> "function".
Proof.
  rewrite role_of_str_cases. repeat case_bool_decide; split; intuition congruence.
Qed.

(** A value in the backend's own shape is passed through. *)
Lemma convert_message_native raw message :
  message_from_value raw = Some message -> convert_message raw = message.
Proof. unfold convert_message. by intros ->. Qed.

Lemma content_of_text raw text :
  get raw "content" = Some (JString text) ->
  content_of raw = Some (MessageContent.Text text).
Proof. unfold content_of. by intros ->. Qed.

(** Only a string or an array is content. *)
Lemma content_of_Some raw content :
  content_of raw = Some content ->
  (exists text, get raw "content" = Some (JString text)) \/
  (exists parts, get raw "content" = Some (JArray parts)).
Proof. unfold content_of. repeat case_match; naive_solver. Qed.

Lemma part_text_None part : part_text part = None <-> part = ContentPart.Other.
Proof. by destruct part. Qed.

(** Flattening is compositional: the text of two runs of parts
    that both have text is the text of the first, a line feed, and the
    text of the second. *)
Theorem content_to_text_parts_app a b :
  omap part_text a <> [] -> omap part_text b <> [] ->
  content_to_text (MessageContent.Parts (a ++ b))
  = content_to_text (MessageContent.Parts a) +:+ LF
    +:+ content_to_text (MessageContent.Parts b).
Proof. intros Ha Hb. unfold content_to_text. by rewrite omap_app, join_app. Qed.

(** Parts without text do not contribute. *)
Lemma omap_part_text_filter parts :
  omap part_text (List.filter (fun p => is_some (part_text p)) parts)
  = omap part_text parts.
Proof.
  induction parts as [|p parts IH]; [done|].
  destruct p; simpl; [f_equal; apply IH..|apply IH].
Qed.

(** C39. A value that is not in the backend's own shape becomes a user
    message unless its [role] is one of the texts [system],
    [assistant], [tool] and [function], spelled so: an absent role, a
    role that is not a string and an unknown role all give [User]. *)
Theorem convert_message_role_user raw :
  message_from_value raw = None ->
  (Message.role (convert_message raw) = MessageRole.User <->
   forall s, get raw "role" ≫= as_str = Some s ->
     s ∉ ["system"; "assistant"; "tool"; "function"]).
Proof.
  intros Hraw. unfold convert_message. rewrite Hraw. simpl.
  destruct (get raw "role" ≫= as_str) as [s|]; simpl; rewrite role_of_str_user.
  - split.
    + intros (? & ? & ? & ?) ? [= <-]. rewrite !not_elem_of_cons.
      split_and!; try done. apply not_elem_of_nil.
    + intros Hs. specialize (Hs s eq_refl). rewrite !not_elem_of_cons in Hs.
      by destruct Hs as (? & ? & ? & ? & _).
  - split; [done|]. by intros _.
Qed.

End ConvertFacts.

Definition plain_message (role content : string) : Value :=
  JObject [("role", JString role); ("content", JString content)].

Lemma content_to_text_parts_app_witness :
  content_to_text (serde := Sample.serde)
    (MessageContent.Parts
       ([ContentPart.Text "a"; ContentPart.Other] ++ [ContentPart.ToolResult (JBool true)]))
  = content_to_text (serde := Sample.serde)
      (MessageContent.Parts [ContentPart.Text "a"; ContentPart.Other])
    +:+ LF
    +:+ content_to_text (serde := Sample.serde)
          (MessageContent.Parts [ContentPart.ToolResult (JBool true)]).
Proof. by apply (content_to_text_parts_app (serde := Sample.serde)). Defined.

Lemma convert_message_role_user_witness :
  Message.role (convert_message (lib := Stub.backend) (plain_message "developer" "hi"))
    = MessageRole.User <->
  forall s, get (plain_message "developer" "hi") "role" ≫= as_str = Some s ->
    s ∉ ["system"; "assistant"; "tool"; "function"].
Proof. by apply (convert_message_role_user (lib := Stub.backend)). Defined.

(** The role is compared as spelled, and a message with an unknown
    role is sent as a user message. *)
Example convert_message_scenarios :
  let role raw := Message.role (convert_message (lib := Stub.backend) raw) in
  role (plain_message "system" "be brief") = MessageRole.System /\
  role (plain_message "System" "be brief") = MessageRole.User /\
  role (plain_message "developer" "be brief") = MessageRole.User /\
  role (JString "hello") = MessageRole.User /\
  Message.content (convert_message (lib := Stub.backend) (JString "hello")) = None.
Proof. by vm_compute. Qed.

(** ** Messages up to the order of keys

    A message holds JSON in one place, the content of a tool result.
    Messages are equivalent when they differ there only, by the order
    of the members of objects.  A backend is lawful when its
    deserialisers give equivalent results on equivalent values, as
    those that serde derives do, since they read an object through
    its keys.  With a lawful backend [convert_message] is a morphism:
    the message does not depend on the order in which the members of
    the raw value are listed. *)

Inductive part_equiv : Equiv ContentPart.t :=
| part_equiv_text text : ContentPart.Text text ≡ ContentPart.Text text
| part_equiv_result content content' :
    content ≡ content' -> ContentPart.ToolResult content ≡ ContentPart.ToolResult content'
| part_equiv_other : ContentPart.Other ≡ ContentPart.Other.

#[export] Existing Instance part_equiv.

Inductive content_equiv : Equiv MessageContent.t :=
| content_equiv_text text : MessageContent.Text text ≡ MessageContent.Text text
| content_equiv_parts parts parts' :
    Forall2 (≡) parts parts' -> MessageContent.Parts parts ≡ MessageContent.Parts parts'.

#[export] Existing Instance content_equiv.

(** Messages with equivalent contents and the same other fields. *)
Definition message_equiv {types : LiteLLMTypes} : relation Message.t :=
  fun m m' =>
    Message.content m ≡ Message.content m' /\
    Message.role m = Message.role m' /\
    Message.thinking m = Message.thinking m' /\
    Message.name m = Message.name m' /\
    Message.tool_calls m = Message.tool_calls m' /\
    Message.tool_call_id m = Message.tool_call_id m' /\
    Message.function_call m = Message.function_call m'.

#[export] Instance Message_equiv {types : LiteLLMTypes} : Equiv Message.t := message_equiv.

#[export] Instance part_equivalence : Equivalence (≡@{ContentPart.t}).
Proof.
  split.
  - intros []; by constructor.
  - intros ?? []; by constructor.
  - intros x y z Hxy Hyz. destruct Hxy; inversion Hyz; subst; constructor. by etrans.
Qed.

#[export] Instance content_equivalence : Equivalence (≡@{MessageContent.t}).
Proof.
  split.
  - intros []; by constructor.
  - intros ?? []; by constructor.
  - intros x y z Hxy Hyz. destruct Hxy; inversion Hyz; subst; constructor. by etrans.
Qed.

#[export] Instance message_equivalence {types : LiteLLMTypes} : Equivalence (≡@{Message.t}).
Proof.
  split.
  - by intros m.
  - intros m m' (? & ? & ? & ? & ? & ? & ?). by repeat split.
  - intros m1 m2 m3 (? & ? & ? & ? & ? & ? & ?) (? & ? & ? & ? & ? & ? & ?).
    repeat split; by etrans.
Qed.

(** A backend whose deserialisers do not tell equivalent values
    apart. *)
Class Lawful {types : LiteLLMTypes} (lib : LiteLLM) : Prop := {
  message_from_value_proper :: Proper ((≡) ==> (≡)) message_from_value;
  content_from_value_proper :: Proper ((≡) ==> (≡)) content_from_value;
  tool_calls_from_value_proper :: Proper ((≡) ==> (=)) tool_calls_from_value;
  function_call_from_value_proper :: Proper ((≡) ==> (=)) function_call_from_value;
}.

Section Morphisms.

Context {serde : SerdeJson} {types : LiteLLMTypes} {lib : LiteLLM} {lawful : Lawful lib}.

(** What is read under a key by a lawful deserialiser. *)
Lemma get_bind_proper {A} (f : Value -> option A) raw raw' key :
  Proper ((≡) ==> (=)) f -> raw ≡ raw' -> get raw key ≫= f = get raw' key ≫= f.
Proof.
  intros Hf Hraw. destruct (get_proper raw raw' Hraw key key eq_refl) as [v w Hv|]; [|done].
  by apply Hf.
Qed.

Lemma content_of_proper : Proper ((≡) ==> (≡)) content_of.
Proof.
  intros raw raw' Hraw. unfold content_of.
  destruct (get_proper raw raw' Hraw "content" _ eq_refl) as [v w Hv|]; [|constructor].
  destruct Hv; try by repeat constructor.
  apply content_from_value_proper. by constructor.
Qed.


End Morphisms.

(** The small backend is lawful. *)
Lemma part_of_proper : Proper ((≡) ==> (≡)) Stub.part_of.
Proof.
  intros raw raw' Hraw. unfold Stub.part_of. rewrite !(get_as_str raw raw') by done.
  destruct (get_proper raw raw' Hraw "content" _ eq_refl) as [v w Hv|];
    repeat case_match; by constructor.
Qed.

Lemma function_call_of_proper : Proper ((≡) ==> (=)) Stub.function_call_of.
Proof. intros raw raw' Hraw. unfold Stub.function_call_of. by rewrite !(get_as_str raw raw'). Qed.

Lemma tool_call_of_proper : Proper ((≡) ==> (=)) Stub.tool_call_of.
Proof.
  intros raw raw' Hraw. unfold Stub.tool_call_of.
  by rewrite (get_as_str raw raw'), (get_bind_proper _ raw raw' _ function_call_of_proper).
Qed.

#[export] Instance stub_lawful : Lawful Stub.backend.
Proof.
  split; intros raw raw' Hraw; simpl.
  - unfold Stub.message_of. by rewrite !(get_as_str raw raw').
  - destruct Hraw as [| | | |parts parts' Hparts|]; try by repeat constructor.
    do 2 constructor. apply Forall2_fmap, (Forall2_impl _ _ _ _ Hparts), part_of_proper.
  - destruct Hraw as [| | | |calls calls' Hcalls|]; try done. simpl.
    induction Hcalls as [|v w l l' Hv _ IH]; [done|]. simpl.
    by rewrite (tool_call_of_proper v w Hv), IH.
  - by apply function_call_of_proper.
Qed.

