(* ===== verification/Chat.v ===== *)
(** * Chat: the invocation client

    Models [LiteLLMProvider::chat] of [src/src/providers/litellm.rs]:
    the construction of the call options, the attachment of the tool
    definitions, the remote completion with its single fallback retry,
    and the normalisation of the reply into an [LLMResponse].

    The remote endpoint is the outside of [chat].  Its state [World]
    is the list of the requests made so far, oldest first, and the
    endpoint is a function [respond] from that history and a request
    to the reply: a reply may depend on everything that was asked
    before, and the order of the requests is observable.  The library
    function [completion] appends the request to the history and
    returns the reply.

    The theorems on the arguments of tool calls that name a reader
    of JSON are stated for [serde_of impl], the reader of serde_json
    in either of its builds. *)

From S2P Require Import Prelude RustStr Json JsonText JsonValid JsonEquiv Catalog Resolver Base Wire.
Import Str.
#[local] Open Scope nb_scope.

Section Chat.

Context {serde : SerdeJson} {types : LiteLLMTypes} {lib : LiteLLM}.

(** A call of [litellm_rs::completion(model, messages, options)] *)
Record Request : Type := {
  request_model : string;
  request_messages : list Message.t;
  request_options : option CompletionOptions.t;
}.

Definition World : Type := list Request.

(** The remote endpoint. *)
Definition Endpoint : Type :=
  World -> Request -> Result CompletionResponse.t Error.

Context (providers : list ProviderSpec) (respond : Endpoint).

(** [litellm_rs::completion] *)
Definition completion (model : string) (messages : list Message.t)
    (options : option CompletionOptions.t)
  : Async World (Result CompletionResponse.t Error) :=
  fun w =>
    let request := Build_Request model messages options in
    (respond w request, w ++ [request]).

(** The options [chat] starts from. *)
Definition base_options (self : LiteLLMProvider) (selected_model : string)
    (max_tokens : u32) (effective_temperature : f32) : CompletionOptions.t :=
  {| CompletionOptions.max_tokens := Some max_tokens;
     CompletionOptions.temperature := Some effective_temperature;
     CompletionOptions.api_key :=
       if is_empty (api_key self) then None else Some (api_key self);
     CompletionOptions.api_base := effective_api_base providers self selected_model;
     CompletionOptions.headers :=
       if bool_decide (extra_headers self = ∅) then None
       else Some (extra_headers self);
     CompletionOptions.tools := None;
     CompletionOptions.tool_choice := None;
     CompletionOptions.extra_params := ∅ |}.

(** [options.tools = Some(parsed_tools); options.tool_choice = auto] *)
Definition set_native_tools (parsed_tools : list Tool)
    (options : CompletionOptions.t) : CompletionOptions.t :=
  {| CompletionOptions.max_tokens := CompletionOptions.max_tokens options;
     CompletionOptions.temperature := CompletionOptions.temperature options;
     CompletionOptions.api_key := CompletionOptions.api_key options;
     CompletionOptions.api_base := CompletionOptions.api_base options;
     CompletionOptions.headers := CompletionOptions.headers options;
     CompletionOptions.tools := Some parsed_tools;
     CompletionOptions.tool_choice := Some (ToolChoice.String "auto");
     CompletionOptions.extra_params := CompletionOptions.extra_params options |}.

(** [options.extra_params.insert(key, value)] *)
Definition insert_extra_param (key : string) (value : Value)
    (options : CompletionOptions.t) : CompletionOptions.t :=
  {| CompletionOptions.max_tokens := CompletionOptions.max_tokens options;
     CompletionOptions.temperature := CompletionOptions.temperature options;
     CompletionOptions.api_key := CompletionOptions.api_key options;
     CompletionOptions.api_base := CompletionOptions.api_base options;
     CompletionOptions.headers := CompletionOptions.headers options;
     CompletionOptions.tools := CompletionOptions.tools options;
     CompletionOptions.tool_choice := CompletionOptions.tool_choice options;
     CompletionOptions.extra_params :=
       <[key := value]> (CompletionOptions.extra_params options) |}.

(** The block [if let Some(tool_defs) = tools]: the definitions that
    parse are attached as the library's tools, and all of them, as
    given, under the extra parameter [tools]. *)
Definition attach_tools (tools : option (list Value))
    (options : CompletionOptions.t) : CompletionOptions.t :=
  match tools with
  | None => options
  | Some tool_defs =>
      let parsed_tools := omap tool_from_value tool_defs in
      let options :=
        if negb (bool_decide (parsed_tools = [])) then
          set_native_tools parsed_tools options
        else options in
      insert_extra_param "tool_choice" (JString "auto")
        (insert_extra_param "tools" (JArray tool_defs) options)
  end.

(** The error of a primary call that is not retried. *)
Definition primary_error (primary_err : Error) : AnyhowError :=
  "failed to call litellm-rs completion: " +:+ error_to_string primary_err.

(** The error of a failed retry. *)
Definition fallback_error (primary_err fallback_err : Error) : AnyhowError :=
  "failed to call litellm-rs completion: primary=" +:+ error_to_string primary_err
  +:+ "; fallback=" +:+ error_to_string fallback_err.

(** The [match completion(..).await] of [chat]: the call with the
    resolved name and, when it fails and the name was rewritten, one
    more call with the selected name. *)
Definition invoke (resolved_model selected_model : string)
    (chat_messages : list Message.t) (options : CompletionOptions.t)
  : Async World (Result CompletionResponse.t AnyhowError) :=
  let! primary := completion resolved_model chat_messages (Some options) in
  match primary with
  | Ok resp => async_ret (Ok resp)
  | Err primary_err =>
      if negb (String.eqb resolved_model selected_model) then
        let! fallback := completion selected_model chat_messages (Some options) in
        async_ret (map_err (fallback_error primary_err) fallback)
      else async_ret (Err (primary_error primary_err))
  end.

(** The map [{"raw": arguments}] *)
Definition raw_arguments (arguments : string) : Map :=
  Map.insert "raw" (JString arguments) Map.new.

(** The arguments of a tool call: the object its text parses to, or
    the text under [raw]. *)
Definition parse_arguments (arguments : string) : Map :=
  default (raw_arguments arguments) (value_from_str arguments ≫= as_object).

(** The closure that maps a backend tool call to a request. *)
Definition tool_call_request (call : ToolCall.t) : ToolCallRequest.t :=
  {| ToolCallRequest.id := ToolCall.id call;
     ToolCallRequest.name := FunctionCall.name (ToolCall.function call);
     ToolCallRequest.arguments :=
       parse_arguments (FunctionCall.arguments (ToolCall.function call)) |}.

Definition finish_reason_of (choice : Choice.t) : string :=
  default "stop" ((Choice.finish_reason choice ≫= finish_reason_to_value) ≫= as_str).

Definition usage_of (response : CompletionResponse.t) : Map :=
  default Map.new ((CompletionResponse.usage response ≫= usage_to_value) ≫= as_object).

(** The response for a reply without choices. *)
Definition empty_response : LLMResponse.t :=
  {| LLMResponse.content := None;
     LLMResponse.tool_calls := [];
     LLMResponse.finish_reason := "stop";
     LLMResponse.usage := Map.new;
     LLMResponse.reasoning_content := None |}.

(** The normalisation of a reply: the second half of [chat]. *)
Definition normalize (response : CompletionResponse.t) : LLMResponse.t :=
  match CompletionResponse.choices response with
  | [] => empty_response
  | choice :: _ =>
      let message := Choice.message choice in
      {| LLMResponse.content := content_to_text <$> Message.content message;
         LLMResponse.tool_calls :=
           tool_call_request <$> default [] (Message.tool_calls message);
         LLMResponse.finish_reason := finish_reason_of choice;
         LLMResponse.usage := usage_of response;
         LLMResponse.reasoning_content := Message.thinking message ≫= as_text |}
  end.

Definition chat (self : LiteLLMProvider) (messages : list Value)
    (tools : option (list Value)) (model : option string) (max_tokens : u32)
    (temperature : f32) : Async World (Result LLMResponse.t AnyhowError) :=
  let selected_model := default (Resolver.default_model self) model in
  let resolved_model := resolve_model providers self selected_model in
  let effective_temperature :=
    apply_model_overrides providers self resolved_model temperature in
  let chat_messages := convert_message <$> messages in
  let options :=
    attach_tools tools
      (base_options self selected_model max_tokens effective_temperature) in
  let! response := invoke resolved_model selected_model chat_messages options in
  async_ret (
    match response with
    | Ok response => Ok (normalize response)
    | Err e => Err e
    end).

End Chat.

(** ** The requests of a call *)

Section Requests.

Context {serde : SerdeJson} {types : LiteLLMTypes} {lib : LiteLLM} (providers : list ProviderSpec).

(** The model [chat] selects: the argument, or the provider's
    default. *)
Definition selected_of (self : LiteLLMProvider) (model : option string) : string :=
  default (Resolver.default_model self) model.

(** The options of the requests of a call of [chat]. *)
Definition options_of (self : LiteLLMProvider) (tools : option (list Value))
    (model : option string) (max_tokens : u32) (temperature : f32)
  : CompletionOptions.t :=
  let selected_model := selected_of self model in
  attach_tools tools
    (base_options providers self selected_model max_tokens
       (apply_model_overrides providers self
          (resolve_model providers self selected_model) temperature)).

(** The request [chat] makes first, and the one it retries with. *)
Definition primary_request (self : LiteLLMProvider) (messages : list Value)
    (tools : option (list Value)) (model : option string) (max_tokens : u32)
    (temperature : f32) : Request :=
  {| request_model := resolve_model providers self (selected_of self model);
     request_messages := convert_message <$> messages;
     request_options := Some (options_of self tools model max_tokens temperature) |}.

Definition fallback_request (self : LiteLLMProvider) (messages : list Value)
    (tools : option (list Value)) (model : option string) (max_tokens : u32)
    (temperature : f32) : Request :=
  {| request_model := selected_of self model;
     request_messages := convert_message <$> messages;
     request_options := Some (options_of self tools model max_tokens temperature) |}.

End Requests.

(** ** The invocation *)

Section Invoke.

Context {serde : SerdeJson} {types : LiteLLMTypes} {lib : LiteLLM} (respond : Endpoint).

(** [invoke] without the monad. *)
Lemma invoke_eq resolved selected messages options w :
  let primary := Build_Request resolved messages (Some options) in
  let fallback := Build_Request selected messages (Some options) in
  invoke respond resolved selected messages options w =
    match respond w primary with
    | Ok resp => (Ok resp, w ++ [primary])
    | Err e1 =>
        if String.eqb resolved selected then
          (Err (primary_error e1), w ++ [primary])
        else
          (map_err (fallback_error e1) (respond (w ++ [primary]) fallback),
           w ++ [primary; fallback])
    end.
Proof.
  intros primary fallback. unfold invoke, async_bind, completion; simpl.
  fold primary. destruct (respond w primary); [done|].
  destruct (String.eqb resolved selected); simpl; [done|].
  by rewrite <-app_assoc.
Qed.

(** The requests [invoke] makes: the primary one, then the fallback
    exactly when the primary failed and the names differ. *)
Lemma invoke_world resolved selected messages options w :
  let primary := Build_Request resolved messages (Some options) in
  let fallback := Build_Request selected messages (Some options) in
  snd (invoke respond resolved selected messages options w) =
    w ++ primary ::
      (if is_err (respond w primary) && negb (String.eqb resolved selected)
       then [fallback] else []).
Proof.
  intros primary fallback. rewrite invoke_eq. fold primary.
  destruct (respond w primary); [done|].
  by destruct (String.eqb resolved selected).
Qed.

Lemma invoke_result resolved selected messages options w :
  let primary := Build_Request resolved messages (Some options) in
  let fallback := Build_Request selected messages (Some options) in
  fst (invoke respond resolved selected messages options w) =
    match respond w primary with
    | Ok resp => Ok resp
    | Err e1 =>
        if String.eqb resolved selected then Err (primary_error e1)
        else map_err (fallback_error e1) (respond (w ++ [primary]) fallback)
    end.
Proof.
  intros primary fallback. rewrite invoke_eq. fold primary.
  destruct (respond w primary); [done|].
  by destruct (String.eqb resolved selected).
Qed.

End Invoke.

Section ChatFacts.

Context {serde : SerdeJson} {types : LiteLLMTypes} {lib : LiteLLM} (providers : list ProviderSpec) (respond : Endpoint).

Lemma chat_eq self messages tools model max_tokens temperature w :
  chat providers respond self messages tools model max_tokens temperature w =
    let r := invoke respond
               (request_model (primary_request providers self messages tools model
                                 max_tokens temperature))
               (selected_of self model) (convert_message <$> messages)
               (options_of providers self tools model max_tokens temperature) w in
    (match fst r with Ok resp => Ok (normalize resp) | Err e => Err e end, snd r).
Proof.
  unfold chat, async_bind, async_ret. simpl.
  by destruct (invoke _ _ _ _ _ _).
Qed.

Lemma chat_world self messages tools model max_tokens temperature w :
  let primary := primary_request providers self messages tools model max_tokens temperature in
  let fallback := fallback_request providers self messages tools model max_tokens temperature in
  snd (chat providers respond self messages tools model max_tokens temperature w) =
    w ++ primary ::
      (if is_err (respond w primary)
          && negb (String.eqb (request_model primary) (request_model fallback))
       then [fallback] else []).
Proof. intros. rewrite chat_eq. simpl. by rewrite invoke_world. Qed.

Lemma chat_result self messages tools model max_tokens temperature w :
  let primary := primary_request providers self messages tools model max_tokens temperature in
  let fallback := fallback_request providers self messages tools model max_tokens temperature in
  fst (chat providers respond self messages tools model max_tokens temperature w) =
    match respond w primary with
    | Ok resp => Ok (normalize resp)
    | Err e1 =>
        if String.eqb (request_model primary) (request_model fallback) then
          Err (primary_error e1)
        else
          match respond (w ++ [primary]) fallback with
          | Ok resp => Ok (normalize resp)
          | Err e2 => Err (fallback_error e1 e2)
          end
    end.
Proof.
  intros. subst primary fallback. rewrite chat_eq. simpl. rewrite invoke_result.
  destruct (respond w _); [done|].
  destruct (String.eqb _ _); [done|].
  by destruct (respond (w ++ _) _).
Qed.

(** The endpoint answers a call with [resp]: at the request with the
    resolved name, or, that one refused and the name being another,
    at the retry. *)
Definition answers self messages tools model max_tokens temperature (w : World)
    (resp : CompletionResponse.t) : Prop :=
  let primary := primary_request providers self messages tools model max_tokens temperature in
  let fallback := fallback_request providers self messages tools model max_tokens temperature in
  respond w primary = Ok resp \/
  exists e, respond w primary = Err e /\
            request_model primary <> request_model fallback /\
            respond (w ++ [primary]) fallback = Ok resp.

(** [chat] succeeds exactly when the endpoint answers, with the
    answer normalised. *)
Lemma chat_Ok self messages tools model max_tokens temperature w r :
  fst (chat providers respond self messages tools model max_tokens temperature w) = Ok r <->
  exists resp, answers self messages tools model max_tokens temperature w resp /\
               r = normalize resp.
Proof.
  rewrite chat_result. unfold answers. destruct (respond w _) as [resp|e] eqn:Hp.
  - split; [intros [= <-]; by eauto|]. by intros (resp' & [[= ->]|(? & ? & _)] & ->).
  - destruct (String.eqb_spec
                (request_model (primary_request providers self messages tools model
                                  max_tokens temperature))
                (request_model (fallback_request providers self messages tools model
                                  max_tokens temperature))) as [Heq|Hne].
    + split; [done|]. by intros (resp' & [?|(? & _ & ? & _)] & _).
    + destruct (respond (w ++ _) _) as [resp|e'] eqn:Hf.
      * split; [intros [= <-]; eauto 10|].
        intros (resp' & [?|(? & _ & _ & Hf')] & ->); [done|]. congruence.
      * split; [done|]. intros (resp' & [?|(? & _ & _ & Hf')] & _); [done|]. congruence.
Qed.

End ChatFacts.

(** ** Concrete endpoints over the small backend *)

(** A reply with one choice holding the text. *)
Definition text_reply (text : string) : @CompletionResponse.t Stub.types :=
  {| CompletionResponse.choices :=
       [{| Choice.message :=
             {| Message.role := MessageRole.Assistant;
                Message.content := Some (MessageContent.Text text);
                Message.thinking := None; Message.name := None;
                Message.tool_calls := None; Message.tool_call_id := None;
                Message.function_call := None |};
           Choice.finish_reason := None |}];
     CompletionResponse.usage := None |}.

(** A reply without choices. *)
Definition no_choice_reply : @CompletionResponse.t Stub.types :=
  {| CompletionResponse.choices := []; CompletionResponse.usage := None |}.

(** An endpoint that serves one model name and rejects the others. *)
Definition picky_endpoint (known : string) (reply : @CompletionResponse.t Stub.types)
  : @Endpoint Stub.types :=
  fun _ request =>
    if String.eqb (request_model request) known then Ok reply
    else Err ("unknown model " +:+ request_model request).

(** An endpoint that is down. *)
Definition down_endpoint : @Endpoint Stub.types :=
  fun w _ => Err (if bool_decide (w = []) then "connection refused" else "timed out").

(** A history extended by one request, or by two. *)
Lemma one_or_two {A} (w : list A) (a b : A) (c : bool) :
  let t := w ++ a :: (if c then [b] else []) in
  (t = w ++ [a; b] <-> c = true) /\ (t = w ++ [a] <-> ~ c = true).
Proof. destruct c; simpl; (split; split); try done; by intros ?%app_inv_head. Qed.

Section ChatTheorems.

Context {serde : SerdeJson} {types : LiteLLMTypes} {lib : LiteLLM} (providers : list ProviderSpec) (respond : Endpoint).
Context (self : LiteLLMProvider) (messages : list Value) (tools : option (list Value)).
Context (model : option string) (max_tokens : u32) (temperature : f32).

#[local] Abbreviation primary :=
  (primary_request providers self messages tools model max_tokens temperature).
#[local] Abbreviation fallback :=
  (fallback_request providers self messages tools model max_tokens temperature).
#[local] Abbreviation run :=
  (chat providers respond self messages tools model max_tokens temperature).

(** C5. The fallback request is made if and only if the primary request
    failed and resolution changed the model name: the requests of a call
    of [chat] are the primary one followed by the fallback one exactly
    in that case, and the primary one alone otherwise. *)
Theorem chat_fallback_iff w :
  (snd (chat providers respond self messages tools model max_tokens temperature w)
   = w ++ [primary; fallback] <->
     is_err (respond w primary) = true /\
     request_model primary <> request_model fallback) /\
  (snd (chat providers respond self messages tools model max_tokens temperature w)
   = w ++ [primary] <->
     ~ (is_err (respond w primary) = true /\
        request_model primary <> request_model fallback)).
Proof.
  rewrite <-String.eqb_neq, <-negb_true_iff, <-andb_true_iff.
  set (c := is_err _ && _).
  enough (snd (run w) = w ++ primary :: (if c then [fallback] else [])) as ->
    by apply one_or_two.
  subst c. unfold chat, invoke, async_bind, completion, async_ret.
  unfold primary_request, fallback_request, selected_of. simpl.
  destruct (respond w _); simpl; [done|].
  destruct (String.eqb _ _); simpl; [done|]. by rewrite <-app_assoc.
Qed.

(** C15. [chat] fails only when every request it made failed: the primary
    request failed and either the name was not rewritten (no retry) or
    the fallback request, made after the primary one, failed too. *)
Theorem chat_fails_iff w :
  is_err (fst (chat providers respond self messages tools model max_tokens temperature w))
  = true <->
  is_err (respond w primary) = true /\
  (request_model primary = request_model fallback \/
   is_err (respond (w ++ [primary]) fallback) = true).
Proof.
  rewrite chat_result.
  destruct (respond w primary) as [resp|e1]; simpl; [by intuition|].
  destruct (String.eqb_spec (resolve_model providers self (selected_of self model))
              (selected_of self model)) as [Heq|Hne]; simpl; [by intuition|].
  destruct (respond _ _); simpl; intuition congruence.
Qed.

(** When both requests fail, the error of [chat] holds the text of
    both failures. *)
Theorem chat_error_reports_both w e1 e2 :
  respond w primary = Err e1 ->
  request_model primary <> request_model fallback ->
  respond (w ++ [primary]) fallback = Err e2 ->
  exists text,
    fst (chat providers respond self messages tools model max_tokens temperature w)
    = Err text /\
    contains text (error_to_string e1) = true /\
    contains text (error_to_string e2) = true.
Proof.
  intros H1 Hne H2. exists (fallback_error e1 e2).
  rewrite chat_result, H1, H2.
  destruct (String.eqb_spec (request_model primary) (request_model fallback)); [done|].
  unfold fallback_error. split_and!; [done|..].
  - apply contains_app_r, contains_app_l, contains_iff. exists "", "".
    by rewrite sapp_nil_r.
  - do 3 apply contains_app_r. apply contains_iff. exists "", "".
    by rewrite sapp_nil_r.
Qed.

(** A reply without choices is normalised to the empty response: no
    content, no tool calls, finish reason [stop], empty usage, no
    reasoning. *)
Theorem chat_no_choices w resp :
  respond w primary = Ok resp ->
  CompletionResponse.choices resp = [] ->
  fst (chat providers respond self messages tools model max_tokens temperature w) =
    Ok {| LLMResponse.content := None; LLMResponse.tool_calls := [];
          LLMResponse.finish_reason := "stop"; LLMResponse.usage := Map.new;
          LLMResponse.reasoning_content := None |}.
Proof.
  intros Hr Hc. rewrite chat_result, Hr. unfold normalize. by rewrite Hc.
Qed.

End ChatTheorems.

Lemma chat_error_reports_both_witness :
  exists text,
    fst (chat (serde := Sample.serde) (lib := Stub.backend) PROVIDERS down_endpoint standard_provider
           [] None None 16%N f32_0_2 []) = Err text /\
    contains text "connection refused" = true /\
    contains text "timed out" = true.
Proof.
  apply (chat_error_reports_both (serde := Sample.serde) (lib := Stub.backend) PROVIDERS down_endpoint
           standard_provider [] None None 16%N f32_0_2 []
           "connection refused" "timed out"); by vm_compute.
Defined.

Lemma chat_no_choices_witness :
  fst (chat (serde := Sample.serde) (lib := Stub.backend) PROVIDERS
         (picky_endpoint "dashscope/qwen-plus" no_choice_reply) standard_provider
         [] None None 16%N f32_0_2 []) =
    Ok {| LLMResponse.content := None; LLMResponse.tool_calls := [];
          LLMResponse.finish_reason := "stop"; LLMResponse.usage := Map.new;
          LLMResponse.reasoning_content := None |}.
Proof.
  by apply (chat_no_choices (serde := Sample.serde) (lib := Stub.backend) PROVIDERS _ standard_provider
              [] None None 16%N f32_0_2 [] no_choice_reply).
Defined.

(** A backend that knows the plain name only: the request with the
    resolved name fails, the retry with the name as given succeeds, and
    the reply of the retry is the one normalised. *)
Example chat_fallback_scenario :
  let r := chat (serde := Sample.serde) (lib := Stub.backend) PROVIDERS
             (picky_endpoint "qwen-plus" (text_reply "hi")) standard_provider
             [] None None 16%N f32_0_2 [] in
  request_model <$> snd r = ["dashscope/qwen-plus"; "qwen-plus"] /\
  LLMResponse.content <$> result_ok (fst r) = Some (Some "hi") /\
  LLMResponse.finish_reason <$> result_ok (fst r) = Some "stop".
Proof. by vm_compute. Qed.

(** A name that resolution leaves alone is tried once. *)
Example chat_no_retry_scenario :
  let r := chat (serde := Sample.serde) (lib := Stub.backend) PROVIDERS down_endpoint standard_provider
             [] None (Some "dashscope/qwen-plus") 16%N f32_0_2 [] in
  request_model <$> snd r = ["dashscope/qwen-plus"] /\
  fst r = Err "failed to call litellm-rs completion: connection refused".
Proof. by vm_compute. Qed.

(** ** Options and tools *)

Section Options.

Context {serde : SerdeJson} {types : LiteLLMTypes} {lib : LiteLLM} (providers : list ProviderSpec).

(** [attach_tools] touches the tools, the tool choice and the extra
    parameters only. *)
Lemma attach_tools_frame tools options :
  let o := attach_tools tools options in
  CompletionOptions.max_tokens o = CompletionOptions.max_tokens options /\
  CompletionOptions.temperature o = CompletionOptions.temperature options /\
  CompletionOptions.api_key o = CompletionOptions.api_key options /\
  CompletionOptions.api_base o = CompletionOptions.api_base options /\
  CompletionOptions.headers o = CompletionOptions.headers options.
Proof. destruct tools; [|done]. unfold attach_tools. cbv zeta. by case_bool_decide. Qed.

Lemma attach_tools_extra_params tool_defs options :
  CompletionOptions.extra_params (attach_tools (Some tool_defs) options) =
    <["tool_choice" := JString "auto"]>
      (<["tools" := JArray tool_defs]> (CompletionOptions.extra_params options)).
Proof. unfold attach_tools. cbv zeta. by case_bool_decide. Qed.

Lemma attach_tools_extra tool_defs options key :
  CompletionOptions.extra_params (attach_tools (Some tool_defs) options) !! key =
    if bool_decide (key = "tool_choice") then Some (JString "auto")
    else if bool_decide (key = "tools") then Some (JArray tool_defs)
    else CompletionOptions.extra_params options !! key.
Proof.
  rewrite attach_tools_extra_params.
  case_bool_decide as H1; [subst; by rewrite lookup_insert_eq|].
  rewrite lookup_insert_ne by congruence.
  case_bool_decide as H2; [subst; by rewrite lookup_insert_eq|].
  by rewrite lookup_insert_ne by congruence.
Qed.

(** Supplied tool definitions are attached twice.  All of them, as
    given, go under the extra parameter [tools] with the choice [auto],
    whether or not any of them parses; those that parse, in order,
    become the library's tools, and when none parses the library's
    tools are left as they were. *)
Theorem attach_tools_twice tool_defs options :
  let o := attach_tools (Some tool_defs) options in
  let parsed := omap tool_from_value tool_defs in
  CompletionOptions.extra_params o !! "tools" = Some (JArray tool_defs) /\
  CompletionOptions.extra_params o !! "tool_choice" = Some (JString "auto") /\
  (parsed <> [] ->
     CompletionOptions.tools o = Some parsed /\
     CompletionOptions.tool_choice o = Some (ToolChoice.String "auto")) /\
  (parsed = [] ->
     CompletionOptions.tools o = CompletionOptions.tools options /\
     CompletionOptions.tool_choice o = CompletionOptions.tool_choice options).
Proof.
  unfold attach_tools. cbv zeta.
  case_bool_decide as Hp; simpl;
    rewrite lookup_insert_eq, lookup_insert_ne, lookup_insert_eq by done; done.
Qed.

(** The options of a call before the tools are attached. *)
Lemma options_of_fields self tools model max_tokens temperature :
  let o := options_of providers self tools model max_tokens temperature in
  CompletionOptions.max_tokens o = Some max_tokens /\
  CompletionOptions.temperature o =
    Some (apply_model_overrides providers self
            (resolve_model providers self (selected_of self model)) temperature) /\
  CompletionOptions.api_key o =
    (if is_empty (api_key self) then None else Some (api_key self)) /\
  CompletionOptions.api_base o =
    effective_api_base providers self (selected_of self model) /\
  CompletionOptions.headers o =
    (if bool_decide (extra_headers self = ∅) then None else Some (extra_headers self)).
Proof.
  unfold options_of. cbv zeta.
  by destruct (attach_tools_frame tools
       (base_options providers self (selected_of self model) max_tokens
          (apply_model_overrides providers self
             (resolve_model providers self (selected_of self model)) temperature)))
    as (-> & -> & -> & -> & ->).
Qed.

End Options.

(** ** Tool-call arguments *)

Section Arguments.

Context {serde : SerdeJson} {types : LiteLLMTypes} {lib : LiteLLM}.

Lemma raw_arguments_get arguments :
  Map.get (raw_arguments arguments) "raw" = Some (JString arguments).
Proof. done. Qed.

(** C18. The arguments of a tool call are the object its text parses to;
    a text that does not parse to an object is kept whole under the key
    [raw], which is then the only key. *)
Theorem parse_arguments_cases arguments :
  (exists m, value_from_str arguments = Some (JObject m) /\
             parse_arguments arguments = m) \/
  ((forall m, value_from_str arguments <> Some (JObject m)) /\
   parse_arguments arguments = [("raw", JString arguments)]).
Proof.
  unfold parse_arguments.
  destruct (value_from_str arguments) as [[]|]; simpl; eauto; by right.
Qed.

(** The fallback under [raw] is not told apart from an object that
    has the key [raw] itself: a text that parses to the object with
    the single key [raw] holding a text that does not parse gives the
    same arguments as that text. *)
Lemma parse_arguments_raw a b :
  value_from_str a = Some (JObject [("raw", JString b)]) ->
  value_from_str b ≫= as_object = None ->
  parse_arguments a = parse_arguments b.
Proof. unfold parse_arguments. by intros -> ->. Qed.

(** The identifier and the name of a tool call are copied. *)
Lemma tool_call_request_id_name call :
  ToolCallRequest.id (tool_call_request call) = ToolCall.id call /\
  ToolCallRequest.name (tool_call_request call)
  = FunctionCall.name (ToolCall.function call).
Proof. done. Qed.

(** The response has a tool call exactly when the first choice has
    one. *)
Lemma normalize_has_tool_calls response :
  LLMResponse.has_tool_calls (normalize response) =
    match CompletionResponse.choices response with
    | [] => false
    | choice :: _ =>
        match Message.tool_calls (Choice.message choice) with
        | Some (_ :: _) => true
        | _ => false
        end
    end.
Proof.
  unfold normalize, LLMResponse.has_tool_calls.
  destruct (CompletionResponse.choices response) as [|choice rest]; [done|]. simpl.
  by destruct (Message.tool_calls (Choice.message choice)) as [[|call calls]|].
Qed.

End Arguments.

(** The arguments a backend prints are recovered: the text of an
    object without floats, whose integers fit 64 bits, whose keys are
    distinct and whose nesting is below the recursion limit of the
    reader, gives the members of the object and never the fallback
    under [raw]. *)
Theorem parse_arguments_printed {ryu : Text.Ryu} m :
  Text.readable (JObject m) = true ->
  (height (JObject m) < Text.RECURSION_LIMIT)%nat ->
  parse_arguments (serde := Text.serde) (Text.to_string (JObject m)) = m.
Proof.
  intros Hr Hh. unfold parse_arguments. cbn [value_from_str Text.serde].
  by rewrite Text.from_str_to_string.
Qed.

Lemma parse_arguments_printed_witness :
  parse_arguments (serde := Sample.serde) Sample.paris = [("city", JString "Paris")].
Proof.
  apply (parse_arguments_printed (ryu := Sample.ryu) [("city", JString "Paris")]);
    [done|vm_compute; lia].
Defined.

(** C40. The fallback under [raw] loses what the arguments were: every
    text that is not an object has the same arguments as another text,
    the printed object that holds it under the key [raw]. *)
Theorem parse_arguments_collision {ryu : Text.Ryu} b :
  Text.from_str b ≫= as_object = None ->
  let a := Text.to_string (JObject [("raw", JString b)]) in
  parse_arguments (serde := Text.serde) a = parse_arguments (serde := Text.serde) b
  /\ a <> b.
Proof.
  intros Hb a.
  assert (Text.from_str a = Some (JObject [("raw", JString b)])) as Ha.
  { apply Text.from_str_to_string; [done|]. vm_compute. lia. }
  split; [by apply parse_arguments_raw|]. intros Heq. by rewrite <-Heq, Ha in Hb.
Qed.

Lemma parse_arguments_collision_witness :
  parse_arguments (serde := Sample.serde) Sample.raw_oops
  = parse_arguments (serde := Sample.serde) "oops"
  /\ Sample.raw_oops <> "oops".
Proof. by apply (parse_arguments_collision (ryu := Sample.ryu) "oops"). Defined.

(** ** Arguments are well formed

    With the reader of serde_json, in either of its builds: the maps
    sorted by key ([BTreeMap]) or as listed ([IndexMap]). *)

Section Wellformed.

Context {ryu : Text.Ryu} (impl : MapImpl).

Lemma raw_arguments_wf arguments :
  let v := JObject (raw_arguments arguments) in
  keep impl v = v /\ wellformed v = true /\ (height v < Text.RECURSION_LIMIT)%nat.
Proof. split; [by destruct impl|split; [done|vm_compute; lia]]. Qed.

(** The arguments of a tool call are a well-formed map in the form
    the build keeps, whatever the text was: the object read from it,
    or the text under [raw]. *)
Lemma parse_arguments_wf arguments :
  let v := JObject (parse_arguments (serde := serde_of impl) arguments) in
  keep impl v = v /\ wellformed v = true /\ (height v < Text.RECURSION_LIMIT)%nat.
Proof.
  unfold parse_arguments.
  destruct (value_from_str arguments) as [v|] eqn:Hv; [|apply raw_arguments_wf].
  destruct v; try apply raw_arguments_wf. by apply serde_of_read in Hv.
Qed.

(** C22. Arguments survive being sent back.  The arguments of a
    tool-call request, printed as the object they are and parsed
    again, are the same arguments, when they hold no float: what
    [chat] hands to the agent can be put into the next request
    without loss, the fallback under [raw] included, whether
    serde_json keeps the members of an object sorted or as listed. *)
Theorem parse_arguments_stable arguments :
  let m := parse_arguments (serde := serde_of impl) arguments in
  float_free (JObject m) = true ->
  parse_arguments (serde := serde_of impl)
    (value_to_string (SerdeJson := serde_of impl) (JObject m)) = m.
Proof.
  intros m Hfloat. destruct (parse_arguments_wf arguments) as (Hkeep & Hwf & Hheight).
  fold m in Hkeep, Hwf, Hheight. clearbody m.
  unfold parse_arguments. by rewrite serde_of_printed, Hkeep.
Qed.

Context {types : LiteLLMTypes} {lib : LiteLLM}.
Context (providers : list ProviderSpec) (respond : Endpoint).


End Wellformed.

(** Parsers that read equivalent values give equivalent arguments:
    the same values under the same keys. *)
Lemma parse_arguments_agree (a b : SerdeJson) arguments :
  parsers_agree a b ->
  parse_arguments (serde := a) arguments ≡ₘ parse_arguments (serde := b) arguments.
Proof.
  intros agree. unfold parse_arguments.
  destruct (agree arguments) as [v w Hv|]; [simpl|reflexivity].
  destruct (as_object_proper v w Hv); [done|reflexivity].
Qed.

(** A reply with one tool call. *)
Definition tool_reply (arguments : string) : @CompletionResponse.t Stub.types :=
  {| CompletionResponse.choices :=
       [{| Choice.message :=
             {| Message.role := MessageRole.Assistant;
                Message.content := None;
                Message.thinking := None; Message.name := None;
                Message.tool_calls :=
                  Some [{| ToolCall.id := "call-1";
                           ToolCall.function :=
                             {| FunctionCall.name := "weather";
                                FunctionCall.arguments := arguments |} |}];
                Message.tool_call_id := None;
                Message.function_call := None |};
           Choice.finish_reason := None |}];
     CompletionResponse.usage := None |}.

(** Arguments that repeat a key and hold an integer beyond 64 bits:
    the later entry replaces the earlier one, and the integer is a
    float. *)
Definition odd_arguments : string :=
  "{" +:+ Text.quoted "n" +:+ ":1," +:+ Text.quoted "n"
  +:+ ":18446744073709551616}".

Example chat_arguments_scenario :
  let r := chat (serde := Sample.serde) (lib := Stub.backend) PROVIDERS
             (picky_endpoint "dashscope/qwen-plus" (tool_reply odd_arguments))
             standard_provider [] None None 16%N f32_0_2 [] in
  (fun call => (fst <$> ToolCallRequest.arguments call,
                float_free (JObject (ToolCallRequest.arguments call))))
  <$> (result_ok (fst r) ≫= fun response => head (LLMResponse.tool_calls response))
  = Some (["n"], false).
Proof. by vm_compute. Qed.

Lemma parse_arguments_stable_witness :
  let sorted := serde_of (ryu := Sample.ryu) BTreeMap in
  parse_arguments (serde := sorted)
    (value_to_string (SerdeJson := sorted)
       (JObject (parse_arguments (serde := sorted) Sample.paris)))
  = parse_arguments (serde := sorted) Sample.paris.
Proof. by apply (parse_arguments_stable (ryu := Sample.ryu) BTreeMap Sample.paris). Defined.


(** ** What a call sends *)

Section Payload.

Context {serde : SerdeJson} {types : LiteLLMTypes} {lib : LiteLLM} (providers : list ProviderSpec) (respond : Endpoint).
Context (self : LiteLLMProvider) (messages : list Value) (tools : option (list Value)).
Context (model : option string) (max_tokens : u32) (temperature : f32).

(** A call of [chat] only adds to the history, one request or two,
    and every request it adds carries the converted messages and the
    same options: the retry differs from the primary request in the
    model name only. *)
Theorem chat_requests_payload w :
  exists added,
    snd (chat providers respond self messages tools model max_tokens temperature w)
    = w ++ added /\
    (1 <= List.length added <= 2)%nat /\
    Forall (fun r =>
              request_messages r = convert_message <$> messages /\
              request_options r =
                Some (options_of providers self tools model max_tokens temperature))
           added.
Proof.
  rewrite chat_world. eexists; split; [done|].
  destruct (_ && _); simpl; (split; [lia|]); by repeat constructor.
Qed.

End Payload.

(** [impl LLMProvider for LiteLLMProvider] *)
Definition litellm_provider {serde : SerdeJson} {types : LiteLLMTypes}
    {lib : LiteLLM} (providers : list ProviderSpec)
    (respond : Endpoint) : LLMProvider LiteLLMProvider World :=
  {| Base.chat := chat providers respond;
     Base.default_model := Resolver.default_model |}.

(** Tool definitions of which none parses, the empty list included,
    still switch the tool choice of the extra parameters to [auto]. *)
Example attach_tools_empty_list :
  let o := attach_tools (lib := Stub.backend) (Some [])
             (base_options PROVIDERS standard_provider "qwen-plus" 16%N f32_0_2) in
  CompletionOptions.tools o = None /\
  CompletionOptions.extra_params o !! "tools" = Some (JArray []) /\
  CompletionOptions.extra_params o !! "tool_choice" = Some (JString "auto").
Proof. by vm_compute. Qed.

(** Through the AiHubMix gateway the request for [kimi-k2.5] is sent
    under the name [openai/kimi-k2.5] with the caller's temperature:
    the floor of the Moonshot descriptor is not applied. *)
Example chat_override_lost_through_gateway :
  let r := primary_request (lib := Stub.backend) PROVIDERS aihubmix_provider []
             None (Some "kimi-k2.5") 16%N f32_0_2 in
  request_model r = "openai/kimi-k2.5" /\
  (request_options r ≫= CompletionOptions.temperature) = Some f32_0_2.
Proof. by vm_compute. Qed.
