(* ===== verification/Shared.v ===== *)
(** * Shared: one provider called by several callers

    A provider is not changed by [chat]: the method takes [&self], and
    what a call builds (the messages, the options, the response) is
    its own.  What callers of one provider share is the remote
    endpoint.  This file models calls of [chat] that are in progress
    at the same time.

    [chat] is an [async fn]: it runs until one of its two [await]s,
    the request with the resolved name and the retry with the name as
    given, and goes on when the reply is there.  A [Task] is a call
    by the place it is suspended at, [start] runs [chat] up to the
    first [await], and [poll] sends the request the task is suspended
    at and runs the task up to the next [await] or to its end.  The
    pools, steps and schedules are those of [Sched], over the history
    of the endpoint.

    The theorems: a task polled with nothing else running is [chat]
    ([chat_alone]); every poll sends one request, and a pool of [n]
    calls is polled [2 * n] times at most ([shared_requests]); when
    the endpoint answers a request without regard to what was asked
    before, the calls that reached their end hold the responses
    [chat] gives to each alone, however they were interleaved
    ([shared_chat]).  An example shows two callers of an endpoint
    that does regard its history: the response one of them gets
    depends on the schedule. *)

From S2P Require Import Prelude RustStr Json JsonText Catalog Resolver Base Wire Chat Sched.
Import Str.
#[local] Open Scope nb_scope.

Section Shared.

Context {serde : SerdeJson} {types : LiteLLMTypes} {lib : LiteLLM}.
Context (providers : list ProviderSpec) (respond : Endpoint).

(** The arguments of a call of [chat]. *)
Record Caller : Type := {
  arg_messages : list Value;
  arg_tools : option (list Value);
  arg_model : option string;
  arg_max_tokens : u32;
  arg_temperature : f32;
}.

(** A call of [chat] in progress: suspended at the [await] of the
    request with the resolved name, at the [await] of the retry, or
    returned. *)
Inductive Task : Type :=
| Primary (resolved_model selected_model : string)
    (chat_messages : list Message.t) (options : CompletionOptions.t)
| Fallback (primary_err : Error) (selected_model : string)
    (chat_messages : list Message.t) (options : CompletionOptions.t)
| Ready (result : Result LLMResponse.t AnyhowError).

(** [chat] up to its first [await]. *)
Definition start (self : LiteLLMProvider) (caller : Caller) : Task :=
  let selected_model := default (Resolver.default_model self) (arg_model caller) in
  let resolved_model := resolve_model providers self selected_model in
  let effective_temperature :=
    apply_model_overrides providers self resolved_model (arg_temperature caller) in
  let chat_messages := convert_message <$> arg_messages caller in
  let options :=
    attach_tools (arg_tools caller)
      (base_options providers self selected_model (arg_max_tokens caller)
         effective_temperature) in
  Primary resolved_model selected_model chat_messages options.

(** The reply arrives: the request the task is suspended at is made
    and the task runs to its next [await], or to its end. *)
Definition poll (w : World) (task : Task) : World * Task :=
  match task with
  | Primary resolved_model selected_model chat_messages options =>
      let (primary, w) := completion respond resolved_model chat_messages (Some options) w in
      match primary with
      | Ok resp => (w, Ready (Ok (normalize resp)))
      | Err primary_err =>
          if negb (String.eqb resolved_model selected_model)
          then (w, Fallback primary_err selected_model chat_messages options)
          else (w, Ready (Err (primary_error primary_err)))
      end
  | Fallback primary_err selected_model chat_messages options =>
      let (fallback, w) := completion respond selected_model chat_messages (Some options) w in
      match map_err (fallback_error primary_err) fallback with
      | Ok resp => (w, Ready (Ok (normalize resp)))
      | Err e => (w, Ready (Err e))
      end
  | Ready _ => (w, task)
  end.

Definition ready (task : Task) : bool :=
  match task with Ready _ => true | _ => false end.

(** The requests a task has left. *)
Definition requests_left (task : Task) : nat :=
  match task with Primary _ _ _ _ => 2 | Fallback _ _ _ _ => 1 | Ready _ => 0 end.

(** [chat] with the arguments of a caller. *)
Definition chat_of (self : LiteLLMProvider) (caller : Caller)
  : Async World (Result LLMResponse.t AnyhowError) :=
  chat providers respond self (arg_messages caller) (arg_tools caller) (arg_model caller)
    (arg_max_tokens caller) (arg_temperature caller).

End Shared.

(** An endpoint that answers a request without regard to the requests
    made before. *)
Definition oblivious {types : LiteLLMTypes} (respond : Endpoint) : Prop :=
  forall w w' request, respond w request = respond w' request.

Section Facts.

Context {serde : SerdeJson} {types : LiteLLMTypes} {lib : LiteLLM}.
Context (providers : list ProviderSpec) (respond : Endpoint).

#[local] Abbreviation poll := (Shared.poll respond).
#[local] Abbreviation Step := (Sched.Step poll ready).
#[local] Abbreviation alone := (Sched.alone poll).

Lemma poll_ready w task : ready task = true -> poll w task = (w, task).
Proof. by destruct task. Qed.

Lemma poll_requests_left w task :
  ready task = false -> requests_left (poll w task).2 < requests_left task.
Proof.
  destruct task as [resolved selected ms options|e selected ms options|]; [| |done];
    intros _; unfold Shared.poll, completion.
  - destruct (respond w _); [simpl; lia|]. destruct (negb _); simpl; lia.
  - destruct (map_err _ _); simpl; lia.
Qed.

(** Every poll of a task that has not returned sends one request. *)
Lemma poll_length w task :
  ready task = false -> length (poll w task).1 = S (length w).
Proof.
  destruct task as [resolved selected ms options|e selected ms options|]; [| |done];
    intros _; unfold Shared.poll, completion.
  - destruct (respond w _); [|destruct (negb _)]; simpl; rewrite length_app; simpl; lia.
  - destruct (map_err _ _); simpl; rewrite length_app; simpl; lia.
Qed.

(** A task polled twice with nothing else running is the call of
    [chat]. *)
Lemma chat_alone self caller w :
  alone 2 w (start providers self caller)
  = ((chat_of providers respond self caller w).2,
     Ready (chat_of providers respond self caller w).1).
Proof.
  unfold chat_of, chat, start, invoke, async_bind, async_ret, completion. simpl.
  destruct (respond w _); [done|].
  destruct (String.eqb _ _); simpl; [done|]. by destruct (respond _ _).
Qed.

(** What a poll makes of a task does not depend on the history, when
    the endpoint does not. *)
Lemma poll_oblivious w w' task :
  oblivious respond -> (poll w task).2 = (poll w' task).2.
Proof.
  intros Hrespond.
  destruct task as [resolved selected ms options|e selected ms options|]; [| |done];
    unfold Shared.poll, completion; rewrite (Hrespond w w').
  - destruct (respond w' _); [done|]. by destruct (negb _).
  - by destruct (map_err _ _).
Qed.

Lemma alone_oblivious n : forall w w' task,
  oblivious respond -> (alone n w task).2 = (alone n w' task).2.
Proof.
  induction n as [|n IH]; intros w w' task Hrespond; [done|]. cbn [Sched.alone].
  rewrite (poll_oblivious w w' task Hrespond). by apply IH.
Qed.

(** A task that has returned, after any number of polls alone, has
    returned what [chat] returns. *)
Lemma alone_ready self caller n w :
  ready (alone n w (start providers self caller)).2 = true ->
  (alone n w (start providers self caller)).2
  = Ready (chat_of providers respond self caller w).1.
Proof.
  intros Hready. pose proof (chat_alone self caller w) as Hchat.
  pose proof (alone_add poll n 2 w (start providers self caller)) as Hn.
  rewrite (alone_finished poll ready poll_ready 2 _ _ Hready) in Hn.
  pose proof (alone_add poll 2 n w (start providers self caller)) as H2.
  rewrite Hchat in H2. cbn [fst snd] in H2.
  rewrite (alone_finished poll ready poll_ready n _ (Ready _) eq_refl) in H2.
  rewrite Nat.add_comm, Hn in H2. by injection H2.
Qed.

End Facts.

(** ** Calls in progress at the same time *)

Section Interleaved.

Context {serde : SerdeJson} {types : LiteLLMTypes} {lib : LiteLLM}.
Context (providers : list ProviderSpec) (respond : Endpoint).

#[local] Abbreviation poll := (Shared.poll respond).
#[local] Abbreviation Step := (Sched.Step poll ready).
#[local] Abbreviation alone := (Sched.alone poll).

(** Every step of a pool sends one request. *)
Lemma nsteps_length n pool pool' :
  nsteps Step n pool pool' -> length pool'.1 = length pool.1 + n.
Proof.
  induction 1 as [|n pool mid pool' Hstep _ IH]; [lia|]. rewrite IH.
  destruct Hstep as [w tasks i task _ Hready]. cbn [fst].
  rewrite (poll_length respond w task Hready). lia.
Qed.

Lemma start_requests_left self callers :
  sum_list (requests_left <$> (start providers self <$> callers)) = 2 * length callers.
Proof.
  induction callers as [|caller rest IH]; [done|]. rewrite !fmap_cons.
  change (sum_list (?x :: ?l)) with (x + sum_list l). rewrite IH. simpl. lia.
Qed.

(** C23. A call of [chat] makes two requests at most, whatever else is
    in progress: a pool of calls that has made [n] steps has sent [n]
    requests, and [n] is at most twice the number of calls. *)
Theorem shared_requests self callers w0 n pool :
  nsteps Step n (w0, start providers self <$> callers) pool ->
  length pool.1 = length w0 + n /\ n <= 2 * length callers.
Proof.
  intros Hsteps. split; [apply (nsteps_length _ _ _ Hsteps)|].
  pose proof (nsteps_weight poll ready requests_left (poll_requests_left respond)
                _ _ _ Hsteps) as Hn.
  unfold pool_weight in Hn at 2. cbn [snd] in Hn. rewrite start_requests_left in Hn. lia.
Qed.

(** With an endpoint that does not regard its history, every task of
    a pool is where its own polls alone would have brought it. *)
Lemma shared_isolated self callers w0 pool :
  oblivious respond ->
  rtc Step (w0, start providers self <$> callers) pool ->
  Forall2 (fun caller task => exists n, task = (alone n w0 (start providers self caller)).2)
    callers pool.2.
Proof.
  intros Hrespond.
  apply (reachable_threads poll ready
           (fun caller (_ : World) task =>
              exists n, task = (alone n w0 (start providers self caller)).2) callers).
  - intros caller w task [n ->] _. exists (S n). rewrite alone_S.
    by apply poll_oblivious.
  - by intros i j caller caller' w task task' _ _ _ _ _ Htask'.
  - apply Forall2_fmap_r, Forall_Forall2_diag, Forall_forall. intros caller _. by exists 0.
Qed.

(** With such an endpoint, the calls of a pool that cannot go on have
    returned what [chat] returns to each caller alone. *)
Lemma shared_results self callers w0 pool :
  oblivious respond ->
  rtc Step (w0, start providers self <$> callers) pool ->
  Forall (fun task => ready task = true) pool.2 ->
  pool.2 = (fun caller => Ready (chat_of providers respond self caller w0).1) <$> callers.
Proof.
  intros Hrespond Hreach Hend.
  pose proof (shared_isolated self callers w0 pool Hrespond Hreach) as Hiso.
  revert Hiso Hend. clear Hreach. generalize pool.2. intros tasks Hiso.
  induction Hiso as [|caller task rest tasks [n ->] _ IH]; intros Hend; [done|].
  apply Forall_cons in Hend as [Hready Hend]. rewrite fmap_cons.
  f_equal; [by apply alone_ready|by apply IH].
Qed.

(** C10. A provider can be shared.  When the endpoint answers a request
    without regard to the requests made before, calls of [chat] on one
    provider that are in progress at the same time do not affect each
    other: however they were interleaved so far, they can go on until
    none has a step left, and once none has, each has returned what
    [chat] returns to its caller alone. *)
Theorem shared_chat self callers w0 pool :
  oblivious respond ->
  rtc Step (w0, start providers self <$> callers) pool ->
  (exists pool', rtc Step pool pool' /\ forall pool'', ~ Step pool' pool'') /\
  ((forall pool', ~ Step pool pool') ->
   pool.2 = (fun caller => Ready (chat_of providers respond self caller w0).1) <$> callers).
Proof.
  intros Hrespond Hreach. split.
  - destruct (runs_to_end poll ready requests_left (poll_requests_left respond) pool)
      as (pool' & Hgo & Hend).
    exists pool'. split; [done|]. by apply stuck_finished.
  - intros Hend%stuck_finished. by apply shared_results.
Qed.

End Interleaved.

(** ** Two callers of one provider *)

(** A caller that sends no message and names the model or not. *)
Definition ask (model : option string) : Caller := {|
  arg_messages := [];
  arg_tools := None;
  arg_model := model;
  arg_max_tokens := 16%N;
  arg_temperature := f32_0_2;
|}.

(** The calls of two callers of [standard_provider], not yet polled,
    over an endpoint nothing was asked of. *)
Definition two_calls : Pool (World (types := Stub.types)) Task :=
  ([], start (lib := Stub.backend) PROVIDERS standard_provider
         <$> [ask None; ask (Some "dashscope/qwen-plus")]).

Definition qwen_endpoint : @Endpoint Stub.types :=
  picky_endpoint "qwen-plus" (text_reply "hi").

Lemma picky_endpoint_oblivious known reply : oblivious (picky_endpoint known reply).
Proof. done. Qed.

Lemma shared_requests_witness :
  let pool := interleave (poll (serde := Sample.serde) (lib := Stub.backend) qwen_endpoint) ready [1; 0] two_calls in
  length pool.1 = length two_calls.1 + 2 /\ 2 <= 2 * 2.
Proof.
  apply (shared_requests (serde := Sample.serde) (lib := Stub.backend) PROVIDERS qwen_endpoint standard_provider
           [ask None; ask (Some "dashscope/qwen-plus")] []).
  apply (nsteps_l _ _ _ (step_at (poll (serde := Sample.serde) (lib := Stub.backend) qwen_endpoint) ready 1 two_calls));
    [by eapply Step_at|].
  apply (nsteps_l _ _ _ (interleave (poll (serde := Sample.serde) (lib := Stub.backend) qwen_endpoint) ready [1; 0] two_calls));
    [by eapply Step_at|].
  apply nsteps_O.
Defined.

Lemma shared_chat_witness :
  (interleave (poll (serde := Sample.serde) (lib := Stub.backend) qwen_endpoint) ready [0; 1; 0] two_calls).2
  = (fun caller => Ready (chat_of (serde := Sample.serde) (lib := Stub.backend) PROVIDERS qwen_endpoint
                            standard_provider caller []).1)
      <$> [ask None; ask (Some "dashscope/qwen-plus")].
Proof.
  apply (shared_chat (serde := Sample.serde) (lib := Stub.backend) PROVIDERS qwen_endpoint
           standard_provider).
  - apply picky_endpoint_oblivious.
  - apply reachable_interleave. by eexists.
  - apply stuck_finished. vm_compute. by repeat constructor.
Defined.

(** An endpoint that regards what was asked before: [down_endpoint]
    refuses the first request and lets the later ones time out.  The
    caller whose request comes second gets another error than [chat]
    gives it alone. *)
Example shared_endpoint_interferes :
  let caller := ask (Some "dashscope/qwen-plus") in
  let calls := start (lib := Stub.backend) PROVIDERS standard_provider
                 <$> [caller; caller] in
  (chat_of (serde := Sample.serde) (lib := Stub.backend) PROVIDERS down_endpoint standard_provider caller []).1
  = Err "failed to call litellm-rs completion: connection refused" /\
  (interleave (poll (serde := Sample.serde) (lib := Stub.backend) down_endpoint) ready [1; 0] ([], calls)).2 !! 0
  = Some (Ready (Err "failed to call litellm-rs completion: timed out")).
Proof. by vm_compute. Qed.
