(* ===== verification/TurnGuard.v ===== *)
(** * TurnGuard: the no-tools-claim classifier

    Models [src/src/agent/turn_guard.rs]: the guard that asks the
    model, through the provider interface, whether an assistant reply
    wrongly claims that no tools are available, and the scanner
    [extract_json_object] that finds a JSON object in the classifier's
    answer.

    The guard is modelled over any provider of the class
    [LLMProvider] and any parser of the class [SerdeJson].  The inner
    loop of the scanner is the function [scan]; the relation [Closes]
    specifies it as an automaton, and [scan_refines] relates the two.  The
    scanner reads the text byte by byte: the four characters it tells
    apart (the braces, the quote and the backslash) are ASCII and no
    byte of a longer UTF-8 character is, so the bytes it stops at are
    the characters the source stops at.  The guard reads the object
    through its keys, so parsers that list the members of an object
    in different orders give the same decision. *)

From S2P Require Import Prelude RustStr Json JsonText JsonValid JsonEquiv Base.
Import Str.
#[local] Open Scope nb_scope.

(** ** The scanner *)

Definition LBRACE : ascii := "{".
Definition RBRACE : ascii := "}".
Definition QUOTE : ascii := "034".
Definition BACKSLASH : ascii := "\".

(** The inner loop of [extract_json_object] over the text from a
    start position: the text up to the brace that closes the first
    one, if the loop reaches it.  [None] is the [break] at a closing
    brace met at depth zero, or the end of the text. *)
Fixpoint scan (s : string) (depth : nat) (in_string escaped : bool)
  : option string :=
  match s with
  | EmptyString => None
  | String c rest =>
      if in_string then
        if escaped then String c <$> scan rest depth true false
        else if Ascii.eqb c BACKSLASH then String c <$> scan rest depth true true
        else if Ascii.eqb c QUOTE then String c <$> scan rest depth false false
        else String c <$> scan rest depth true false
      else
        if Ascii.eqb c QUOTE then String c <$> scan rest depth true false
        else if Ascii.eqb c LBRACE then String c <$> scan rest (S depth) false false
        else if Ascii.eqb c RBRACE then
          match depth with
          | O => None
          | S d =>
              match d with
              | O => Some (String c EmptyString)
              | S _ => String c <$> scan rest d false false
              end
          end
        else String c <$> scan rest depth false false
  end.

Section Extract.

Context {serde : SerdeJson}.

(** The outer loop: every opening brace of the text, from the left,
    is tried as the start of an object. *)
Fixpoint extract_from (text : string) : option Value :=
  match text with
  | EmptyString => None
  | String ch rest =>
      if Ascii.eqb ch LBRACE then
        match scan text 0 false false ≫= object_from_str with
        | Some value => Some value
        | None => extract_from rest
        end
      else extract_from rest
  end.

Definition extract_json_object (text : string) : option Value :=
  match object_from_str (trim text) with
  | Some value => Some value
  | None => extract_from text
  end.

End Extract.

(** ** The guard *)

Module TurnGuard.

Section Def.

Context {P : Type}.

Record t : Type := {
  provider : P;
  model : string;
  tools_text : string;
  max_iterations : u32;
}.

Definition new (provider : P) (model : string) (tools_text : string)
    (max_iterations : u32) : t :=
  {| provider := provider; model := model; tools_text := tools_text;
     max_iterations := max_iterations |}.

End Def.

Arguments t : clear implicits.

End TurnGuard.

Import TurnGuard.

Section Guard.

Context {serde : SerdeJson} {P W : Type} {llm : LLMProvider P W}.
Implicit Types self : TurnGuard.t P.

(** [json!({"role": role, "content": content})] *)
Definition role_content (role content : string) : Value :=
  JObject (Map.insert "content" (JString content)
             (Map.insert "role" (JString role) Map.new)).

Definition correction_message (self : TurnGuard.t P) : Value :=
  role_content "system"
    ("Correction: tools are available in this runtime. Available tools: "
     +:+ tools_text self
     +:+ ". Do not claim tools are unavailable; call the appropriate tool directly.").

(** The listing of the tools shown to the user. *)
Definition tools_available_response (self : TurnGuard.t P) : string :=
  if String.eqb (tools_text self) "(none)" then "当前运行时未注册任何工具。"
  else
    let items := join (String "010" "- ") (split (tools_text self) ", ") in
    "当前运行时可用工具：" +:+ String "010" "- " +:+ items +:+ String "010" ""
    +:+ "如需执行网络访问、命令执行、文件操作或定时任务，请直接给出目标。".

(** The instruction of the classifier. *)
Definition classifier_instruction : string :=
  "You are a strict classifier. Return ONLY one JSON object with boolean key claims_no_tools. "
  +:+ "If the assistant response explicitly or implicitly claims that tools are unavailable in the current runtime, set claims_no_tools=true. "
  +:+ "Otherwise false. Do not output markdown or extra text.".

(** The two messages sent to the classifier. *)
Definition classifier_messages (self : TurnGuard.t P) (content : string) : list Value :=
  [role_content "system" classifier_instruction;
   role_content "user"
     ("Runtime tools are available: " +:+ tools_text self +:+ "." +:+ String "010" ""
      +:+ "Assistant response:" +:+ String "010" "" +:+ content)].

(** The temperature [0.0]. *)
Definition f32_zero : f32 := S754_zero false.

(** What the guard reads off the classifier's reply. *)
Definition verdict (response : Result LLMResponse.t AnyhowError) : bool :=
  match response with
  | Err _ => false
  | Ok response =>
      match LLMResponse.content response with
      | None => false
      | Some classifier_text =>
          match extract_json_object classifier_text with
          | None => false
          | Some value => default false (get value "claims_no_tools" ≫= as_bool)
          end
      end
  end.

Definition response_claims_no_tools (self : TurnGuard.t P) (content : string)
  : Async W bool :=
  if is_empty (trim content) || String.eqb (tools_text self) "(none)" then
    async_ret false
  else
    let! response :=
      chat (provider self) (classifier_messages self content) None
        (Some (model self)) 120%N f32_zero in
    async_ret (verdict response).

Definition should_retry_after_false_no_tools_claim (self : TurnGuard.t P)
    (content : option string) (iteration : u32) : Async W bool :=
  if (max_iterations self <=? iteration)%N
     || String.eqb (tools_text self) "(none)" then async_ret false
  else
    match content with
    | None => async_ret false
    | Some text => response_claims_no_tools self text
    end.

End Guard.

(** ** Facts on the scanner *)

(** One step of a proof by induction on the scanned text: the branch
    of [scan] taken, with the result of the recursive call named. *)
Ltac scan_step H :=
  simpl in H; repeat case_match; simplify_eq;
  try (apply fmap_Some in H as (? & H & ->)).

(** The candidate is a prefix of the scanned text. *)
Lemma scan_prefix s : forall depth in_string escaped c,
  scan s depth in_string escaped = Some c -> exists rest, s = c +:+ rest.
Proof.
  induction s as [|a s IH]; intros depth in_string escaped c Hs; [done|].
  scan_step Hs; try (by exists s);
    destruct (IH _ _ _ _ Hs) as [rest ->]; by exists rest.
Qed.

(** The candidate ends with a closing brace. *)
Lemma scan_closes s : forall depth in_string escaped c,
  scan s depth in_string escaped = Some c ->
  exists body, c = body +:+ String RBRACE "".
Proof.
  induction s as [|a s IH]; intros depth in_string escaped c Hs; [done|].
  scan_step Hs;
    try (destruct (IH _ _ _ _ Hs) as [body ->]; by exists (String a body)).
  exists "". rewrite sapp_nil_l. f_equal. by apply Ascii.eqb_eq.
Qed.

(** What follows the candidate takes no part in it. *)
Lemma scan_app s post : forall depth in_string escaped c,
  scan s depth in_string escaped = Some c ->
  scan (s +:+ post) depth in_string escaped = Some c.
Proof.
  induction s as [|a s IH]; intros depth in_string escaped c Hs; [done|].
  rewrite sapp_cons. simpl in *. repeat case_match; simplify_eq; try done;
    apply fmap_Some in Hs as (? & Hs & ->); by erewrite IH.
Qed.

(** From a quiet state at depth one or more, the scan of a text that
    has no closing brace finds nothing. *)
Lemma scan_no_rbrace s : forall depth in_string escaped,
  contains_char s RBRACE = false -> scan s depth in_string escaped = None.
Proof.
  induction s as [|a s IH]; intros depth in_string escaped Hs; [done|].
  simpl in Hs. apply orb_false_iff in Hs as [Ha Hs].
  simpl. rewrite Ha. repeat case_match; try done; by rewrite IH.
Qed.

(** ** The scanner as an automaton

    [Closes depth in_string escaped c]: read from the state
    [(depth, in_string, escaped)], the text [c] ends with the first
    closing brace that brings the depth back to zero.  The rules are
    the transitions of the inner loop; there is no rule for a closing
    brace at depth zero and none for the end of the text, where the
    loop gives up. *)
Inductive Closes : nat -> bool -> bool -> string -> Prop :=
| closes_escaped depth c s :
    Closes depth true false s -> Closes depth true true (String c s)
| closes_backslash depth s :
    Closes depth true true s -> Closes depth true false (String BACKSLASH s)
| closes_string_end depth s :
    Closes depth false false s -> Closes depth true false (String QUOTE s)
| closes_in_string depth c s :
    c <> BACKSLASH -> c <> QUOTE ->
    Closes depth true false s -> Closes depth true false (String c s)
| closes_string_start depth s :
    Closes depth true false s -> Closes depth false false (String QUOTE s)
| closes_open depth s :
    Closes (S depth) false false s -> Closes depth false false (String LBRACE s)
| closes_last :
    Closes 1 false false (String RBRACE EmptyString)
| closes_close depth s :
    Closes (S depth) false false s ->
    Closes (S (S depth)) false false (String RBRACE s)
| closes_other depth c s :
    c <> QUOTE -> c <> LBRACE -> c <> RBRACE ->
    Closes depth false false s -> Closes depth false false (String c s).

#[export] Hint Constructors Closes : nb.

(** The scanner finds what the automaton accepts. *)
Lemma Closes_scan depth in_string escaped c :
  Closes depth in_string escaped c -> scan c depth in_string escaped = Some c.
Proof.
  induction 1 as [d c s _ IH|d s _ IH|d s _ IH|d c s Hb Hq _ IH|d s _ IH|d s _ IH|
                  |d s _ IH|d c s Hq Hl Hr _ IH]; simpl; rewrite ?IH; try done.
  - apply Ascii.eqb_neq in Hb, Hq. by rewrite Hb, Hq.
  - apply Ascii.eqb_neq in Hq, Hl, Hr. by rewrite Hq, Hl, Hr.
Qed.

(** What the scanner finds, the automaton accepts. *)
Lemma scan_Closes s : forall depth in_string escaped c,
  scan s depth in_string escaped = Some c ->
  Closes depth in_string (in_string && escaped) c.
Proof.
  induction s as [|a s IH]; intros depth in_string escaped c Hs; [done|].
  simpl in Hs. repeat case_match; simplify_eq;
    try (apply fmap_Some in Hs as (c' & Hs & ->); apply IH in Hs; simpl in Hs);
    repeat match goal with
           | H : Ascii.eqb _ _ = true |- _ => apply Ascii.eqb_eq in H as ->
           | H : Ascii.eqb _ _ = false |- _ => apply Ascii.eqb_neq in H
           end; simpl; eauto with nb.
Qed.

Section ExtractFacts.

Context {serde : SerdeJson}.

Lemma extract_from_cons a text :
  extract_from (String a text) =
    if Ascii.eqb a LBRACE then
      match scan (String a text) 0 false false ≫= object_from_str with
      | Some value => Some value
      | None => extract_from text
      end
    else extract_from text.
Proof. done. Qed.

(** Text without an opening brace is skipped. *)
Lemma extract_from_skip pre text :
  contains_char pre LBRACE = false ->
  extract_from (pre +:+ text) = extract_from text.
Proof.
  induction pre as [|a pre IH]; [done|]. cbn [contains_char].
  intros [Ha Hp]%orb_false_iff. rewrite sapp_cons, extract_from_cons, Ha. by apply IH.
Qed.

Lemma extract_from_no_lbrace text :
  contains_char text LBRACE = false -> extract_from text = None.
Proof.
  intros Ht. rewrite <-(sapp_nil_r text). by rewrite extract_from_skip.
Qed.

(** A candidate that starts the text and parses to an object is
    found. *)
Lemma extract_from_found object post value :
  starts_with object (String LBRACE "") = true ->
  scan (object +:+ post) 0 false false = Some object ->
  object_from_str object = Some value ->
  extract_from (object +:+ post) = Some value.
Proof.
  intros Hstart Hscan Hobj. destruct object as [|a object]; [done|].
  cbn [starts_with] in Hstart. rewrite andb_true_r in Hstart.
  rewrite sapp_cons, extract_from_cons, Hstart, <-sapp_cons, Hscan. simpl. by rewrite Hobj.
Qed.

(** What [extract_from] returns is an object that a candidate of the
    text parses to. *)
Lemma extract_from_sound text value :
  extract_from text = Some value ->
  exists pre candidate post,
    text = pre +:+ candidate +:+ post /\
    scan (candidate +:+ post) 0 false false = Some candidate /\
    value_from_str candidate = Some value /\ is_object value = true.
Proof.
  induction text as [|a text IH]; [done|]. rewrite extract_from_cons.
  assert (extract_from text = Some value ->
    exists pre candidate post, String a text = pre +:+ candidate +:+ post /\
      scan (candidate +:+ post) 0 false false = Some candidate /\
      value_from_str candidate = Some value /\ is_object value = true) as Hrest.
  { intros (pre & c & post & -> & ?)%IH. by exists (String a pre), c, post. }
  destruct (Ascii.eqb a LBRACE); [|done].
  destruct (scan (String a text) 0 false false) as [c|] eqn:Hs; [|done]. simpl.
  destruct (object_from_str c) as [v|] eqn:Hv; [|done].
  intros [= ->]. apply object_from_str_Some in Hv as [Hv Ho].
  destruct (scan_prefix _ _ _ _ _ Hs) as [post Hpost].
  exists "", c, post. by rewrite <-Hpost.
Qed.

End ExtractFacts.

(** ** What the scanner returns *)

(** C24. The scanner implements the automaton: from any state, [scan]
    returns a text exactly when that text is a prefix of the scanned
    one that the automaton accepts; the candidate is the piece up to
    the first closing brace that brings the depth back to zero,
    braces inside strings not counting. *)
Theorem scan_refines s depth in_string escaped c :
  scan s depth in_string escaped = Some c <->
  (exists rest, s = c +:+ rest) /\ Closes depth in_string (in_string && escaped) c.
Proof.
  split.
  - intros Hs. split; [by eapply scan_prefix|by eapply scan_Closes].
  - intros [[rest ->] Hc]. apply Closes_scan in Hc.
    destruct in_string; simpl in Hc; [by apply scan_app|].
    apply scan_app. by destruct c as [|a c]; [|destruct escaped].
Qed.

(** ** The test of a closing brace at depth zero *)

(** The inner loop with the test [if depth == 0 { break; }] taken
    out: a closing brace met at depth zero yields [underflow], which
    stands for whatever [depth -= 1] on a zero [usize] would lead to. *)
Fixpoint scan_with (underflow : option string) (s : string) (depth : nat)
    (in_string escaped : bool) : option string :=
  match s with
  | EmptyString => None
  | String c rest =>
      if in_string then
        if escaped then String c <$> scan_with underflow rest depth true false
        else if Ascii.eqb c BACKSLASH then String c <$> scan_with underflow rest depth true true
        else if Ascii.eqb c QUOTE then String c <$> scan_with underflow rest depth false false
        else String c <$> scan_with underflow rest depth true false
      else
        if Ascii.eqb c QUOTE then String c <$> scan_with underflow rest depth true false
        else if Ascii.eqb c LBRACE then
          String c <$> scan_with underflow rest (S depth) false false
        else if Ascii.eqb c RBRACE then
          match depth with
          | O => underflow
          | S O => Some (String c EmptyString)
          | S (S d) => String c <$> scan_with underflow rest (S d) false false
          end
        else String c <$> scan_with underflow rest depth false false
  end.

(** Inside an object the test is never reached. *)
Lemma scan_with_inside underflow s : forall depth in_string escaped,
  scan_with underflow s (S depth) in_string escaped = scan s (S depth) in_string escaped.
Proof.
  induction s as [|a s IH]; intros depth in_string escaped; [done|].
  simpl. repeat case_match; by rewrite ?IH.
Qed.

(** C26. The test of a closing brace at depth zero is dead code: on
    every text that starts with an opening brace, which are the texts
    the outer loop scans, the loop without the test returns what the
    loop returns, whatever an underflow of the depth would do. *)
Theorem scan_guard_dead underflow rest :
  scan_with underflow (String LBRACE rest) 0 false false
  = scan (String LBRACE rest) 0 false false.
Proof. simpl. by rewrite scan_with_inside. Qed.

Section ExtractTheorems.

Context {serde : SerdeJson}.

(** C21. An extracted value is an object, and it is what the parser
    makes either of the trimmed text or of a piece of the text that
    starts at an opening brace and ends at the brace closing it. *)
Theorem extract_json_object_sound text value :
  extract_json_object text = Some value ->
  is_object value = true /\
  exists candidate,
    value_from_str candidate = Some value /\
    (candidate = trim text \/
     exists pre post,
       text = pre +:+ candidate +:+ post /\
       scan (candidate +:+ post) 0 false false = Some candidate).
Proof.
  unfold extract_json_object.
  destruct (object_from_str (trim text)) as [v|] eqn:Hv.
  - intros [= ->]. apply object_from_str_Some in Hv as [Hv Ho]. eauto.
  - intros (pre & c & post & Ht & Hs & Hc & Ho)%extract_from_sound. eauto 8.
Qed.

(** An object embedded in other text is found: when the text before
    it has no opening brace, the scan from its first brace stops at its
    last, and the parser accepts it, the object is extracted whatever
    follows it. *)
Theorem extract_json_object_embedded pre object post value :
  contains_char pre LBRACE = false ->
  starts_with object (String LBRACE "") = true ->
  scan object 0 false false = Some object ->
  object_from_str object = Some value ->
  object_from_str (trim (pre +:+ object +:+ post)) = None ->
  extract_json_object (pre +:+ object +:+ post) = Some value.
Proof.
  intros Hpre Hstart Hscan Hobj Htrim. unfold extract_json_object. rewrite Htrim.
  rewrite extract_from_skip by done. by apply extract_from_found; [|apply scan_app|].
Qed.

End ExtractTheorems.

(** With the reader of serde_json, in either of its builds, what is
    extracted is a well-formed object: no key twice, integers within
    their width, nesting below the recursion limit. *)
Lemma extract_json_object_wellformed {ryu : Text.Ryu} impl text value :
  extract_json_object (serde := serde_of impl) text = Some value ->
  is_object value = true /\ wellformed value = true /\
  (height value < Text.RECURSION_LIMIT)%nat.
Proof.
  unfold extract_json_object.
  destruct (object_from_str (trim text)) as [v|] eqn:Hv.
  - intros [= ->]. apply object_from_str_Some in Hv as [Hv Ho].
    split; [done|]. by apply serde_of_read in Hv as (_ & ? & ?).
  - intros (pre & c & post & _ & _ & Hc & Ho)%extract_from_sound.
    split; [done|]. by apply serde_of_read in Hc as (_ & ? & ?).
Qed.

(** ** The order of the keys

    The guard reads the classifier's reply through [Value::get] and
    [Value::as_bool] only.  With two parsers that read equivalent
    values from every text, as the two builds of serde_json do, it
    extracts equivalent objects and takes the same decision. *)

Section OrderBlind.

Context (a b : SerdeJson) (agree : parsers_agree a b).

Lemma extract_from_agree text :
  extract_from (serde := a) text ≡ extract_from (serde := b) text.
Proof.
  induction text as [|ch rest IH]; [constructor|]. cbn [extract_from].
  destruct (Ascii.eqb ch LBRACE); [|done].
  destruct (scan _ 0 false false) as [candidate|]; [|done]. cbn [mbind option_bind].
  by destruct (object_from_str_agree a b agree candidate); [constructor|].
Qed.

Lemma extract_json_object_agree text :
  extract_json_object (serde := a) text ≡ extract_json_object (serde := b) text.
Proof.
  unfold extract_json_object.
  destruct (object_from_str_agree a b agree (trim text)); [by constructor|].
  apply extract_from_agree.
Qed.

Context {P W : Type} {llm : LLMProvider P W}.

Lemma verdict_agree response : verdict (serde := a) response = verdict (serde := b) response.
Proof.
  destruct response as [[[text|] ? ? ? ?]|]; try done. unfold verdict. cbn [LLMResponse.content].
  destruct (extract_json_object_agree text) as [v w Hv|]; [|done].
  by rewrite (get_as_bool v w).
Qed.

(** C12. The guard decides the same, and leaves the same requests
    behind, with any two parsers of JSON that read equivalent values
    from every text: the order in which serde_json keeps the members
    of an object, sorted or as listed, does not change whether a turn
    is retried. *)
Theorem should_retry_order_blind (self : TurnGuard.t P) content iteration w :
  should_retry_after_false_no_tools_claim (serde := a) self content iteration w
  = should_retry_after_false_no_tools_claim (serde := b) self content iteration w.
Proof.
  unfold should_retry_after_false_no_tools_claim, response_claims_no_tools, async_bind,
    async_ret.
  repeat case_match; try done. by rewrite verdict_agree.
Qed.

End OrderBlind.

(** ** Printed objects

    The scanner and the printer of serde_json: the scan from the
    opening brace of a printed object ends at the brace that closes
    it, since the printer balances its braces and escapes the quotes
    and backslashes of its strings. *)

(** The characters the scanner tells apart outside a string. *)
Definition plain (c : ascii) : bool :=
  negb (Ascii.eqb c QUOTE || Ascii.eqb c LBRACE || Ascii.eqb c RBRACE).

(** [Passes t]: inside an object and outside a string, the scanner
    reads over [t] and goes on as before it. *)
Definition Passes (t : string) : Prop :=
  forall depth rest,
    scan (t +:+ rest) (S depth) false false
    = String.append t <$> scan rest (S depth) false false.

(** The candidate grows at its front as the scanner reads on. *)
Lemma fmap_append_nil (o : option string) : String.append "" <$> o = o.
Proof. by destruct o. Qed.

Lemma fmap_append_cons c t (o : option string) :
  String c <$> (String.append t <$> o) = String.append (String c t) <$> o.
Proof. by destruct o. Qed.

Lemma fmap_append_app a b (o : option string) :
  String.append a <$> (String.append b <$> o) = String.append (a +:+ b) <$> o.
Proof. destruct o; simpl; by rewrite ?sapp_assoc. Qed.

Lemma fmap_append_one c (o : option string) :
  String c <$> o = String.append (String c "") <$> o.
Proof. by destruct o. Qed.

(** The characters of [e] put before a candidate one by one, as the
    scanner does. *)
Fixpoint pushes (e : string) (o : option string) : option string :=
  match e with
  | EmptyString => o
  | String c e => String c <$> pushes e o
  end.

Lemma pushes_append e o : pushes e o = String.append e <$> o.
Proof.
  induction e as [|c e IH]; simpl; [by rewrite fmap_append_nil|].
  by rewrite IH, fmap_append_cons.
Qed.

Lemma Passes_nil : Passes "".
Proof. intros depth rest. by rewrite fmap_append_nil. Qed.

Lemma Passes_app a b : Passes a -> Passes b -> Passes (a +:+ b).
Proof. intros Ha Hb depth rest. by rewrite sapp_assoc, Ha, Hb, fmap_append_app. Qed.

Lemma Passes_cons c t : plain c = true -> Passes t -> Passes (String c t).
Proof.
  unfold plain. intros [[Hq Hl]%orb_false_iff Hr]%negb_true_iff%orb_false_iff Ht depth rest.
  rewrite sapp_cons. cbn [scan]. by rewrite Hq, Hl, Hr, Ht, fmap_append_cons.
Qed.

Lemma Passes_plain t : all plain t = true -> Passes t.
Proof.
  induction t as [|c t IH]; [intros _; apply Passes_nil|]. cbn [all].
  intros [Hc Ht]%andb_true_iff. by apply Passes_cons, IH.
Qed.

Lemma Passes_join texts : Forall Passes texts -> Passes (join "," texts).
Proof.
  induction 1 as [|text texts Ht Hts IH]; [apply Passes_nil|].
  destruct texts as [|text' texts]; [done|]. rewrite join_cons by done.
  apply Passes_app; [done|]. by apply Passes_app; [apply Passes_plain|].
Qed.

(** Inside a string, the scanner reads over an escaped character, and
    so over an escaped string. *)
Lemma scan_escape_char c t depth :
  scan (Text.escape_char c +:+ t) depth true false
  = String.append (Text.escape_char c) <$> scan t depth true false.
Proof.
  rewrite <-pushes_append. by destruct c as [[] [] [] [] [] [] [] []].
Qed.

Lemma scan_escape s t depth :
  scan (Text.escape s +:+ t) depth true false
  = String.append (Text.escape s) <$> scan t depth true false.
Proof.
  induction s as [|c s IH]; cbn [Text.escape]; [by rewrite fmap_append_nil|].
  by rewrite sapp_assoc, scan_escape_char, IH, fmap_append_app.
Qed.

Lemma Passes_quoted s : Passes (Text.quoted s).
Proof.
  intros depth rest. unfold Text.quoted. rewrite sapp_cons. cbn [scan].
  change (Ascii.eqb Text.QUOTATION_MARK QUOTE) with true. cbv iota.
  rewrite sapp_assoc, scan_escape, sapp_cons, sapp_nil_l. cbn [scan].
  change (Ascii.eqb Text.QUOTATION_MARK QUOTE) with true.
  change (Ascii.eqb Text.QUOTATION_MARK BACKSLASH) with false. cbv iota.
  by rewrite (fmap_append_one _ (scan rest _ _ _)), fmap_append_app, fmap_append_cons.
Qed.

(** Braces around a text the scanner reads over make such a text. *)
Lemma Passes_braces t : Passes t -> Passes ("{" +:+ t +:+ "}").
Proof.
  intros Ht depth rest. rewrite !sapp_cons, !sapp_nil_l, sapp_assoc. cbn [scan].
  change (Ascii.eqb LBRACE QUOTE) with false. change (Ascii.eqb LBRACE LBRACE) with true.
  cbv iota. rewrite Ht, sapp_cons, sapp_nil_l. cbn [scan].
  change (Ascii.eqb "}" QUOTE) with false. change (Ascii.eqb "}" LBRACE) with false.
  change (Ascii.eqb "}" RBRACE) with true. cbv iota.
  by rewrite (fmap_append_one _ (scan rest _ _ _)), fmap_append_app, fmap_append_cons.
Qed.

Section Printed.

Context {ryu : Text.Ryu}.

Lemma is_digit_plain c : Text.is_digit c = true -> plain c = true.
Proof. by destruct c as [[] [] [] [] [] [] [] []]. Qed.

Lemma Passes_itoa n : Passes (Text.itoa n).
Proof.
  apply Passes_plain. pose proof (Text.itoa_digits n) as Hn.
  induction (Text.itoa n) as [|c t IH]; [done|]. cbn [all] in *.
  apply andb_true_iff in Hn as [Hc Ht]. by rewrite is_digit_plain, IH.
Qed.

(** The scanner reads over the text of a value without floats. *)
Lemma Passes_to_string v : Text.readable v = true -> Passes (Text.to_string v).
Proof.
  induction v as [|[]|[n|z|f]|s|l IH|m IH] using Value_ind_deep; cbn [Text.to_string];
    intros Hr; try (by apply Passes_plain); try done.
  - apply Passes_itoa.
  - cbn [Text.number_to_string]. case_match; [|apply Passes_itoa].
    by apply Passes_app; [apply Passes_plain|apply Passes_itoa].
  - apply Passes_quoted.
  - repeat apply Passes_app; try (by apply Passes_plain). apply Passes_join.
    apply Forall_fmap, Forall_forall. intros v Hv. rewrite Forall_forall in IH.
    apply IH; [done|]. cbn [Text.readable] in Hr. rewrite forallb_forall in Hr.
    by apply Hr, list_elem_of_In.
  - apply Passes_braces, Passes_join, Forall_fmap, Forall_forall. intros [k v] Hkv.
    rewrite Forall_forall in IH. cbn [Text.readable] in Hr.
    apply andb_true_iff in Hr as [Hr _]. rewrite forallb_forall in Hr.
    repeat apply Passes_app; [apply Passes_quoted|by apply Passes_plain|].
    apply (IH _ Hkv), (Hr (k, v)). by apply list_elem_of_In.
Qed.

(** The scan from the first brace of a printed object ends at its
    last. *)
Lemma scan_to_string m post :
  Text.readable (JObject m) = true ->
  scan (Text.to_string (JObject m) +:+ post) 0 false false
  = Some (Text.to_string (JObject m)).
Proof.
  intros Hr. cbn [Text.to_string]. rewrite !sapp_cons, !sapp_nil_l, sapp_assoc. cbn [scan].
  change (Ascii.eqb LBRACE QUOTE) with false. change (Ascii.eqb LBRACE LBRACE) with true.
  cbv iota. rewrite Passes_join; [done|].
  apply Forall_fmap, Forall_forall. intros [k v] Hkv. cbn [Text.readable] in Hr.
  apply andb_true_iff in Hr as [Hr _]. rewrite forallb_forall in Hr.
  repeat apply Passes_app; [apply Passes_quoted|by apply Passes_plain|].
  apply Passes_to_string, (Hr (k, v)). by apply list_elem_of_In.
Qed.

(** The text around a printed object is trimmed; the object is not. *)
Lemma trim_printed m pre post :
  is_blank pre = true ->
  trim (pre +:+ Text.to_string (JObject m) +:+ post)
  = Text.to_string (JObject m) +:+ trim_end post.
Proof.
  intros Hpre. unfold trim. rewrite trim_start_app_blank by done. cbn [Text.to_string].
  rewrite !sapp_cons, !sapp_nil_l, !sapp_assoc, sapp_cons, sapp_nil_l. cbn [trim_start].
  change (is_whitespace "{") with false. cbv iota.
  assert (trim_end (String "}" post) = String "}" (trim_end post)) as Hclose.
  { cbn [trim_end]. change (is_whitespace "}") with false. by rewrite andb_false_r. }
  by rewrite <-(sapp_cons "{"), trim_end_app, Hclose, sapp_cons by by rewrite Hclose.
Qed.

(** Read as a whole, the text around a printed object is no other
    object. *)
Lemma object_from_str_printed m pre post value :
  Text.readable (JObject m) = true ->
  (height (JObject m) < Text.RECURSION_LIMIT)%nat ->
  contains_char pre LBRACE = false ->
  @object_from_str Text.serde
    (trim (pre +:+ Text.to_string (JObject m) +:+ post)) = Some value ->
  value = JObject m.
Proof.
  intros Hr Hh Hpre [Hv Ho]%object_from_str_Some. cbn [value_from_str Text.serde] in Hv.
  unfold Text.from_str in Hv.
  destruct (Text.parse_value _ _ _) as [[v rest]|] eqn:Hp; [|done]. simpl in Hv.
  case_match; [|done]. injection Hv as ->.
  destruct (Text.parse_value_object_start _ _ _ _ _ Hp Ho) as [t Ht].
  destruct (is_blank pre) eqn:Hblank.
  - rewrite trim_printed, Text.readable_Reads in Hp; try done; [congruence|].
    rewrite length_sapp. lia.
  - destruct (trim_start_app_keep pre (Text.to_string (JObject m) +:+ post) LBRACE Hblank)
      as (a & s' & Hs & Ha & Hne).
    unfold trim in Ht. rewrite Hs in Ht. cbn [trim_end Text.skip_ws] in Ht.
    rewrite Ha, andb_false_r in Ht. cbn [Text.skip_ws] in Ht.
    destruct (Text.is_ws a) eqn:Hws; [apply Text.is_ws_whitespace in Hws; congruence|].
    injection Ht as -> _. by specialize (Hne Hpre).
Qed.

(** A printed object is found in the text around it: whatever
    follows it and whatever precedes it without an opening brace, the
    scanner extracts the object that was printed, for every object
    without floats whose integers fit 64 bits, whose keys are
    distinct and whose nesting is below the recursion limit of the
    reader. *)
Theorem extract_json_object_printed m pre post :
  Text.readable (JObject m) = true ->
  (height (JObject m) < Text.RECURSION_LIMIT)%nat ->
  contains_char pre LBRACE = false ->
  extract_json_object (serde := Text.serde)
    (pre +:+ Text.to_string (JObject m) +:+ post) = Some (JObject m).
Proof.
  intros Hr Hh Hpre. unfold extract_json_object.
  destruct (object_from_str _) as [value|] eqn:Hw.
  - f_equal. by apply (object_from_str_printed m pre post).
  - rewrite extract_from_skip by done.
    apply extract_from_found; [done|by apply scan_to_string|].
    apply object_from_str_Some. split; [|done]. by apply Text.from_str_to_string.
Qed.

(** What the guard reads off a reply that holds a printed object. *)
Lemma verdict_printed r pre m post :
  LLMResponse.content r = Some (pre +:+ Text.to_string (JObject m) +:+ post) ->
  contains_char pre LBRACE = false ->
  Text.readable (JObject m) = true ->
  (height (JObject m) < Text.RECURSION_LIMIT)%nat ->
  verdict (serde := Text.serde) (Ok r)
  = default false (Map.get m "claims_no_tools" ≫= as_bool).
Proof.
  intros Hcontent Hpre Hr Hh. unfold verdict.
  by rewrite Hcontent, extract_json_object_printed.
Qed.

End Printed.

(** A reply in a fence of markdown. *)
Definition fenced (body : string) : string :=
  "```json" +:+ String "010" body +:+ String "010" "```".

Lemma extract_json_object_sound_witness :
  is_object (JObject [("claims_no_tools", JBool false)]) = true /\
  exists candidate,
    Text.from_str candidate = Some (JObject [("claims_no_tools", JBool false)]) /\
    (candidate = trim (fenced Sample.claims_false) \/
     exists pre post,
       fenced Sample.claims_false = pre +:+ candidate +:+ post /\
       scan (candidate +:+ post) 0 false false = Some candidate).
Proof.
  by apply (extract_json_object_sound (serde := Sample.serde)
              (fenced Sample.claims_false)).
Defined.

Lemma extract_json_object_printed_witness :
  extract_json_object (serde := Sample.serde)
    ("Verdict: " +:+ Sample.claims_true +:+ " {confident}")
  = Some (JObject [("claims_no_tools", JBool true)]).
Proof.
  by apply (extract_json_object_printed (ryu := Sample.ryu)
              [("claims_no_tools", JBool true)] "Verdict: " " {confident}");
    [|vm_compute; lia|].
Defined.

Lemma extract_json_object_embedded_witness :
  extract_json_object (serde := Sample.serde)
    ("Verdict: " +:+ Sample.claims_true +:+ " (confident)")
  = Some (JObject [("claims_no_tools", JBool true)]).
Proof.
  by apply (extract_json_object_embedded (serde := Sample.serde) "Verdict: "
              Sample.claims_true " (confident)").
Defined.

(** A brace inside a string does not count, an unbalanced one ends the
    scan from that start, and the scan moves on to the next opening
    brace. *)
Example scan_scenarios :
  let q := String QUOTE "" in
  scan ("{" +:+ q +:+ "}" +:+ q +:+ ":1} tail") 0 false false
    = Some ("{" +:+ q +:+ "}" +:+ q +:+ ":1}") /\
  scan "{ {a} " 0 false false = None /\
  scan "{a}}" 0 false false = Some "{a}" /\
  extract_json_object (serde := Sample.serde) ("{ " +:+ Sample.claims_true)
    = Some (JObject [("claims_no_tools", JBool true)]).
Proof. by vm_compute. Qed.

(** ** The decision of the guard *)

Section GuardFacts.

Context {serde : SerdeJson} {P W : Type} {llm : LLMProvider P W}.
Implicit Types self : TurnGuard.t P.

(** The call the guard makes: no tools, the guard's model, 120 tokens,
    temperature zero. *)
Definition classifier_call (self : TurnGuard.t P) (text : string)
  : Async W (Result LLMResponse.t AnyhowError) :=
  chat (provider self) (classifier_messages self text) None (Some (model self))
    120%N f32_zero.

(** Whether the guard asks the classifier at all. *)
Definition asks (self : TurnGuard.t P) (content : option string) (iteration : u32)
  : bool :=
  (iteration <? max_iterations self)%N
  && negb (String.eqb (tools_text self) "(none)")
  && match content with Some text => negb (is_blank text) | None => false end.

Lemma response_claims_no_tools_eq self text w :
  response_claims_no_tools self text w =
    if is_blank text || String.eqb (tools_text self) "(none)" then (false, w)
    else (verdict (fst (classifier_call self text w)),
          snd (classifier_call self text w)).
Proof.
  unfold response_claims_no_tools, classifier_call. rewrite trim_blank.
  destruct (_ || _); [done|].
  unfold async_bind, async_ret. by destruct (chat _ _ _ _ _ _ w).
Qed.

Lemma should_retry_eq self content iteration w :
  should_retry_after_false_no_tools_claim self content iteration w =
    match content with
    | Some text =>
        if asks self content iteration then
          (verdict (fst (classifier_call self text w)),
           snd (classifier_call self text w))
        else (false, w)
    | None => (false, w)
    end.
Proof.
  unfold should_retry_after_false_no_tools_claim, asks.
  rewrite N.leb_antisym.
  destruct (iteration <? max_iterations self)%N; simpl;
    [|by destruct content].
  destruct (String.eqb (tools_text self) "(none)") eqn:Hn; simpl;
    [by destruct content|].
  destruct content as [text|]; [|done].
  rewrite response_claims_no_tools_eq, Hn, orb_false_r.
  by destruct (is_blank text).
Qed.

Lemma verdict_true response :
  verdict response = true <->
  exists r classifier_text value,
    response = Ok r /\ LLMResponse.content r = Some classifier_text /\
    extract_json_object classifier_text = Some value /\
    get value "claims_no_tools" = Some (JBool true).
Proof.
  split.
  - unfold verdict. destruct response as [r|]; [|done].
    destruct (LLMResponse.content r) as [t|] eqn:Ht; [|done].
    destruct (extract_json_object t) as [v|] eqn:Hv; [|done].
    destruct (get v "claims_no_tools") as [[| [] | | | |]|] eqn:Hg; try done.
    intros _. by exists r, t, v.
  - intros (r & t & v & -> & Ht & Hv & Hg). unfold verdict. by rewrite Ht, Hv, Hg.
Qed.

(** C17. The guard asks for a retry only on the classifier's word: the
    iteration budget is not used up, tools are registered, the reply is
    not blank, the call succeeded, and the object found in its content
    holds [claims_no_tools] with the value [true].  A failed call, an
    absent content, an answer without an object, a missing key and a
    value that is not a boolean all give [false]. *)
Theorem should_retry_only_on_verdict self content iteration w :
  fst (should_retry_after_false_no_tools_claim self content iteration w) = true ->
  (iteration < max_iterations self)%N /\
  tools_text self <> "(none)" /\
  exists text r classifier_text value,
    content = Some text /\ is_blank text = false /\
    fst (classifier_call self text w) = Ok r /\
    LLMResponse.content r = Some classifier_text /\
    extract_json_object classifier_text = Some value /\
    get value "claims_no_tools" = Some (JBool true).
Proof.
  unfold should_retry_after_false_no_tools_claim.
  destruct (N.leb_spec (max_iterations self) iteration); [done|].
  destruct (String.eqb_spec (tools_text self) "(none)"); [done|]. simpl.
  destruct content as [text|]; [|done].
  rewrite response_claims_no_tools_eq.
  destruct (is_blank text) eqn:Hb; simpl; [done|].
  destruct (String.eqb _ _); [done|]. simpl.
  intros (r & t & v & ? & ? & ? & ?)%verdict_true.
  split_and!; [done..|]. by exists text, r, t, v.
Qed.

(** The guard makes no call when the iteration budget is used up,
    when no tool is registered, when the reply has no content, and
    when the content is blank: the answer is [false] and the outside
    is as it was. *)
Theorem should_retry_declines_quietly self content iteration w :
  (max_iterations self <= iteration)%N \/
  tools_text self = "(none)" \/
  content = None \/
  (exists text, content = Some text /\ is_blank text = true) ->
  should_retry_after_false_no_tools_claim self content iteration w = (false, w).
Proof.
  intros Hq. unfold should_retry_after_false_no_tools_claim.
  destruct (N.leb_spec (max_iterations self) iteration) as [|Hlt]; [done|].
  destruct (String.eqb_spec (tools_text self) "(none)") as [|Hne]; [done|]. simpl.
  destruct Hq as [?|[?|[->|(text & -> & Hb)]]]; [lia|done|done|].
  unfold response_claims_no_tools. by rewrite trim_blank, Hb.
Qed.

(** When the guard asks, it makes one call of [chat] and no other
    change to the outside: the classifier's two messages, no tools,
    the guard's model, 120 tokens, temperature zero. *)
Theorem should_retry_one_call self text iteration w :
  asks self (Some text) iteration = true ->
  snd (should_retry_after_false_no_tools_claim self (Some text) iteration w)
  = snd (chat (provider self) (classifier_messages self text) None
           (Some (model self)) 120%N f32_zero w).
Proof.
  unfold asks. intros [[Hi Hn]%andb_true_iff Hb]%andb_true_iff.
  unfold should_retry_after_false_no_tools_claim, response_claims_no_tools.
  rewrite N.leb_antisym, Hi, trim_blank.
  apply negb_true_iff in Hn, Hb. rewrite Hn, Hb. simpl.
  unfold async_bind, async_ret. by destruct (chat _ _ _ _ _ _ w).
Qed.

End GuardFacts.

(** C7. The guard follows a printed verdict: when it asks and the
    classifier's reply holds a printed object, whatever the text
    after it and whatever the text before it without an opening brace,
    the answer of the guard is the boolean the object holds under
    [claims_no_tools], and [false] when it holds none. *)
Theorem should_retry_follows_printed {ryu : Text.Ryu} {P W} {llm : LLMProvider P W}
    (self : TurnGuard.t P) text iteration w r pre m post :
  asks self (Some text) iteration = true ->
  fst (classifier_call self text w) = Ok r ->
  LLMResponse.content r = Some (pre +:+ Text.to_string (JObject m) +:+ post) ->
  contains_char pre LBRACE = false ->
  Text.readable (JObject m) = true ->
  (height (JObject m) < Text.RECURSION_LIMIT)%nat ->
  fst (should_retry_after_false_no_tools_claim (serde := Text.serde)
         self (Some text) iteration w)
  = default false (Map.get m "claims_no_tools" ≫= as_bool).
Proof.
  intros Hasks Hcall Hcontent Hpre Hr Hh. rewrite should_retry_eq, Hasks. cbn [fst].
  rewrite Hcall. by apply (verdict_printed r pre m post).
Qed.

(** ** A scripted provider *)

(** A provider that gives the same reply to every call and counts the
    calls. *)
Definition scripted (reply : Result LLMResponse.t AnyhowError)
  : LLMProvider unit nat :=
  {| chat := fun _ _ _ _ _ _ calls => (reply, S calls);
     default_model := fun _ => "scripted" |}.

Definition text_response (text : string) : LLMResponse.t :=
  {| LLMResponse.content := Some text; LLMResponse.tool_calls := [];
     LLMResponse.finish_reason := "stop"; LLMResponse.usage := Map.new;
     LLMResponse.reasoning_content := None |}.

Definition guard : TurnGuard.t unit := TurnGuard.new tt "qwen-plus" "web_search, exec" 3%N.

Example should_retry_scenarios :
  let yes := scripted (Ok (text_response (fenced Sample.claims_true))) in
  let no := scripted (Ok (text_response Sample.claims_false)) in
  let prose := scripted (Ok (text_response "yes, it claims so")) in
  let down := scripted (Err "connection refused") in
  let ask llm :=
    should_retry_after_false_no_tools_claim (serde := Sample.serde) (llm := llm)
      guard (Some "I cannot browse the web.") 1%N 0%nat in
  ask yes = (true, 1%nat) /\ ask no = (false, 1%nat) /\
  ask prose = (false, 1%nat) /\ ask down = (false, 1%nat).
Proof. by vm_compute. Qed.

Definition says_yes : LLMProvider unit nat :=
  scripted (Ok (text_response (fenced Sample.claims_true))).

Lemma should_retry_only_on_verdict_witness :
  (1 < max_iterations guard)%N /\
  tools_text guard <> "(none)" /\
  exists text r classifier_text value,
    Some "I cannot browse the web." = Some text /\ is_blank text = false /\
    fst (classifier_call (llm := says_yes) guard text 0%nat) = Ok r /\
    LLMResponse.content r = Some classifier_text /\
    extract_json_object (serde := Sample.serde) classifier_text = Some value /\
    get value "claims_no_tools" = Some (JBool true).
Proof.
  by apply (should_retry_only_on_verdict (serde := Sample.serde) (llm := says_yes)
              guard (Some "I cannot browse the web.") 1%N 0%nat).
Defined.

Lemma should_retry_follows_printed_witness :
  fst (should_retry_after_false_no_tools_claim (serde := Sample.serde) (llm := says_yes)
         guard (Some "I cannot access any tools.") 0%N 0)
  = true.
Proof.
  by apply (should_retry_follows_printed (ryu := Sample.ryu) (llm := says_yes) guard
              "I cannot access any tools." 0%N 0
              (text_response (fenced Sample.claims_true))
              ("```json" +:+ String "010" "") [("claims_no_tools", JBool true)]
              (String "010" "```"));
    [..|vm_compute; lia].
Defined.

Lemma should_retry_order_blind_witness :
  should_retry_after_false_no_tools_claim (serde := btree_serde (ryu := Sample.ryu))
    (llm := says_yes) guard (Some "I cannot access any tools.") 0%N 0
  = should_retry_after_false_no_tools_claim (serde := Sample.serde)
      (llm := says_yes) guard (Some "I cannot access any tools.") 0%N 0.
Proof.
  apply (should_retry_order_blind _ _ (btree_agrees (ryu := Sample.ryu)) (llm := says_yes)).
Defined.

(** The two builds extract different lists of members from a reply
    whose keys are not in order, and the same verdict. *)
Example extract_json_object_orders :
  let reply := "{" +:+ Text.quoted "claims_no_tools" +:+ ":true,"
               +:+ Text.quoted "because" +:+ ":null}" in
  extract_json_object (serde := Sample.serde) reply
    = Some (JObject [("claims_no_tools", JBool true); ("because", JNull)]) /\
  extract_json_object (serde := btree_serde (ryu := Sample.ryu)) reply
    = Some (JObject [("because", JNull); ("claims_no_tools", JBool true)]).
Proof. by vm_compute. Qed.

Lemma should_retry_declines_quietly_witness :
  should_retry_after_false_no_tools_claim (serde := Sample.serde) (llm := says_yes)
    guard (Some "I cannot browse the web.") 3%N 0%nat = (false, 0%nat).
Proof.
  apply (should_retry_declines_quietly (serde := Sample.serde) (llm := says_yes)).
  left. by vm_compute.
Defined.

Lemma should_retry_one_call_witness :
  snd (should_retry_after_false_no_tools_claim (serde := Sample.serde)
         (llm := says_yes) guard (Some "I cannot browse the web.") 1%N 0%nat)
  = snd (chat (LLMProvider := says_yes) (provider guard)
           (classifier_messages guard "I cannot browse the web.") None
           (Some (model guard)) 120%N f32_zero 0%nat).
Proof.
  by apply (should_retry_one_call (serde := Sample.serde) (llm := says_yes)
              guard "I cannot browse the web." 1%N 0%nat).
Defined.

(** The listing of the tools is the tools text with every separator
    replaced by a line feed and a dash. *)
Lemma tools_available_response_replace {P} (self : TurnGuard.t P) :
  tools_text self <> "(none)" ->
  tools_available_response self
  = "当前运行时可用工具：" +:+ String "010" "- "
    +:+ replace (tools_text self) ", " (String "010" "- ") +:+ String "010" ""
    +:+ "如需执行网络访问、命令执行、文件操作或定时任务，请直接给出目标。".
Proof.
  intros Hn%String.eqb_neq. unfold tools_available_response. rewrite Hn.
  by rewrite join_split.
Qed.

(** The listing has one line per tool. *)
Example tools_available_response_lists :
  tools_available_response guard
  = "当前运行时可用工具：" +:+ LF +:+ "- web_search" +:+ LF +:+ "- exec" +:+ LF
    +:+ "如需执行网络访问、命令执行、文件操作或定时任务，请直接给出目标。".
Proof. by vm_compute. Qed.
