(* ===== verification/Runtime.v ===== *)
(** * Runtime: the guard over the invocation client

    The turn guard of [src/src/agent/turn_guard.rs] is written against
    the trait [LLMProvider]; the runtime gives it the provider of
    [src/src/providers/litellm.rs].  This file composes the two
    models: the guard of [TurnGuard] over the instance
    [litellm_provider] of [Chat], what its one call of [chat] sends
    to the remote endpoint, and what the guard answers to a reply of
    the endpoint that holds a printed verdict. *)

From S2P Require Import Prelude RustStr Json JsonText Catalog Resolver Base Wire Chat TurnGuard.
Import Str TurnGuard.

Section Runtime.

Context {serde : SerdeJson} {types : LiteLLMTypes} {lib : LiteLLM}.
Context (providers : list ProviderSpec) (respond : Endpoint).

#[local] Instance runtime_provider : LLMProvider LiteLLMProvider World :=
  litellm_provider providers respond.

Implicit Types self : TurnGuard.t LiteLLMProvider.

(** The options of the classifier's requests. *)
Definition classifier_options self : CompletionOptions.t :=
  options_of providers (provider self) None (Some (model self)) 120%N f32_zero.

Lemma classifier_options_fields self :
  let o := classifier_options self in
  CompletionOptions.max_tokens o = Some 120%N /\
  CompletionOptions.temperature o =
    Some (apply_model_overrides providers (provider self)
            (resolve_model providers (provider self) (model self)) f32_zero) /\
  CompletionOptions.tools o = None /\
  CompletionOptions.tool_choice o = None /\
  CompletionOptions.extra_params o = ∅.
Proof. done. Qed.

(** C34. Over the invocation client a question of the guard costs one
    request, or two under fallback, and nothing else: the history only
    grows, and every request added carries the two classifier messages,
    120 tokens, no tool in either form, and the temperature that the
    override engine makes of zero for the resolved name. *)
Theorem guard_requests self content iteration w :
  exists added,
    snd (should_retry_after_false_no_tools_claim self content iteration w)
    = w ++ added /\
    (List.length added <= 2)%nat /\
    Forall (fun r =>
              exists text, content = Some text /\
                request_messages r = convert_message <$> classifier_messages self text /\
                request_options r = Some (classifier_options self))
           added.
Proof.
  assert (forall P, exists added : World,
            w = w ++ added /\ (List.length added <= 2)%nat /\ Forall P added) as Hnone.
  { intros P. exists []. rewrite app_nil_r. split_and!; [done|simpl; lia|constructor]. }
  rewrite should_retry_eq. destruct content as [text|]; [|apply Hnone].
  destruct (asks self (Some text) iteration); [|apply Hnone].
  destruct (chat_requests_payload providers respond (provider self)
              (classifier_messages self text) None (Some (model self)) 120%N
              f32_zero w) as (added & Hw & Hlen & Hall).
  exists added. split; [done|]. split; [lia|].
  eapply Forall_impl; [exact Hall|]. intros r [? ?]. by exists text.
Qed.

End Runtime.

(** C11. From the reply of the endpoint to the answer of the guard.
    When the guard asks and the endpoint answers the classifier's
    call, at the resolved name or at the retry, with a reply whose
    first choice holds as its text an object as serde_json prints it,
    after any text without an opening brace and before any text, the
    guard answers the boolean the object holds under
    [claims_no_tools], and [false] when it holds none. *)
Theorem runtime_guard_follows {ryu : Text.Ryu} {types : LiteLLMTypes} {lib : LiteLLM}
    providers respond (self : TurnGuard.t LiteLLMProvider) text iteration w
    resp choice rest pre m post :
  asks self (Some text) iteration = true ->
  answers providers respond (provider self)
    (classifier_messages self text) None (Some (model self)) 120%N f32_zero w resp ->
  CompletionResponse.choices resp = choice :: rest ->
  content_to_text (serde := Text.serde) <$> Message.content (Choice.message choice)
  = Some (pre +:+ Text.to_string (JObject m) +:+ post) ->
  contains_char pre LBRACE = false ->
  Text.readable (JObject m) = true ->
  (height (JObject m) < Text.RECURSION_LIMIT)%nat ->
  fst (should_retry_after_false_no_tools_claim (serde := Text.serde)
         (llm := litellm_provider (serde := Text.serde) providers respond)
         self (Some text) iteration w)
  = default false (Map.get m "claims_no_tools" ≫= as_bool).
Proof.
  intros Hasks Hanswers Hchoices Hcontent Hpre Hr Hh.
  rewrite should_retry_eq, Hasks. cbn [fst]. unfold classifier_call. cbn [Base.chat litellm_provider].
  assert (fst (chat (serde := Text.serde) providers respond (provider self)
                 (classifier_messages self text) None (Some (model self)) 120%N f32_zero w)
          = Ok (normalize (serde := Text.serde) resp)) as -> by (apply chat_Ok; eauto).
  apply (verdict_printed _ pre m post); [|done..].
  unfold normalize. by rewrite Hchoices.
Qed.

Lemma runtime_guard_follows_witness :
  fst (should_retry_after_false_no_tools_claim (serde := Sample.serde)
         (llm := litellm_provider (serde := Sample.serde) (lib := Stub.backend) PROVIDERS
                   (picky_endpoint "qwen-plus" (text_reply (fenced Sample.claims_true))))
         (TurnGuard.new standard_provider "qwen-plus" "web_search" 3%N)
         (Some "I cannot browse.") 0%N [])
  = true.
Proof.
  eapply (runtime_guard_follows (ryu := Sample.ryu) (lib := Stub.backend) PROVIDERS
           (picky_endpoint "qwen-plus" (text_reply (fenced Sample.claims_true)))
           (TurnGuard.new standard_provider "qwen-plus" "web_search" 3%N)
           "I cannot browse." 0%N [] (text_reply (fenced Sample.claims_true))
           _ [] ("```json" +:+ String "010" "") [("claims_no_tools", JBool true)]
           (String "010" "```")); [done|right; by eexists|reflexivity|done..|].
  vm_compute. lia.
Defined.

(** The guard of a runtime on Moonshot's model: the classifier is
    asked at temperature [1.0], the floor of the model family, not at
    zero. *)
Definition kimi_guard : TurnGuard.t LiteLLMProvider :=
  TurnGuard.new standard_provider "moonshot/kimi-k2.5" "web_search, exec" 3%N.

Example classifier_temperature_overridden :
  CompletionOptions.temperature
    (classifier_options (lib := Stub.backend) PROVIDERS kimi_guard)
  = Some f32_one.
Proof. by vm_compute. Qed.

(** A guard over a backend that rejects the resolved name asks
    twice. *)
Example guard_asks_twice :
  let r := should_retry_after_false_no_tools_claim (serde := Sample.serde)
             (llm := runtime_provider (serde := Sample.serde) (lib := Stub.backend) PROVIDERS
                       (picky_endpoint "qwen-plus" (text_reply Sample.claims_true)))
             (TurnGuard.new standard_provider "qwen-plus" "web_search" 3%N)
             (Some "I cannot browse.") 0%N [] in
  fst r = true /\ request_model <$> snd r = ["dashscope/qwen-plus"; "qwen-plus"].
Proof. by vm_compute. Qed.
