(* ===== verification/Memory.v ===== *)
(** * Memory: the markdown memory store

    Models [src/src/memory.rs]: a store of notes kept in two kinds of
    files under [workspace/memory], the long-term file [MEMORY.md] and
    one file per day.

    The outside of the store is the file system and the clock.  The
    file system maps a path to what is stored there: a text, data that
    is not valid UTF-8 ([Opaque]: reading it as a string fails) or a
    directory.  A write fails when the policy [permits] refuses the
    path or when the parent of the path is not a directory.  The clock
    is read by [today_date] of the crate's utilities; each reading
    advances a counter, and [date_at] gives the date of a reading, so
    that two readings within one operation may differ. *)

From S2P Require Import Prelude RustStr Base.
Import Str.
#[local] Open Scope nb_scope.

(** What a path holds. *)
Inductive Entry : Type :=
| Text (content : string)
| Opaque
| Dir.

#[export] Instance Entry_eq_dec : EqDecision Entry.
Proof. solve_decision. Defined.

(** The outside: the file system and the number of clock readings. *)
Record Host : Type := {
  fs : gmap string Entry;
  readings : nat;
}.

(** [std::io::Error], by its text *)
Definition IoError : Type := string.

(** [Path::join] with a relative name *)
Definition path_join (base name : string) : string := base +:+ "/" +:+ name.

Section Host.

Context (permits : string -> bool) (date_at : nat -> string).

(** [today_date()] of the utilities: a reading of the clock. *)
Definition today_date : Async Host string :=
  fun w => (date_at (readings w), {| fs := fs w; readings := S (readings w) |}).

(** [Path::exists] *)
Definition exists_ (path : string) : Async Host bool :=
  fun w => (is_some (fs w !! path), w).

(** [std::fs::read_to_string(path).unwrap_or_default()] *)
Definition read_or_default (path : string) : Async Host string :=
  fun w => (match fs w !! path with Some (Text s) => s | _ => "" end, w).

(** [std::fs::write(path, content)] in a directory [parent] *)
Definition write (parent path content : string) : Async Host (Result unit IoError) :=
  fun w =>
    if permits path
       && bool_decide (fs w !! parent = Some Dir)
       && negb (bool_decide (fs w !! path = Some Dir))
    then (Ok tt, {| fs := <[path := Text content]> (fs w); readings := readings w |})
    else (Err ("cannot write " +:+ path), w).

(** [ensure_dir] of the utilities: the directory is created unless it
    is there; a file in its place, or a refusal, is an error. *)
Definition ensure_dir (path : string) : Async Host (Result string IoError) :=
  fun w =>
    match fs w !! path with
    | Some Dir => (Ok path, w)
    | Some _ => (Err ("not a directory: " +:+ path), w)
    | None =>
        if permits path then
          (Ok path, {| fs := <[path := Dir]> (fs w); readings := readings w |})
        else (Err ("cannot create " +:+ path), w)
    end.

End Host.

(** The two sections of the context, before they are joined. *)
Definition context_parts (long_term today : string) : list string :=
  (if negb (is_empty long_term) then ["## Long-term Memory" +:+ LF +:+ long_term] else [])
  ++ (if negb (is_empty today) then ["## Today's Notes" +:+ LF +:+ today] else []).

Module MemoryStore.

Record t : Type := {
  workspace : string;
  memory_dir : string;
  memory_file : string;
}.

Section Methods.

Context (permits : string -> bool) (date_at : nat -> string).

#[local] Abbreviation today_date := (today_date date_at).
#[local] Abbreviation write := (write permits).
#[local] Abbreviation ensure_dir := (ensure_dir permits).

Definition new (workspace : string) : Async Host (Result t IoError) :=
  let! dir := ensure_dir (path_join workspace "memory") in
  match dir with
  | Err e => async_ret (Err e)
  | Ok memory_dir =>
      async_ret (Ok {| workspace := workspace; memory_dir := memory_dir;
                       memory_file := path_join memory_dir "MEMORY.md" |})
  end.

Definition get_today_file (self : t) : Async Host string :=
  let! today := today_date in
  async_ret (path_join (memory_dir self) (today +:+ ".md")).

Definition read_today (self : t) : Async Host string :=
  let! path := get_today_file self in
  read_or_default path.

Definition append_today (self : t) (content : string)
  : Async Host (Result unit IoError) :=
  let! path := get_today_file self in
  let! there := exists_ path in
  if there then
    let! existing := read_or_default path in
    let existing := if negb (is_empty existing) then existing +:+ LF else existing in
    write (memory_dir self) path (existing +:+ content)
  else
    let! today := today_date in
    write (memory_dir self) path ("# " +:+ today +:+ LF +:+ LF +:+ content).

Definition read_long_term (self : t) : Async Host string :=
  read_or_default (memory_file self).

Definition write_long_term (self : t) (content : string)
  : Async Host (Result unit IoError) :=
  write (memory_dir self) (memory_file self) content.

Definition get_memory_context (self : t) : Async Host string :=
  let! long_term := read_long_term self in
  let! today := read_today self in
  async_ret (join (LF +:+ LF) (context_parts long_term today)).

End Methods.

End MemoryStore.

Import MemoryStore.

(** ** Facts on the host *)

Lemma path_join_neq base name : path_join base name <> base.
Proof.
  intros Heq. apply (f_equal String.length) in Heq.
  unfold path_join in Heq. rewrite !length_sapp in Heq. simpl in Heq. lia.
Qed.

Lemma sapp_inv_head s a b : s +:+ a = s +:+ b -> a = b.
Proof.
  induction s as [|c s IH]; [by rewrite !sapp_nil_l|].
  rewrite !sapp_cons. intros [= H]. by apply IH.
Qed.

Lemma path_join_inj base a b : path_join base a = path_join base b -> a = b.
Proof. unfold path_join. by intros H%sapp_inv_head%sapp_inv_head. Qed.

Section HostFacts.

Context (permits : string -> bool) (date_at : nat -> string).

Lemma write_Ok parent path content w :
  permits path = true -> fs w !! parent = Some Dir -> fs w !! path <> Some Dir ->
  write permits parent path content w
  = (Ok tt, {| fs := <[path := Text content]> (fs w); readings := readings w |}).
Proof.
  intros Hp Hd Hn. unfold write.
  by rewrite Hp, bool_decide_eq_true_2, bool_decide_eq_false_2.
Qed.

(** A write changes the written path only, and only on success. *)
Lemma write_frame parent path content w other :
  other <> path ->
  fs (snd (write permits parent path content w)) !! other = fs w !! other.
Proof.
  intros Hne. unfold write. destruct (_ && _); simpl; [|done].
  by rewrite lookup_insert_ne.
Qed.

Lemma write_readings parent path content w :
  readings (snd (write permits parent path content w)) = readings w.
Proof. unfold write. by destruct (_ && _). Qed.

(** A write to a path that holds nothing keeps every entry. *)
Lemma write_keeps parent path content w :
  fs w !! path = None -> fs w ⊆ fs (snd (write permits parent path content w)).
Proof.
  intros Hn. unfold write. destruct (_ && _); simpl; [|done].
  by apply insert_subseteq.
Qed.

Lemma write_Ok_inv parent path content w :
  fst (write permits parent path content w) = Ok tt ->
  fs (snd (write permits parent path content w)) !! path = Some (Text content).
Proof.
  unfold write. destruct (_ && _); simpl; [|done]. intros _. apply lookup_insert_eq.
Qed.

Lemma ensure_dir_keeps path w : fs w ⊆ fs (snd (ensure_dir permits path w)).
Proof.
  unfold ensure_dir. destruct (fs w !! path) as [[]|] eqn:He; simpl; try done.
  destruct (permits path); simpl; [|done]. by apply insert_subseteq.
Qed.

Lemma ensure_dir_Ok path w made :
  fst (ensure_dir permits path w) = Ok made ->
  made = path /\ fs (snd (ensure_dir permits path w)) !! path = Some Dir.
Proof.
  unfold ensure_dir. destruct (fs w !! path) as [[]|] eqn:He; simpl; try done.
  - by intros [= <-].
  - destruct (permits path); simpl; [|done]. intros [= <-].
    split; [done|apply lookup_insert_eq].
Qed.

(** A directory that is there is found, and nothing changes. *)
Lemma ensure_dir_there path w :
  fs w !! path = Some Dir -> ensure_dir permits path w = (Ok path, w).
Proof. unfold ensure_dir. by intros ->. Qed.

End HostFacts.

(** ** The store *)

Section StoreFacts.

Context (permits : string -> bool) (date_at : nat -> string).

#[local] Abbreviation append_today := (MemoryStore.append_today permits date_at).
#[local] Abbreviation read_today := (MemoryStore.read_today date_at).
#[local] Abbreviation get_memory_context := (MemoryStore.get_memory_context date_at).

(** The store as [new] leaves it: its directory is there and its
    files are in it. *)
Definition store_ok (self : MemoryStore.t) (w : Host) : Prop :=
  fs w !! memory_dir self = Some Dir /\
  memory_file self = path_join (memory_dir self) "MEMORY.md".

(** The file of the day [d]. *)
Definition day_file (self : MemoryStore.t) (d : string) : string :=
  path_join (memory_dir self) (d +:+ ".md").

(** What [append_today] stores, given what the file of the day holds:
    a new file starts with a heading, a text gets a line feed and the
    content, and what cannot be read as text is replaced. *)
Definition appended (d : string) (old : option Entry) (content : string) : string :=
  match old with
  | None => "# " +:+ d +:+ LF +:+ LF +:+ content
  | Some (Text existing) =>
      (if negb (is_empty existing) then existing +:+ LF else existing) +:+ content
  | Some _ => content
  end.

Lemma new_store_ok workspace w self w' :
  MemoryStore.new permits workspace w = (Ok self, w') ->
  store_ok self w' /\ MemoryStore.workspace self = workspace /\
  readings w' = readings w /\
  forall p, p <> memory_dir self -> fs w' !! p = fs w !! p.
Proof.
  unfold MemoryStore.new, async_bind, async_ret, ensure_dir.
  destruct (fs w !! path_join workspace "memory") as [[]|] eqn:Hd; try done.
  - intros [= <- <-]. by repeat split.
  - destruct (permits _); [|done]. intros [= <- <-]. simpl.
    split_and!; try done; [split; [apply lookup_insert_eq|done]|].
    intros p Hp. by rewrite lookup_insert_ne.
Qed.

(** [append_today] under a clock that shows the day [d] throughout. *)
Lemma append_today_steady self content w d :
  (forall n, date_at n = d) ->
  append_today self content w =
    let w1 := {| fs := fs w;
                 readings := (if is_some (fs w !! day_file self d) then 1 else 2)
                             + readings w |} in
    write permits (memory_dir self) (day_file self d)
      (appended d (fs w !! day_file self d) content) w1.
Proof.
  intros Hd. unfold MemoryStore.append_today, MemoryStore.get_today_file.
  unfold async_bind, async_ret, today_date, exists_, read_or_default. simpl.
  rewrite !Hd. fold (day_file self d).
  destruct (fs w !! day_file self d) as [[]|] eqn:He; simpl; by rewrite ?Hd, ?He.
Qed.

Lemma read_today_steady self w d :
  (forall n, date_at n = d) ->
  fst (read_today self w) =
    match fs w !! day_file self d with Some (Text s) => s | _ => "" end.
Proof.
  intros Hd. unfold MemoryStore.read_today, MemoryStore.get_today_file.
  unfold async_bind, async_ret, today_date, read_or_default. simpl.
  by rewrite Hd.
Qed.

End StoreFacts.

Section StoreTheorems.

Context (permits : string -> bool) (date_at : nat -> string).

#[local] Abbreviation append_today := (MemoryStore.append_today permits date_at).
#[local] Abbreviation read_today := (MemoryStore.read_today date_at).
#[local] Abbreviation get_memory_context := (MemoryStore.get_memory_context date_at).

(** C35. On a day [d] whose file may be written, [append_today] succeeds
    and [read_today] then returns what the file held, a line feed if
    it held any text, and the content; a new file starts with the
    heading of the day. *)
Theorem append_today_read_today self content w d :
  (forall n, date_at n = d) ->
  store_ok self w ->
  permits (day_file self d) = true ->
  fs w !! day_file self d <> Some Dir ->
  let r := append_today self content w in
  fst r = Ok tt /\
  fst (read_today self (snd r)) = appended d (fs w !! day_file self d) content.
Proof.
  intros Hd [Hdir _] Hp Hn r. subst r.
  rewrite (read_today_steady date_at self _ d Hd).
  unfold MemoryStore.append_today, MemoryStore.get_today_file.
  unfold async_bind, async_ret, today_date, exists_, read_or_default.
  cbn -[write]. rewrite !Hd. fold (day_file self d).
  destruct (fs w !! day_file self d) as [[]|] eqn:He; [| |done|];
    cbn -[write]; rewrite ?He, ?Hd, ?sapp_nil_l;
    rewrite write_Ok by (simpl; congruence); simpl;
    by rewrite lookup_insert_eq.
Qed.

(** C38. A file of the day that cannot be read as text is replaced: after
    [append_today] it holds the appended content alone. *)
Theorem append_today_replaces_unreadable self content w d :
  (forall n, date_at n = d) ->
  store_ok self w ->
  permits (day_file self d) = true ->
  fs w !! day_file self d = Some Opaque ->
  fs (snd (append_today self content w)) !! day_file self d = Some (Text content).
Proof.
  intros Hd [Hdir _] Hp Ho.
  rewrite (append_today_steady permits date_at self content w d Hd), Ho. simpl.
  rewrite write_Ok by (simpl; congruence). simpl. by rewrite lookup_insert_eq.
Qed.

(** [append_today] writes the file of the day and nothing else. *)
Lemma append_today_frame self content w d other :
  (forall n, date_at n = d) -> other <> day_file self d ->
  fs (snd (append_today self content w)) !! other = fs w !! other.
Proof.
  intros Hd Hne. rewrite (append_today_steady permits date_at self content w d Hd).
  cbv zeta. by rewrite write_frame.
Qed.

Lemma context_parts_empty long_term today :
  join (LF +:+ LF) (context_parts long_term today) = "" <->
  long_term = "" /\ today = "".
Proof.
  unfold context_parts. destruct long_term, today; simpl; split; try done;
    by intros [? ?].
Qed.

Lemma get_memory_context_eq self w :
  fst (get_memory_context self w) =
    join (LF +:+ LF)
      (context_parts (fst (MemoryStore.read_long_term self w))
         (fst (read_today self w))).
Proof.
  unfold MemoryStore.get_memory_context, MemoryStore.read_long_term.
  unfold async_bind, async_ret, read_or_default. cbn [fst snd].
  by destruct (MemoryStore.read_today date_at self w).
Qed.

(** The memory context is empty exactly when there is neither
    long-term memory nor a note of today; otherwise it holds the
    sections that are not empty, long-term memory first. *)
Theorem get_memory_context_cases self w :
  let long_term := fst (MemoryStore.read_long_term self w) in
  let today := fst (read_today self w) in
  let context := fst (get_memory_context self w) in
  (context = "" <-> long_term = "" /\ today = "") /\
  (long_term <> "" -> starts_with context "## Long-term Memory" = true) /\
  (long_term = "" -> today <> "" -> context = "## Today's Notes" +:+ LF +:+ today).
Proof.
  intros long_term today context. subst context.
  rewrite get_memory_context_eq. fold long_term today.
  split; [apply context_parts_empty|].
  unfold context_parts. destruct long_term as [|c l]; simpl.
  - split; [done|]. intros _ Hne. by destruct today.
  - split; [|done]. intros _. by destruct today.
Qed.

End StoreTheorems.

(** ** A store on a small host *)

Definition steady (d : string) : nat -> string := fun _ => d.

(** A clock that passes midnight after its first reading. *)
Definition midnight : nat -> string :=
  fun n => match n with O => "2026-11-08" | S _ => "2026-11-09" end.

Definition anywhere : string -> bool := fun _ => true.

Definition home : Host :=
  {| fs := {[ "ws" := Dir; "ws/memory" := Dir;
              "ws/memory/2026-11-07.md" := Opaque ]};
     readings := 0 |}.

Definition store : MemoryStore.t :=
  {| workspace := "ws"; memory_dir := "ws/memory";
     memory_file := "ws/memory/MEMORY.md" |}.

Lemma store_ok_home : store_ok store home.
Proof. by vm_compute. Qed.

Lemma append_today_read_today_witness :
  let r := MemoryStore.append_today anywhere (steady "2026-11-08") store "met Ada" home in
  fst r = Ok tt /\
  fst (MemoryStore.read_today (steady "2026-11-08") store (snd r))
  = appended "2026-11-08" (fs home !! day_file store "2026-11-08") "met Ada".
Proof.
  apply (append_today_read_today anywhere (steady "2026-11-08") store "met Ada" home
           "2026-11-08"); [done|apply store_ok_home|done|by vm_compute].
Defined.

Lemma append_today_replaces_unreadable_witness :
  fs (snd (MemoryStore.append_today anywhere (steady "2026-11-07") store "met Ada" home))
    !! day_file store "2026-11-07" = Some (Text "met Ada").
Proof.
  apply (append_today_replaces_unreadable anywhere (steady "2026-11-07") store
           "met Ada" home "2026-11-07"); [done|apply store_ok_home|done|by vm_compute].
Defined.

(** Two notes on one day, and the context they give. *)
Example append_today_twice :
  let clock := steady "2026-11-08" in
  let w1 := snd (MemoryStore.append_today anywhere clock store "met Ada" home) in
  let w2 := snd (MemoryStore.append_today anywhere clock store "called Bob" w1) in
  fst (MemoryStore.read_today clock store w2)
    = "# 2026-11-08" +:+ LF +:+ LF +:+ "met Ada" +:+ LF +:+ "called Bob" /\
  fst (MemoryStore.get_memory_context clock store w2)
    = "## Today's Notes" +:+ LF +:+ "# 2026-11-08" +:+ LF +:+ LF +:+ "met Ada"
      +:+ LF +:+ "called Bob".
Proof. by vm_compute. Qed.

(** The heading of a new file is a second reading of the clock: over
    midnight the file of the 8th starts with the heading of the 9th. *)
Example append_today_over_midnight :
  fs (snd (MemoryStore.append_today anywhere midnight store "met Ada" home))
    !! "ws/memory/2026-11-08.md"
  = Some (Text ("# 2026-11-09" +:+ LF +:+ LF +:+ "met Ada")).
Proof. by vm_compute. Qed.
