(* ===== verification/Service.v ===== *)
(** * Service: the Windows service wrapper

    Models [src/src/service/mod.rs] and [src/src/service/windows.rs]:
    the operations that install, remove, start, stop, restart and
    query a Windows service through the programs [nssm], [sc], [net],
    [where] and [winget].

    The outside is the operating system.  Its state [Os] is the list
    of the events the wrapper caused so far, oldest first: a program
    run with its arguments, a pause, a line printed, a directory
    created.  The system answers through two functions of that
    history: [exec] gives the outcome of running a program (an
    [Output], or the failure to start it) and [mkdir] the outcome of
    creating a directory.  The bytes a program prints are modelled as
    text, so [String::from_utf8_lossy] is the identity. *)

From S2P Require Import Prelude RustStr Base.
Import Str.
#[local] Open Scope nb_scope.

(** ** Data of [mod.rs] *)

Inductive ServiceAccount : Type :=
| Inherit
| LocalSystem
| CurrentUser (username password : string).

Record ServiceInstallOptions : Type := {
  name : string;
  binary_path : string;
  arguments : string;
  working_directory : string;
  log_directory : string;
  account : ServiceAccount;
  auto_install_nssm : bool;
  autostart : bool;
}.

Record ServiceStatus : Type := {
  exists_ : bool;
  state : option string;
}.

(** ** The operating system *)

(** [std::process::Output] *)
Record Output : Type := {
  success : bool;
  stdout : string;
  stderr : string;
}.

Inductive Event : Type :=
| Run (program : string) (args : list string)
| Sleep (millis : N)
| Print (line : string)
| CreateDirAll (path : string).

#[export] Instance Event_eq_dec : EqDecision Event.
Proof. solve_decision. Defined.

Definition Os : Type := list Event.

(** ** Pure functions of [windows.rs] *)

Definition output_text (bytes : string) : string := trim bytes.

Definition is_marked_for_delete_error (message : string) : bool :=
  let lower := to_lowercase message in
  contains lower "marked for deletion" || contains message "已标记为删除".

Definition with_service_hints (error : AnyhowError) (service_name : string)
  : AnyhowError :=
  let message := error in
  if is_marked_for_delete_error message then
    message +:+ LF
    +:+ "hint: service '" +:+ service_name +:+ "' is pending deletion." +:+ LF
    +:+ "close Services.msc / Event Viewer windows, wait a few seconds, then retry." +:+ LF
    +:+ "if it still persists, reboot Windows or use a different name via --name."
  else
    let lower := to_lowercase message in
    let is_access_denied :=
      contains lower "access is denied" || contains message "拒绝访问" in
    if is_access_denied then
      message +:+ LF
      +:+ "hint: run the terminal as Administrator and retry." +:+ LF
      +:+ "suggested: nanobot service install --name " +:+ service_name
    else message.

(** The body of the loop of [parse_state] over the lines. *)
Fixpoint parse_state_lines (lines : list string) : option string :=
  match lines with
  | [] => None
  | line :: rest =>
      if negb (contains line "STATE") then parse_state_lines rest
      else
        match split_once line ":" with
        | None => None
        | Some (_, right') =>
            match split_whitespace right' with
            | [] => None
            | first :: more =>
                if all is_ascii_digit first then head more else Some first
            end
        end
  end.

Definition parse_state (sc_output : string) : option string :=
  parse_state_lines (lines sc_output).

(** ** Commands *)

Section Commands.

Context (exec : Os -> string -> list string -> Result Output string).
Context (mkdir : Os -> string -> Result unit string).

(** [println!] *)
Definition println (line : string) : Async Os unit :=
  fun os => (tt, os ++ [Print line]).

(** [std::thread::sleep] *)
Definition sleep (millis : N) : Async Os unit :=
  fun os => (tt, os ++ [Sleep millis]).

Definition command_line (program : string) (args : list string) : string :=
  program +:+ " " +:+ join " " args.

Definition run_command (program : string) (args : list string)
  : Async Os (Result Output AnyhowError) :=
  fun os =>
    (map_err (fun _ => "failed to execute command: " +:+ command_line program args)
       (exec os program args),
     os ++ [Run program args]).

Definition run_checked (program : string) (args : list string)
  : Async Os (Result Output AnyhowError) :=
  let! output := run_command program args in
  async_ret (
    let? output := output in
    if success output then Ok output
    else Err ("command failed: " +:+ command_line program args +:+ LF
              +:+ "stdout: " +:+ output_text (stdout output) +:+ LF
              +:+ "stderr: " +:+ output_text (stderr output))).

Definition command_exists (name : string) : Async Os bool :=
  let! out := run_command "where" [name] in
  async_ret (match out with
             | Ok out => success out && negb (is_empty (stdout out))
             | Err _ => false
             end).

Definition is_elevated : Async Os bool :=
  let! out := run_command "net" ["session"] in
  async_ret (match out with Ok out => success out | Err _ => false end).

Definition ensure_admin (command_name : string) : Async Os (Result unit AnyhowError) :=
  let! elevated := is_elevated in
  async_ret (
    if elevated then Ok tt
    else Err ("service " +:+ command_name +:+ " requires Administrator privileges." +:+ LF
              +:+ "hint: open PowerShell as Administrator and retry.")).

Definition ensure_nssm (auto_install : bool) : Async Os (Result unit AnyhowError) :=
  let! found := command_exists "nssm" in
  if found then async_ret (Ok tt)
  else if negb auto_install then
    async_ret (Err "nssm is not installed. Install it with: winget install --id NSSM.NSSM -e")
  else
    let! winget := command_exists "winget" in
    if negb winget then
      async_ret (Err "nssm is missing and winget is unavailable. Install nssm manually first.")
    else
      let! _ := println "nssm not found, installing via winget..." in
      let! installed :=
        run_checked "winget"
          ["install"; "--id"; "NSSM.NSSM"; "-e"; "--accept-source-agreements";
           "--accept-package-agreements"] in
      match installed with
      | Err e => async_ret (Err e)
      | Ok _ =>
          let! found := command_exists "nssm" in
          if negb found then
            async_ret (Err "nssm install command completed but nssm is still not found in PATH.")
          else
            let! _ := println "nssm installed successfully." in
            async_ret (Ok tt)
      end.

Definition service_exists (name : string) : Async Os bool :=
  let! out := run_command "sc" ["query"; name] in
  async_ret (match out with Ok out => success out | Err _ => false end).

Fixpoint wait_for_service (name : string) (retries : nat) (delay : N)
  : Async Os bool :=
  match retries with
  | O => async_ret false
  | S retries =>
      let! found := service_exists name in
      if found then async_ret true
      else
        let! _ := sleep delay in
        wait_for_service name retries delay
  end.

(** [run_checked("nssm", args).map_err(|e| with_service_hints(e, name))?; Ok(())] *)
Definition nssm_set (name : string) (args : list string)
  : Async Os (Result unit AnyhowError) :=
  let! out := run_checked "nssm" args in
  async_ret (match out with
             | Ok _ => Ok tt
             | Err e => Err (with_service_hints e name)
             end).

Definition set_service_value (name key value : string)
  : Async Os (Result unit AnyhowError) :=
  nssm_set name ["set"; name; key; value].

Definition set_service_values (name key : string) (values : list string)
  : Async Os (Result unit AnyhowError) :=
  nssm_set name (["set"; name; key] ++ values).

Definition set_service_account (name : string) (account : ServiceAccount)
  : Async Os (Result unit AnyhowError) :=
  match account with
  | Inherit => async_ret (Ok tt)
  | LocalSystem => nssm_set name ["set"; name; "ObjectName"; "LocalSystem"]
  | CurrentUser username password =>
      nssm_set name ["set"; name; "ObjectName"; username; password]
  end.

Definition status_service (name : string)
  : Async Os (Result ServiceStatus AnyhowError) :=
  let! found := service_exists name in
  if negb found then async_ret (Ok {| exists_ := false; state := None |})
  else
    let! output := run_checked "sc" ["query"; name] in
    async_ret (
      let? output := output in
      Ok {| exists_ := true; state := parse_state (stdout output) |}).

(** [Path::join] on Windows *)
Definition join_path (base name : string) : string := base +:+ "\" +:+ name.

(** [fs::create_dir_all] with the context of [install_service] *)
Definition create_log_directory (path : string) : Async Os (Result unit AnyhowError) :=
  fun os =>
    (map_err (fun _ => "failed to create log directory: " +:+ path) (mkdir os path),
     os ++ [CreateDirAll path]).

(** The [else] branch of [install_service]: the service is created by
    [nssm install] and awaited. *)
Definition create_service (options : ServiceInstallOptions) (binary : string)
  : Async Os (Result unit AnyhowError) :=
  let args :=
    ["install"; name options; binary]
    ++ (if negb (is_empty (trim (arguments options))) then [trim (arguments options)]
        else []) in
  fun os =>
    match exec os "nssm" args with
    | Err _ =>
        (Err ("failed to execute command: nssm install " +:+ name options +:+ " "
              +:+ binary), os ++ [Run "nssm" args])
    | Ok out =>
        if negb (success out) then
          (Err (with_service_hints
                  ("command failed: nssm install " +:+ name options +:+ LF
                   +:+ "stdout: " +:+ output_text (stdout out) +:+ LF
                   +:+ "stderr: " +:+ output_text (stderr out))
                  (name options)), os ++ [Run "nssm" args])
        else
          (let! visible := wait_for_service (name options) 25 200 in
           if negb visible then
             async_ret (Err (
               "nssm install reported success but service '" +:+ name options
               +:+ "' is still unavailable." +:+ LF
               +:+ "install stdout: " +:+ output_text (stdout out) +:+ LF
               +:+ "install stderr: " +:+ output_text (stderr out) +:+ LF
               +:+ "hint: run terminal as Administrator and retry."))
           else
             let! _ := println ("Service '" +:+ name options +:+ "' installed.") in
             async_ret (Ok tt)) (os ++ [Run "nssm" args])
    end.

(** The configuration that [install_service] applies once the
    service is visible. *)
Definition configure_service (options : ServiceInstallOptions)
    (binary workdir stdout_log stderr_log : string)
  : Async Os (Result unit AnyhowError) :=
  let name := name options in
  let!? _ := set_service_value name "Application" binary in
  let!? _ :=
    if negb (is_empty (trim (arguments options))) then
      set_service_value name "AppParameters" (trim (arguments options))
    else async_ret (Ok tt) in
  let!? _ := set_service_value name "AppDirectory" workdir in
  let!? _ := set_service_value name "AppStdout" stdout_log in
  let!? _ := set_service_value name "AppStderr" stderr_log in
  let!? _ := set_service_value name "AppRotateFiles" "1" in
  let!? _ := set_service_value name "AppRotateOnline" "1" in
  let!? _ := set_service_values name "AppExit" ["Default"; "Restart"] in
  let!? _ := set_service_account name (account options) in
  let!? _ :=
    set_service_value name "Start"
      (if autostart options then "SERVICE_AUTO_START" else "SERVICE_DEMAND_START") in
  async_ret (Ok tt).

Definition install_service (options : ServiceInstallOptions)
  : Async Os (Result unit AnyhowError) :=
  let!? _ := ensure_admin "install" in
  let!? _ := ensure_nssm (auto_install_nssm options) in
  let!? _ := create_log_directory (log_directory options) in
  let binary := binary_path options in
  let workdir := working_directory options in
  let stdout_log := join_path (log_directory options) (name options +:+ ".out.log") in
  let stderr_log := join_path (log_directory options) (name options +:+ ".err.log") in
  let! found := service_exists (name options) in
  let!? _ :=
    if found then
      let! _ := println ("Service '" +:+ name options
                         +:+ "' already exists, updating configuration...") in
      async_ret (Ok tt)
    else create_service options binary in
  let! visible := wait_for_service (name options) 10 150 in
  if negb visible then
    async_ret (Err ("service '" +:+ name options
                    +:+ "' is not visible to SCM yet; cannot apply configuration"))
  else configure_service options binary workdir stdout_log stderr_log.

Definition not_installed (name : string) : AnyhowError :=
  "service '" +:+ name +:+ "' is not installed".

Definition remove_service (name : string) : Async Os (Result unit AnyhowError) :=
  let!? _ := ensure_admin "remove" in
  let!? _ := ensure_nssm false in
  let! found := service_exists name in
  if negb found then
    let! _ := println ("Service '" +:+ name +:+ "' is not installed.") in
    async_ret (Ok tt)
  else
    let! removed := run_checked "nssm" ["remove"; name; "confirm"] in
    match removed with
    | Err err =>
        if is_marked_for_delete_error err then
          let! _ := println ("Service '" +:+ name
                             +:+ "' is already marked for deletion. It will disappear shortly.") in
          async_ret (Ok tt)
        else async_ret (Err (with_service_hints err name))
    | Ok _ => async_ret (Ok tt)
    end.

(** The three checks that start, stop and restart begin with. *)
Definition ensure_ready (command_name name : string)
  : Async Os (Result unit AnyhowError) :=
  let!? _ := ensure_admin command_name in
  let!? _ := ensure_nssm false in
  let! found := service_exists name in
  async_ret (if negb found then Err (not_installed name) else Ok tt).

Definition start_service (name : string) : Async Os (Result unit AnyhowError) :=
  let!? _ := ensure_ready "start" name in
  let!? _ := run_checked "nssm" ["start"; name] in
  async_ret (Ok tt).

Definition stop_service (name : string) : Async Os (Result unit AnyhowError) :=
  let!? _ := ensure_ready "stop" name in
  let!? _ := run_checked "nssm" ["stop"; name] in
  async_ret (Ok tt).

Definition restart_service (name : string) : Async Os (Result unit AnyhowError) :=
  let!? _ := ensure_ready "restart" name in
  let!? current := status_service name in
  let!? _ :=
    if bool_decide (state current = Some "RUNNING") then
      let!? _ := run_checked "nssm" ["stop"; name] in async_ret (Ok tt)
    else async_ret (Ok tt) in
  let!? _ := run_checked "nssm" ["start"; name] in
  async_ret (Ok tt).

End Commands.

(** [mod.rs]: on Windows an operation is the one of [windows.rs],
    elsewhere it fails. *)
Definition unsupported : AnyhowError :=
  "Service management is currently supported on Windows only.".

Definition dispatch {A} (windows : bool) (operation : Async Os (Result A AnyhowError))
  : Async Os (Result A AnyhowError) :=
  if windows then operation else async_ret (Err unsupported).

(** ** Facts on the pure functions *)

(** The message is kept: a hint is only added after it. *)
Lemma with_service_hints_prefix error service_name :
  starts_with (with_service_hints error service_name) error = true.
Proof.
  unfold with_service_hints. cbv zeta.
  destruct (is_marked_for_delete_error error); [apply starts_with_app|].
  destruct (_ || _); [apply starts_with_app|apply starts_with_refl].
Qed.

Lemma parse_state_lines_skip line rest :
  contains line "STATE" = false ->
  parse_state_lines (line :: rest) = parse_state_lines rest.
Proof. simpl. by intros ->. Qed.

(** C36. The first line that holds the text [STATE] decides: the lines
    before it are skipped, the lines after it are never read, and the
    state is what that line alone gives. *)
Theorem parse_state_first_state_line before line after :
  Forall (fun l => contains l "STATE" = false) before ->
  contains line "STATE" = true ->
  parse_state_lines (before ++ line :: after) = parse_state_lines [line].
Proof.
  intros Hb Hl. induction Hb as [|l before Hn _ IH]; simpl.
  - by rewrite Hl.
  - by rewrite Hn.
Qed.

(** A state that is returned is a token: not empty, without white
    space. *)
Lemma parse_state_lines_token lines state :
  parse_state_lines lines = Some state ->
  state <> "" /\ all (fun c => negb (is_whitespace c)) state = true.
Proof.
  induction lines as [|line rest IH]; [done|]. simpl.
  destruct (contains line "STATE"); simpl; [|done].
  destruct (split_once line ":") as [[l r]|]; [|done].
  pose proof (split_whitespace_tokens r) as Ht.
  destruct (split_whitespace r) as [|first more]; [done|].
  apply Forall_cons in Ht as [Hf Hm].
  destruct (all is_ascii_digit first); [|by intros [= <-]].
  destruct more as [|second more]; [done|]. simpl. intros [= <-].
  by apply Forall_cons in Hm as [? _].
Qed.

(** A service whose name holds the text [STATE] is reported in the
    state of its name: the line of the name comes first. *)
Example parse_state_reads_the_name :
  parse_state ("SERVICE_NAME: STATE-keeper" +:+ LF
               +:+ "        STATE              : 4  RUNNING") = Some "STATE-keeper".
Proof. by vm_compute. Qed.

Lemma parse_state_first_state_line_witness :
  parse_state_lines
    (["query result"] ++ "SERVICE_NAME: STATE-keeper" :: ["        STATE   : 4  RUNNING"])
  = parse_state_lines ["SERVICE_NAME: STATE-keeper"].
Proof. apply parse_state_first_state_line; [by repeat constructor|done]. Defined.

(** ** Facts on the commands *)

(** Unfolds the commands down to the answers of the system. *)
Ltac os_unfold :=
  unfold ensure_admin, ensure_nssm, is_elevated, command_exists, service_exists,
    run_checked, run_command, println, sleep,
    async_try, async_bind, async_ret; simpl.

(** Events added after a prefix of the history. *)
Lemma drop_events_not_in (os os' added : Os) (e : Event) :
  e ∉ drop (List.length os) os' -> e ∉ added ->
  e ∉ drop (List.length os) (os' ++ added).
Proof.
  intros Hos Hadded Hin. by apply elem_of_drop_app in Hin as [?|?].
Qed.

Lemma drop_events_in (os os' : Os) (e : Event) :
  (exists mid, os' = os ++ mid /\ e ∈ mid) -> e ∈ drop (List.length os) os'.
Proof. intros (mid & -> & Hin). by rewrite drop_app_length. Qed.

Section CommandFacts.

Context (exec : Os -> string -> list string -> Result Output string).

(** The answers of the system that the checks read. *)
Definition elevated (os : Os) : bool :=
  match exec os "net" ["session"] with Ok out => success out | Err _ => false end.

Definition has_nssm (os : Os) : bool :=
  match exec os "where" ["nssm"] with
  | Ok out => success out && negb (is_empty (stdout out))
  | Err _ => false
  end.

Definition installed (name : string) (os : Os) : bool :=
  match exec os "sc" ["query"; name] with Ok out => success out | Err _ => false end.

Definition admin_required (command_name : string) : AnyhowError :=
  "service " +:+ command_name +:+ " requires Administrator privileges." +:+ LF
  +:+ "hint: open PowerShell as Administrator and retry.".

Lemma service_exists_eq name os :
  service_exists exec name os = (installed name os, os ++ [Run "sc" ["query"; name]]).
Proof. os_unfold. unfold installed. by destruct (exec os "sc" _). Qed.

(** The three checks, one after the other, each on the history that
    the checks before it left. *)
Lemma ensure_ready_eq command_name name os :
  let os1 := os ++ [Run "net" ["session"]] in
  let os2 := os1 ++ [Run "where" ["nssm"]] in
  let os3 := os2 ++ [Run "sc" ["query"; name]] in
  ensure_ready exec command_name name os =
    if negb (elevated os) then (Err (admin_required command_name), os1)
    else if negb (has_nssm os1) then
      (Err "nssm is not installed. Install it with: winget install --id NSSM.NSSM -e", os2)
    else (if negb (installed name os2) then Err (not_installed name) else Ok tt, os3).
Proof.
  intros os1 os2 os3. unfold ensure_ready. os_unfold.
  unfold elevated, has_nssm, installed. fold os1.
  destruct (exec os "net" _) as [[[] ? ?]|]; simpl; try done.
  fold os2. destruct (exec os1 "where" _) as [[[] [] ?]|]; simpl; try done.
  fold os3. by destruct (exec os2 "sc" _) as [[[] ? ?]|].
Qed.

(** The checks run no [nssm]. *)
Lemma ensure_ready_no_nssm command_name name os args :
  Run "nssm" args ∉ drop (List.length os) (snd (ensure_ready exec command_name name os)).
Proof.
  rewrite ensure_ready_eq. cbv zeta.
  repeat (case_match; simpl); rewrite <-?app_assoc, drop_app_length; simpl;
    rewrite ?not_elem_of_cons; split_and?; try done; apply not_elem_of_nil.
Qed.

Lemma ensure_ready_grows command_name name os :
  exists mid, snd (ensure_ready exec command_name name os) = os ++ mid.
Proof.
  rewrite ensure_ready_eq. cbv zeta.
  repeat (case_match; simpl); rewrite <-?app_assoc; eauto.
Qed.

(** [wait_for_service] asks at most [retries] times, pauses between
    two questions, and does nothing else. *)
Lemma wait_for_service_trace name delay retries : forall os,
  exists added,
    snd (wait_for_service exec name retries delay os) = os ++ added /\
    (List.length added <= 2 * retries)%nat /\
    Forall (fun e => e = Run "sc" ["query"; name] \/ e = Sleep delay) added.
Proof.
  induction retries as [|retries IH]; intros os.
  { exists []. rewrite app_nil_r. split_and!; [done|simpl; lia|constructor]. }
  simpl. unfold async_bind at 1. rewrite service_exists_eq.
  destruct (installed name os).
  - exists [Run "sc" ["query"; name]]. split_and!; [done|simpl; lia|].
    repeat constructor.
  - unfold async_bind, sleep.
    destruct (IH ((os ++ [Run "sc" ["query"; name]]) ++ [Sleep delay]))
      as (added & -> & Hlen & Hall).
    exists (Run "sc" ["query"; name] :: Sleep delay :: added).
    rewrite <-!app_assoc. split_and!; [done|simpl; lia|].
    apply Forall_cons; split; [by left|]. apply Forall_cons; split; [by right|done].
Qed.

End CommandFacts.

(** ** Waiting for the service *)

(** The pauses of a history, in milliseconds. *)
Definition pause_of (e : Event) : N :=
  match e with Sleep millis => millis | _ => 0%N end.

Definition paused (os : Os) : N := foldr (fun e total => (pause_of e + total)%N) 0%N os.

Lemma paused_app os os' : paused (os ++ os') = (paused os + paused os')%N.
Proof. induction os as [|e os IH]; simpl; [done|]. rewrite IH. lia. Qed.

(** Two histories with the same pauses. *)
Definition quiet : relation Os := fun os os' => paused os' = paused os.

#[export] Instance quiet_preorder : PreOrder quiet.
Proof. split; unfold quiet; [done|]. intros os1 os2 os3. congruence. Qed.

(** A computation that never pauses. *)
Abbreviation Quiet := (Preserves quiet).

(** A computation that only adds to the history. *)
Abbreviation Grows := (Preserves (prefix : relation Os)).

(** A preorder on histories that every event but a pause respects:
    what holds of the commands that never sleep holds for each such
    preorder, for [quiet] and for [prefix]. *)
Class Calm (R : relation Os) : Prop := {
  #[global] calm_preorder :: PreOrder R;
  calm_step os e : pause_of e = 0%N -> R os (os ++ [e]);
}.

#[export] Instance quiet_calm : Calm quiet.
Proof.
  split; [apply _|]. intros os e He. unfold quiet. rewrite paused_app. simpl. lia.
Qed.

#[export] Instance prefix_calm : Calm prefix.
Proof. split; [apply _|]. intros os e _. by exists [e]. Qed.

(** A computation that pauses for at most [budget] milliseconds. *)
Definition Pauses {A} (budget : N) (m : Async Os A) : Prop :=
  forall os, (paused (snd (m os)) <= paused os + budget)%N.

Lemma Calm_println R `{!Calm R} line : Preserves R (println line).
Proof. intros os. by apply calm_step. Qed.

Lemma Pauses_quiet {A} (m : Async Os A) budget : Quiet m -> Pauses budget m.
Proof. intros Hm os. rewrite (Hm os). lia. Qed.

Lemma Pauses_bind {A B} a b (m : Async Os A) (k : A -> Async Os B) :
  Pauses a m -> (forall x, Pauses b (k x)) -> Pauses (a + b) (async_bind m k).
Proof.
  intros Hm Hk os. unfold async_bind. specialize (Hm os).
  destruct (m os) as [x os1]. specialize (Hk x os1). simpl in *. lia.
Qed.

(** Under [?] the rest runs only after a success, which may have
    paused less than a failure. *)
Lemma Pauses_try {A B} a b (m : Async Os (Result A AnyhowError))
    (k : A -> Async Os (Result B AnyhowError)) :
  (forall os, (paused (snd (m os))
               <= paused os + (if is_ok (fst (m os)) then a else a + b))%N) ->
  (forall x, Pauses b (k x)) -> Pauses (a + b) (async_try m k).
Proof.
  intros Hm Hk os. unfold async_try, async_bind, async_ret. specialize (Hm os).
  destruct (m os) as [[x|e] os1]; simpl in *; [|done].
  specialize (Hk x os1). lia.
Qed.

#[export] Hint Resolve Calm_println : nb.
#[export] Hint Extern 0 (Calm _) => typeclasses eauto : nb.

(** ** The commands that never sleep *)

Section Calm.

Context (exec : Os -> string -> list string -> Result Output string).
Context (mkdir : Os -> string -> Result unit string).
Context (R : relation Os) `{!Calm R}.

Lemma Calm_run_command program args : Preserves R (run_command exec program args).
Proof. intros os. by apply calm_step. Qed.

Lemma Calm_run_checked program args : Preserves R (run_checked exec program args).
Proof. unfold run_checked. auto using Calm_run_command with nb. Qed.

Lemma Calm_nssm_set name args : Preserves R (nssm_set exec name args).
Proof. unfold nssm_set. auto using Calm_run_checked with nb. Qed.

Lemma Calm_service_exists name : Preserves R (service_exists exec name).
Proof. unfold service_exists. auto using Calm_run_command with nb. Qed.

Lemma Calm_ensure_admin command_name : Preserves R (ensure_admin exec command_name).
Proof. unfold ensure_admin, is_elevated. auto using Calm_run_command with nb. Qed.

Lemma Calm_command_exists name : Preserves R (command_exists exec name).
Proof. unfold command_exists. auto using Calm_run_command with nb. Qed.

Lemma Calm_ensure_nssm auto_install : Preserves R (ensure_nssm exec auto_install).
Proof.
  unfold ensure_nssm.
  repeat first [apply Preserves_bind; [typeclasses eauto| |intros ?]
               |apply Preserves_if | case_match
               |by auto using Calm_run_command, Calm_command_exists, Calm_run_checked with nb].
Qed.

Lemma Calm_create_log_directory path : Preserves R (create_log_directory mkdir path).
Proof. intros os. by apply calm_step. Qed.

Lemma Calm_set_service_account name account : Preserves R (set_service_account exec name account).
Proof. destruct account; simpl; auto using Calm_nssm_set with nb. Qed.

Lemma Calm_configure_service options binary workdir stdout_log stderr_log :
  Preserves R (configure_service exec options binary workdir stdout_log stderr_log).
Proof.
  unfold configure_service, set_service_value, set_service_values. cbv zeta.
  repeat (apply Preserves_try; [typeclasses eauto| |intros ?]);
    auto using Calm_nssm_set, Calm_set_service_account with nb.
Qed.

End Calm.

Section Waiting.

Context (exec : Os -> string -> list string -> Result Output string).
Context (mkdir : Os -> string -> Result unit string).

(** What [k] fruitless rounds of [wait_for_service] add to the history. *)
Fixpoint rounds (name : string) (delay : N) (k : nat) : Os :=
  match k with
  | O => []
  | S k => Run "sc" ["query"; name] :: Sleep delay :: rounds name delay k
  end.

Lemma paused_rounds name delay k : paused (rounds name delay k) = (N.of_nat k * delay)%N.
Proof.
  induction k as [|k IH]; [done|].
  change (paused (rounds name delay (S k))) with (0 + (delay + paused (rounds name delay k)))%N.
  rewrite IH. lia.
Qed.

(** The wait in closed form: the rounds before the first question
    that finds the service, or all of them. *)
Lemma wait_for_service_rounds name delay retries : forall os,
  exists k, k <= retries /\
    (forall j, j < k -> installed exec name (os ++ rounds name delay j) = false) /\
    wait_for_service exec name retries delay os
    = (if decide (k < retries)
       then (true, (os ++ rounds name delay k) ++ [Run "sc" ["query"; name]])
       else (false, os ++ rounds name delay retries)) /\
    (k < retries -> installed exec name (os ++ rounds name delay k) = true).
Proof.
  induction retries as [|retries IH]; intros os.
  { exists 0. split_and!; [lia|lia|by rewrite app_nil_r|intros; lia]. }
  simpl. unfold async_bind at 1. rewrite service_exists_eq.
  destruct (installed exec name os) eqn:Hfound.
  - exists 0. simpl. rewrite app_nil_r. split_and!; [lia|lia|done|done].
  - unfold async_bind, sleep.
    destruct (IH ((os ++ [Run "sc" ["query"; name]]) ++ [Sleep delay]))
      as (k & Hk & Hbefore & -> & Hat).
    exists (S k). cbn [rounds]. rewrite <-!app_assoc in *. cbn [app] in *.
    split_and!; [lia| |by repeat case_decide; try lia|intros; apply Hat; lia].
    intros [|j] Hj; [by rewrite app_nil_r|].
    specialize (Hbefore j). rewrite <-app_assoc in Hbefore. apply Hbefore. lia.
Qed.

(** The pauses of a wait: one for every fruitless question. *)
Lemma wait_for_service_paused name delay retries os :
  let r := wait_for_service exec name retries delay os in
  (paused (snd r)
   <= paused os + (N.of_nat retries - (if fst r then 1 else 0)) * delay)%N.
Proof.
  destruct (wait_for_service_rounds name delay retries os) as (k & Hk & _ & -> & _).
  case_decide; simpl; rewrite !paused_app, paused_rounds; simpl; nia.
Qed.

End Waiting.

Lemma Pauses_try_quiet {A B} budget (m : Async Os (Result A AnyhowError))
    (k : A -> Async Os (Result B AnyhowError)) :
  Quiet m -> (forall x, Pauses budget (k x)) -> Pauses budget (async_try m k).
Proof.
  intros Hm Hk. apply (Pauses_try 0 budget); [|done].
  intros os. rewrite Hm. destruct (is_ok _); lia.
Qed.

Lemma Pauses_bind_quiet {A B} budget (m : Async Os A) (k : A -> Async Os B) :
  Quiet m -> (forall x, Pauses budget (k x)) -> Pauses budget (async_bind m k).
Proof. intros Hm Hk. apply (Pauses_bind 0 budget); [by apply Pauses_quiet|done]. Qed.

Section Installing.

Context (exec : Os -> string -> list string -> Result Output string).
Context (mkdir : Os -> string -> Result unit string).

(** The service is awaited for at most 25 rounds of 200 ms, and a
    wait that succeeded ended before the last pause. *)
Lemma create_service_paused options binary os :
  let r := create_service exec options binary os in
  (paused (snd r) <= paused os + (if is_ok (fst r) then 4800 else 5000))%N.
Proof.
  unfold create_service. cbv zeta.
  pose proof (wait_for_service_paused exec (name options) 200 25) as Hw.
  change (N.of_nat 25) with 25%N in Hw. revert Hw.
  generalize (wait_for_service exec (name options) 25 200). intros wait Hw.
  destruct (exec os "nssm" _) as [out|e]; simpl; [|rewrite paused_app; simpl; lia].
  destruct (success out); simpl; [|rewrite paused_app; simpl; lia].
  unfold async_bind.
  match goal with |- context [wait ?w] => specialize (Hw w); rewrite paused_app in Hw end.
  destruct (wait _) as [[] os1]; simpl in *; rewrite ?paused_app; simpl; lia.
Qed.

(** C31. [install_service] pauses for at most 6.3 seconds in all,
    whatever the system answers: 24 pauses of 200 ms for a service
    that appears at the last question after [nssm install], and ten of
    150 ms before the configuration is given up. *)
Theorem install_service_pauses options os :
  (paused (snd (install_service exec mkdir options os)) <= paused os + 6300)%N.
Proof.
  revert os. change (Pauses 6300 (install_service exec mkdir options)).
  unfold install_service. cbv zeta.
  apply Pauses_try_quiet; [apply (Calm_ensure_admin exec quiet)|intros _].
  apply Pauses_try_quiet; [apply (Calm_ensure_nssm exec quiet)|intros _].
  apply Pauses_try_quiet; [apply (Calm_create_log_directory mkdir quiet)|intros _].
  apply Pauses_bind_quiet; [apply (Calm_service_exists exec quiet)|intros found].
  apply (Pauses_try 4800 1500).
  - intros os. destruct found.
    + assert (Quiet (let! _ := println ("Service '" +:+ name options
                        +:+ "' already exists, updating configuration...") in
                     async_ret (Ok tt : Result unit AnyhowError))) as Hq
        by auto with nb.
      rewrite (Hq os). destruct (is_ok _); lia.
    + pose proof (create_service_paused options (binary_path options) os) as Hc.
      cbv zeta in Hc. destruct (is_ok _); lia.
  - intros _. apply (Pauses_bind 1500 0).
    + intros os. pose proof (wait_for_service_paused exec (name options) 150 10 os) as Hw.
      change (N.of_nat 10) with 10%N in Hw.
      destruct (wait_for_service _ _ _ _ _) as [[] os1]; simpl in *; lia.
    + intros visible. apply Pauses_quiet.
      destruct visible; simpl; [apply (Calm_configure_service exec quiet)|auto with nb].
Qed.

(** C32. The wait finds a service that appears in time: it answers
    [true] exactly when one of its [retries] questions, each asked
    after the pauses of the fruitless ones before it, finds the
    service. *)
Theorem wait_for_service_finds name delay retries os :
  fst (wait_for_service exec name retries delay os) = true <->
  exists k, k < retries /\ installed exec name (os ++ rounds name delay k) = true.
Proof.
  destruct (wait_for_service_rounds exec name delay retries os)
    as (k & Hk & Hbefore & -> & Hat).
  case_decide as Hlt; simpl; split; try done.
  - intros _. exists k. auto.
  - intros (j & Hj & Hfound). rewrite Hbefore in Hfound by lia. done.
Qed.

End Installing.

(** ** What a command that succeeded has run *)

(** [Adds l m]: when [m] succeeds, it has added the events [l] to the
    history, and nothing else. *)
Definition Adds {A} (l : list Event) (m : Async Os (Result A AnyhowError)) : Prop :=
  forall os, is_ok (fst (m os)) = true -> snd (m os) = os ++ l.

(** [Ends pre tail m]: when [m] succeeds, the history ends with the
    events [tail], and [pre] holds of the history before them. *)
Definition Ends {A} (pre : Os -> Prop) (tail : list Event)
    (m : Async Os (Result A AnyhowError)) : Prop :=
  forall os, is_ok (fst (m os)) = true ->
    exists before, snd (m os) = os ++ before ++ tail /\ pre (os ++ before).

Lemma Adds_ret {A} (r : Result A AnyhowError) : Adds [] (async_ret r).
Proof. intros os _. by rewrite app_nil_r. Qed.

Lemma Adds_try {A B} l1 l2 (m : Async Os (Result A AnyhowError))
    (k : A -> Async Os (Result B AnyhowError)) :
  Adds l1 m -> (forall a, Adds l2 (k a)) -> Adds (l1 ++ l2) (async_try m k).
Proof.
  intros Hm Hk os. unfold async_try, async_bind, async_ret. specialize (Hm os).
  destruct (m os) as [[a|e] os1]; simpl in *; [|done].
  intros Hok. by rewrite (Hk a os1 Hok), Hm, app_assoc.
Qed.

Lemma Adds_if {A} (b : bool) l l' (m m' : Async Os (Result A AnyhowError)) :
  Adds l m -> Adds l' m' -> Adds (if b then l else l') (if b then m else m').
Proof. by destruct b. Qed.

Lemma Ends_bind {A B} pre tail (m : Async Os A) (k : A -> Async Os (Result B AnyhowError)) :
  Grows m -> (forall a, Ends pre tail (k a)) -> Ends pre tail (async_bind m k).
Proof.
  intros Hm Hk os. unfold async_bind. destruct (Hm os) as [mid Hmid].
  destruct (m os) as [a os1]; simpl in *. subst os1. intros Hok.
  destruct (Hk a _ Hok) as (before & -> & Hpre).
  exists (mid ++ before). by rewrite <-!app_assoc in *.
Qed.

Lemma Ends_try {A B} pre tail (m : Async Os (Result A AnyhowError))
    (k : A -> Async Os (Result B AnyhowError)) :
  Grows m -> (forall a, Ends pre tail (k a)) -> Ends pre tail (async_try m k).
Proof. intros Hm Hk. apply Ends_bind; [done|]. by intros [a|e]. Qed.

#[export] Hint Resolve Adds_ret Adds_try Adds_if : nb.

Section Configuring.

Context (exec : Os -> string -> list string -> Result Output string).
Context (mkdir : Os -> string -> Result unit string).

Lemma Adds_nssm_set name args : Adds [Run "nssm" args] (nssm_set exec name args).
Proof. intros os _. unfold nssm_set. os_unfold. by destruct (exec os "nssm" args). Qed.

(** The setting of the account of the service. *)
Definition account_setting (name : string) (account : ServiceAccount) : list Event :=
  match account with
  | Inherit => []
  | LocalSystem => [Run "nssm" ["set"; name; "ObjectName"; "LocalSystem"]]
  | CurrentUser username password =>
      [Run "nssm" ["set"; name; "ObjectName"; username; password]]
  end.

(** The settings of a service, in the order [install_service] makes
    them. *)
Definition settings (options : ServiceInstallOptions) : list Event :=
  let name := name options in
  let set key value := [Run "nssm" ["set"; name; key; value]] in
  set "Application" (binary_path options)
  ++ (if negb (is_empty (trim (arguments options)))
      then set "AppParameters" (trim (arguments options)) else [])
  ++ set "AppDirectory" (working_directory options)
  ++ set "AppStdout" (join_path (log_directory options) (name +:+ ".out.log"))
  ++ set "AppStderr" (join_path (log_directory options) (name +:+ ".err.log"))
  ++ set "AppRotateFiles" "1"
  ++ set "AppRotateOnline" "1"
  ++ [Run "nssm" ["set"; name; "AppExit"; "Default"; "Restart"]]
  ++ account_setting name (account options)
  ++ set "Start" (if autostart options then "SERVICE_AUTO_START"
                  else "SERVICE_DEMAND_START")
  ++ [].

Lemma Adds_set_service_account name account :
  Adds (account_setting name account) (set_service_account exec name account).
Proof. destruct account; simpl; auto using Adds_nssm_set with nb. Qed.

Lemma Adds_configure_service options :
  Adds (settings options)
    (configure_service exec options (binary_path options) (working_directory options)
       (join_path (log_directory options) (name options +:+ ".out.log"))
       (join_path (log_directory options) (name options +:+ ".err.log"))).
Proof.
  unfold configure_service, settings, set_service_value, set_service_values. cbv zeta.
  repeat (apply Adds_try; [|intros ?]);
    auto using Adds_nssm_set, Adds_set_service_account with nb.
Qed.

Lemma Grows_wait_for_service name retries delay :
  Grows (wait_for_service exec name retries delay).
Proof.
  intros os. destruct (wait_for_service_trace exec name delay retries os) as (added & -> & _).
  by exists added.
Qed.

Lemma Grows_create_service options binary : Grows (create_service exec options binary).
Proof.
  intros os. unfold create_service. cbv zeta.
  generalize (Grows_wait_for_service (name options) 25 200).
  generalize (wait_for_service exec (name options) 25 200). intros wait Hw.
  destruct (exec os "nssm" _) as [out|e]; [|by eexists].
  destruct (success out); cbn [negb]; [|by eexists].
  etrans; [by eexists|]. apply Preserves_bind; [apply _|apply Hw|].
  intros []; cbn [negb]; auto with nb.
Qed.

(** The last steps of [install_service]: the service is awaited, and
    configured once it is found. *)
Lemma wait_then_configure options :
  Ends (fun os => installed exec (name options) os = true)
    (Run "sc" ["query"; name options] :: settings options)
    (let! visible := wait_for_service exec (name options) 10 150 in
     if negb visible then
       async_ret (Err ("service '" +:+ name options
                       +:+ "' is not visible to SCM yet; cannot apply configuration"))
     else configure_service exec options (binary_path options) (working_directory options)
            (join_path (log_directory options) (name options +:+ ".out.log"))
            (join_path (log_directory options) (name options +:+ ".err.log"))).
Proof.
  intros os. unfold async_bind.
  destruct (wait_for_service_rounds exec (name options) 150 10 os)
    as (k & _ & _ & -> & Hat).
  case_decide as Hk; simpl; [|done]. intros Hok.
  rewrite (Adds_configure_service options _ Hok).
  exists (rounds (name options) 150 k). rewrite <-!app_assoc. auto.
Qed.

(** C30. An installation that succeeded has configured a service that is
    there: its history ends with a question that found the service
    and, after it, the settings of the service in their order, each
    made once. *)
Theorem install_service_configures options os :
  fst (install_service exec mkdir options os) = Ok tt ->
  exists before,
    snd (install_service exec mkdir options os)
    = os ++ before ++ Run "sc" ["query"; name options] :: settings options /\
    installed exec (name options) (os ++ before) = true.
Proof.
  intros Hok.
  enough (Ends (fun os => installed exec (name options) os = true)
            (Run "sc" ["query"; name options] :: settings options)
            (install_service exec mkdir options)) as Hends
    by (apply Hends; by rewrite Hok).
  unfold install_service. cbv zeta.
  apply Ends_try; [apply Calm_ensure_admin, _|intros _].
  apply Ends_try; [apply Calm_ensure_nssm, _|intros _].
  apply Ends_try; [apply Calm_create_log_directory, _|intros _].
  apply Ends_bind; [apply Calm_service_exists, _|intros found].
  apply Ends_try; [|intros _; apply wait_then_configure].
  destruct found; [auto with nb|apply Grows_create_service].
Qed.

End Configuring.

(** The cases of the three checks, for a command that runs [nssm]
    once after them. *)
Ltac guarded_cases exec name os os1 os2 :=
  destruct (elevated exec os), (has_nssm exec os1), (installed exec name os2);
    simpl; unfold os2, os1; os_unfold; repeat case_match; simpl;
    rewrite <-?app_assoc, drop_app_length; simpl;
    rewrite ?elem_of_cons, ?elem_of_nil; intuition congruence.

Section ServiceTheorems.

Context (exec : Os -> string -> list string -> Result Output string).

(** [nssm start] is run exactly when the three checks passed, each on
    the history the checks before it left: the terminal is elevated,
    [nssm] is found, and the service is known to the service
    manager. *)
Theorem start_service_guarded name os :
  let os1 := os ++ [Run "net" ["session"]] in
  let os2 := os1 ++ [Run "where" ["nssm"]] in
  Run "nssm" ["start"; name]
    ∈ drop (List.length os) (snd (start_service exec name os)) <->
  elevated exec os = true /\ has_nssm exec os1 = true /\ installed exec name os2 = true.
Proof.
  intros os1 os2. unfold start_service, async_try at 1, async_bind at 1.
  rewrite ensure_ready_eq. fold os1 os2. guarded_cases exec name os os1 os2.
Qed.

(** [nssm stop] is guarded by the same three checks. *)
Theorem stop_service_guarded name os :
  let os1 := os ++ [Run "net" ["session"]] in
  let os2 := os1 ++ [Run "where" ["nssm"]] in
  Run "nssm" ["stop"; name]
    ∈ drop (List.length os) (snd (stop_service exec name os)) <->
  elevated exec os = true /\ has_nssm exec os1 = true /\ installed exec name os2 = true.
Proof.
  intros os1 os2. unfold stop_service, async_try at 1, async_bind at 1.
  rewrite ensure_ready_eq. fold os1 os2. guarded_cases exec name os os1 os2.
Qed.

(** Without elevation nothing is installed: [install_service] asks
    [net session], fails with the request for Administrator
    privileges, and runs no other program and creates no directory. *)
Theorem install_service_needs_admin mkdir options os :
  elevated exec os = false ->
  install_service exec mkdir options os
  = (Err (admin_required "install"), os ++ [Run "net" ["session"]]).
Proof.
  intros He. unfold install_service, async_try at 1, async_bind at 1.
  unfold elevated in He. os_unfold.
  by destruct (exec os "net" _) as [[[] ? ?]|]; simplify_eq/=.
Qed.

(** Removing a service that is not installed succeeds without
    running [nssm remove]: after the three checks a line is printed
    and nothing else happens. *)
Theorem remove_service_absent name os :
  let os1 := os ++ [Run "net" ["session"]] in
  let os2 := os1 ++ [Run "where" ["nssm"]] in
  elevated exec os = true -> has_nssm exec os1 = true ->
  installed exec name os2 = false ->
  remove_service exec name os
  = (Ok tt, os2 ++ [Run "sc" ["query"; name];
                    Print ("Service '" +:+ name +:+ "' is not installed.")]).
Proof.
  intros os1 os2. unfold elevated, has_nssm, installed, remove_service.
  os_unfold. fold os1.
  destruct (exec os "net" _) as [[[] ? ?]|]; simpl; try done. intros _.
  fold os2. destruct (exec os1 "where" _) as [[[] [] ?]|]; simpl; try done. intros _.
  destruct (exec os2 "sc" _) as [[[] ? ?]|]; simpl; try done;
    intros _; by rewrite <-app_assoc.
Qed.

Lemma run_checked_world program args os :
  snd (run_checked exec program args os) = os ++ [Run program args].
Proof. os_unfold. by destruct (exec os program args). Qed.

(** The events of a status query: one or two runs of [sc query]. *)
Lemma status_service_trace name os :
  exists added,
    snd (status_service exec name os) = os ++ added /\
    Forall (fun e => e = Run "sc" ["query"; name]) added.
Proof.
  unfold status_service, async_bind at 1. rewrite service_exists_eq.
  destruct (installed exec name os); cbn -[run_checked].
  - exists [Run "sc" ["query"; name]; Run "sc" ["query"; name]].
    unfold async_bind, async_ret.
    destruct (run_checked exec "sc" _ _) as [r os'] eqn:Hr.
    apply (f_equal snd) in Hr. rewrite run_checked_world in Hr. simpl in *.
    subst os'. rewrite <-app_assoc. split; [done|by repeat constructor].
  - exists [Run "sc" ["query"; name]]. split; [done|by repeat constructor].
Qed.

(** The events of [restart_service] after the checks and the status
    query: [nssm stop] when the state is [RUNNING], and [nssm start]
    unless the stop failed. *)
Lemma restart_service_tail name current os4 :
  exists started,
    snd ((let!? _ :=
            if bool_decide (state current = Some "RUNNING") then
              let!? _ := run_checked exec "nssm" ["stop"; name] in async_ret (Ok tt)
            else async_ret (Ok tt) in
          let!? _ := run_checked exec "nssm" ["start"; name] in
          async_ret (Ok tt)) os4)
    = os4 ++ (if bool_decide (state current = Some "RUNNING")
              then [Run "nssm" ["stop"; name]] else []) ++ started /\
    Forall (fun e => e = Run "nssm" ["start"; name]) started.
Proof.
  destruct (bool_decide _); unfold async_try, async_bind, async_ret; cbn -[run_checked].
  - destruct (run_checked exec "nssm" ["stop"; name] os4) as [r os5] eqn:Hr.
    apply (f_equal snd) in Hr. rewrite run_checked_world in Hr. simpl in Hr. subst os5.
    destruct r; [|by exists []].
    destruct (run_checked exec "nssm" ["start"; name] _) as [r os6] eqn:Hr.
    apply (f_equal snd) in Hr. rewrite run_checked_world in Hr. simpl in Hr. subst os6.
    exists [Run "nssm" ["start"; name]]. rewrite <-app_assoc.
    split; [by destruct r|by repeat constructor].
  - destruct (run_checked exec "nssm" ["start"; name] _) as [r os6] eqn:Hr.
    apply (f_equal snd) in Hr. rewrite run_checked_world in Hr. simpl in Hr. subst os6.
    exists [Run "nssm" ["start"; name]]. split; [by destruct r|by repeat constructor].
Qed.

(** Once the checks have passed, [restart_service] runs [nssm stop]
    exactly when the status query succeeded and reported the state
    [RUNNING]; in every other state the service is started without
    being stopped. *)
Theorem restart_service_stops_iff_running name os :
  fst (ensure_ready exec "restart" name os) = Ok tt ->
  let os3 := snd (ensure_ready exec "restart" name os) in
  Run "nssm" ["stop"; name]
    ∈ drop (List.length os) (snd (restart_service exec name os)) <->
  exists current,
    fst (status_service exec name os3) = Ok current /\
    state current = Some "RUNNING".
Proof.
  intros Hok os3.
  pose proof (ensure_ready_no_nssm exec "restart" name os ["stop"; name]) as Hn.
  fold os3 in Hn. unfold restart_service.
  rewrite (async_try_Ok _ _ os tt os3) by (subst os3; by destruct (ensure_ready _ _ _ _) as [[[]|] ?]).
  unfold async_try at 1, async_bind at 1.
  destruct (status_service_trace name os3) as (added & Hs & Hadded).
  assert (Run "nssm" ["stop"; name] ∉ added) as Hna.
  { intros Hin. eapply Forall_forall in Hadded; [|done]. done. }
  destruct (status_service exec name os3) as [[current|e] os4]; simpl in Hs; subst os4.
  2: { split; [|by intros (? & ? & ?)]. intros Hin. by apply elem_of_drop_app in Hin as [?|?]. }
  destruct (restart_service_tail name current (os3 ++ added)) as (started & -> & Hst).
  assert (Run "nssm" ["stop"; name] ∉ started) as Hns.
  { intros Hin. eapply Forall_forall in Hst; [|done]. done. }
  simpl. case_bool_decide as Hr.
  - split; [by eauto|]. intros _.
    destruct (ensure_ready_grows exec "restart" name os) as [mid Hmid].
    subst os3. rewrite Hmid, <-!app_assoc, drop_app_length.
    rewrite !elem_of_app, elem_of_cons. tauto.
  - split; [|by intros (? & [= <-] & ?)]. intros Hin.
    apply elem_of_drop_app in Hin as [Hin|Hin]; [|done].
    by apply elem_of_drop_app in Hin as [?|?].
Qed.

End ServiceTheorems.

(** ** Two systems *)

Definition fine : Output := {| success := true; stdout := "ok"; stderr := "" |}.
Definition refused : Output := {| success := false; stdout := ""; stderr := "Access is denied." |}.

(** An elevated terminal with [nssm] on which every service exists. *)
Definition elevated_os : Os -> string -> list string -> Result Output string :=
  fun _ _ _ => Ok fine.

(** A terminal without elevation. *)
Definition plain_os : Os -> string -> list string -> Result Output string :=
  fun _ program _ => if String.eqb program "net" then Ok refused else Ok fine.

(** An elevated terminal on which no service exists. *)
Definition empty_os : Os -> string -> list string -> Result Output string :=
  fun _ program _ => if String.eqb program "sc" then Ok refused else Ok fine.

Definition any_dir : Os -> string -> Result unit string := fun _ _ => Ok tt.

Definition nanobot_options : ServiceInstallOptions :=
  {| name := "nanobot"; binary_path := "C:\nanobot\nanobot.exe"; arguments := "gateway";
     working_directory := "C:\nanobot"; log_directory := "C:\nanobot\logs";
     account := LocalSystem; auto_install_nssm := false; autostart := true |}.

Lemma start_service_guarded_witness :
  Run "nssm" ["start"; "nanobot"]
    ∈ drop 0 (snd (start_service elevated_os "nanobot" [])).
Proof. by apply (start_service_guarded elevated_os "nanobot" []). Defined.

Lemma install_service_needs_admin_witness :
  install_service plain_os any_dir nanobot_options []
  = (Err (admin_required "install"), [Run "net" ["session"]]).
Proof. by apply (install_service_needs_admin plain_os any_dir nanobot_options []). Defined.

Lemma remove_service_absent_witness :
  remove_service empty_os "nanobot" []
  = (Ok tt, [Run "net" ["session"]; Run "where" ["nssm"]; Run "sc" ["query"; "nanobot"];
             Print "Service 'nanobot' is not installed."]).
Proof. by apply (remove_service_absent empty_os "nanobot" []). Defined.

(** Installing on an elevated terminal: the programs run, in order. *)
Example install_service_trace :
  let r := install_service elevated_os any_dir nanobot_options [] in
  fst r = Ok tt /\
  omap (fun e => match e with Run p (a :: _) => Some (p +:+ " " +:+ a) | _ => None end)
    (snd r)
  = ["net session"; "where nssm"; "sc query"; "sc query";
     "nssm set"; "nssm set"; "nssm set"; "nssm set"; "nssm set"; "nssm set";
     "nssm set"; "nssm set"; "nssm set"; "nssm set"].
Proof. by vm_compute. Qed.

(** A service in the state of its name is not stopped before it is
    started again. *)
Definition keeper_os : Os -> string -> list string -> Result Output string :=
  fun _ program _ =>
    if String.eqb program "sc" then
      Ok {| success := true;
            stdout := "SERVICE_NAME: STATE-keeper" +:+ LF
                      +:+ "        STATE              : 4  RUNNING";
            stderr := "" |}
    else Ok fine.

Example restart_service_skips_stop :
  let r := restart_service keeper_os "STATE-keeper" [] in
  fst r = Ok tt /\
  bool_decide (Run "nssm" ["stop"; "STATE-keeper"] ∈ snd r) = false /\
  bool_decide (Run "nssm" ["start"; "STATE-keeper"] ∈ snd r) = true.
Proof. by vm_compute. Qed.

(** A system on which the service runs. *)
Definition running_os : Os -> string -> list string -> Result Output string :=
  fun _ program _ =>
    if String.eqb program "sc" then
      Ok {| success := true;
            stdout := "SERVICE_NAME: nanobot" +:+ LF
                      +:+ "        STATE              : 4  RUNNING";
            stderr := "" |}
    else Ok fine.

Lemma restart_service_stops_iff_running_witness :
  Run "nssm" ["stop"; "nanobot"]
    ∈ drop 0 (snd (restart_service running_os "nanobot" [])) <->
  exists current,
    fst (status_service running_os "nanobot"
           (snd (ensure_ready running_os "restart" "nanobot" []))) = Ok current /\
    state current = Some "RUNNING".
Proof. by apply (restart_service_stops_iff_running running_os "nanobot" []). Defined.

Example restart_service_running :
  omap (fun e => match e with Run p (a :: _) => Some (p +:+ " " +:+ a) | _ => None end)
    (snd (restart_service running_os "nanobot" []))
  = ["net session"; "where nssm"; "sc query"; "sc query"; "sc query";
     "nssm stop"; "nssm start"].
Proof. by vm_compute. Qed.

(** A system on which the service shows at the question asked after
    [n] earlier ones, and at no other. *)
Definition questions (os : Os) : nat :=
  List.length (List.filter (fun e => bool_decide (e = Run "sc" ["query"; "nanobot"])) os).

Definition late_os (n : nat) : Os -> string -> list string -> Result Output string :=
  fun os program _ =>
    if String.eqb program "sc"
    then Ok (if questions os =? n then fine else refused)
    else Ok fine.

(** A service that shows at the third question is found after two
    pauses. *)
Example wait_for_service_late :
  let r := wait_for_service (late_os 2) "nanobot" 10 150 [] in
  fst r = true /\ paused (snd r) = 300%N /\ questions (snd r) = 3.
Proof. by vm_compute. Qed.

(** The bound of [install_service_pauses] is met: the service shows at
    the last of the 25 questions after [nssm install] and at none of
    the ten that follow. *)
Example install_service_longest_wait :
  let r := install_service (late_os 25) any_dir nanobot_options [] in
  fst r = Err "service 'nanobot' is not visible to SCM yet; cannot apply configuration" /\
  paused (snd r) = 6300%N.
Proof. by vm_compute. Qed.

Lemma install_service_configures_witness :
  exists before,
    snd (install_service elevated_os any_dir nanobot_options [])
    = [] ++ before ++ Run "sc" ["query"; name nanobot_options] :: settings nanobot_options /\
    installed elevated_os (name nanobot_options) ([] ++ before) = true.
Proof.
  apply (install_service_configures elevated_os any_dir nanobot_options []).
  by vm_compute.
Defined.
