(* ===== verification/Scm.v ===== *)
(** * Scm: the wrapper over a reference service manager

    [Service] models the wrapper of [src/src/service/windows.rs] over
    any operating system: the answers of the programs it runs are a
    parameter.  This file gives one operating system, a reference
    model of the programs the wrapper runs, and shows what the
    wrapper does on it.

    The [Machine] holds whether the terminal is elevated, whether
    [nssm] is installed, and the services known to the service
    manager, each stopped or running with the settings made so far.
    A run of a program is decoded into a [Command]; [react] is what
    the command does to the machine and [answer] what the program
    prints and returns.  The machine of a history is the machine
    after the programs run in it ([machine_of]), and the system
    answers a run as that machine does ([exec]).

    The specification of the wrapper is a state machine on the
    services ([spec]): a service is absent, stopped or running, an
    operation succeeds or fails and moves the service.  The theorems
    are a simulation: each operation of the wrapper, run from any
    history, succeeds exactly when the specification does and leaves
    a history whose machine is the one the specification gives
    ([perform_refines]), and so does every session of operations
    ([session_refines]).

    The theorems on a restart and on sessions are those of services
    whose name is [good]: it does not hold the text [STATE] nor a
    line break.  For a name that holds [STATE] the wrapper reads the
    state of the service off the line of its name, and a restart of
    the running service fails ([restart_service_misreads]).

    The machine is one instance of the programs, not a model of
    Windows: there is no [winget], a service that is installed is
    seen at the first question, one that is removed is gone at once,
    and [nssm start] fails on a service that runs. *)

From S2P Require Import Prelude RustStr Base Service.
Import Str.
#[local] Open Scope nb_scope.

(** ** The machine *)

Inductive Activity : Type := Stopped | Running.

#[export] Instance Activity_eq_dec : EqDecision Activity.
Proof. solve_decision. Defined.

(** A service: whether it runs, and the settings made with
    [nssm set], oldest first. *)
Record ServiceEntry : Type := {
  activity : Activity;
  settings_of : list (string * list string);
}.

Record Machine : Type := {
  admin : bool;
  nssm_there : bool;
  services : gmap string ServiceEntry;
}.

(** The runs of programs the machine understands. *)
Inductive Command : Type :=
| NetSession
| Where (program : string)
| ScQuery (name : string)
| NssmInstall (name binary : string) (more : list string)
| NssmSet (name key : string) (values : list string)
| NssmStart (name : string)
| NssmStop (name : string)
| NssmRemove (name : string)
| Unknown.

Definition nssm_command (args : list string) : Command :=
  match args with
  | verb :: name :: rest =>
      if String.eqb verb "install" then
        match rest with binary :: more => NssmInstall name binary more | [] => Unknown end
      else if String.eqb verb "set" then
        match rest with key :: values => NssmSet name key values | [] => Unknown end
      else if String.eqb verb "start" then
        match rest with [] => NssmStart name | _ => Unknown end
      else if String.eqb verb "stop" then
        match rest with [] => NssmStop name | _ => Unknown end
      else if String.eqb verb "remove" then
        match rest with
        | [confirm] => if String.eqb confirm "confirm" then NssmRemove name else Unknown
        | _ => Unknown
        end
      else Unknown
  | _ => Unknown
  end.

Definition command (program : string) (args : list string) : Command :=
  if String.eqb program "nssm" then nssm_command args
  else if String.eqb program "net" then
    match args with
    | [what] => if String.eqb what "session" then NetSession else Unknown
    | _ => Unknown
    end
  else if String.eqb program "where" then
    match args with [name] => Where name | _ => Unknown end
  else if String.eqb program "sc" then
    match args with
    | [verb; name] => if String.eqb verb "query" then ScQuery name else Unknown
    | _ => Unknown
    end
  else Unknown.

Definition with_services (m : Machine) (services : gmap string ServiceEntry) : Machine :=
  {| admin := admin m; nssm_there := nssm_there m; services := services |}.

Definition with_activity (a : Activity) (e : ServiceEntry) : ServiceEntry :=
  {| activity := a; settings_of := settings_of e |}.

Definition with_setting (key : string) (values : list string) (e : ServiceEntry)
  : ServiceEntry :=
  {| activity := activity e; settings_of := settings_of e ++ [(key, values)] |}.

(** Whether the service is absent, stopped or running. *)
Definition status (m : Machine) (name : string) : option Activity :=
  activity <$> services m !! name.

(** Whether a command does what it is run for.  Every [nssm] command
    needs an elevated terminal; a service is installed once, started
    when it is stopped and stopped when it runs. *)
Definition succeeds (m : Machine) (c : Command) : bool :=
  match c with
  | NetSession => admin m
  | Where program => String.eqb program "nssm" && nssm_there m
  | ScQuery name => bool_decide (is_Some (status m name))
  | NssmInstall name _ _ => admin m && bool_decide (status m name = None)
  | NssmSet name _ _ => admin m && bool_decide (is_Some (status m name))
  | NssmStart name => admin m && bool_decide (status m name = Some Stopped)
  | NssmStop name => admin m && bool_decide (status m name = Some Running)
  | NssmRemove name => admin m && bool_decide (is_Some (status m name))
  | Unknown => false
  end.

(** What a command that succeeds does to the services. *)
Definition effect (c : Command) (services : gmap string ServiceEntry)
  : gmap string ServiceEntry :=
  match c with
  | NssmInstall name _ _ => <[name := {| activity := Stopped; settings_of := [] |}]> services
  | NssmSet name key values => alter (with_setting key values) name services
  | NssmStart name => alter (with_activity Running) name services
  | NssmStop name => alter (with_activity Stopped) name services
  | NssmRemove name => delete name services
  | _ => services
  end.

(** What [sc query] prints of a service. *)
Definition state_line (a : Activity) : string :=
  "        STATE              : "
  +:+ match a with Stopped => "1  STOPPED" | Running => "4  RUNNING" end.

Definition query_text (name : string) (a : Activity) : string :=
  "SERVICE_NAME: " +:+ name +:+ LF
  +:+ "        TYPE               : 10  WIN32_OWN_PROCESS" +:+ LF
  +:+ state_line a +:+ LF
  +:+ "        WIN32_EXIT_CODE    : 0  (0x0)".

Definition printed (m : Machine) (c : Command) : string :=
  match c with
  | Where program => "C:\tools\" +:+ program +:+ ".exe"
  | ScQuery name =>
      match status m name with Some a => query_text name a | None => "" end
  | _ => ""
  end.

Definition complaint (m : Machine) (c : Command) : string :=
  match c with
  | NetSession | NssmInstall _ _ _ | NssmSet _ _ _ | NssmStart _ | NssmStop _
  | NssmRemove _ =>
      if admin m then "The operation could not be completed." else "Access is denied."
  | Where _ => "INFO: Could not find files for the given pattern(s)."
  | ScQuery _ => "[SC] EnumQueryServicesStatus:OpenService FAILED 1060"
  | Unknown => ""
  end.

(** Whether the program of a command can be started at all. *)
Definition starts (m : Machine) (c : Command) : bool :=
  match c with
  | NetSession | Where _ | ScQuery _ => true
  | NssmInstall _ _ _ | NssmSet _ _ _ | NssmStart _ | NssmStop _ | NssmRemove _ =>
      nssm_there m
  | Unknown => false
  end.

(** What a command does to the machine, when its program starts and
    it succeeds. *)
Definition works (m : Machine) (c : Command) : bool := starts m c && succeeds m c.

Definition react (m : Machine) (c : Command) : Machine :=
  if works m c then with_services m (effect c (services m)) else m.

Definition run (c : Command) (m : Machine) : bool * Machine := (works m c, react m c).

Definition answer (m : Machine) (c : Command) : Result Output string :=
  if negb (starts m c) then Err "program not found"
  else if succeeds m c then Ok {| success := true; stdout := printed m c; stderr := "" |}
  else Ok {| success := false; stdout := ""; stderr := complaint m c |}.

(** The machine after a history, and the system it makes. *)
Definition after (m : Machine) (e : Event) : Machine :=
  match e with
  | Run program args => react m (command program args)
  | _ => m
  end.

Definition machine_of (init : Machine) (os : Os) : Machine := foldl after init os.

Definition exec (init : Machine) : Os -> string -> list string -> Result Output string :=
  fun os program args => answer (machine_of init os) (command program args).

(** ** The specification *)

Inductive Op : Type :=
| Install (options : ServiceInstallOptions)
| Remove (name : string)
| Start (name : string)
| Stop (name : string)
| Restart (name : string).

(** The terminal is elevated and [nssm] is there. *)
Definition able (m : Machine) : bool := admin m && nssm_there m.

(** The settings an installation makes, in their order. *)
Definition installed_settings (options : ServiceInstallOptions)
  : list (string * list string) :=
  [("Application", [binary_path options])]
  ++ (if negb (is_empty (trim (arguments options)))
      then [("AppParameters", [trim (arguments options)])] else [])
  ++ [("AppDirectory", [working_directory options]);
      ("AppStdout", [join_path (log_directory options) (name options +:+ ".out.log")]);
      ("AppStderr", [join_path (log_directory options) (name options +:+ ".err.log")]);
      ("AppRotateFiles", ["1"]); ("AppRotateOnline", ["1"]);
      ("AppExit", ["Default"; "Restart"])]
  ++ match account options with
     | Inherit => []
     | LocalSystem => [("ObjectName", ["LocalSystem"])]
     | CurrentUser username password => [("ObjectName", [username; password])]
     end
  ++ [("Start", [if autostart options then "SERVICE_AUTO_START"
                 else "SERVICE_DEMAND_START"])].

(** The service after an installation: the one that was there, or a
    new one that is stopped, with the settings of the installation
    after those it had. *)
Definition configured_entry (options : ServiceInstallOptions)
    (previous : option ServiceEntry) : ServiceEntry :=
  let e := default {| activity := Stopped; settings_of := [] |} previous in
  {| activity := activity e; settings_of := settings_of e ++ installed_settings options |}.

(** What an operation does: whether it succeeds, and the services
    after it. *)
Definition spec (op : Op) (m : Machine) : bool * Machine :=
  if negb (able m) then (false, m)
  else
    match op with
    | Install options =>
        (true, with_services m
                 (<[name options := configured_entry options (services m !! name options)]>
                    (services m)))
    | Remove name => (true, with_services m (delete name (services m)))
    | Start name =>
        if bool_decide (status m name = Some Stopped)
        then (true, with_services m (alter (with_activity Running) name (services m)))
        else (false, m)
    | Stop name =>
        if bool_decide (status m name = Some Running)
        then (true, with_services m (alter (with_activity Stopped) name (services m)))
        else (false, m)
    | Restart name =>
        if bool_decide (is_Some (status m name))
        then (true, with_services m (alter (with_activity Running) name (services m)))
        else (false, m)
    end.

(** A session: the operations one after the other, with the results
    of each. *)
Fixpoint spec_session (ops : list Op) (m : Machine) : list bool * Machine :=
  match ops with
  | [] => ([], m)
  | op :: ops =>
      let r := spec op m in
      let rs := spec_session ops r.2 in
      (r.1 :: rs.1, rs.2)
  end.

(** The name an operation is about. *)
Definition subject (op : Op) : string :=
  match op with
  | Install options => name options
  | Remove name | Start name | Stop name | Restart name => name
  end.

(** The state as [sc query] names it. *)
Definition state_text (a : Activity) : string :=
  match a with Stopped => "STOPPED" | Running => "RUNNING" end.

(** The names whose line in the answer of [sc query] is not taken
    for the line of the state. *)
Definition good (name : string) : bool :=
  negb (contains name "STATE") && negb (contains_char name LFc)
  && negb (contains_char name CRc).

(** The operations of the wrapper on the reference system. *)
Definition perform (init : Machine) (mkdir : Os -> string -> Result unit string) (op : Op)
  : Async Os (Result unit AnyhowError) :=
  match op with
  | Install options => install_service (exec init) mkdir options
  | Remove name => remove_service (exec init) name
  | Start name => start_service (exec init) name
  | Stop name => stop_service (exec init) name
  | Restart name => restart_service (exec init) name
  end.

Fixpoint session (init : Machine) (mkdir : Os -> string -> Result unit string)
    (ops : list Op) : Async Os (list (Result unit AnyhowError)) :=
  match ops with
  | [] => async_ret []
  | op :: ops =>
      let! r := perform init mkdir op in
      let! rs := session init mkdir ops in
      async_ret (r :: rs)
  end.

(** ** The machine of a history *)

Lemma nssm_command_kind args :
  match nssm_command args with NetSession | Where _ | ScQuery _ => False | _ => True end.
Proof. unfold nssm_command. by repeat case_match. Qed.

Lemma with_services_same m : with_services m (services m) = m.
Proof. by destruct m. Qed.

Lemma admin_after m e : admin (after m e) = admin m.
Proof. destruct e; try done. simpl. unfold react. by repeat case_match. Qed.

Lemma nssm_there_after m e : nssm_there (after m e) = nssm_there m.
Proof. destruct e; try done. simpl. unfold react. by repeat case_match. Qed.

(** The state of a service with a good name is read off the answer
    of [sc query]. *)
Lemma parse_state_query name a :
  good name = true -> parse_state (query_text name a) = Some (state_text a).
Proof.
  unfold good. rewrite !andb_true_iff, !negb_true_iff. intros [[Hstate Hlf] Hcr].
  unfold parse_state, query_text.
  rewrite <-sapp_assoc, lines_first; [|by rewrite contains_char_app, ?Hlf, ?Hcr..|done].
  rewrite parse_state_lines_skip; [by destruct a|].
  change ("SERVICE_NAME: " +:+ name) with ("SERVICE_NAME:" +:+ String " " name).
  by rewrite contains_sep, Hstate.
Qed.

Section Reference.

Context (init : Machine).
Context (mkdir : Os -> string -> Result unit string).
Context (mkdir_ok : forall os path, mkdir os path = Ok tt).

#[local] Abbreviation M := (machine_of init).
#[local] Abbreviation exec := (exec init).

Lemma machine_of_snoc os e : M (os ++ [e]) = after (M os) e.
Proof. unfold machine_of. by rewrite foldl_app. Qed.

(** Elevation and [nssm] stay as they were at the start. *)
Lemma admin_machine_of os : admin (M os) = admin init.
Proof.
  induction os as [|e os IH] using rev_ind; [done|].
  by rewrite machine_of_snoc, admin_after.
Qed.

Lemma nssm_there_machine_of os : nssm_there (M os) = nssm_there init.
Proof.
  induction os as [|e os IH] using rev_ind; [done|].
  by rewrite machine_of_snoc, nssm_there_after.
Qed.

Lemma able_machine_of os : able (M os) = able init.
Proof. unfold able. by rewrite admin_machine_of, nssm_there_machine_of. Qed.

(** The questions of the wrapper, its pauses and the lines it prints
    leave the machine as it is. *)
Definition question (e : Event) : bool :=
  match e with
  | Run program args =>
      match command program args with
      | NetSession | Where _ | ScQuery _ | Unknown => true
      | _ => false
      end
  | _ => true
  end.

Lemma after_question m e : question e = true -> after m e = m.
Proof.
  destruct e as [program args| | |]; try done. simpl.
  destruct (command program args); try done; intros _; unfold react;
    cbn [effect]; rewrite ?with_services_same; by repeat case_match.
Qed.

Lemma machine_of_question os e : question e = true -> M (os ++ [e]) = M os.
Proof. intros He. by rewrite machine_of_snoc, after_question. Qed.

Lemma machine_of_questions os l : forallb question l = true -> M (os ++ l) = M os.
Proof.
  induction l as [|e l IH] using rev_ind; [by rewrite app_nil_r|].
  rewrite forallb_app, andb_true_iff. simpl. rewrite andb_true_r. intros [Hl He].
  by rewrite app_assoc, machine_of_question, IH.
Qed.

(** What the three checks read is the machine. *)
Lemma elevated_scm os : elevated exec os = admin init.
Proof.
  unfold elevated, Scm.exec. simpl. unfold answer. simpl.
  rewrite admin_machine_of. by destruct (admin init).
Qed.

Lemma has_nssm_scm os : has_nssm exec os = nssm_there init.
Proof.
  unfold has_nssm, Scm.exec. simpl. unfold answer. simpl.
  rewrite nssm_there_machine_of. by destruct (nssm_there init).
Qed.

Lemma installed_scm name os :
  installed exec name os = bool_decide (is_Some (status (M os) name)).
Proof.
  unfold installed, Scm.exec. simpl. unfold answer. simpl.
  by destruct (bool_decide _).
Qed.

(** ** A computation does what a function of the machine does *)

(** Whether a computation succeeded, and the machine it left. *)
Definition outcome {A} (c : Async Os (Result A AnyhowError)) (os : Os) : bool * Machine :=
  (is_ok (c os).1, M (c os).2).

(** [Does P c f]: from every history whose machine satisfies [P], [c]
    succeeds exactly when [f] says so of the machine of the history,
    and leaves a history whose machine is the one [f] gives. *)
Definition Does {A} (P : Machine -> Prop) (c : Async Os (Result A AnyhowError))
    (f : Machine -> bool * Machine) : Prop :=
  forall os, P (M os) -> outcome c os = f (M os).

(** [Quiet c r]: [c] leaves the machine as it is, and returns what
    [r] reads off it. *)
Definition Quiet {A} (c : Async Os A) (r : Machine -> A) : Prop :=
  forall os, (c os).1 = r (M os) /\ M (c os).2 = M os.

(** Then [g] when [f] succeeded. *)
Definition and_then (f g : Machine -> bool * Machine) (m : Machine) : bool * Machine :=
  if (f m).1 then g (f m).2 else (false, (f m).2).

(** The machines [f] gives when it succeeds from a machine of [P]. *)
Definition after_ok (P : Machine -> Prop) (f : Machine -> bool * Machine) (m' : Machine)
  : Prop :=
  exists m, P m /\ f m = (true, m').

Section Rules.

Context {A : Type} (P : Machine -> Prop).
Implicit Types c : Async Os (Result A AnyhowError).

Lemma Does_ext c f g : Does P c f -> (forall m, P m -> f m = g m) -> Does P c g.
Proof. intros Hc Hfg os Hos. rewrite <-Hfg by done. by apply Hc. Qed.

Lemma Does_weaken (P' : Machine -> Prop) c f :
  (forall m, P m -> P' m) -> Does P' c f -> Does P c f.
Proof. intros HP Hc os Hos. by apply Hc, HP. Qed.

Lemma Does_ret (r : Result A AnyhowError) : Does P (async_ret r) (fun m => (is_ok r, m)).
Proof. done. Qed.

Lemma Does_try {B} c (k : A -> Async Os (Result B AnyhowError)) f g :
  Does P c f -> (forall a, Does (after_ok P f) (k a) g) ->
  Does P (async_try c k) (and_then f g).
Proof.
  intros Hc Hk os Hos. specialize (Hc os Hos).
  unfold outcome, async_try, async_bind, and_then in *.
  destruct (c os) as [[a|e] os']; rewrite <-Hc; [|done].
  apply Hk. exists (M os). by rewrite <-Hc.
Qed.

Lemma Does_if (b : bool) c c' f f' :
  (b = true -> Does P c f) -> (b = false -> Does P c' f') ->
  Does P (if b then c else c') (if b then f else f').
Proof. destruct b; auto. Qed.

(** A computation that leaves the machine as it is, before another. *)
Lemma Does_bind {B} (q : Async Os B) (k : B -> Async Os (Result A AnyhowError)) r g :
  Quiet q r -> (forall b, Does (fun m => P m /\ r m = b) (k b) (g b)) ->
  Does P (async_bind q k) (fun m => g (r m) m).
Proof.
  intros Hq Hk os Hos. destruct (Hq os) as [Hr HM]. unfold outcome, async_bind.
  destruct (q os) as [b os']. simpl in *. subst b. rewrite <-HM. apply Hk. by rewrite HM.
Qed.

End Rules.

Lemma Quiet_ext {A} (c : Async Os A) r r' :
  Quiet c r -> (forall m, r m = r' m) -> Quiet c r'.
Proof. intros Hc Hr os. by rewrite <-Hr. Qed.

Lemma Quiet_ret {A} (a : A) : Quiet (async_ret a) (fun _ => a).
Proof. done. Qed.

Lemma Quiet_bind {A B} (c : Async Os A) (k : A -> Async Os B) r g :
  Quiet c r -> (forall a, Quiet (k a) (g a)) -> Quiet (async_bind c k) (fun m => g (r m) m).
Proof.
  intros Hc Hk os. destruct (Hc os) as [Hr HM]. unfold async_bind.
  destruct (c os) as [a os']. simpl in *. subst a. rewrite <-HM. apply Hk.
Qed.

Lemma Quiet_if {A} (b : bool) (c c' : Async Os A) r r' :
  Quiet c r -> Quiet c' r' -> Quiet (if b then c else c') (if b then r else r').
Proof. by destruct b. Qed.

(** ** The steps of the wrapper *)

Definition there (name : string) (m : Machine) : bool :=
  bool_decide (is_Some (status m name)).

Lemma Quiet_println line : Quiet (println line) (fun _ => tt).
Proof. intros os. split; [done|]. by apply machine_of_question. Qed.

Lemma Quiet_sleep millis : Quiet (sleep millis) (fun _ => tt).
Proof. intros os. split; [done|]. by apply machine_of_question. Qed.

Lemma Quiet_service_exists name : Quiet (service_exists exec name) (there name).
Proof.
  intros os. rewrite service_exists_eq, installed_scm. split; [done|].
  by apply machine_of_question.
Qed.

(** A service that is there is found at the first question, and one
    that is not there does not appear while the wrapper waits. *)
Lemma Quiet_wait_for_service name retries delay :
  Quiet (wait_for_service exec name retries delay)
    (fun m => match retries with O => false | S _ => there name m end).
Proof.
  induction retries as [|retries IH]; [apply Quiet_ret|]. simpl.
  eapply Quiet_ext.
  - apply Quiet_bind; [apply Quiet_service_exists|]. intros found.
    apply Quiet_if; [apply Quiet_ret|].
    apply Quiet_bind; [apply Quiet_sleep|]. intros u. apply IH.
  - intros m. simpl. destruct (there name m) eqn:Hm; [done|]. by destruct retries.
Qed.

Section Steps.

Context (P : Machine -> Prop).

Lemma Does_ensure_admin command_name :
  Does P (ensure_admin exec command_name) (fun m => (admin m, m)).
Proof.
  intros os _. unfold outcome, ensure_admin, is_elevated, run_command, async_bind, async_ret,
    Scm.exec. cbn [fst snd]. rewrite machine_of_question by done.
  unfold answer. simpl. by destruct (admin (M os)).
Qed.

Lemma Does_ensure_nssm auto_install :
  Does P (ensure_nssm exec auto_install) (fun m => (nssm_there m, m)).
Proof.
  intros os _. unfold outcome, ensure_nssm, command_exists, run_command, async_bind,
    async_ret, Scm.exec, answer. simpl.
  destruct (nssm_there (M os)); simpl; [by rewrite machine_of_question|].
  destruct auto_install; simpl; by rewrite ?machine_of_question.
Qed.

Lemma Does_run_nssm args : Does P (run_checked exec "nssm" args) (run (nssm_command args)).
Proof.
  intros os _. unfold outcome, run_checked, run_command, async_bind, async_ret, Scm.exec, run.
  cbn [fst snd]. rewrite machine_of_snoc. cbn [after].
  change (command "nssm" args) with (nssm_command args).
  unfold answer, works. destruct (starts _ _); [|done]. simpl. by destruct (succeeds _ _).
Qed.

Lemma Does_nssm_set name args : Does P (nssm_set exec name args) (run (nssm_command args)).
Proof.
  intros os Hos. rewrite <-(Does_run_nssm args os Hos).
  unfold outcome, nssm_set, async_bind, async_ret.
  by destruct (run_checked exec "nssm" args os) as [[out|e] os'].
Qed.

End Steps.

(** Applies the rules to a computation built from the steps. *)
Ltac does :=
  repeat match goal with
  | |- Does _ (async_ret _) _ => apply Does_ret
  | |- Does _ (ensure_admin _ _) _ => apply Does_ensure_admin
  | |- Does _ (ensure_nssm _ _) _ => apply Does_ensure_nssm
  | |- Does _ (run_checked _ "nssm" _) _ => apply Does_run_nssm
  | |- Does _ (nssm_set _ _ _) _ => apply Does_nssm_set
  | |- Does _ (async_try _ _) _ => eapply Does_try; [|intros ?]
  | |- Does _ (if _ then _ else _) _ => eapply Does_if; intros ?
  | |- Does _ (async_bind (service_exists _ _) _) _ =>
      eapply Does_bind; [apply Quiet_service_exists|intros ?]
  | |- Does _ (async_bind (println _) _) _ =>
      eapply Does_bind; [apply Quiet_println|intros ?]
  | |- Does _ (async_bind (wait_for_service _ _ _ _) _) _ =>
      eapply Does_bind; [apply Quiet_wait_for_service|intros ?]
  end.

(** ** The operations *)

Lemma Does_ensure_ready P command_name name :
  Does P (ensure_ready exec command_name name) (fun m => (able m && there name m, m)).
Proof.
  eapply Does_ext; [unfold ensure_ready; does|].
  intros m _. unfold and_then, able. simpl.
  by destruct (admin m), (nssm_there m), (there name m).
Qed.

(** The cases of an operation on a service: the terminal, and
    whether the service is absent, stopped or running. *)
Ltac crunch S name HS :=
  repeat first
    [ progress cbn [fst snd admin nssm_there services with_services starts succeeds effect
                    nssm_command String.eqb Ascii.eqb Bool.eqb negb andb state exists_
                    activity with_activity fmap option_fmap option_map is_ok]
    | progress unfold status
    | rewrite lookup_alter_eq | rewrite lookup_insert_eq | rewrite lookup_delete_eq
    | rewrite HS
    | rewrite bool_decide_eq_true_2 by (done || eauto)
    | rewrite bool_decide_eq_false_2 by (done || by intros []) ].

Ltac cases m name :=
  let adm := fresh "adm" in let nssm := fresh "nssm" in let S := fresh "S" in
  let HS := fresh "HS" in
  destruct m as [adm nssm S];
  unfold and_then, spec, run, react, able, there, status; unfold works;
  unfold status;
  destruct adm, nssm; crunch S name HS; try done;
  destruct (S !! name) as [[[] ?]|] eqn:HS; crunch S name HS; try done.

Theorem start_service_refines name :
  Does (fun _ => True) (start_service exec name) (spec (Start name)).
Proof.
  eapply Does_ext;
    [unfold start_service; eapply Does_try; [apply Does_ensure_ready|intros ?; does]|].
  intros m _. by cases m name.
Qed.

Theorem stop_service_refines name :
  Does (fun _ => True) (stop_service exec name) (spec (Stop name)).
Proof.
  eapply Does_ext;
    [unfold stop_service; eapply Does_try; [apply Does_ensure_ready|intros ?; does]|].
  intros m _. by cases m name.
Qed.

(** The removal of a service that is there, on a terminal that is
    able: [nssm remove] succeeds. *)
Lemma Does_remove_tail name :
  Does (fun m => able m = true /\ there name m = true)
    (let! removed := run_checked exec "nssm" ["remove"; name; "confirm"] in
     match removed with
     | Err err =>
         if is_marked_for_delete_error err then
           let! _ := println ("Service '" +:+ name
                              +:+ "' is already marked for deletion. It will disappear shortly.") in
           async_ret (Ok tt)
         else async_ret (Err (with_service_hints err name))
     | Ok _ => async_ret (Ok tt)
     end)
    (run (NssmRemove name)).
Proof.
  intros os [Hable Hthere].
  pose proof (Does_run_nssm (fun _ => True) ["remove"; name; "confirm"] os I) as Hrun.
  unfold outcome, async_bind in *. destruct (run_checked _ _ _ _) as [[out|err] os']; [done|].
  apply (f_equal fst) in Hrun. revert Hrun. unfold run, works, able, there in *. simpl.
  destruct (admin (M os)), (nssm_there (M os)); simpl in *; congruence.
Qed.

Theorem remove_service_refines name :
  Does (fun _ => True) (remove_service exec name) (spec (Remove name)).
Proof.
  eapply Does_ext.
  - unfold remove_service. eapply Does_try; [apply Does_ensure_admin|intros ?].
    eapply Does_try; [apply Does_ensure_nssm|intros ?].
    eapply Does_bind; [apply Quiet_service_exists|intros found].
    eapply Does_if; intros Hfound; [does|].
    eapply Does_weaken; [|apply Does_remove_tail].
    intros m [(m1 & (m0 & _ & [= Ha ->]) & [= Hn ->]) Hthere]. unfold able.
    rewrite Ha, Hn, Hthere. by destruct found.
  - intros m _. cases m name. by rewrite delete_id.
Qed.

(** What [status_service] reports: whether the service is there, and
    what [parse_state] reads off the answer of [sc query]. *)
Definition reported (name : string) (m : Machine) : ServiceStatus :=
  {| exists_ := there name m;
     state := status m name ≫= fun a => parse_state (query_text name a) |}.

(** A question of the wrapper is answered by the machine. *)
Lemma Quiet_run_checked program args :
  question (Run program args) = true ->
  Quiet (run_checked exec program args)
    (fun m => (run_checked (Scm.exec m) program args []).1).
Proof.
  intros Hq os. split; [done|].
  unfold run_checked, run_command, async_bind, async_ret. cbn [fst snd].
  by apply machine_of_question.
Qed.

Lemma Quiet_status_service name :
  Quiet (status_service exec name) (fun m => Ok (reported name m)).
Proof.
  eapply Quiet_ext.
  - unfold status_service. apply Quiet_bind; [apply Quiet_service_exists|]. intros found.
    apply Quiet_if; [apply Quiet_ret|].
    apply Quiet_bind; [by apply Quiet_run_checked|]. intros output. exact (Quiet_ret _).
  - intros m. unfold reported, there, run_checked, run_command, async_bind, async_ret,
      Scm.exec, answer. simpl. destruct (status m name) as [a|] eqn:Hs; simpl; [|done].
    by rewrite Hs.
Qed.

(** [let!?] on a computation that leaves the machine as it is and
    succeeds. *)
Lemma Does_try_quiet {A B} P (q : Async Os (Result A AnyhowError))
    (k : A -> Async Os (Result B AnyhowError)) r g :
  Quiet q (fun m => Ok (r m)) ->
  (forall a, Does (fun m => P m /\ r m = a) (k a) (g a)) ->
  Does P (async_try q k) (fun m => g (r m) m).
Proof.
  intros Hq Hk os Hos. destruct (Hq os) as [Hr HM]. unfold outcome, async_try, async_bind.
  destruct (q os) as [a os']. simpl in *. subst a. rewrite <-HM. apply Hk. by rewrite HM.
Qed.

Lemma reported_good name m :
  good name = true ->
  reported name m = {| exists_ := there name m; state := state_text <$> status m name |}.
Proof.
  intros Hgood. unfold reported. destruct (status m name) as [a|]; [|done].
  cbn [mbind option_bind fmap option_fmap option_map]. by rewrite parse_state_query.
Qed.

Theorem restart_service_refines name :
  good name = true ->
  Does (fun _ => True) (restart_service exec name) (spec (Restart name)).
Proof.
  intros Hgood. eapply Does_ext.
  - unfold restart_service. eapply Does_try; [apply Does_ensure_ready|intros ?].
    eapply Does_try_quiet; [apply Quiet_status_service|intros current]. does.
  - intros m _. unfold and_then at 1. cbn [fst snd]. rewrite reported_good by done.
    cases m name. unfold with_services. cbn [admin nssm_there].
    by rewrite alter_alter_eq.
Qed.

(** *** Installation *)

Lemma Does_create_log_directory P path :
  Does P (create_log_directory mkdir path) (fun m => (true, m)).
Proof.
  intros os _. unfold outcome, create_log_directory. cbn [fst snd].
  by rewrite mkdir_ok, machine_of_question.
Qed.

(** The service made by [nssm install] is seen at the first
    question. *)
Lemma Does_create_service P options binary :
  Does P (create_service exec options binary)
    (run (NssmInstall (name options) binary
            (if negb (is_empty (trim (arguments options)))
             then [trim (arguments options)] else []))).
Proof.
  intros os _. unfold outcome, create_service. cbv zeta.
  set (args := ["install"; name options; binary] ++ _).
  set (c := NssmInstall _ _ _).
  assert (M (os ++ [Run "nssm" args]) = react (M os) c) as HM by apply machine_of_snoc.
  remember (exec os "nssm" args) as r eqn:Hr. change (r = answer (M os) c) in Hr.
  clearbody args. subst r. unfold run, react, works in *. unfold answer.
  destruct (starts (M os) c) eqn:Hstarts; cbn [negb andb fst snd is_ok] in *;
    [|by rewrite HM].
  destruct (succeeds (M os) c) eqn:Hsucceeds; cbn [negb success fst snd is_ok];
    [|by rewrite HM].
  assert (Does (fun _ => True)
            (let! visible := wait_for_service exec (name options) 25 200 in
             if negb visible then
               async_ret (Err (
                 "nssm install reported success but service '" +:+ name options
                 +:+ "' is still unavailable." +:+ LF
                 +:+ "install stdout: " +:+ output_text (printed (M os) c) +:+ LF
                 +:+ "install stderr: " +:+ output_text "" +:+ LF
                 +:+ "hint: run terminal as Administrator and retry."))
             else
               let! _ := println ("Service '" +:+ name options +:+ "' installed.") in
               async_ret (Ok tt))
            (fun m => (there (name options) m, m))) as Hwait.
  { eapply Does_ext; [does|]. intros m _. cbn beta. by destruct (there _ m). }
  specialize (Hwait (os ++ [Run "nssm" args]) I). unfold outcome in Hwait.
  cbn [stdout stderr]. rewrite Hwait, HM. unfold there, status.
  subst c. cbn [effect services with_services]. by rewrite lookup_insert_eq.
Qed.

Lemma Does_set_service_account P name account :
  Does P (set_service_account exec name account)
    (match account with
     | Inherit => fun m => (true, m)
     | LocalSystem => run (NssmSet name "ObjectName" ["LocalSystem"])
     | CurrentUser username password => run (NssmSet name "ObjectName" [username; password])
     end).
Proof. destruct account; [apply (Does_ret _ (Ok tt))|apply Does_nssm_set..]. Qed.

Lemma alter_lookup (f : ServiceEntry -> ServiceEntry) name e (S : gmap string ServiceEntry) :
  S !! name = Some e -> alter f name S = <[name := f e]> S.
Proof. intros HS. rewrite <-(insert_id S name e) at 1 by done. apply alter_insert_eq. Qed.

(** The settings made one after the other, then [g]. *)
Definition settings_then (name : string) (l : list (string * list string))
    (g : Machine -> bool * Machine) : Machine -> bool * Machine :=
  foldr (fun kv => and_then (run (NssmSet name kv.1 kv.2))) g l.

(** A machine that is [able]. *)
Definition ready_machine (S : gmap string ServiceEntry) : Machine :=
  {| admin := true; nssm_there := true; services := S |}.

Definition with_settings (l : list (string * list string)) (e : ServiceEntry) : ServiceEntry :=
  {| activity := activity e; settings_of := settings_of e ++ l |}.

Lemma Does_configure_service P options :
  Does P
    (configure_service exec options (binary_path options) (working_directory options)
       (join_path (log_directory options) (name options +:+ ".out.log"))
       (join_path (log_directory options) (name options +:+ ".err.log")))
    (settings_then (name options) (installed_settings options) (fun m => (true, m))).
Proof.
  eapply Does_ext.
  - unfold configure_service, set_service_value, set_service_values. cbv zeta.
    repeat first [progress does | apply Does_set_service_account].
  - intros m _. unfold installed_settings.
    by destruct (negb (is_empty _)), (account options).
Qed.

Lemma run_install S name binary more :
  S !! name = None ->
  run (NssmInstall name binary more) (ready_machine S)
  = (true, ready_machine (<[name := {| activity := Stopped; settings_of := [] |}]> S)).
Proof.
  intros HS. unfold run, react, works, status, ready_machine.
  cbn [starts succeeds admin nssm_there services andb effect with_services].
  unfold status. cbn [services]. by rewrite HS, bool_decide_eq_true_2.
Qed.

Lemma run_set S name key values e :
  S !! name = Some e ->
  run (NssmSet name key values) (ready_machine S)
  = (true, ready_machine (<[name := with_setting key values e]> S)).
Proof.
  intros HS. unfold run, react, works, status, ready_machine.
  cbn [starts succeeds admin nssm_there services andb effect with_services].
  unfold status. cbn [services].
  rewrite HS, bool_decide_eq_true_2 by (cbn; eauto). by erewrite alter_lookup.
Qed.

Lemma settings_then_ready name l g S e :
  S !! name = Some e ->
  settings_then name l g (ready_machine S)
  = g (ready_machine (<[name := with_settings l e]> S)).
Proof.
  revert S e. induction l as [|[key values] l IH]; intros S e HS.
  - unfold with_settings. rewrite app_nil_r. destruct e. by rewrite insert_id.
  - change (settings_then name ((key, values) :: l) g)
      with (and_then (run (NssmSet name key values)) (settings_then name l g)).
    unfold and_then. erewrite run_set by done. cbn [fst snd].
    erewrite IH by apply lookup_insert_eq.
    rewrite insert_insert_eq. unfold with_settings, with_setting. cbn.
    by rewrite <-app_assoc.
Qed.

(** A service that is there is seen. *)
Ltac present :=
  unfold and_then;
  repeat first
    [ progress cbn [fmap option_fmap option_map fst snd is_ok negb]
    | progress change (services (ready_machine ?S)) with S
    | rewrite bool_decide_eq_true_2 by eauto ].

Theorem install_service_refines options :
  Does (fun _ => True) (install_service exec mkdir options) (spec (Install options)).
Proof.
  eapply Does_ext.
  - unfold install_service. cbv zeta.
    repeat first
      [ progress does | apply Does_configure_service | apply Does_create_log_directory
      | apply Does_create_service ].
  - intros [[] [] S] _; try done.
    unfold and_then at 1 2 3, spec, able, there, status.
    cbn [fst snd admin nssm_there andb negb services with_services].
    fold (ready_machine S).
    destruct (S !! name options) as [e|] eqn:HS.
    + present. rewrite HS. present. by erewrite settings_then_ready.
    + rewrite bool_decide_eq_false_2 by (by intros []).
      unfold and_then. erewrite run_install by done. present.
      rewrite lookup_insert_eq. present.
      erewrite settings_then_ready by apply lookup_insert_eq.
      by rewrite insert_insert_eq.
Qed.

(** ** The simulation *)

(** Every operation on a service with a good name does what the
    specification says. *)
Lemma perform_refines op :
  good (subject op) = true -> Does (fun _ => True) (perform init mkdir op) (spec op).
Proof.
  destruct op; intros Hgood;
    [apply install_service_refines|apply remove_service_refines|apply start_service_refines
    |apply stop_service_refines|by apply restart_service_refines].
Qed.

(** C25. The wrapper implements the automaton of the services: from
    every history, the operations of a session on services with a
    good name succeed one after the other exactly as the
    specification says, and the machine of the history at the end is
    the one the specification reaches. *)
Theorem session_refines ops os :
  Forall (fun op => good (subject op) = true) ops ->
  (is_ok <$> (session init mkdir ops os).1, machine_of init (session init mkdir ops os).2)
  = spec_session ops (machine_of init os).
Proof.
  intros Hgood. revert os. induction Hgood as [|op ops Hop _ IH]; intros os; [done|].
  pose proof (perform_refines op Hop os I) as Hstep. unfold outcome in Hstep.
  cbn [session spec_session]. unfold async_bind, async_ret.
  destruct (perform init mkdir op os) as [r os']. specialize (IH os').
  destruct (session init mkdir ops os') as [rs os'']. cbn [fst snd] in *.
  rewrite <-Hstep. cbn [fst snd]. rewrite <-IH. done.
Qed.

End Reference.

(** ** A session *)

(** An elevated terminal with [nssm] and no service. *)
Definition fresh_machine : Machine := {| admin := true; nssm_there := true; services := ∅ |}.

Definition nanobot_session : list Op :=
  [Start "nanobot"; Install nanobot_options; Start "nanobot"; Start "nanobot";
   Restart "nanobot"; Stop "nanobot"; Stop "nanobot"; Remove "nanobot";
   Restart "nanobot"].

Lemma session_refines_witness :
  (is_ok <$> (session fresh_machine any_dir nanobot_session []).1,
   machine_of fresh_machine (session fresh_machine any_dir nanobot_session []).2)
  = spec_session nanobot_session (machine_of fresh_machine []).
Proof. apply session_refines; [done|by repeat constructor]. Defined.

(** What the session of the specification gives: a service is
    started once, stopped once, and is gone when it is removed. *)
Example nanobot_session_results :
  (spec_session nanobot_session fresh_machine).1
  = [false; true; true; false; true; true; false; true; false]
  /\ status (spec_session nanobot_session fresh_machine).2 "nanobot" = None.
Proof. by vm_compute. Qed.

(** A service whose name holds [STATE]: the wrapper reads the name
    for the state, does not stop the service, and the restart of the
    running service fails, where the specification restarts it. *)
Example restart_service_misreads :
  let m := {| admin := true; nssm_there := true;
              services := {["STATE-keeper" := {| activity := Running; settings_of := [] |}]} |} in
  is_ok (restart_service (exec m) "STATE-keeper" []).1 = false
  /\ (spec (Restart "STATE-keeper") m).1 = true.
Proof. by vm_compute. Qed.
