(* ===== verification/Main.v ===== *)
(** * Main: the command line

    Models [src/src/main.rs] and the declarations of [src/src/lib.rs]:
    the four subcommands [onboard], [agent], [status] and [version]
    and the functions [cmd_onboard], [cmd_status] and [cmd_agent]
    behind them.

    The outside [Sys] is the file system of [Memory], the lines
    printed on standard output and the turns asked of the agent loop.
    Standard input is the list of the lines read until the end of
    input, each a text or a reading error.  The modules of the crate
    that are not among the sources (the configuration, the utilities,
    the message bus, the OpenAI provider and the agent loop) are the
    members of the class [Crate]; what the theorems need of them is
    the class [CrateLaws].  [Cli::parse] belongs to the argument
    parser: [main] starts from the parsed command. *)

From S2P Require Import Prelude RustStr Json Base Memory.
Import Str.
#[local] Open Scope nb_scope.

(** ** Declarations of [lib.rs] *)

(** The modules the library crate declares. *)
Definition modules : list string :=
  ["agent"; "bus"; "config"; "memory"; "providers"; "session"; "tools"; "utils"].

(** ** The command line *)

Inductive Commands : Type :=
| Onboard
| Agent (message : option string) (session : string)
| Status
| Version.

Record Cli : Type := { command : Commands }.

(** The default of [--session]. *)
Definition default_session : string := "cli:default".

(** ** The outside *)

(** A call of [process_direct]: the content and the session. *)
Definition Turn : Type := string * option string.

Record Sys : Type := {
  host : Host;
  out : list string;
  turns : list Turn;
}.

(** A computation on the file system, run within the system. *)
Definition on_host {A} (m : Async Host A) : Async Sys A :=
  fun s => let (a, h) := m (host s) in
           (a, {| host := h; out := out s; turns := turns s |}).

(** [println!] *)
Definition print_line (line : string) : Async Sys unit :=
  fun s => (tt, {| host := host s; out := out s ++ [line]; turns := turns s |}).

(** ** The rest of the crate *)

(** The fields of [Config] that [main.rs] reads. *)
Module Config.

Record t : Type := {
  workspace : string;
  model : string;
  max_tool_iterations : u32;
  web_search_api_key : string;
  exec_timeout : N;
  restrict_to_workspace : bool;
}.

End Config.

Module OpenAIProvider.

Record t : Type := {
  api_key : string;
  api_base : option string;
  default_model : string;
}.

Definition new (api_key : string) (api_base : option string) (default_model : string) : t :=
  {| api_key := api_key; api_base := api_base; default_model := default_model |}.

End OpenAIProvider.

Class Crate : Type := {
  VERSION : string;
  Config_default : Config.t;
  get_config_path : Result string AnyhowError;
  load_config : option string -> Host -> Result Config.t AnyhowError;
  save_config : Config.t -> option string -> Async Host (Result unit AnyhowError);
  providers_status : Config.t -> Value;
  get_api_key : Config.t -> option string -> option string;
  get_api_base : Config.t -> option string -> option string;
  workspace_path : Config.t -> string;
  get_workspace_path : option string -> Async Host (Result string AnyhowError);
  MessageBus : Type;
  MessageBus_new : N -> MessageBus;
  AgentLoop : Type;
  AgentLoop_new : MessageBus -> OpenAIProvider.t -> string -> option string -> u32 ->
                  option string -> N -> bool -> Result AgentLoop AnyhowError;
  answer : AgentLoop -> list Turn -> Turn -> Result string AnyhowError;
}.

(** What the commands rely on: writing the configuration and making
    the workspace keep what the file system holds, and leave behind
    what they report to have made. *)
Class CrateLaws {crate : Crate} : Prop := {
  save_config_keeps config path h :
    fs h !! path = None -> fs h ⊆ fs (snd (save_config config (Some path) h));
  save_config_Ok config path h :
    fst (save_config config (Some path) h) = Ok tt ->
    is_Some (fs (snd (save_config config (Some path) h)) !! path);
  get_workspace_path_keeps workspace h :
    fs h ⊆ fs (snd (get_workspace_path workspace h));
  get_workspace_path_Ok workspace h path :
    fst (get_workspace_path workspace h) = Ok path ->
    fs (snd (get_workspace_path workspace h)) !! path = Some Dir;
}.

(** ** The commands *)

Section Commands.

Context {crate : Crate} (permits : string -> bool).

(** [load_config(path).unwrap_or_default()] *)
Definition load_or_default (path : option string) : Async Host Config.t :=
  fun h => (match load_config path h with Ok config => config | Err _ => Config_default end, h).

(** [std::fs::create_dir_all] of a directory whose parent is there. *)
Definition create_dir_all (path : string) : Async Host (Result unit IoError) :=
  let! made := ensure_dir permits path in
  async_ret (match made with Ok _ => Ok tt | Err e => Err e end).

(** [agent_loop.process_direct(content, session, None, None).await] *)
Definition process_direct (agent_loop : AgentLoop) (content : string)
    (session : option string) : Async Sys (Result string AnyhowError) :=
  fun s => (answer agent_loop (turns s) (content, session),
            {| host := host s; out := out s; turns := turns s ++ [(content, session)] |}).

Definition templates : list (string * string) :=
  [("AGENTS.md",
    "# Agent Instructions" +:+ LF +:+ LF
    +:+ "You are a helpful AI assistant. Be concise and accurate." +:+ LF);
   ("SOUL.md",
    "# Soul" +:+ LF +:+ LF +:+ "I am nanobot-rs, a lightweight Rust AI assistant." +:+ LF);
   ("USER.md",
    "# User" +:+ LF +:+ LF +:+ "Record user preferences and context here." +:+ LF)].

(** [if !path.exists() { std::fs::write(&path, content)?; println!(..) }] *)
Definition create_file (parent path content : string)
  : Async Sys (Result unit AnyhowError) :=
  let! there := on_host (exists_ path) in
  if negb there then
    let!? _ := on_host (write permits parent path content) in
    let! _ := print_line ("Created " +:+ path) in
    async_ret (Ok tt)
  else async_ret (Ok tt).

(** The loop of [cmd_onboard] over the templates. *)
Fixpoint write_templates (workspace : string) (templates : list (string * string))
  : Async Sys (Result unit AnyhowError) :=
  match templates with
  | [] => async_ret (Ok tt)
  | (name, content) :: rest =>
      let!? _ := create_file workspace (path_join workspace name) content in
      write_templates workspace rest
  end.

Definition memory_template : string :=
  "# Long-term Memory" +:+ LF +:+ LF
  +:+ "This file stores important information across sessions." +:+ LF.

(** The memory directory of the workspace and its long-term file. *)
Definition write_memory (workspace : string) : Async Sys (Result unit AnyhowError) :=
  let memory_dir := path_join workspace "memory" in
  let!? _ := on_host (create_dir_all memory_dir) in
  let memory_file := path_join memory_dir "MEMORY.md" in
  create_file memory_dir memory_file memory_template.

(** What [cmd_onboard] puts into the workspace. *)
Definition scaffold (workspace : string) : Async Sys (Result unit AnyhowError) :=
  let!? _ := write_templates workspace templates in
  write_memory workspace.

Definition next_steps (config_path : string) : Async Sys unit :=
  let! _ := print_line "nanobot-rs is ready." in
  let! _ := print_line "Next steps:" in
  let! _ := print_line ("1. Add your API key to " +:+ config_path) in
  print_line ("2. Chat: nanobot-rs agent -m " +:+ String "034" "Hello!" +:+ String "034" "").

(** [cmd_onboard] when there is no configuration yet: the default
    configuration is saved, the workspace made and filled. *)
Definition create_config (config_path : string) : Async Sys (Result unit AnyhowError) :=
  let config := Config_default in
  let!? _ := on_host (save_config config (Some config_path)) in
  let! _ := print_line ("Created config at " +:+ config_path) in
  let!? workspace := on_host (get_workspace_path (Some (Config.workspace config))) in
  let! _ := print_line ("Created workspace at " +:+ workspace) in
  let!? _ := scaffold workspace in
  let! _ := next_steps config_path in
  async_ret (Ok tt).

Definition cmd_onboard : Async Sys (Result unit AnyhowError) :=
  match get_config_path with
  | Err e => async_ret (Err e)
  | Ok config_path =>
      let! there := on_host (exists_ config_path) in
      if there then
        let! _ := print_line ("Config already exists at " +:+ config_path) in
        async_ret (Ok tt)
      else create_config config_path
  end.

(** [if path.exists() { "OK" } else { "MISSING" }] *)
Definition ok_or_missing (there : bool) : string :=
  if there then "OK" else "MISSING".

(** [status.get(key).and_then(|v| v.as_bool()).unwrap_or(false)], shown. *)
Definition set_or_not (status : Value) (key : string) : string :=
  if default false (get status key ≫= as_bool) then "SET" else "NOT SET".

Definition cmd_status : Async Sys (Result unit AnyhowError) :=
  match get_config_path with
  | Err e => async_ret (Err e)
  | Ok config_path =>
      let! config := on_host (load_or_default (Some config_path)) in
      let workspace := workspace_path config in
      let! _ := print_line "nanobot-rs Status" in
      let! config_there := on_host (exists_ config_path) in
      let! _ := print_line ("Config: " +:+ config_path +:+ " " +:+ ok_or_missing config_there) in
      let! workspace_there := on_host (exists_ workspace) in
      let! _ := print_line ("Workspace: " +:+ workspace +:+ " "
                            +:+ ok_or_missing workspace_there) in
      let! _ := print_line ("Model: " +:+ Config.model config) in
      let status := providers_status config in
      let! _ := print_line ("OpenRouter API: " +:+ set_or_not status "openrouter") in
      let! _ := print_line ("Anthropic API: " +:+ set_or_not status "anthropic") in
      let! _ := print_line ("OpenAI API: " +:+ set_or_not status "openai") in
      let! _ := print_line ("Gemini API: " +:+ set_or_not status "gemini") in
      let! _ := print_line ("vLLM/Local: " +:+ set_or_not status "vllm") in
      async_ret (Ok tt)
  end.

(** The agent loop [cmd_agent] builds from the configuration. *)
Definition agent_loop_of (config : Config.t) (model : string) (api_key : option string)
  : Result AgentLoop AnyhowError :=
  let bus := MessageBus_new 1024 in
  let provider :=
    OpenAIProvider.new (default "dummy" api_key) (get_api_base config (Some model)) model in
  AgentLoop_new bus provider (workspace_path config) (Some model)
    (Config.max_tool_iterations config)
    (if is_empty (Config.web_search_api_key config) then None
     else Some (Config.web_search_api_key config))
    (Config.exec_timeout config)
    (Config.restrict_to_workspace config).

(** One turn: the question is asked and the answer printed. *)
Definition turn (agent_loop : AgentLoop) (content session : string)
  : Async Sys (Result unit AnyhowError) :=
  let!? response := process_direct agent_loop content (Some session) in
  let! _ := print_line ("nanobot-rs: " +:+ response) in
  async_ret (Ok tt).

(** The loop of the interactive mode over the lines of standard input. *)
Fixpoint interactive (agent_loop : AgentLoop) (session : string)
    (stdin : list (Result string IoError)) : Async Sys (Result unit AnyhowError) :=
  match stdin with
  | [] => async_ret (Ok tt)
  | line :: rest =>
      match line with
      | Err e => async_ret (Err e)
      | Ok input =>
          if is_empty (trim input) then interactive agent_loop session rest
          else
            let!? _ := turn agent_loop input session in
            interactive agent_loop session rest
      end
  end.

Definition cmd_agent (message : option string) (session : string)
    (stdin : list (Result string IoError)) : Async Sys (Result unit AnyhowError) :=
  let! config := on_host (load_or_default None) in
  let model := Config.model config in
  let is_bedrock := starts_with model "bedrock/" in
  let api_key := get_api_key config (Some model) in
  if negb (is_some api_key) && negb is_bedrock then
    let! _ := print_line "Error: No API key configured." in
    let! _ := print_line "Set one in ~/.nanobot/config.json under providers.*.apiKey" in
    async_ret (Ok tt)
  else
    match agent_loop_of config model api_key with
    | Err e => async_ret (Err e)
    | Ok agent_loop =>
        match message with
        | Some content => turn agent_loop content session
        | None =>
            let! _ := print_line "nanobot-rs interactive mode (Ctrl+C to exit)" in
            interactive agent_loop session stdin
        end
    end.

Definition main (cli : Cli) (stdin : list (Result string IoError))
  : Async Sys (Result unit AnyhowError) :=
  match command cli with
  | Onboard => cmd_onboard
  | Status => cmd_status
  | Version =>
      let! _ := print_line ("nanobot-rs v" +:+ VERSION) in
      async_ret (Ok tt)
  | Agent message session => cmd_agent message session stdin
  end.

End Commands.

(** ** Computations that keep the files *)

(** Whatever a path holds in the first system it holds in the second. *)
Definition keeps : relation Sys := fun s s' => fs (host s) ⊆ fs (host s').

#[export] Instance keeps_preorder : PreOrder keeps.
Proof.
  split; [intros s; by unfold keeps|]. intros s1 s2 s3. unfold keeps. apply transitivity.
Qed.

(** A computation keeps the files: whatever a path holds before it,
    it holds after it. *)
Abbreviation Keeps := (Preserves keeps).

Lemma Keeps_on_host {A} (m : Async Host A) :
  (forall h, fs h ⊆ fs (snd (m h))) -> Keeps (on_host m).
Proof.
  intros Hm s. unfold keeps, on_host. specialize (Hm (host s)). by destruct (m (host s)).
Qed.

Lemma Keeps_print_line line : Keeps (print_line line).
Proof. intros s. by unfold keeps. Qed.

#[export] Hint Resolve Keeps_on_host Keeps_print_line : nb.

(** What a computation that kept the files found is still there. *)
Lemma Keeps_lookup {A} (m : Async Sys A) s path entry :
  Keeps m -> fs (host s) !! path = Some entry ->
  fs (host (snd (m s))) !! path = Some entry.
Proof. intros Hm He. eapply lookup_weaken; [done|apply Hm]. Qed.

(** Unfolds the plumbing of a computation on the system. *)
Ltac sys_unfold :=
  repeat match goal with s : Sys |- _ => destruct s end;
  cbv [async_try async_bind async_ret on_host print_line exists_ fst snd host out turns];
  cbn [fst snd host out turns] in *.

Section CommandFacts.

Context {crate : Crate} (permits : string -> bool).

Lemma create_file_there parent path content s :
  is_Some (fs (host s) !! path) -> create_file permits parent path content s = (Ok tt, s).
Proof.
  intros Hs%is_some_is_Some. unfold create_file. sys_unfold. by rewrite Hs.
Qed.

Lemma Keeps_create_file parent path content : Keeps (create_file permits parent path content).
Proof.
  intros s. destruct (fs (host s) !! path) as [entry|] eqn:He.
  - by rewrite create_file_there.
  - pose proof (write_keeps permits parent path content _ He) as Hw.
    unfold create_file. sys_unfold. rewrite He. simpl.
    by destruct (write _ _ _ _ _) as [[[]|e] h].
Qed.

(** A file that [create_file] reports to be there is there. *)
Lemma create_file_Ok parent path content s :
  fst (create_file permits parent path content s) = Ok tt ->
  is_Some (fs (host (snd (create_file permits parent path content s))) !! path).
Proof.
  destruct (fs (host s) !! path) as [entry|] eqn:He.
  - by rewrite create_file_there.
  - pose proof (write_Ok_inv permits parent path content (host s)) as Hw.
    unfold create_file. sys_unfold. rewrite He. simpl.
    destruct (write _ _ _ _ _) as [[[]|e] h]; simpl in *; [|done]. intros _. by rewrite Hw.
Qed.

Lemma Keeps_write_templates workspace files : Keeps (write_templates permits workspace files).
Proof.
  induction files as [|[name content] rest IH]; simpl;
    auto using Keeps_create_file with nb.
Qed.

Lemma Keeps_create_dir_all path : Keeps (on_host (create_dir_all permits path)).
Proof.
  apply Keeps_on_host. intros h. unfold create_dir_all, async_bind.
  pose proof (ensure_dir_keeps permits path h). by destruct (ensure_dir _ _ _).
Qed.

Lemma Keeps_write_memory workspace : Keeps (write_memory permits workspace).
Proof.
  unfold write_memory. auto using Keeps_create_dir_all, Keeps_create_file with nb.
Qed.

Lemma Keeps_scaffold workspace : Keeps (scaffold permits workspace).
Proof.
  unfold scaffold. auto using Keeps_write_templates, Keeps_write_memory with nb.
Qed.

Lemma Keeps_next_steps config_path : Keeps (next_steps config_path).
Proof. unfold next_steps. auto with nb. Qed.

End CommandFacts.

(** ** The commands and the files *)

(** A computation run unless a path is there may rely on its absence. *)
Lemma Keeps_unless_there {A} path (k m : Async Sys A) :
  Keeps k ->
  (forall s, fs (host s) !! path = None -> fs (host s) ⊆ fs (host (snd (m s)))) ->
  Keeps (let! there := on_host (exists_ path) in if there then k else m).
Proof.
  intros Hk Hm [h o t]. sys_unfold.
  destruct (fs h !! path) eqn:He; simpl; [apply (Hk (Build_Sys h o t))|].
  by apply (Hm (Build_Sys h o t)).
Qed.

Section Onboard.

Context {crate : Crate} {laws : CrateLaws} (permits : string -> bool).

Lemma Keeps_save_config config path s :
  fs (host s) !! path = None ->
  fs (host s) ⊆ fs (host (snd (on_host (save_config config (Some path)) s))).
Proof.
  intros He. unfold on_host. pose proof (save_config_keeps config path _ He).
  by destruct (save_config _ _ _).
Qed.

Lemma Keeps_get_workspace_path workspace : Keeps (on_host (get_workspace_path workspace)).
Proof. apply Keeps_on_host, get_workspace_path_keeps. Qed.

(** [cmd_onboard] when the configuration is there: one line is
    printed and nothing else happens. *)
Lemma cmd_onboard_config_exists config_path s :
  get_config_path = Ok config_path -> is_Some (fs (host s) !! config_path) ->
  cmd_onboard permits s
  = (Ok tt, {| host := host s;
               out := out s ++ ["Config already exists at " +:+ config_path];
               turns := turns s |}).
Proof.
  intros Hp Hs%is_some_is_Some. unfold cmd_onboard. rewrite Hp. sys_unfold.
  by rewrite Hs.
Qed.

End Onboard.

(** ** The workspace after [cmd_onboard] *)

(** The memory store of a workspace, as [MemoryStore::new] returns it. *)
Definition store_of (workspace : string) : MemoryStore.t :=
  {| MemoryStore.workspace := workspace;
     MemoryStore.memory_dir := path_join workspace "memory";
     MemoryStore.memory_file := path_join (path_join workspace "memory") "MEMORY.md" |}.

Section Scaffold.

Context {crate : Crate} (permits : string -> bool).

Lemma Keeps_is_Some {A} (m : Async Sys A) s path :
  Keeps m -> is_Some (fs (host s) !! path) -> is_Some (fs (host (snd (m s))) !! path).
Proof. intros Hm [entry He]. exists entry. by apply Keeps_lookup. Qed.

Lemma write_templates_Ok workspace files : forall s,
  fst (write_templates permits workspace files s) = Ok tt ->
  Forall (fun file => is_Some (fs (host (snd (write_templates permits workspace files s)))
                                 !! path_join workspace file.1)) files.
Proof.
  induction files as [|[name content] rest IH]; intros s; simpl; [done|].
  intros Hok. destruct (async_try_inv _ _ _ _ Hok) as ([] & Hc & Heq).
  rewrite Heq in Hok |- *. constructor; [|by apply IH].
  apply Keeps_is_Some; [apply Keeps_write_templates|by apply create_file_Ok].
Qed.

Lemma write_memory_Ok workspace s :
  fst (write_memory permits workspace s) = Ok tt ->
  let h := host (snd (write_memory permits workspace s)) in
  fs h !! path_join workspace "memory" = Some Dir /\
  is_Some (fs h !! path_join (path_join workspace "memory") "MEMORY.md").
Proof.
  unfold write_memory, IoError, AnyhowError. cbv zeta. intros Hok.
  destruct (async_try_inv _ _ _ _ Hok) as ([] & Hd & Heq).
  rewrite Heq in Hok |- *. split; [|by apply create_file_Ok].
  apply Keeps_lookup; [apply Keeps_create_file|].
  revert Hd. unfold on_host, create_dir_all, async_bind, async_ret.
  pose proof (ensure_dir_Ok permits (path_join workspace "memory") (host s)) as Hm.
  destruct (ensure_dir _ _ _) as [[made|e] h]; simpl in *; [|done].
  intros _. by destruct (Hm _ eq_refl).
Qed.

End Scaffold.

(** ** The interactive mode *)

(** A line of standard input that is not skipped: a reading error or
    a text that is not blank. *)
Definition speaks (line : Result string IoError) : bool :=
  match line with
  | Ok input => negb (is_blank input)
  | Err _ => true
  end.

Section Dialogue.

Context {crate : Crate}.

(** The reference for the loop: every line is a turn, the first
    failure ends the dialogue. *)
Fixpoint dialogue (agent_loop : AgentLoop) (session : string)
    (lines : list (Result string IoError)) : Async Sys (Result unit AnyhowError) :=
  match lines with
  | [] => async_ret (Ok tt)
  | Err e :: _ => async_ret (Err e)
  | Ok input :: rest =>
      let!? _ := turn agent_loop input session in
      dialogue agent_loop session rest
  end.

(** The turn of a question the agent loop answers. *)
Lemma turn_Ok agent_loop content session s response :
  answer agent_loop (turns s) (content, Some session) = Ok response ->
  turn agent_loop content session s
  = (Ok tt, {| host := host s; out := out s ++ ["nanobot-rs: " +:+ response];
               turns := turns s ++ [(content, Some session)] |}).
Proof. intros Ha. unfold turn, process_direct. sys_unfold. by rewrite Ha. Qed.

(** The turn of a question the agent loop fails on: nothing is printed. *)
Lemma turn_Err agent_loop content session s e :
  answer agent_loop (turns s) (content, Some session) = Err e ->
  turn agent_loop content session s
  = (Err e, {| host := host s; out := out s;
               turns := turns s ++ [(content, Some session)] |}).
Proof. intros Ha. unfold turn, process_direct. sys_unfold. by rewrite Ha. Qed.

(** No turn touches the files. *)
Lemma turn_host agent_loop content session s :
  host (snd (turn agent_loop content session s)) = host s.
Proof.
  destruct (answer agent_loop (turns s) (content, Some session)) as [r|e] eqn:Ha.
  - by rewrite (turn_Ok _ _ _ _ _ Ha).
  - by rewrite (turn_Err _ _ _ _ _ Ha).
Qed.

Lemma dialogue_host agent_loop session lines : forall s,
  host (snd (dialogue agent_loop session lines s)) = host s.
Proof.
  induction lines as [|[input|e] rest IH]; intros s; simpl; try done.
  unfold async_try, async_bind. pose proof (turn_host agent_loop input session s) as Ht.
  destruct (turn _ _ _ _) as [[[]|e] s1]; simpl in *; [|done]. by rewrite IH.
Qed.

(** With an agent loop that answers every question, the dialogue asks
    every line, in order. *)
Lemma dialogue_turns agent_loop session inputs : forall s,
  (forall asked question, is_ok (answer agent_loop asked question) = true) ->
  let r := dialogue agent_loop session (Ok <$> inputs) s in
  fst r = Ok tt /\
  turns (snd r) = turns s ++ ((fun input => (input, Some session)) <$> inputs).
Proof.
  intros s Hanswers. revert s.
  induction inputs as [|input rest IH]; intros s; simpl; [by rewrite app_nil_r|].
  destruct (proj1 (is_ok_iff _) (Hanswers (turns s) (input, Some session))) as [r Hr].
  unfold async_try, async_bind. rewrite (turn_Ok _ _ _ _ _ Hr).
  destruct (IH {| host := host s; out := out s ++ ["nanobot-rs: " +:+ r];
                  turns := turns s ++ [(input, Some session)] |}) as [H1 H2].
  split; [exact H1|]. etrans; [exact H2|]. simpl. by rewrite <-app_assoc.
Qed.

End Dialogue.

(** ** Theorems on the commands *)

Section MainTheorems.

Context {crate : Crate} {laws : CrateLaws} (permits : string -> bool).

Lemma Keeps_create_config_rest config_path :
  Keeps (let! _ := print_line ("Created config at " +:+ config_path) in
         let!? workspace :=
           on_host (get_workspace_path (Some (Config.workspace Config_default))) in
         let! _ := print_line ("Created workspace at " +:+ workspace) in
         let!? _ := scaffold permits workspace in
         let! _ := next_steps config_path in
         async_ret (Ok tt)).
Proof.
  auto 10 using Keeps_get_workspace_path, Keeps_scaffold, Keeps_next_steps with nb.
Qed.

(** A configuration that [create_config] reports to have saved is there. *)
Lemma create_config_Ok config_path s :
  fst (create_config permits config_path s) = Ok tt ->
  is_Some (fs (host (snd (create_config permits config_path s))) !! config_path).
Proof.
  unfold create_config. cbv zeta. intros Hok.
  destruct (async_try_inv _ _ _ _ Hok) as ([] & Hs & ->).
  apply Keeps_is_Some; [apply Keeps_create_config_rest|].
  revert Hs. unfold on_host.
  pose proof (save_config_Ok Config_default config_path (host s)) as Hc.
  destruct (save_config _ _ _) as [r h]; simpl in *. auto.
Qed.


(** Onboarding is done once: after a run of [cmd_onboard] that
    succeeded, a second run succeeds, prints one line and leaves the
    file system as it is. *)
Theorem cmd_onboard_twice s :
  fst (cmd_onboard permits s) = Ok tt ->
  let s1 := snd (cmd_onboard permits s) in
  exists line,
    cmd_onboard permits s1
    = (Ok tt, {| host := host s1; out := out s1 ++ [line]; turns := turns s1 |}).
Proof.
  intros Hok s1. destruct get_config_path as [config_path|e] eqn:Hp.
  - exists ("Config already exists at " +:+ config_path).
    apply cmd_onboard_config_exists; [done|]. subst s1. revert Hok.
    unfold cmd_onboard. rewrite Hp. unfold async_bind at 1 3. unfold on_host, exists_.
    destruct (fs (host s) !! config_path) as [entry|] eqn:He; simpl.
    + intros _. by rewrite He.
    + apply create_config_Ok.
  - revert Hok. unfold cmd_onboard. by rewrite Hp.
Qed.

(** The workspace [cmd_onboard] fills is one the memory store
    opens: after [scaffold] succeeded, [MemoryStore::new] on the
    workspace succeeds without touching the file system, the store is
    well formed, its long-term file is there and so is every template. *)
Theorem scaffold_opens_store workspace s :
  fst (scaffold permits workspace s) = Ok tt ->
  let h := host (snd (scaffold permits workspace s)) in
  MemoryStore.new permits workspace h = (Ok (store_of workspace), h) /\
  store_ok (store_of workspace) h /\
  is_Some (fs h !! MemoryStore.memory_file (store_of workspace)) /\
  Forall (fun file => is_Some (fs h !! path_join workspace file.1)) templates.
Proof.
  unfold scaffold. intros Hok. destruct (async_try_inv _ _ _ _ Hok) as ([] & Ht & Heq).
  rewrite Heq in Hok |- *. clear Heq. cbv zeta.
  destruct (write_memory_Ok permits workspace _ Hok) as [Hdir Hfile].
  split_and!; [|done|done|].
  - unfold MemoryStore.new, async_bind. by rewrite (ensure_dir_there _ _ _ Hdir).
  - eapply Forall_impl; [apply (write_templates_Ok _ _ _ _ Ht)|].
    intros file. apply Keeps_is_Some, Keeps_write_memory.
Qed.

(** C37. Without a key [cmd_agent] asks nothing: when the configuration
    gives no API key for its model and the model is not a Bedrock one,
    two lines are printed and the command ends with success; and when
    the agent loop cannot be built, its error is the command's and
    nothing is printed. *)
Theorem cmd_agent_requires_key message session stdin s :
  let config := fst (load_or_default None (host s)) in
  let model := Config.model config in
  let api_key := get_api_key config (Some model) in
  let keyless := negb (is_some api_key) && negb (starts_with model "bedrock/") in
  (keyless = true ->
   cmd_agent message session stdin s
   = (Ok tt, {| host := host s;
                out := out s ++ ["Error: No API key configured.";
                                 "Set one in ~/.nanobot/config.json under providers.*.apiKey"];
                turns := turns s |})) /\
  (forall e, keyless = false -> agent_loop_of config model api_key = Err e ->
   cmd_agent message session stdin s = (Err e, s)).
Proof.
  unfold cmd_agent, load_or_default. sys_unfold. split.
  - intros ->. by rewrite <-app_assoc.
  - by intros e -> ->.
Qed.

(** C29. The interactive loop is the dialogue over the lines that speak:
    blank lines, and only they, are skipped without a trace, every
    other line is a turn, and the first failure ends the loop. *)
Theorem interactive_dialogue agent_loop session stdin s :
  interactive agent_loop session stdin s
  = dialogue agent_loop session (List.filter speaks stdin) s.
Proof.
  revert s. induction stdin as [|[input|e] rest IH]; intros s; simpl; [done| |done].
  rewrite trim_blank. destruct (is_blank input); simpl; [apply IH|].
  unfold async_try, async_bind. destruct (turn _ _ _ _) as [[[]|e] s1]; [apply IH|done].
Qed.

End MainTheorems.

Section Status.

Context {crate : Crate}.

(** [cmd_status] only reads: it prints its nine lines and succeeds
    whatever the configuration file holds, and changes nothing else. *)
Lemma cmd_status_reads_only config_path s :
  get_config_path = Ok config_path ->
  let r := cmd_status s in
  fst r = Ok tt /\ host (snd r) = host s /\ turns (snd r) = turns s /\
  length (out (snd r)) = length (out s) + 9.
Proof.
  intros Hp. unfold cmd_status, load_or_default. rewrite Hp. sys_unfold.
  rewrite !length_app. cbn [length]. split_and!; try done. lia.
Qed.

End Status.

(** ** A small crate *)

Module Demo.

(** The default configuration names a model without a key. *)
Definition config : Config.t :=
  {| Config.workspace := "ws"; Config.model := "qwen-plus";
     Config.max_tool_iterations := 20%N; Config.web_search_api_key := "";
     Config.exec_timeout := 60%N; Config.restrict_to_workspace := false |}.

Definition keyed (model : string) : Config.t :=
  {| Config.workspace := "ws"; Config.model := model;
     Config.max_tool_iterations := 20%N; Config.web_search_api_key := "";
     Config.exec_timeout := 60%N; Config.restrict_to_workspace := false |}.

Definition config_path : string := "cfg/config.json".

(** A configuration file holds the name of its model; a file that
    holds no text does not load. *)
Definition load (path : option string) (h : Host) : Result Config.t AnyhowError :=
  match fs h !! default config_path path with
  | Some (Text model) =>
      if is_empty model then Err "invalid configuration" else Ok (keyed model)
  | _ => Err "cannot read the configuration"
  end.

Definition crate : Crate :=
  {| VERSION := "0.1.0";
     Config_default := config;
     get_config_path := Ok config_path;
     load_config := load;
     save_config := fun config path =>
       write anywhere "cfg" (default config_path path) (Config.model config);
     providers_status := fun config =>
       JObject [("openai", JBool (starts_with (Config.model config) "gpt"))];
     get_api_key := fun config _ =>
       if starts_with (Config.model config) "gpt" then Some "sk-demo" else None;
     get_api_base := fun _ _ => None;
     workspace_path := Config.workspace;
     get_workspace_path := fun workspace => ensure_dir anywhere (default "ws" workspace);
     MessageBus := N;
     MessageBus_new := fun capacity => capacity;
     AgentLoop := OpenAIProvider.t;
     AgentLoop_new := fun _ provider _ _ _ _ _ _ =>
       if starts_with (OpenAIProvider.default_model provider) "gpt-0"
       then Err "unknown model" else Ok provider;
     answer := fun _ _ question =>
       if String.eqb question.1 "crash" then Err "the agent failed"
       else Ok ("you said " +:+ question.1) |}.

Lemma laws : CrateLaws (crate := crate).
Proof.
  split; simpl.
  - intros. by apply write_keeps.
  - intros config path h Hok. eexists. by apply write_Ok_inv.
  - intros. apply ensure_dir_keeps.
  - intros workspace h path Hok. by destruct (ensure_dir_Ok _ _ _ _ Hok) as [-> ?].
Qed.

(** A machine with the directory of the configuration and nothing else. *)
Definition fresh : Sys :=
  {| host := {| fs := {[ "cfg" := Dir ]}; readings := 0 |}; out := []; turns := [] |}.

(** A machine on which a file stands where the workspace would go. *)
Definition blocked : Sys :=
  {| host := {| fs := {[ "cfg" := Dir; "ws" := Text "notes" ]}; readings := 0 |};
     out := []; turns := [] |}.

(** A machine whose configuration names a model with a key. *)
Definition configured (model : string) : Sys :=
  {| host := {| fs := {[ "cfg" := Dir; config_path := Text model ]}; readings := 0 |};
     out := []; turns := [] |}.

End Demo.

(** ** The commands on the small crate *)


Lemma cmd_onboard_twice_witness :
  let s1 := snd (cmd_onboard (crate := Demo.crate) anywhere Demo.fresh) in
  exists line,
    cmd_onboard (crate := Demo.crate) anywhere s1
    = (Ok tt, {| host := host s1; out := out s1 ++ [line]; turns := turns s1 |}).
Proof.
  apply (cmd_onboard_twice (laws := Demo.laws) anywhere Demo.fresh). by vm_compute.
Defined.

Lemma scaffold_opens_store_witness :
  let h := host (snd (scaffold anywhere "cfg" Demo.fresh)) in
  MemoryStore.new anywhere "cfg" h = (Ok (store_of "cfg"), h) /\
  store_ok (store_of "cfg") h /\
  is_Some (fs h !! MemoryStore.memory_file (store_of "cfg")) /\
  Forall (fun file => is_Some (fs h !! path_join "cfg" file.1)) templates.
Proof.
  apply (scaffold_opens_store anywhere "cfg" Demo.fresh).
  by vm_compute.
Defined.

Lemma cmd_agent_requires_key_witness :
  cmd_agent (crate := Demo.crate) (Some "hello") default_session [] Demo.fresh
  = (Ok tt, {| host := host Demo.fresh;
               out := ["Error: No API key configured.";
                       "Set one in ~/.nanobot/config.json under providers.*.apiKey"];
               turns := [] |}).
Proof.
  apply (proj1 (cmd_agent_requires_key (crate := Demo.crate) (Some "hello")
                  default_session [] Demo.fresh)).
  by vm_compute.
Defined.

(** The first run of [onboard] on a fresh machine. *)
Example cmd_onboard_fresh :
  let r := cmd_onboard (crate := Demo.crate) anywhere Demo.fresh in
  fst r = Ok tt /\
  out (snd r) = ["Created config at cfg/config.json"; "Created workspace at ws";
                 "Created ws/AGENTS.md"; "Created ws/SOUL.md"; "Created ws/USER.md";
                 "Created ws/memory/MEMORY.md"; "nanobot-rs is ready."; "Next steps:";
                 "1. Add your API key to cfg/config.json";
                 "2. Chat: nanobot-rs agent -m " +:+ String "034" "Hello!"
                 +:+ String "034" ""] /\
  fs (host (snd r)) !! "ws/memory" = Some Dir.
Proof. by vm_compute. Qed.

(** A run that fails after the configuration was saved is not taken
    up again: the next run finds the configuration, reports success
    and makes no workspace. *)
Example cmd_onboard_not_resumed :
  let first := cmd_onboard (crate := Demo.crate) anywhere Demo.blocked in
  let cleared := {| host := {| fs := delete "ws" (fs (host (snd first))); readings := 0 |};
                    out := []; turns := [] |} in
  let second := cmd_onboard (crate := Demo.crate) anywhere cleared in
  fst first = Err "not a directory: ws" /\
  fst second = Ok tt /\
  out (snd second) = ["Config already exists at cfg/config.json"] /\
  fs (host (snd second)) !! "ws" = None.
Proof. by vm_compute. Qed.

(** A configuration file that does not load is reported as OK, with
    the model of the default configuration. *)
Example cmd_status_of_unreadable_config :
  take 4 (out (snd (cmd_status (crate := Demo.crate) (Demo.configured ""))))
  = ["nanobot-rs Status"; "Config: cfg/config.json OK"; "Workspace: ws MISSING";
     "Model: qwen-plus"].
Proof. by vm_compute. Qed.

(** Four lines of input, two of them blank. *)
Example cmd_agent_interactive :
  let r := cmd_agent (crate := Demo.crate) None default_session
             [Ok "hi"; Ok "  "; Ok ""; Ok "bye"] (Demo.configured "gpt-4o") in
  fst r = Ok tt /\
  turns (snd r) = [("hi", Some default_session); ("bye", Some default_session)] /\
  out (snd r) = ["nanobot-rs interactive mode (Ctrl+C to exit)";
                 "nanobot-rs: you said hi"; "nanobot-rs: you said bye"].
Proof. by vm_compute. Qed.

(** A failing turn ends the interactive mode: the lines after it are
    not read. *)
Example cmd_agent_interactive_failure :
  let r := cmd_agent (crate := Demo.crate) None default_session
             [Ok "hi"; Ok "crash"; Ok "bye"] (Demo.configured "gpt-4o") in
  fst r = Err "the agent failed" /\
  turns (snd r) = [("hi", Some default_session); ("crash", Some default_session)].
Proof. by vm_compute. Qed.

(** A Bedrock model without a key is run with the key [dummy]. *)
Example cmd_agent_bedrock_dummy_key :
  let config := Demo.keyed "bedrock/claude" in
  OpenAIProvider.api_key <$> result_ok
    (agent_loop_of (crate := Demo.crate) config "bedrock/claude"
       (get_api_key (Crate := Demo.crate) config (Some "bedrock/claude")))
  = Some "dummy".
Proof. by vm_compute. Qed.

Example main_version :
  out (snd (main (crate := Demo.crate) anywhere {| command := Version |} [] Demo.fresh))
  = ["nanobot-rs v0.1.0"].
Proof. by vm_compute. Qed.

(** The service wrapper is not a module of the library crate. *)
Example service_module_not_declared : bool_decide ("service" ∈ modules) = false.
Proof. by vm_compute. Qed.
