(* ===== verification/Tests.v ===== *)
(** * Tests: the unit tests of the repository

    The test functions of [src/src/providers/litellm.rs],
    [src/src/agent/turn_guard.rs] and [src/src/service/windows.rs],
    each as a boolean that is [true] when every assertion of the test
    holds, and the theorem that the test passes on the model.  The
    tests that build a provider run in an environment, which the test
    takes as an argument; the tests of the scanner read the texts of
    the source with any parser, and pass with the reader of
    [JsonText]. *)

From S2P Require Import Prelude RustStr Catalog Resolver Env Json JsonText TurnGuard Service.
Import Str.

(** ** Arithmetic on [f32] *)

Definition f32_sub (x y : f32) : f32 := SFsub 24 128 x y.

Definition f32_abs (x : f32) : f32 := SFabs x.

Definition f32_lt (x y : f32) : bool := SFltb x y.

(** [f32::EPSILON], two to the power -23 *)
Definition f32_EPSILON : f32 := S754_finite false 8388608 (-46).

(** ** The tests of [litellm.rs] *)

Module LitellmTests.

Definition gateway_detects_by_provider_name_and_key_prefix : bool :=
  match find_gateway PROVIDERS (Some "vllm") None None with
  | Some by_name => String.eqb (Catalog.name by_name) "vllm"
  | None => false
  end
  && match find_gateway PROVIDERS None (Some "sk-or-test") None with
     | Some by_key => String.eqb (Catalog.name by_key) "openrouter"
     | None => false
     end.

Definition resolve_model_applies_gateway_and_provider_rules (env : Env) : bool :=
  match Env.new PROVIDERS "" (Some "https://aihubmix.com/v1") "anthropic/claude-3-7-sonnet"
          None (Some "aihubmix") env with
  | None => false
  | Some (aihubmix, env) =>
      String.eqb (resolve_model PROVIDERS aihubmix "anthropic/claude-3-7-sonnet")
        "openai/claude-3-7-sonnet"
      && match Env.new PROVIDERS "" None "qwen-plus" None None env with
         | None => false
         | Some (standard, _) =>
             String.eqb (resolve_model PROVIDERS standard "qwen-plus") "dashscope/qwen-plus"
             && String.eqb (resolve_model PROVIDERS standard "dashscope/qwen-plus")
                  "dashscope/qwen-plus"
         end
  end.

Definition model_override_applies_kimi_temperature_floor (env : Env) : bool :=
  match Env.new PROVIDERS "" None "kimi-k2.5" None None env with
  | None => false
  | Some (provider, _) =>
      let temp := f32_0_2 in
      let temp := apply_model_overrides PROVIDERS provider "moonshot/kimi-k2.5" temp in
      f32_lt (f32_abs (f32_sub temp f32_one)) f32_EPSILON
  end.

End LitellmTests.

(** ** The tests of [turn_guard.rs] *)

Module TurnGuardTests.

Section Tests.

Context {serde : SerdeJson}.

(** [value["claims_no_tools"] == expected] *)
Definition claims (value : Value) (expected : bool) : bool :=
  match get value "claims_no_tools" ≫= as_bool with
  | Some claimed => Bool.eqb claimed expected
  | None => false
  end.

(** A text between quotation marks, as the raw literals of the tests
    spell it. *)
Definition in_quotes (s : string) : string :=
  String QUOTE (s +:+ String QUOTE "").

Definition extract_json_object_parses_plain_json : bool :=
  let raw := "{" +:+ in_quotes "claims_no_tools" +:+ ":true}" in
  match extract_json_object raw with
  | Some value => claims value true
  | None => false
  end.

Definition extract_json_object_parses_embedded_json : bool :=
  let raw := "```json" +:+ LF +:+ "{" +:+ in_quotes "claims_no_tools" +:+ ":false}"
             +:+ LF +:+ "```" in
  match extract_json_object raw with
  | Some value => claims value false
  | None => false
  end.

End Tests.

End TurnGuardTests.

(** ** The tests of [windows.rs] *)

Module WindowsTests.

Definition parse_state_extracts_running : bool :=
  let sample := "SERVICE_NAME: nanobot-rs" +:+ LF
                +:+ "        STATE              : 4  RUNNING" in
  bool_decide (parse_state sample = Some "RUNNING").

Definition parse_state_handles_missing_line : bool :=
  let sample := "SERVICE_NAME: nanobot-rs" in
  bool_decide (parse_state sample = None).

End WindowsTests.

(** ** The tests pass *)

Theorem gateway_detects_by_provider_name_and_key_prefix_passes :
  LitellmTests.gateway_detects_by_provider_name_and_key_prefix = true.
Proof. by vm_compute. Qed.

(** With an empty key the constructor leaves the environment alone,
    so the answer of the test does not depend on it. *)
Theorem resolve_model_applies_gateway_and_provider_rules_passes env :
  LitellmTests.resolve_model_applies_gateway_and_provider_rules env = true.
Proof. by vm_compute. Qed.

Theorem model_override_applies_kimi_temperature_floor_passes env :
  LitellmTests.model_override_applies_kimi_temperature_floor env = true.
Proof. by vm_compute. Qed.

Theorem extract_json_object_parses_plain_json_passes :
  TurnGuardTests.extract_json_object_parses_plain_json (serde := Sample.serde) = true.
Proof. by vm_compute. Qed.

Theorem extract_json_object_parses_embedded_json_passes :
  TurnGuardTests.extract_json_object_parses_embedded_json (serde := Sample.serde) = true.
Proof. by vm_compute. Qed.

Theorem parse_state_extracts_running_passes :
  WindowsTests.parse_state_extracts_running = true.
Proof. by vm_compute. Qed.

Theorem parse_state_handles_missing_line_passes :
  WindowsTests.parse_state_handles_missing_line = true.
Proof. by vm_compute. Qed.
